(* ===== verification/_CoqProject ===== *)
-Q . S2P
Prelude.v
GoText.v
Go.v
WinConst.v
Machine.v
GoSyscall.v
Script.v
GoOs.v
Catalog.v
Winapi.v
WinDecl.v
SvcEvent.v
SvcService.v
SvcAsm.v
Cpu.v
ServiceMain.v
SvcSystem.v
SvcProtocol.v
SvcHandshake.v
ExampleService.v
ExampleBeep.v
ExampleRuns.v
ExampleEnd.v
Settling.v
Answers.v
Fairness.v
MgrText.v
Mgr.v
MgrScm.v
MgrCreate.v
Resources.v
SvcEntry.v
Registry.v
EventLog.v
Security.v
Handles.v
Rules.v
CatalogRules.v
Debug.v
ExampleInstall.v
ExampleManage.v
ExampleMain.v
CatalogInstall.v
EndToEnd.v
Responsive.v
