(* ===== verification/Prelude.v ===== *)
(** * A verification library for the Go packages of winsvc

    winsvc lets a Go program be a Windows service and manage services. This
    library models its packages over an abstract Windows and proves what they
    promise. It is a shallow embedding: a Go function is a Rocq function of the
    same name (a method that would clash carries its type as a prefix, such as
    [Service_Config]), goroutines are a step relation with an executor.

    ** The program and its model

    - [svc] (src/svc): [Run] gives control to Windows, which runs the assembly
      [servicemain] on one thread and calls the control handler on another; the
      goroutine [run] reads controls, statuses and the exit code from four
      channels and reports to Windows; another goroutine runs the user's
      [Execute]. Files: SvcEvent (event.go), SvcService (service.go: the service
      object, [updateStatus], [newCallback], the arguments, the set-up of [Run]),
      SvcAsm (sys_amd64.s, sys_386.s as five steps), Cpu and ServiceMain (the same
      files instruction by instruction, and that they do these steps), SvcSystem (the goroutines, the channels and
      both Windows threads as one labelled step relation [step], with the user's
      [Handler] as a class), SvcProtocol (the abstract protocol, the refinement and
      its consequences), SvcHandshake (the hand-over of the status handle and the
      arguments), SvcEntry (go13.go, go12.c: the address of [servicemain]; [Run] as its
      own thread sees it), Security (security.go).
    - [mgr] (src/mgr): the client of the service control manager. MgrText (the text
      conversions), Mgr (mgr.go, service.go, config.go), MgrScm (the documented
      manager as the class [Scm], and the round trip against it), MgrCreate (what it
      documents of new services, [ScmCreates], and that they read back).
    - [registry] and [eventlog] (src/registry, src/eventlog): Registry, EventLog.
    - [debug] (src/debug): Debug, the log on the console and the console [Run].
    - [winapi] (src/winapi): WinConst (constants), Machine (structures and the
      interface to Windows), Winapi (the generated wrappers), WinDecl (the //sys lines
      they are generated from).
    - [example] (src/example): ExampleService (the handler [myservice] as an instance
      of [Handler]), ExampleRuns (the service as a whole, and concrete runs), ExampleEnd
      (when the service is reported stopped), Settling (how far the service runs before
      it is at rest, under every schedule), Answers (what it answers to controls), Fairness (what happens
      to it in the end, in infinite runs), ExampleBeep (beep.go, and what a tick does),
      ExampleInstall (install.go), ExampleManage (manage.go), ExampleMain (main.go and
      [runService]: the program), CatalogInstall (what installing and removing do to
      the machine), EndToEnd (the program as a client of the running service), Responsive (that its
      command [stop] succeeds).

    ** Foundations

    Prelude: machine integers, tactics, hint databases, lists, labelled transition
    systems ([exec], invariants, schedules) and forward simulation. GoText: strings,
    runes, UTF-8 and UTF-16. Go: the monad [go] of straight-line Go code (errors,
    panics, [defer], [recover]) and its weakest precondition [wp]. GoSyscall: what the
    sources use of package syscall. GoOs: what the example uses of packages os,
    path/filepath, time and strings, as the class [Os] of the process's environment,
    and [Clock] for theorems about time. Resources: acquired and released handles
    along a trace, and the kinds of calls a function makes. Handles: for every
    function, the handles it opens and gives back. Rules: the operations that are one
    call. Script: a Windows that answers from a script, for concrete runs.

    Catalog: the documented part of Windows that keeps services and registry keys, as
    a view of the world ([Catalogued]): which calls change it, and how, when they
    succeed; any call may be refused. It assumes that nobody else changes the
    services and keys in the meantime. CatalogRules: the Hoare logic of programs over
    it, which counts the calls refused. The catalog is an interface: the theorems of
    CatalogInstall are proved against it, and a concrete catalog implements it.

    Windows is the class [Windows]: a function from an entry point with its
    arguments and a state of the world to an answer and a new world. Nothing else is
    assumed of it; a theorem that relies on documented behaviour takes it as a class
    ([Scm], [Events]) or a hypothesis, and a concrete instance shows that it can hold.
    The process state [st] is the world, the list of the calls made with their
    answers, and the package variables of svc; most theorems about a function are
    about the calls it adds to that list.

    ** What the theorems show

    - The goroutines of [Run] implement the protocol (SvcProtocol): for every handler,
      every Windows and every schedule, requests are handed over one at a time, none
      lost, doubled or reordered, each with the status last reported; what Windows is
      told is what the handler sent, each status once and in order, but for the one that
      [run] has received and not yet passed on, then the end, once, with the code
      [Execute] returned or that of the error that ended the loop; the loop never blocks its
      partners, and a returned [Execute] leads to the end in four steps. After the
      end nobody serves the channels any more. Once it is past its wait, [run] has the
      handle Windows returned and what [servicemain] has saved of the arguments: the low
      32 bits of their number and address, if the wait ends only when its event is
      signalled (SvcHandshake).
    - The pieces of start-up and reporting, on every branch (SvcService, SvcAsm).
    - The assembly code of both architectures does what [servicemain_step] says, whatever
      the other threads do in between, is never stuck, and returns as the calling
      convention asks; but on amd64 it calls Windows with a misaligned stack
      (ServiceMain).
    - The client (MgrText, Mgr, MgrScm): texts and lists survive the trip to Windows
      within exact limits; within them [UpdateConfig] then [Config] is a round trip, and so is
      [CreateService] then [Config], and the arguments of [Start] are what the service's
      [run] reads; the type assertions of [Config] cannot fail.
    - The generated wrappers are what the //sys lines declare (WinDecl).
    - Security, Registry and EventLog: the interactive session is decided by the SIDs
      S-1-5-4 and S-1-5-6 and the groups of the process's token; an installed event source
      has its three values in its own key, and every way an installation can fail is
      described.
    - Clean-up: keys, SIDs and tokens are released on every path (EventLog, Security),
      and a whole run of the example program gives back every handle, last one first
      (ExampleMain).
    - The program (ExampleMain, ExampleInstall, ExampleManage, CatalogInstall): its
      commands end, and their exit status is right; a removal undoes an installation;
      what an installation leaves when it fails, and that a service that is gone while its
      event source is there can be neither installed nor removed again (as long as Windows
      refuses no deletion of a service); what goes into the log.
    - Liveness (Settling, Answers, Fairness): whatever the schedule, the goroutines of the
      example service take at most 103 steps that change something, and 7 for each
      control, and from every state there is a way to rest, where it is over or has
      nothing to do; a service that has been asked to stop is at rest only when it is
      over; a service at rest has answered every control as it should. In an infinite run
      in which the service is not left alone for ever (the one assumption about the
      scheduler) and Windows passes on finitely many controls, it is at rest from some
      moment on: over, idle, or ended by a panic of [run] on its arguments or by a second
      pre-shutdown; and it is over when it has been asked to stop and there is no such
      panic.
    - The two sides together (EndToEnd, Responsive): the command [stop] ends with status 0 only when
      the service on the other side is over. The tool is proved against an interface
      ([Observed]: a status that says [Stopped] is true), the service and what the
      service control manager documents implement it ([Hosts]), and on a concrete
      machine the two programs run against each other. On a machine where the service
      gets to take its steps within nine seconds ([Responsive]) the command succeeds.
    - The example (ExampleService, ExampleRuns): it answers requests as it should,
      makes the progress a pre-shutdown needs, and stops; a second pre-shutdown can
      crash it. The console run can deadlock (Debug).

    ** Bounds and fuel

    Loops over memory recurse on the memory, and loops over
    goroutines are executions of a step relation. The one loop without a
    bound of its own is that of [controlService], which waits for a state: it takes the
    number of rounds as fuel. 35 are enough with a clock that advances as documented,
    because each round sleeps 300 milliseconds and ten seconds are allowed
    ([controlService_terminates]); with a clock that stands still no number is
    ([stopped_clock]). Reading outside an allocation is the
    panic [memory_fault]. The array bounds of the sources (100 arguments, 4096 and
    [1 << 20] units, [1 << 24] units, [2 << 20] groups) are in the definitions, and
    what happens at them is proved.

    ** Not modelled

    The tests; the beeps of the running service in the records of its calls (what a beep
    does is ExampleBeep); how package syscall finds the addresses that [init] stores
    ([Cpu.init] says which procedure each variable is for); what [svc.Run]'s own thread
    shares with the others while it is in the dispatcher (the goroutines are
    [SvcSystem], the thread's own calls [SvcEntry.Run]); [debug.Run] as a function: it is
    the step relation [Debug.dstep], and a parameter of [main]; how the Go scheduler
    works (Fairness assumes only that it does not stop all of the service for ever);
    when timers fire (a sleep may end, and a tick come, at any time, but for the sleeps
    of the command line tool); memory reclaimed while Windows still points to it. *)
From stdpp Require Import base option list.
From Stdlib Require Import ZArith Lia.

(** ** Notations of the development *)
Declare Scope winsvc_scope.
Delimit Scope winsvc_scope with winsvc.

(** Go's bitwise [|] and [&]. *)
Infix "|||" := Z.lor (at level 50, left associativity) : winsvc_scope.
Infix "&&&" := Z.land (at level 40, left associativity) : winsvc_scope.

(** ** Machine integers

    A [w]-bit unsigned integer of the source is a [Z]; [wrap w] is the
    conversion [uintW(x)] and the overflow of [+] at that width. *)
Definition wrap (w z : Z) : Z := (z mod 2 ^ w)%Z.
Definition in_range (w z : Z) : Prop := (0 <= z < 2 ^ w)%Z.
Abbreviation u16 := (in_range 16).
Abbreviation u32 := (in_range 32).

Section Integers.
Local Open Scope Z_scope.

Lemma wrap_small w z : in_range w z → wrap w z = z.
Proof. unfold in_range, wrap. apply Z.mod_small. Qed.

Lemma wrap_in_range w z : 0 <= w → in_range w (wrap w z).
Proof. intros Hw. unfold in_range, wrap. apply Z.mod_pos_bound. lia. Qed.

(** The signed reading of a [w]-bit word: the conversion to a Go [int] of that
    width. *)
Definition signed (w z : Z) : Z :=
  let x := wrap w z in if x <? 2 ^ (w - 1) then x else x - 2 ^ w.

Lemma signed_small w z : 0 <= z < 2 ^ (w - 1) → 0 < w → signed w z = z.
Proof.
  intros Hz Hw. unfold signed.
  assert (2 ^ (w - 1) < 2 ^ w) by (apply Z.pow_lt_mono_r; lia).
  rewrite wrap_small by (unfold in_range; lia).
  destruct (Z.ltb_spec z (2 ^ (w - 1))); lia.
Qed.

End Integers.

(** ** Tactics

    Case analysis on the scrutinee of every [match] or [if] of the goal. *)
Ltac cases :=
  repeat (case_match; simplify_eq/=; try done).

(** The same in the hypotheses. *)
Ltac cases_hyp :=
  repeat (match goal with
          | H : context [match ?x with _ => _ end] |- _ =>
              let E := fresh "E" in destruct x eqn:E; simplify_eq/=; try done
          end).

(** Decides the tests the hypotheses settle. *)
Ltac zeqb :=
  repeat match goal with
  | E : ?x ≠ ?y |- context [(?x =? ?y)%Z] => rewrite (proj2 (Z.eqb_neq x y) E)
  | E : ?x = ?y |- context [(?x =? ?y)%Z] => rewrite (proj2 (Z.eqb_eq x y) E)
  end.

(** ** Hint databases

    [winsvc] resolves the side conditions the components share; [text] rewrites
    with the equations of text values. *)
Create HintDb winsvc discriminated.
Create Rewrite HintDb text.
#[export] Hint Resolve wrap_in_range : winsvc.

(** ** Lists *)
Section Lists.
Context {A : Type}.
Implicit Types l k : list A.

(** [prefix_until p l] is the part of [l] before its first element satisfying [p]. *)
Fixpoint prefix_until (p : A → bool) l : list A :=
  match l with
  | [] => []
  | x :: l => if p x then [] else x :: prefix_until p l
  end.

Lemma prefix_until_app p l x k :
  Forall (λ y, p y = false) l → p x = true → prefix_until p (l ++ x :: k) = l.
Proof.
  intros Hl Hx. induction Hl as [|y l Hy Hl IH]; simpl.
  - by rewrite Hx.
  - by rewrite Hy, IH.
Qed.

Lemma prefix_until_all p l : Forall (λ y, p y = false) l → prefix_until p l = l.
Proof. induction 1 as [|y l Hy Hl IH]; simpl; [done|]. by rewrite Hy, IH. Qed.

Lemma take_drop_slice l (i j : nat) :
  (i ≤ j)%nat → take j l = take i l ++ take (j - i) (drop i l).
Proof.
  intros Hij. rewrite <- (take_drop i l) at 1. rewrite take_app.
  rewrite take_take, length_take, Nat.min_r by lia.
  destruct (decide (i ≤ length l)%nat).
  - by rewrite Nat.min_l by lia.
  - rewrite (drop_ge l i) by lia. by rewrite !take_nil.
Qed.

(** Replacing one element of a list replaces its term of a sum. *)
Lemma sum_list_with_insert (f : A → nat) l i x y :
  l !! i = Some x → (sum_list_with f (<[i:=y]> l) + f x = sum_list_with f l + f y)%nat.
Proof.
  revert i. induction l as [|z l IH]; intros [|i] Hi; simplify_eq/=; [lia|].
  specialize (IH i Hi). lia.
Qed.

End Lists.

(** A computation known to succeed, for results too large to be compared. *)
Definition succeeds {A} (o : option A) : bool := match o with Some _ => true | None => false end.

Lemma succeeds_default {A} (o : option A) d : succeeds o = true → o = Some (default d o).
Proof. by destruct o. Qed.

(** ** Labelled transition systems

    [exec step s ls s'] is a finite execution of the step relation [step] along
    the labels [ls]. *)
Section Lts.
Context {S L : Type} (step : S → L → S → Prop).

Inductive exec : S → list L → S → Prop :=
| exec_nil s : exec s [] s
| exec_snoc s ls s' l s'' : exec s ls s' → step s' l s'' → exec s (ls ++ [l]) s''.

Lemma exec_one s l s' : step s l s' → exec s [l] s'.
Proof. intros H. change [l] with ([] ++ [l]). eauto using exec. Qed.

Lemma exec_app s ls s' ls' s'' : exec s ls s' → exec s' ls' s'' → exec s (ls ++ ls') s''.
Proof.
  intros H H'. induction H' as [|s1 ls1 s2 l s3 H1 IH H2].
  - by rewrite app_nil_r.
  - rewrite app_assoc. eauto using exec.
Qed.

Lemma exec_cons s l s' ls s'' : step s l s' → exec s' ls s'' → exec s (l :: ls) s''.
Proof. intros H H'. exact (exec_app s [l] s' ls s'' (exec_one _ _ _ H) H'). Qed.

(** The induction principle behind every safety theorem: a predicate of the
    labels seen so far and the state reached that holds at the start and is kept
    by each step holds of every execution. *)
Lemma exec_invariant (P : list L → S → Prop) s0 ls s :
  P [] s0 →
  (∀ ls s l s', P ls s → step s l s' → P (ls ++ [l]) s') →
  exec s0 ls s → P ls s.
Proof. intros H0 Hstep H. induction H; eauto. Qed.

(** A state is reachable when some execution leads to it. *)
Definition reachable (s0 s : S) : Prop := ∃ ls, exec s0 ls s.

Lemma reachable_invariant (P : S → Prop) s0 s :
  P s0 → (∀ s l s', P s → step s l s' → P s') → reachable s0 s → P s.
Proof.
  intros H0 Hstep [ls H]. induction H; eauto.
Qed.

Lemma reachable_refl s : reachable s s.
Proof. exists []. constructor. Qed.

Lemma reachable_step s0 s l s' : reachable s0 s → step s l s' → reachable s0 s'.
Proof. intros [ls H] Hs. exists (ls ++ [l]). eauto using exec. Qed.

(** A deterministic executor [next] for [step] runs a whole schedule. *)
Fixpoint run_schedule (next : S → L → option S) (s : S) (ls : list L) : option S :=
  match ls with
  | [] => Some s
  | l :: ls => match next s l with
               | Some s' => run_schedule next s' ls
               | None => None
               end
  end.

Lemma run_schedule_exec (next : S → L → option S) s ls s' :
  (∀ s l s', next s l = Some s' → step s l s') →
  run_schedule next s ls = Some s' → exec s ls s'.
Proof.
  intros Hnext. revert s. induction ls as [|l ls IH]; simpl; intros s H.
  - simplify_eq. constructor.
  - destruct (next s l) as [s1|] eqn:E; [|done]. eauto using exec_cons.
Qed.

End Lts.

#[export] Hint Constructors exec : winsvc.
#[export] Hint Resolve exec_one exec_app reachable_refl reachable_step : winsvc.

(** ** Forward simulation

    A concrete system refines an abstract one when every concrete step is
    matched by an abstract step with the same observation, or is invisible. *)
Section Simulation.
Context {S L T O : Type} (step : S → L → S → Prop) (spec : T → O → T → Prop).
Context (obs : L → option O) (R : S → T → Prop).

Definition observations (ls : list L) : list O := omap obs ls.

Lemma observations_snoc ls l :
  observations (ls ++ [l]) = observations ls ++ match obs l with Some o => [o] | None => [] end.
Proof.
  unfold observations. rewrite omap_app. simpl. by destruct (obs l).
Qed.

Lemma observations_app ls ls' : observations (ls ++ ls') = observations ls ++ observations ls'.
Proof. apply omap_app. Qed.

Definition simulates : Prop :=
  ∀ s l s' t, R s t → step s l s' →
    ∃ t', R s' t' ∧
      match obs l with Some o => spec t o t' | None => t' = t end.

Lemma simulation_exec s ls s' t :
  simulates → R s t → exec step s ls s' →
  ∃ t', R s' t' ∧ exec spec t (observations ls) t'.
Proof.
  intros Hsim HR Hex. induction Hex as [s|s ls s1 l s2 Hex IH Hst].
  - exists t. split; [done|]. constructor.
  - destruct (IH HR) as (t1 & HR1 & Ht1).
    destruct (Hsim _ _ _ _ HR1 Hst) as (t2 & HR2 & Hobs).
    exists t2. split; [done|]. rewrite observations_snoc.
    destruct (obs l); subst; [|rewrite app_nil_r]; eauto using exec.
Qed.

End Simulation.
