(* ===== verification/GoText.v ===== *)
(** * Text of the Go language: strings, runes, UTF-8 and UTF-16

    A Go [string] is a sequence of bytes, here Rocq's [string]; a [rune] is a
    code point in [Z]; a [*uint16] is [None] for nil and otherwise the 16-bit
    units stored from that address to the end of the allocation. The functions
    are the parts of the Go language and of its packages [unicode/utf16] and
    [syscall] that the source calls: the conversions [[]rune(s)] and
    [string(rs)], [utf16.Encode], [utf16.Decode], [syscall.StringToUTF16] and
    [syscall.UTF16ToString]. *)
From Stdlib Require Import Ascii.
From stdpp Require Import base option list strings sets gmap.
From Stdlib Require Import ZArith Lia.
From S2P Require Import Prelude.

Local Open Scope Z_scope.

(** ** Bytes *)
Definition byte_of (a : ascii) : Z := Z.of_N (N_of_ascii a).
Definition of_byte (z : Z) : ascii := ascii_of_N (Z.to_N z).
Definition bytes (s : string) : list Z := byte_of <$> String.list_ascii_of_string s.
Definition of_bytes (l : list Z) : string := String.string_of_list_ascii (of_byte <$> l).
Definition is_byte (z : Z) : Prop := 0 <= z < 256.

Lemma byte_of_range a : is_byte (byte_of a).
Proof. unfold is_byte, byte_of. pose proof (N_ascii_bounded a). lia. Qed.

Lemma of_byte_of a : of_byte (byte_of a) = a.
Proof. unfold of_byte, byte_of. by rewrite N2Z.id, ascii_N_embedding. Qed.

Lemma byte_of_of z : is_byte z → byte_of (of_byte z) = z.
Proof.
  unfold is_byte, byte_of, of_byte. intros Hz. rewrite N_ascii_embedding by lia. lia.
Qed.

Lemma of_bytes_bytes s : of_bytes (bytes s) = s.
Proof.
  unfold of_bytes, bytes.
  induction s as [|a s IH]; [done|].
  cbn. rewrite of_byte_of. by f_equal.
Qed.

Lemma bytes_of_bytes l : Forall is_byte l → bytes (of_bytes l) = l.
Proof.
  intros Hl. unfold of_bytes, bytes.
  induction Hl as [|z l Hz Hl IH]; [done|].
  cbn. rewrite byte_of_of by done. by f_equal.
Qed.

Lemma bytes_is_byte s : Forall is_byte (bytes s).
Proof. unfold bytes. apply Forall_fmap, Forall_true. apply byte_of_range. Qed.

Lemma bytes_app s t : bytes (s +:+ t) = bytes s ++ bytes t.
Proof. unfold bytes. induction s as [|a s IH]; [done|]. simpl. by f_equal. Qed.

Lemma bytes_nil_inv s : bytes s = [] → s = "".
Proof. by destruct s. Qed.

(** ** Runes and UTF-8 *)
Definition RuneError : Z := 0xFFFD.

(** A Unicode scalar value: a code point that is not a surrogate. *)
Definition scalar (r : Z) : bool :=
  ((0 <=? r) && (r <? 0xD800)) || ((0xE000 <=? r) && (r <=? 0x10FFFF)).

Definition cont (b : Z) : bool := (0x80 <=? b) && (b <=? 0xBF).

(** The accepted first and second bytes of two-, three- and four-byte sequences. *)
Definition ok2 (b0 b1 : Z) : bool := (0xC2 <=? b0) && (b0 <=? 0xDF) && cont b1.
Definition ok3 (b0 b1 b2 : Z) : bool :=
  (0xE0 <=? b0) && (b0 <=? 0xEF) && cont b1 && cont b2
  && (if b0 =? 0xE0 then 0xA0 <=? b1 else true)
  && (if b0 =? 0xED then b1 <=? 0x9F else true).
Definition ok4 (b0 b1 b2 b3 : Z) : bool :=
  (0xF0 <=? b0) && (b0 <=? 0xF4) && cont b1 && cont b2 && cont b3
  && (if b0 =? 0xF0 then 0x90 <=? b1 else true)
  && (if b0 =? 0xF4 then b1 <=? 0x8F else true).

Definition rune2 (b0 b1 : Z) : Z := (b0 - 0xC0) * 64 + (b1 - 0x80).
Definition rune3 (b0 b1 b2 : Z) : Z := ((b0 - 0xE0) * 64 + (b1 - 0x80)) * 64 + (b2 - 0x80).
Definition rune4 (b0 b1 b2 b3 : Z) : Z :=
  (((b0 - 0xF0) * 64 + (b1 - 0x80)) * 64 + (b2 - 0x80)) * 64 + (b3 - 0x80).

(** [[]rune(s)]: a byte that starts no valid sequence becomes one [RuneError]. *)
Fixpoint to_runes (l : list Z) : list Z :=
  match l with
  | [] => []
  | b0 :: l1 =>
    if b0 <? 0x80 then b0 :: to_runes l1 else
    match l1 with
    | [] => RuneError :: to_runes l1
    | b1 :: l2 =>
      if ok2 b0 b1 then rune2 b0 b1 :: to_runes l2 else
      match l2 with
      | [] => RuneError :: to_runes l1
      | b2 :: l3 =>
        if ok3 b0 b1 b2 then rune3 b0 b1 b2 :: to_runes l3 else
        match l3 with
        | [] => RuneError :: to_runes l1
        | b3 :: l4 =>
          if ok4 b0 b1 b2 b3 then rune4 b0 b1 b2 b3 :: to_runes l4
          else RuneError :: to_runes l1
        end
      end
    end
  end.

(** The UTF-8 encoding of a rune in [string(rs)]; a rune that is not a scalar
    value is written as [RuneError]. *)
Definition encode_rune (r : Z) : list Z :=
  let r := if scalar r then r else RuneError in
  if r <? 0x80 then [r]
  else if r <? 0x800 then [0xC0 + r / 64; 0x80 + r mod 64]
  else if r <? 0x10000 then [0xE0 + r / 4096; 0x80 + (r / 64) mod 64; 0x80 + r mod 64]
  else [0xF0 + r / 262144; 0x80 + (r / 4096) mod 64; 0x80 + (r / 64) mod 64; 0x80 + r mod 64].

Fixpoint of_runes (rs : list Z) : list Z :=
  match rs with [] => [] | r :: rs => encode_rune r ++ of_runes rs end.

(** The conversions at the level of Go strings. *)
Definition string_to_runes (s : string) : list Z := to_runes (bytes s).
Definition runes_to_string (rs : list Z) : string := of_bytes (of_runes rs).

(** ** UTF-16 *)
Definition surr1 : Z := 0xD800.
Definition surr2 : Z := 0xDC00.
Definition surr3 : Z := 0xE000.
Definition surrSelf : Z := 0x10000.

(** [utf16.Encode] *)
Definition utf16_encode_rune (r : Z) : list Z :=
  if negb (scalar r) then [RuneError]
  else if r <? surrSelf then [r]
  else [surr1 + (r - surrSelf) / 1024; surr2 + (r - surrSelf) mod 1024].
Fixpoint utf16_encode (rs : list Z) : list Z :=
  match rs with [] => [] | r :: rs => utf16_encode_rune r ++ utf16_encode rs end.

(** [utf16.Decode] *)
Fixpoint utf16_decode (us : list Z) : list Z :=
  match us with
  | [] => []
  | u :: us1 =>
    if (u <? surr1) || (surr3 <=? u) then u :: utf16_decode us1
    else match us1 with
         | v :: us2 =>
           if (u <? surr2) && (surr2 <=? v) && (v <? surr3)
           then ((u - surr1) * 1024 + (v - surr2) + surrSelf) :: utf16_decode us2
           else RuneError :: utf16_decode us1
         | [] => RuneError :: utf16_decode us1
         end
  end.

(** A string in which every invalid UTF-8 byte has been replaced by U+FFFD. *)
Definition sanitize (s : string) : string := runes_to_string (string_to_runes s).
Definition valid_utf8 (s : string) : Prop := sanitize s = s.

Definition has_nul (s : string) : bool := bool_decide (0 ∈ bytes s).

Lemma has_nul_app s t : has_nul (s +:+ t) = has_nul s || has_nul t.
Proof. unfold has_nul. rewrite bytes_app, <- bool_decide_or. apply bool_decide_ext, elem_of_app. Qed.

(** [string(utf16.Decode(us))] *)
Definition units_to_string (us : list Z) : string := runes_to_string (utf16_decode us).

(** ** Facts about UTF-8 *)
Ltac text_lia := unfold ok2, ok3, ok4, rune2, rune3, rune4, cont, scalar, RuneError,
                   surr1, surr2, surr3, surrSelf, is_byte in *;
  repeat (match goal with
          | |- context [if ?b then _ else _] => destruct b eqn:?
          | H : context [if ?b then _ else _] |- _ => destruct b eqn:?
          end); try discriminate; lia.

(** Induction along the sequences [to_runes] reads. *)
Lemma to_runes_ind (P : list Z → Prop) :
  P [] →
  (∀ b l, (∀ k, (length k ≤ length l)%nat → P k) → P (b :: l)) → ∀ l, P l.
Proof.
  intros Hnil Hcons l. induction l as [l IH] using (induction_ltof1 _ length).
  destruct l as [|b l]; [done|]. apply Hcons. intros k Hk. apply IH.
  unfold ltof. simpl. lia.
Qed.

Lemma ok2_scalar b0 b1 : ok2 b0 b1 = true → scalar (rune2 b0 b1) = true ∧ rune2 b0 b1 ≠ 0.
Proof. text_lia. Qed.

Lemma ok3_scalar b0 b1 b2 :
  ok3 b0 b1 b2 = true → scalar (rune3 b0 b1 b2) = true ∧ rune3 b0 b1 b2 ≠ 0.
Proof. text_lia. Qed.

Lemma ok4_scalar b0 b1 b2 b3 :
  ok4 b0 b1 b2 b3 = true → scalar (rune4 b0 b1 b2 b3) = true ∧ rune4 b0 b1 b2 b3 ≠ 0.
Proof. text_lia. Qed.

(** The first bytes of the longer sequences exclude the shorter forms, and no
    multi-byte sequence contains a NUL. *)
Lemma ok2_nul b : ok2 b 0 = false.
Proof. text_lia. Qed.
Lemma ok3_nul b b1 : ok3 b b1 0 = false ∧ ok3 b 0 b1 = false.
Proof. text_lia. Qed.
Lemma ok4_nul b b1 b2 : ok4 b b1 b2 0 = false ∧ ok4 b b1 0 b2 = false ∧ ok4 b 0 b1 b2 = false.
Proof. text_lia. Qed.

(** One step of [to_runes]: the rune that starts at [b] and the bytes after it. *)
Definition decode1 (b0 : Z) (l1 : list Z) : Z * list Z :=
  if b0 <? 0x80 then (b0, l1) else
  match l1 with
  | [] => (RuneError, l1)
  | b1 :: l2 =>
    if ok2 b0 b1 then (rune2 b0 b1, l2) else
    match l2 with
    | [] => (RuneError, l1)
    | b2 :: l3 =>
      if ok3 b0 b1 b2 then (rune3 b0 b1 b2, l3) else
      match l3 with
      | [] => (RuneError, l1)
      | b3 :: l4 => if ok4 b0 b1 b2 b3 then (rune4 b0 b1 b2 b3, l4) else (RuneError, l1)
      end
    end
  end.

Ltac decode_cases l :=
  unfold decode1; destruct l as [|? [|? [|? ?]]]; cbn [app];
  repeat (match goal with |- context [if ?b then _ else _] => destruct b eqn:? end).

Lemma to_runes_cons b l : to_runes (b :: l) = (decode1 b l).1 :: to_runes (decode1 b l).2.
Proof.
  unfold decode1. destruct l as [|b1 [|b2 [|b3 l]]]; cbn -[to_runes].
  - change (to_runes [b]) with (if b <? 0x80 then [b] else [RuneError]).
    by destruct (b <? 128).
  - change (to_runes [b; b1]) with
      (if b <? 0x80 then b :: to_runes [b1] else
       if ok2 b b1 then [rune2 b b1] else RuneError :: to_runes [b1]).
    by destruct (b <? 128), (ok2 b b1).
  - change (to_runes [b; b1; b2]) with
      (if b <? 0x80 then b :: to_runes [b1; b2] else
       if ok2 b b1 then rune2 b b1 :: to_runes [b2] else
       if ok3 b b1 b2 then [rune3 b b1 b2] else RuneError :: to_runes [b1; b2]).
    by destruct (b <? 128), (ok2 b b1), (ok3 b b1 b2).
  - change (to_runes (b :: b1 :: b2 :: b3 :: l)) with
      (if b <? 128 then b :: to_runes (b1 :: b2 :: b3 :: l) else
       if ok2 b b1 then rune2 b b1 :: to_runes (b2 :: b3 :: l) else
       if ok3 b b1 b2 then rune3 b b1 b2 :: to_runes (b3 :: l) else
       if ok4 b b1 b2 b3 then rune4 b b1 b2 b3 :: to_runes l else
       RuneError :: to_runes (b1 :: b2 :: b3 :: l)).
    by destruct (b <? 128), (ok2 b b1), (ok3 b b1 b2), (ok4 b b1 b2 b3).
Qed.

Lemma decode1_suffix b l : ∃ j, l = j ++ (decode1 b l).2.
Proof.
  decode_cases l; simpl;
  by first [by exists [] | eexists [_]; reflexivity | eexists [_; _]; reflexivity
           | eexists [_; _; _]; reflexivity].
Qed.

Lemma decode1_rune b l :
  is_byte b → b ≠ 0 → scalar (decode1 b l).1 = true ∧ (decode1 b l).1 ≠ 0.
Proof.
  intros Hb Hb0. decode_cases l; cbn [fst];
  first [ by apply ok2_scalar | by apply ok3_scalar | by apply ok4_scalar | text_lia ].
Qed.

Lemma decode1_app_nul b l k :
  decode1 b (l ++ 0 :: k) = ((decode1 b l).1, (decode1 b l).2 ++ 0 :: k).
Proof.
  pose proof (λ b1, proj1 (ok3_nul b b1)) as H3.
  pose proof (λ b1, proj2 (ok3_nul b b1)) as H3'.
  unfold decode1. destruct (b <? 128); [done|].
  destruct l as [|b1 [|b2 [|b3 l]]]; cbn [app]; rewrite ?ok2_nul, ?H3.
  - destruct k as [|k1 [|k2 k]]; rewrite ?H3'; try done.
    by rewrite (proj2 (proj2 (ok4_nul _ _ _))).
  - destruct (ok2 b b1); [done|]. destruct k as [|k1 k]; [done|].
    by rewrite (proj1 (proj2 (ok4_nul _ _ _))).
  - destruct (ok2 b b1); [done|]. destruct (ok3 b b1 b2); [done|].
    by rewrite (proj1 (ok4_nul _ _ _)).
  - by destruct (ok2 b b1), (ok3 b b1 b2), (ok4 b b1 b2 b3).
Qed.

(** Induction along the sequences [to_runes] reads. *)
Lemma utf8_ind (P : list Z → Prop) :
  P [] → (∀ b l, P (decode1 b l).2 → P (b :: l)) → ∀ l, P l.
Proof.
  intros Hnil Hcons l. induction l as [l IH] using (induction_ltof1 _ length).
  destruct l as [|b l]; [done|]. apply Hcons, IH. unfold ltof.
  destruct (decode1_suffix b l) as [j Hj]. rewrite Hj at 2. simpl. rewrite length_app. lia.
Qed.

(** A NUL byte ends whatever sequence precedes it, so decoding distributes over it. *)
Lemma to_runes_app_nul l k : to_runes (l ++ 0 :: k) = to_runes l ++ 0 :: to_runes k.
Proof.
  induction l as [|b l IH] using utf8_ind; [done|].
  cbn [app]. rewrite !to_runes_cons, decode1_app_nul. cbn [fst snd app]. by rewrite IH.
Qed.

Lemma decode1_forall (P : Z → Prop) b l : Forall P l → Forall P (decode1 b l).2.
Proof.
  intros Hl. destruct (decode1_suffix b l) as [j Hj]. rewrite Hj in Hl.
  by apply Forall_app in Hl as [_ ?].
Qed.

Lemma to_runes_scalar l : Forall is_byte l → Forall (λ r, scalar r = true) (to_runes l).
Proof.
  induction l as [|b l IH] using utf8_ind; intros Hl; [constructor|].
  inv Hl. rewrite to_runes_cons. constructor.
  - destruct (decide (b = 0)) as [->|]; [done|]. by apply decode1_rune.
  - by apply IH, decode1_forall.
Qed.

Lemma to_runes_no_nul l :
  Forall is_byte l → 0 ∉ l → Forall (λ r, (r =? 0) = false) (to_runes l).
Proof.
  induction l as [|b l IH] using utf8_ind; intros Hl Hn; [constructor|].
  inv Hl. apply not_elem_of_cons in Hn as [Hn Hn']. rewrite to_runes_cons. constructor.
  - apply Z.eqb_neq, decode1_rune; congruence.
  - apply IH; [by apply decode1_forall|].
    destruct (decode1_suffix b l) as [j Hj]. rewrite Hj in Hn'. set_solver.
Qed.

(** ** Round trips *)
Lemma div_mod_parts r n : 0 < n → r = n * (r / n) + r mod n ∧ 0 <= r mod n < n.
Proof. intros Hn. split; [apply Z.div_mod; lia | by apply Z.mod_pos_bound]. Qed.

Lemma decode1_encode r l :
  scalar r = true →
  ∃ b j, encode_rune r = b :: j ∧ is_byte b ∧ Forall is_byte j ∧
         decode1 b (j ++ l) = (r, l) ∧ (b = 0 ↔ r = 0) ∧ Forall (λ c, c ≠ 0) j.
Proof.
  intros Hr. unfold encode_rune. rewrite Hr.
  pose proof (div_mod_parts r 64 ltac:(lia)) as [E1 R1].
  pose proof (div_mod_parts (r / 64) 64 ltac:(lia)) as [E2 R2].
  pose proof (div_mod_parts (r / 4096) 64 ltac:(lia)) as [E3 R3].
  assert (r / 4096 = r / 64 / 64) as E4 by (rewrite Z.div_div by lia; done).
  assert (r / 262144 = r / 4096 / 64) as E5 by (rewrite Z.div_div by lia; done).
  unfold scalar in Hr.
  destruct (r <? 128) eqn:L1; [|destruct (r <? 2048) eqn:L2; [|destruct (r <? 65536) eqn:L3]].
  - exists r, []. split_and!; try done; [unfold is_byte; lia|].
    unfold decode1. by rewrite L1.
  - exists (192 + r / 64), [128 + r mod 64]. split_and!; try done;
      try (repeat constructor; unfold is_byte; lia).
    cbn [app]. unfold decode1.
    destruct (192 + r / 64 <? 128) eqn:?; [lia|].
    destruct (ok2 _ _) eqn:?; [|text_lia]. f_equal. text_lia.
  - exists (224 + r / 4096), [128 + r / 64 mod 64; 128 + r mod 64].
    split_and!; try done; try (repeat constructor; unfold is_byte; lia).
    cbn [app]. unfold decode1.
    destruct (224 + r / 4096 <? 128) eqn:?; [lia|].
    destruct (ok2 _ _) eqn:?; [text_lia|].
    destruct (ok3 _ _ _) eqn:?; [f_equal|]; text_lia.
  - exists (240 + r / 262144), [128 + r / 4096 mod 64; 128 + r / 64 mod 64; 128 + r mod 64].
    split_and!; try done; try (repeat constructor; unfold is_byte; lia).
    cbn [app]. unfold decode1.
    destruct (240 + r / 262144 <? 128) eqn:?; [lia|].
    destruct (ok2 _ _) eqn:?; [text_lia|].
    destruct (ok3 _ _ _) eqn:?; [text_lia|].
    destruct (ok4 _ _ _ _) eqn:?; [f_equal|]; text_lia.
Qed.

Lemma to_runes_of_runes rs :
  Forall (λ r, scalar r = true) rs → to_runes (of_runes rs) = rs.
Proof.
  induction 1 as [|r rs Hr Hrs IH]; [done|]. cbn [of_runes].
  destruct (decode1_encode r (of_runes rs) Hr) as (b & j & E & _ & _ & D & _).
  rewrite E. cbn [app]. rewrite to_runes_cons, D. cbn [fst snd]. by rewrite IH.
Qed.

Lemma of_runes_is_byte rs : Forall (λ r, scalar r = true) rs → Forall is_byte (of_runes rs).
Proof.
  induction 1 as [|r rs Hr Hrs IH]; [constructor|]. cbn [of_runes].
  destruct (decode1_encode r [] Hr) as (b & j & E & Hb & Hj & _). rewrite E.
  apply Forall_app. split; [by constructor|done].
Qed.

Lemma string_runes_roundtrip rs :
  Forall (λ r, scalar r = true) rs → string_to_runes (runes_to_string rs) = rs.
Proof.
  intros H. unfold string_to_runes, runes_to_string.
  rewrite bytes_of_bytes by by apply of_runes_is_byte. by apply to_runes_of_runes.
Qed.

Lemma string_to_runes_scalar s : Forall (λ r, scalar r = true) (string_to_runes s).
Proof. apply to_runes_scalar, bytes_is_byte. Qed.

Lemma sanitize_valid s : valid_utf8 (sanitize s).
Proof.
  unfold valid_utf8, sanitize at 1.
  unfold sanitize. by rewrite string_runes_roundtrip by apply string_to_runes_scalar.
Qed.

Lemma of_runes_app rs rs' : of_runes (rs ++ rs') = of_runes rs ++ of_runes rs'.
Proof. induction rs as [|r rs IH]; [done|]. cbn. by rewrite IH, app_assoc. Qed.

(** *** UTF-16 *)
Lemma utf16_encode_app rs rs' : utf16_encode (rs ++ rs') = utf16_encode rs ++ utf16_encode rs'.
Proof. induction rs as [|r rs IH]; [done|]. cbn. by rewrite IH, app_assoc. Qed.

Lemma utf16_encode_rune_cases r :
  scalar r = true →
  (utf16_encode_rune r = [r] ∧ ((r <? surr1) || (surr3 <=? r)) = true ∧ r < surrSelf) ∨
  (∃ u v, utf16_encode_rune r = [u; v] ∧ ((u <? surr1) || (surr3 <=? u)) = false ∧
     (u <? surr2) && (surr2 <=? v) && (v <? surr3) = true ∧
     (u - surr1) * 1024 + (v - surr2) + surrSelf = r ∧
     in_range 16 u ∧ in_range 16 v ∧ u ≠ 0 ∧ v ≠ 0 ∧ r ≠ 0).
Proof.
  intros Hr. unfold utf16_encode_rune. rewrite Hr. cbn [negb].
  destruct (r <? surrSelf) eqn:E.
  - left. split_and!; try done; text_lia.
  - right. pose proof (div_mod_parts (r - surrSelf) 1024 ltac:(lia)) as [E1 R1].
    eexists _, _. split; [done|]. unfold in_range.
    assert (0 <= (r - surrSelf) / 1024 < 1024) by text_lia.
    split_and!; text_lia.
Qed.

Lemma utf16_decode_encode rs :
  Forall (λ r, scalar r = true) rs → utf16_decode (utf16_encode rs) = rs.
Proof.
  induction 1 as [|r rs Hr Hrs IH]; [done|]. cbn [utf16_encode].
  destruct (utf16_encode_rune_cases r Hr) as [(-> & C & _)|(u & v & -> & C1 & C2 & E & _)].
  - cbn [utf16_decode app]. rewrite C. by f_equal.
  - cbn [utf16_decode app]. rewrite C1, C2, E. by f_equal.
Qed.

Lemma utf16_encode_u16 rs :
  Forall (λ r, scalar r = true) rs → Forall u16 (utf16_encode rs).
Proof.
  induction 1 as [|r rs Hr Hrs IH]; [constructor|]. cbn [utf16_encode].
  apply Forall_app. split; [|done].
  destruct (utf16_encode_rune_cases r Hr) as [(-> & C & ?)|(u & v & -> & _ & _ & _ & Hu & Hv & _)].
  - repeat constructor; text_lia.
  - by apply Forall_cons; split; [|apply Forall_cons; split].
Qed.

Lemma utf16_encode_no_nul rs :
  Forall (λ r, scalar r = true) rs → Forall (λ r, (r =? 0) = false) rs →
  Forall (λ u, (u =? 0) = false) (utf16_encode rs).
Proof.
  induction 1 as [|r rs Hr Hrs IH]; [constructor|].
  intros Hn. inv Hn. cbn [utf16_encode]. apply Forall_app. split; [|by apply IH].
  destruct (utf16_encode_rune_cases r Hr)
    as [(-> & C & ?)|(u & v & -> & _ & _ & _ & _ & _ & Hu & Hv & _)].
  - by constructor.
  - by repeat constructor; apply Z.eqb_neq.
Qed.

(** The 16-bit units of a Go string. *)
Definition units_of (s : string) : list Z := utf16_encode (string_to_runes s).

Lemma units_of_u16 s : Forall u16 (units_of s).
Proof. apply utf16_encode_u16, string_to_runes_scalar. Qed.

Lemma units_of_no_nul s : has_nul s = false → Forall (λ u, (u =? 0) = false) (units_of s).
Proof.
  unfold has_nul. intros Hn%bool_decide_eq_false.
  apply utf16_encode_no_nul; [apply string_to_runes_scalar|].
  apply to_runes_no_nul; [apply bytes_is_byte|done].
Qed.

Lemma units_to_string_of s : units_to_string (units_of s) = sanitize s.
Proof.
  unfold units_to_string, units_of.
  by rewrite utf16_decode_encode by apply string_to_runes_scalar.
Qed.

Lemma units_of_nil s : units_of s = [] ↔ s = "".
Proof.
  split; [|by intros ->]. intros H.
  assert (string_to_runes s = []) as Hr.
  { rewrite <- (utf16_decode_encode _ (string_to_runes_scalar s)). unfold units_of in H.
    by rewrite H. }
  unfold string_to_runes in Hr. destruct (bytes s) as [|b l] eqn:E.
  - by apply bytes_nil_inv.
  - by rewrite to_runes_cons in Hr.
Qed.

#[export] Hint Resolve string_to_runes_scalar units_of_u16 units_of_no_nul bytes_is_byte
  sanitize_valid : winsvc.
#[export] Hint Rewrite units_to_string_of : text.
