(* ===== verification/Go.v ===== *)
(** * The Go fragment of the sources: errors, panics, [defer] and [recover]

    Almost every function of the packages is straight-line code that calls
    Windows, returns early on a non-nil [error], and runs deferred clean-up on
    the way out. [go S A] is the state-and-error monad for that fragment over a
    process state [S]: a computation ends by returning a value, by returning a
    non-nil error, or by panicking. The monad's [bind] is the idiom
    [x, err := m; if err != nil { return err }]; code that looks at the error
    instead of passing it on uses [attempt], code that drops it uses [ignore].

    [wp m Q s] says that running [m] from [s] ends in an outcome and a state
    that satisfy [Q]. Its rules, one per construct, are the program logic the
    components' proofs use. *)
From Stdlib Require Import ZArith Lia.
From stdpp Require Import base option list strings.
From S2P Require Import Prelude.

(** ** Errors, panics, outcomes *)

(** The dynamic types of the [error] values the packages meet: [syscall.Errno],
    the result of [errors.New] or [fmt.Errorf], and [runtime.Error]. *)
Inductive error :=
| Errno (n : Z)
| ErrorString (s : string)
| RuntimeError (s : string).

(** The value given to [panic]: a string, an error, or something else. *)
Inductive panic :=
| PanicString (s : string)
| PanicError (e : error)
| PanicOther.

#[export] Instance error_eq_dec : EqDecision error.
Proof. solve_decision. Defined.
#[export] Instance panic_eq_dec : EqDecision panic.
Proof. solve_decision. Defined.

Inductive out (A : Type) :=
| Ret (a : A)
| Err (e : error)
| Panic (p : panic).
Arguments Ret {A} a.
Arguments Err {A} e.
Arguments Panic {A} p.

#[export] Instance out_eq_dec {A} `{EqDecision A} : EqDecision (out A).
Proof. solve_decision. Defined.

Definition is_ret {A} (o : out A) : bool := match o with Ret _ => true | _ => false end.
Definition is_err {A} (o : out A) : bool := match o with Err _ => true | _ => false end.
Definition is_panic {A} (o : out A) : bool := match o with Panic _ => true | _ => false end.

(** The panics of the Go runtime the code can run into. *)
Definition index_out_of_range : panic := PanicError (RuntimeError "index out of range").
Definition slice_out_of_range : panic := PanicError (RuntimeError "slice bounds out of range").
Definition bad_type_assertion : panic := PanicError (RuntimeError "interface conversion").
(** An access outside the memory a pointer leads to. *)
Definition memory_fault : panic :=
  PanicError (RuntimeError "invalid memory address or nil pointer dereference").

(** ** The monad *)
Definition go (S A : Type) : Type := S → out A * S.

Section Monad.
Context {S : Type}.

Definition ret {A} (a : A) : go S A := λ s, (Ret a, s).
Definition err {A} (e : error) : go S A := λ s, (Err e, s).
Definition throw {A} (p : panic) : go S A := λ s, (Panic p, s).
Definition lift {A} (o : out A) : go S A := λ s, (o, s).
Definition get : go S S := λ s, (Ret s, s).
Definition modify (f : S → S) : go S unit := λ s, (Ret tt, f s).

Definition bind {A B} (m : go S A) (k : A → go S B) : go S B := λ s,
  match m s with
  | (Ret a, s') => k a s'
  | (Err e, s') => (Err e, s')
  | (Panic p, s') => (Panic p, s')
  end.

(** [v, err := m]: the error is a value of the program. *)
Definition attempt {A} (m : go S A) : go S (A + error) := λ s,
  match m s with
  | (Ret a, s') => (Ret (inl a), s')
  | (Err e, s') => (Ret (inr e), s')
  | (Panic p, s') => (Panic p, s')
  end.

(** A call whose results are dropped. *)
Definition ignore {A} (m : go S A) : go S unit := λ s,
  match m s with
  | (Panic p, s') => (Panic p, s')
  | (_, s') => (Ret tt, s')
  end.

(** [defer c] at the point where [m] is the rest of the function: [c] runs when
    [m] returns and when it panics, and its own results are dropped. *)
Definition defer {A} (c : go S unit) (m : go S A) : go S A := λ s,
  let '(o, s1) := m s in
  match c s1 with
  | (Panic p, s2) => (Panic p, s2)
  | (_, s2) => (o, s2)
  end.

(** A deferred [recover] that turns a panic into an outcome. *)
Definition recovering {A} (h : panic → out A) (m : go S A) : go S A := λ s,
  match m s with
  | (Panic p, s') => (h p, s')
  | r => r
  end.

End Monad.

Declare Scope go_scope.
Delimit Scope go_scope with go.
Notation "'let!' x := m 'in' k" := (bind m (λ x, k))
  (at level 10, x pattern, m at level 200, k at level 200) : go_scope.
Notation "m ;; k" := (bind m (λ _, k)) (at level 100, right associativity) : go_scope.

(** ** The weakest precondition *)
Definition wp {S A} (m : go S A) (Q : out A → S → Prop) (s : S) : Prop :=
  Q (m s).1 (m s).2.

Section Wp.
Context {S : Type}.
Implicit Types s : S.

Lemma wp_ret {A} (a : A) Q s : Q (Ret a) s → wp (ret a) Q s.
Proof. done. Qed.
Lemma wp_err {A} e (Q : out A → S → Prop) s : Q (Err e) s → wp (err e) Q s.
Proof. done. Qed.
Lemma wp_throw {A} p (Q : out A → S → Prop) s : Q (Panic p) s → wp (throw p) Q s.
Proof. done. Qed.
Lemma wp_lift {A} (o : out A) (Q : out A → S → Prop) s : Q o s → wp (lift o) Q s.
Proof. done. Qed.
Lemma wp_get Q s : Q (Ret s) s → wp get Q s.
Proof. done. Qed.
Lemma wp_modify f Q s : Q (Ret tt) (f s) → wp (modify f) Q s.
Proof. done. Qed.

Lemma wp_bind {A B} (m : go S A) (k : A → go S B) Q s :
  wp m (λ o s', match o with
                | Ret a => wp (k a) Q s'
                | Err e => Q (Err e) s'
                | Panic p => Q (Panic p) s'
                end) s → wp (bind m k) Q s.
Proof. unfold wp, bind. by destruct (m s) as [[a|e|p] s']. Qed.

Lemma wp_attempt {A} (m : go S A) Q s :
  wp m (λ o s', match o with
                | Ret a => Q (Ret (inl a)) s'
                | Err e => Q (Ret (inr e)) s'
                | Panic p => Q (Panic p) s'
                end) s → wp (attempt m) Q s.
Proof. unfold wp, attempt. by destruct (m s) as [[a|e|p] s']. Qed.

Lemma wp_ignore {A} (m : go S A) Q s :
  wp m (λ o s', match o with Panic p => Q (Panic p) s' | _ => Q (Ret tt) s' end) s →
  wp (ignore m) Q s.
Proof. unfold wp, ignore. by destruct (m s) as [[a|e|p] s']. Qed.

Lemma wp_defer {A} c (m : go S A) Q s :
  wp m (λ o s', wp c (λ o' s'', match o' with Panic p => Q (Panic p) s'' | _ => Q o s'' end) s') s →
  wp (defer c m) Q s.
Proof.
  unfold wp, defer. destruct (m s) as [o s1]; simpl. by destruct (c s1) as [[a|e|p] s2].
Qed.

Lemma wp_recovering {A} h (m : go S A) Q s :
  wp m (λ o s', match o with Panic p => Q (h p) s' | _ => Q o s' end) s →
  wp (recovering h m) Q s.
Proof. unfold wp, recovering. by destruct (m s) as [[a|e|p] s']. Qed.

Lemma wp_mono {A} (m : go S A) (Q Q' : out A → S → Prop) s :
  wp m Q s → (∀ o s', Q o s' → Q' o s') → wp m Q' s.
Proof. unfold wp. auto. Qed.

Lemma wp_and {A} (m : go S A) (Q Q' : out A → S → Prop) s :
  wp m Q s → wp m Q' s → wp m (λ o s', Q o s' ∧ Q' o s') s.
Proof. done. Qed.

(** From the logic back to the runs. *)
Lemma wp_run {A} (m : go S A) Q s o s' : wp m Q s → m s = (o, s') → Q o s'.
Proof. unfold wp. intros H E. by rewrite E in H. Qed.

Lemma run_wp {A} (m : go S A) (Q : out A → S → Prop) s :
  (∀ o s', m s = (o, s') → Q o s') → wp m Q s.
Proof. intros H. unfold wp. apply H. by destruct (m s). Qed.

(** The equations of [bind], for the proofs that rewrite with a known run. *)
Lemma bind_ret_l {A B} (a : A) (k : A → go S B) s : bind (ret a) k s = k a s.
Proof. done. Qed.
Lemma bind_run {A B} (m : go S A) (k : A → go S B) s a s' :
  m s = (Ret a, s') → bind m k s = k a s'.
Proof. unfold bind. by intros ->. Qed.
Lemma bind_err {A B} (m : go S A) (k : A → go S B) s e s' :
  m s = (Err e, s') → bind m k s = (Err e, s').
Proof. unfold bind. by intros ->. Qed.
Lemma bind_assoc {A B C} (m : go S A) (k : A → go S B) (h : B → go S C) s :
  bind (bind m k) h s = bind m (λ a, bind (k a) h) s.
Proof. unfold bind. by destruct (m s) as [[a|e|p] s']. Qed.

End Wp.

(** ** Loops

    A [for] loop whose [body] goes round again with [inl] and leaves with [inr].
    [n] bounds the rounds, and [None] is the answer when they are used up: a
    theorem about a loop says which [n] is enough. *)
Fixpoint forever {St A B} (n : nat) (body : A → go St (A + B)) (a : A) : go St (option B) :=
  match n with
  | O => ret None
  | S n =>
    let! r := body a in
    match r with inl a => forever n body a | inr b => ret (Some b) end
  end%go.

Section Loops.
Context {St A B : Type}.
Implicit Types (s : St) (body : A → go St (A + B)).

(** Total correctness: [I k a s] bounds the rounds still to come by [k]. *)
Lemma wp_forever (I : nat → A → St → Prop) body (Q : out (option B) → St → Prop) n k a s :
  (∀ k a s, I k a s →
     wp (body a) (λ o s', match o with
                          | Ret (inl a') => ∃ k', (k' < k)%nat ∧ I k' a' s'
                          | Ret (inr b) => Q (Ret (Some b)) s'
                          | Err e => Q (Err e) s'
                          | Panic p => Q (Panic p) s'
                          end) s) →
  I k a s → (k < n)%nat → wp (forever n body a) Q s.
Proof.
  intros Hbody. revert k a s. induction n as [|n IH]; intros k a s HI Hk; [lia|].
  cbn [forever]. apply wp_bind. eapply wp_mono; [by apply Hbody|].
  intros [[a'|b]|e|p] s'; try done. intros (k' & Hk' & HI'). eapply IH; [done|lia].
Qed.

(** Partial correctness: the rounds may be used up. *)
Lemma wp_forever_partial (I : A → St → Prop) body (Q : out (option B) → St → Prop) n a s :
  (∀ a s, I a s →
     wp (body a) (λ o s', match o with
                          | Ret (inl a') => I a' s'
                          | Ret (inr b) => Q (Ret (Some b)) s'
                          | Err e => Q (Err e) s'
                          | Panic p => Q (Panic p) s'
                          end) s) →
  (∀ a s, I a s → Q (Ret None) s) →
  I a s → wp (forever n body a) Q s.
Proof.
  intros Hbody Hout. revert a s. induction n as [|n IH]; intros a s HI; [by eapply wp_ret, Hout|].
  cbn [forever]. apply wp_bind. eapply wp_mono; [by apply Hbody|].
  by intros [[a'|b]|e|p] s'; [apply IH|..].
Qed.

(** More rounds do not change a result. *)
Lemma forever_more n m body a s o s' :
  forever n body a s = (o, s') → o ≠ Ret None → (n ≤ m)%nat → forever m body a s = (o, s').
Proof.
  revert m a s. induction n as [|n IH]; intros m a s; cbn [forever].
  - intros [= <- <-]. done.
  - intros E Ho Hm. destruct m as [|m]; [lia|]. cbn [forever]. revert E. unfold bind.
    destruct (body a s) as [[[a'|b]|e|p] s1]; try done. intros E. apply IH; [done..|lia].
Qed.

(** A loop whose body always goes round again leaves with no number of rounds. *)
Lemma forever_stuck (P : A → St → Prop) n body a s :
  (∀ a s, P a s → wp (body a) (λ o s', ∃ a', o = Ret (inl a') ∧ P a' s') s) →
  P a s → (forever n body a s).1 = Ret None.
Proof.
  intros Hbody. revert a s. induction n as [|n IH]; intros a s HP; [done|]. cbn [forever].
  unfold bind. pose proof (Hbody _ _ HP) as Hb. unfold wp in Hb.
  destruct (body a s) as [o s']. destruct Hb as (a' & Ho & HP'). simpl in Ho. subst o. by apply IH.
Qed.

End Loops.

(** ** Invariants of the state

    [preserves P m]: [m] keeps [P], however it ends. There is one rule for each
    construct; those of the calls come with [P]. *)
Section Preserves.
Context {St : Type} (P : St → Prop).

Definition preserves {A} (m : go St A) : Prop := ∀ s, P s → wp m (λ _ s', P s') s.

Lemma preserves_ret {A} (a : A) : preserves (ret a).
Proof. by intros s. Qed.
Lemma preserves_err {A} e : preserves (err (A := A) e).
Proof. by intros s. Qed.
Lemma preserves_throw {A} p : preserves (throw (A := A) p).
Proof. by intros s. Qed.
Lemma preserves_lift {A} (o : out A) : preserves (lift o).
Proof. by intros s. Qed.
Lemma preserves_get : preserves get.
Proof. by intros s. Qed.

Lemma preserves_bind {A B} (m : go St A) (k : A → go St B) :
  preserves m → (∀ a, preserves (k a)) → preserves (bind m k).
Proof.
  intros Hm Hk s Hs. apply wp_bind. eapply wp_mono; [by apply Hm|].
  intros [a|e|p] s' Hs'; [by apply Hk|done..].
Qed.
Lemma preserves_attempt {A} (m : go St A) : preserves m → preserves (attempt m).
Proof. intros Hm s Hs. apply wp_attempt. eapply wp_mono; [by apply Hm|]. by intros []. Qed.
Lemma preserves_ignore {A} (m : go St A) : preserves m → preserves (ignore m).
Proof. intros Hm s Hs. apply wp_ignore. eapply wp_mono; [by apply Hm|]. by intros []. Qed.
Lemma preserves_defer {A} c (m : go St A) : preserves c → preserves m → preserves (defer c m).
Proof.
  intros Hc Hm s Hs. apply wp_defer. eapply wp_mono; [by apply Hm|]. intros o s' Hs'.
  eapply wp_mono; [by apply Hc|]. by intros [].
Qed.
Lemma preserves_forever {A B} n (body : A → go St (A + B)) a :
  (∀ a, preserves (body a)) → preserves (forever n body a).
Proof.
  intros Hb. revert a. induction n as [|n IH]; intros a; [apply preserves_ret|].
  apply preserves_bind; [apply Hb|]. intros [a'|b]; [apply IH|apply preserves_ret].
Qed.

End Preserves.

Create HintDb preserves discriminated.
#[export] Hint Resolve preserves_ret preserves_err preserves_throw preserves_lift preserves_get
  preserves_attempt preserves_ignore preserves_defer : preserves.

(** By the shape of the program. *)
Ltac preserving :=
  repeat (intros; lazymatch goal with
    | |- preserves _ (bind _ _) => apply preserves_bind
    | |- preserves _ (attempt _) => apply preserves_attempt
    | |- preserves _ (ignore _) => apply preserves_ignore
    | |- preserves _ (defer _ _) => apply preserves_defer
    | |- preserves _ (forever _ _ _) => apply preserves_forever
    | |- preserves _ (match ?x with _ => _ end) => destruct x
    | |- preserves _ _ => solve [eauto with preserves]
    end).

(** Two programs are equal when they run alike from every state; the
    constructs respect it, so programs rewrite in place. *)
Definition go_eq {S A} : relation (go S A) := λ m m', ∀ s, m s = m' s.
#[export] Instance go_eq_equiv {S A} : Equivalence (@go_eq S A).
Proof. split; [done| |]; unfold go_eq; intros ?; congruence || intros; congruence. Qed.

#[export] Instance bind_proper {S A B} :
  Proper (go_eq ==> pointwise_relation A go_eq ==> go_eq) (@bind S A B).
Proof.
  intros m m' Hm k k' Hk s. unfold bind. rewrite (Hm s).
  destruct (m' s) as [[]]; auto. apply Hk.
Qed.
#[export] Instance defer_proper {S A} : Proper (go_eq ==> go_eq ==> go_eq) (@defer S A).
Proof.
  intros c c' Hc m m' Hm s. unfold defer. rewrite (Hm s). destruct (m' s) as [o s1].
  by rewrite (Hc s1).
Qed.
#[export] Instance wp_proper {S A} (Q : out A → S → Prop) s :
  Proper (go_eq ==> iff) (λ m, wp m Q s).
Proof. intros m m' Hm. unfold wp. by rewrite (Hm s). Qed.

(** [wp_step] applies the rule of the program's outermost construct; [wp_go]
    keeps going and splits on what the code inspects. *)
Ltac wp_step :=
  lazymatch goal with
  | |- wp (ret _) _ _ => apply wp_ret
  | |- wp (err _) _ _ => apply wp_err
  | |- wp (throw _) _ _ => apply wp_throw
  | |- wp (lift _) _ _ => apply wp_lift
  | |- wp get _ _ => apply wp_get
  | |- wp (modify _) _ _ => apply wp_modify
  | |- wp (bind _ _) _ _ => apply wp_bind
  | |- wp (attempt _) _ _ => apply wp_attempt
  | |- wp (ignore _) _ _ => apply wp_ignore
  | |- wp (defer _ _) _ _ => apply wp_defer
  | |- wp (recovering _ _) _ _ => apply wp_recovering
  end.
