(* ===== verification/WinConst.v ===== *)
(** * Constants of package [winapi]

    The [const] and [var] blocks of winapi/*.go, in the order of the files; a
    constant defined through [iota] is written with the value [iota] has on its
    line. The theorems say that the blocks of flags are what their uses need:
    distinct single bits, so that a mask test looks at one flag only. *)
From Stdlib Require Import ZArith Lia.
From stdpp Require Import base list.
From S2P Require Import Prelude.

Local Open Scope Z_scope.

(** ** winapi/syscall.go *)
Definition STANDARD_RIGHTS_REQUIRED : Z := 0xf0000.
Definition ERROR_SERVICE_SPECIFIC_ERROR : Z := 1066.

(** ** winapi/service.go *)
Definition SC_MANAGER_CONNECT : Z := Z.shiftl 1 0.
Definition SC_MANAGER_CREATE_SERVICE : Z := Z.shiftl 1 1.
Definition SC_MANAGER_ENUMERATE_SERVICE : Z := Z.shiftl 1 2.
Definition SC_MANAGER_LOCK : Z := Z.shiftl 1 3.
Definition SC_MANAGER_QUERY_LOCK_STATUS : Z := Z.shiftl 1 4.
Definition SC_MANAGER_MODIFY_BOOT_CONFIG : Z := Z.shiftl 1 5.
Definition SC_MANAGER_ALL_ACCESS : Z := 0xf003f.

Definition SERVICE_KERNEL_DRIVER : Z := Z.shiftl 1 0.
Definition SERVICE_FILE_SYSTEM_DRIVER : Z := Z.shiftl 1 1.
Definition SERVICE_ADAPTER : Z := Z.shiftl 1 2.
Definition SERVICE_RECOGNIZER_DRIVER : Z := Z.shiftl 1 3.
Definition SERVICE_WIN32_OWN_PROCESS : Z := Z.shiftl 1 4.
Definition SERVICE_WIN32_SHARE_PROCESS : Z := Z.shiftl 1 5.
Definition SERVICE_WIN32 : Z :=
  (SERVICE_WIN32_OWN_PROCESS ||| SERVICE_WIN32_SHARE_PROCESS)%winsvc.
Definition SERVICE_INTERACTIVE_PROCESS : Z := 256.
Definition SERVICE_DRIVER : Z :=
  (SERVICE_KERNEL_DRIVER ||| SERVICE_FILE_SYSTEM_DRIVER ||| SERVICE_RECOGNIZER_DRIVER)%winsvc.
Definition SERVICE_TYPE_ALL : Z :=
  (SERVICE_WIN32 ||| SERVICE_ADAPTER ||| SERVICE_DRIVER ||| SERVICE_INTERACTIVE_PROCESS)%winsvc.

Definition SERVICE_BOOT_START : Z := 0.
Definition SERVICE_SYSTEM_START : Z := 1.
Definition SERVICE_AUTO_START : Z := 2.
Definition SERVICE_DEMAND_START : Z := 3.
Definition SERVICE_DISABLED : Z := 4.

Definition SERVICE_ERROR_IGNORE : Z := 0.
Definition SERVICE_ERROR_NORMAL : Z := 1.
Definition SERVICE_ERROR_SEVERE : Z := 2.
Definition SERVICE_ERROR_CRITICAL : Z := 3.

Definition SC_STATUS_PROCESS_INFO : Z := 0.

Definition SERVICE_STOPPED : Z := 1 + 0.
Definition SERVICE_START_PENDING : Z := 1 + 1.
Definition SERVICE_STOP_PENDING : Z := 1 + 2.
Definition SERVICE_RUNNING : Z := 1 + 3.
Definition SERVICE_CONTINUE_PENDING : Z := 1 + 4.
Definition SERVICE_PAUSE_PENDING : Z := 1 + 5.
Definition SERVICE_PAUSED : Z := 1 + 6.
Definition SERVICE_NO_CHANGE : Z := 0xffffffff.

Definition SERVICE_ACCEPT_STOP : Z := Z.shiftl 1 0.
Definition SERVICE_ACCEPT_PAUSE_CONTINUE : Z := Z.shiftl 1 1.
Definition SERVICE_ACCEPT_SHUTDOWN : Z := Z.shiftl 1 2.
Definition SERVICE_ACCEPT_PARAMCHANGE : Z := Z.shiftl 1 3.
Definition SERVICE_ACCEPT_NETBINDCHANGE : Z := Z.shiftl 1 4.
Definition SERVICE_ACCEPT_HARDWAREPROFILECHANGE : Z := Z.shiftl 1 5.
Definition SERVICE_ACCEPT_POWEREVENT : Z := Z.shiftl 1 6.
Definition SERVICE_ACCEPT_SESSIONCHANGE : Z := Z.shiftl 1 7.
Definition SERVICE_ACCEPT_PRESHUTDOWN : Z := Z.shiftl 1 8.
Definition SERVICE_ACCEPT_TIMECHANGE : Z := Z.shiftl 1 9.
Definition SERVICE_ACCEPT_TRIGGEREVENT : Z := Z.shiftl 1 10.
Definition SERVICE_ACCEPT_USERMODEREBOOT : Z := Z.shiftl 1 11.

Definition SERVICE_CONTROL_STOP : Z := 1 + 0.
Definition SERVICE_CONTROL_PAUSE : Z := 1 + 1.
Definition SERVICE_CONTROL_CONTINUE : Z := 1 + 2.
Definition SERVICE_CONTROL_INTERROGATE : Z := 1 + 3.
Definition SERVICE_CONTROL_SHUTDOWN : Z := 1 + 4.
Definition SERVICE_CONTROL_PARAMCHANGE : Z := 1 + 5.
Definition SERVICE_CONTROL_NETBINDADD : Z := 1 + 6.
Definition SERVICE_CONTROL_NETBINDREMOVE : Z := 1 + 7.
Definition SERVICE_CONTROL_NETBINDENABLE : Z := 1 + 8.
Definition SERVICE_CONTROL_NETBINDDISABLE : Z := 1 + 9.
Definition SERVICE_CONTROL_DEVICEEVENT : Z := 1 + 10.
Definition SERVICE_CONTROL_HARDWAREPROFILECHANGE : Z := 1 + 11.
Definition SERVICE_CONTROL_POWEREVENT : Z := 1 + 12.
Definition SERVICE_CONTROL_SESSIONCHANGE : Z := 1 + 13.
Definition SERVICE_CONTROL_PRESHUTDOWN : Z := 1 + 14.
Definition SERVICE_CONTROL_TIMECHANGE : Z := 1 + 15.
Definition SERVICE_CONTROL_TRIGGEREVENT : Z := 0x00000020.
Definition SERVICE_CONTROL_USERMODEREBOOT : Z := 0x00000040.

Definition SERVICE_ACTIVE : Z := 1 + 0.
Definition SERVICE_INACTIVE : Z := 1 + 1.
Definition SERVICE_STATE_ALL : Z := 1 + 2.

Definition SERVICE_QUERY_CONFIG : Z := Z.shiftl 1 0.
Definition SERVICE_CHANGE_CONFIG : Z := Z.shiftl 1 1.
Definition SERVICE_QUERY_STATUS : Z := Z.shiftl 1 2.
Definition SERVICE_ENUMERATE_DEPENDENTS : Z := Z.shiftl 1 3.
Definition SERVICE_START : Z := Z.shiftl 1 4.
Definition SERVICE_STOP : Z := Z.shiftl 1 5.
Definition SERVICE_PAUSE_CONTINUE : Z := Z.shiftl 1 6.
Definition SERVICE_INTERROGATE : Z := Z.shiftl 1 7.
Definition SERVICE_USER_DEFINED_CONTROL : Z := Z.shiftl 1 8.
Definition SERVICE_ALL_ACCESS : Z :=
  (STANDARD_RIGHTS_REQUIRED ||| SERVICE_QUERY_CONFIG ||| SERVICE_CHANGE_CONFIG
   ||| SERVICE_QUERY_STATUS ||| SERVICE_ENUMERATE_DEPENDENTS ||| SERVICE_START
   ||| SERVICE_STOP ||| SERVICE_PAUSE_CONTINUE ||| SERVICE_INTERROGATE
   ||| SERVICE_USER_DEFINED_CONTROL)%winsvc.
Definition SERVICE_RUNS_IN_SYSTEM_PROCESS : Z := 1.
Definition SERVICE_CONFIG_DESCRIPTION : Z := 1.
Definition SERVICE_CONFIG_FAILURE_ACTIONS : Z := 2.

Definition NO_ERROR : Z := 0.

(** ** winapi/security.go *)
Definition SidIdentifierAuthority : Type := list Z.

Definition SECURITY_NULL_SID_AUTHORITY : SidIdentifierAuthority := [0; 0; 0; 0; 0; 0].
Definition SECURITY_WORLD_SID_AUTHORITY : SidIdentifierAuthority := [0; 0; 0; 0; 0; 1].
Definition SECURITY_LOCAL_SID_AUTHORITY : SidIdentifierAuthority := [0; 0; 0; 0; 0; 2].
Definition SECURITY_CREATOR_SID_AUTHORITY : SidIdentifierAuthority := [0; 0; 0; 0; 0; 3].
Definition SECURITY_NON_UNIQUE_AUTHORITY : SidIdentifierAuthority := [0; 0; 0; 0; 0; 4].
Definition SECURITY_NT_AUTHORITY : SidIdentifierAuthority := [0; 0; 0; 0; 0; 5].
Definition SECURITY_MANDATORY_LABEL_AUTHORITY : SidIdentifierAuthority := [0; 0; 0; 0; 0; 16].
Definition SECURITY_NULL_RID : Z := 0.
Definition SECURITY_WORLD_RID : Z := 0.
Definition SECURITY_LOCAL_RID : Z := 0.
Definition SECURITY_CREATOR_OWNER_RID : Z := 0.
Definition SECURITY_CREATOR_GROUP_RID : Z := 1.
Definition SECURITY_DIALUP_RID : Z := 1.
Definition SECURITY_NETWORK_RID : Z := 2.
Definition SECURITY_BATCH_RID : Z := 3.
Definition SECURITY_INTERACTIVE_RID : Z := 4.
Definition SECURITY_LOGON_IDS_RID : Z := 5.
Definition SECURITY_SERVICE_RID : Z := 6.
Definition SECURITY_LOCAL_SYSTEM_RID : Z := 18.
Definition SECURITY_BUILTIN_DOMAIN_RID : Z := 32.
Definition SECURITY_PRINCIPAL_SELF_RID : Z := 10.
Definition SECURITY_CREATOR_OWNER_SERVER_RID : Z := 0x2.
Definition SECURITY_CREATOR_GROUP_SERVER_RID : Z := 0x3.
Definition SECURITY_LOGON_IDS_RID_COUNT : Z := 0x3.
Definition SECURITY_ANONYMOUS_LOGON_RID : Z := 0x7.
Definition SECURITY_PROXY_RID : Z := 0x8.
Definition SECURITY_ENTERPRISE_CONTROLLERS_RID : Z := 0x9.
Definition SECURITY_SERVER_LOGON_RID : Z := SECURITY_ENTERPRISE_CONTROLLERS_RID.
Definition SECURITY_AUTHENTICATED_USER_RID : Z := 0xb.
Definition SECURITY_RESTRICTED_CODE_RID : Z := 0xc.
Definition SECURITY_NT_NON_UNIQUE_RID : Z := 0x15.

(** ** winapi/registry.go *)
Definition REG_OPTION_NON_VOLATILE : Z := 0.
Definition REG_CREATED_NEW_KEY : Z := 1.
Definition REG_OPENED_EXISTING_KEY : Z := 2.

(** ** winapi/eventlog.go *)
Definition EVENTLOG_ERROR_TYPE : Z := Z.shiftl 1 0.
Definition EVENTLOG_WARNING_TYPE : Z := Z.shiftl 1 1.
Definition EVENTLOG_INFORMATION_TYPE : Z := Z.shiftl 1 2.
Definition EVENTLOG_AUDIT_SUCCESS : Z := Z.shiftl 1 3.
Definition EVENTLOG_AUDIT_FAILURE : Z := Z.shiftl 1 4.
Definition EVENTLOG_SUCCESS : Z := 0.


(** ** Flags are independent bits *)

(** [accept_flags] are the control-acceptance flags a service can report. *)
Definition accept_flags : list Z :=
  [SERVICE_ACCEPT_STOP; SERVICE_ACCEPT_PAUSE_CONTINUE; SERVICE_ACCEPT_SHUTDOWN;
   SERVICE_ACCEPT_PARAMCHANGE; SERVICE_ACCEPT_NETBINDCHANGE;
   SERVICE_ACCEPT_HARDWAREPROFILECHANGE; SERVICE_ACCEPT_POWEREVENT;
   SERVICE_ACCEPT_SESSIONCHANGE; SERVICE_ACCEPT_PRESHUTDOWN; SERVICE_ACCEPT_TIMECHANGE;
   SERVICE_ACCEPT_TRIGGEREVENT; SERVICE_ACCEPT_USERMODEREBOOT].

(** Masking with a one-bit flag tests that bit, and or-ing the flag in sets it. *)
Lemma land_flag a n : 0 <= n → (Z.land a (Z.shiftl 1 n) =? 0) = negb (Z.testbit a n).
Proof.
  intros Hn. rewrite Z.shiftl_1_l.
  destruct (Z.testbit a n) eqn:E; simpl.
  - apply Z.eqb_neq. intros H0. apply (f_equal (λ z, Z.testbit z n)) in H0.
    by rewrite Z.land_spec, Z.pow2_bits_true, E, Z.bits_0 in H0 by lia.
  - apply Z.eqb_eq, Z.bits_inj. intros i. rewrite Z.land_spec, Z.bits_0.
    destruct (decide (i = n)) as [->|]; [by rewrite E|].
    by rewrite Z.pow2_bits_false, andb_false_r by lia.
Qed.

Lemma lor_flag_testbit a n i :
  0 <= n → Z.testbit (Z.lor a (Z.shiftl 1 n)) i = Z.testbit a i || (i =? n).
Proof.
  intros Hn. rewrite Z.lor_spec, Z.shiftl_1_l, Z.pow2_bits_eqb by lia. f_equal. lia.
Qed.
