(* ===== verification/Machine.v ===== *)
(** * The process and its interface to Windows

    The structures that cross the boundary (winapi/service.go,
    winapi/security.go), the entry points of Windows the program calls ([api]),
    and the process state [st] over which every package is modelled.

    Windows is not part of the sources: it is the class [Windows], a state
    [world] and a function [call] that answers a call in a world. An answer is
    the raw result of [syscall.Syscall]: the returned word, the thread's last
    error, and what was stored through the out-pointers. A theorem over an
    arbitrary instance holds for every behaviour of Windows; what a theorem
    relies on beyond that is a hypothesis about [call].

    The state also carries the list of the calls made so far with their answers
    ([st_trace]): the theorems about what a function does to the system are
    about the calls it adds. *)
From Stdlib Require Import ZArith Lia.
From stdpp Require Import base option list strings.
From S2P Require Import Prelude GoText Go WinConst.

Local Open Scope Z_scope.
Local Open Scope go_scope.

(** ** Structures *)

(** A [*uint16]: nil, or the units in memory from that address on. *)
Abbreviation ptr16 := (option (list Z)).

Record SERVICE_STATUS := {
  ss_ServiceType : Z;
  ss_CurrentState : Z;
  ss_ControlsAccepted : Z;
  ss_Win32ExitCode : Z;
  ss_ServiceSpecificExitCode : Z;
  ss_CheckPoint : Z;
  ss_WaitHint : Z
}.

Record SERVICE_TABLE_ENTRY := {
  te_ServiceName : ptr16;
  te_ServiceProc : Z
}.

Record QUERY_SERVICE_CONFIG := {
  qc_ServiceType : Z;
  qc_StartType : Z;
  qc_ErrorControl : Z;
  qc_BinaryPathName : ptr16;
  qc_LoadOrderGroup : ptr16;
  qc_TagId : Z;
  qc_Dependencies : ptr16;
  qc_ServiceStartName : ptr16;
  qc_DisplayName : ptr16
}.

Record SERVICE_DESCRIPTION := {
  sd_Description : ptr16
}.

(** [syscall.SIDAndAttributes] of the standard library; a [*SID] is an address. *)
Record SIDAndAttributes := {
  sa_Sid : Z;
  sa_Attributes : Z
}.

(** [tg_Groups] holds the entries in memory from [&Groups[0]] on. *)
Record Tokengroups := {
  tg_GroupCount : Z;
  tg_Groups : list SIDAndAttributes
}.

#[export] Instance SERVICE_STATUS_eq_dec : EqDecision SERVICE_STATUS.
Proof. solve_decision. Defined.
#[export] Instance SERVICE_TABLE_ENTRY_eq_dec : EqDecision SERVICE_TABLE_ENTRY.
Proof. solve_decision. Defined.
#[export] Instance SERVICE_DESCRIPTION_eq_dec : EqDecision SERVICE_DESCRIPTION.
Proof. solve_decision. Defined.
#[export] Instance QUERY_SERVICE_CONFIG_eq_dec : EqDecision QUERY_SERVICE_CONFIG.
Proof. solve_decision. Defined.

(** ** Entry points

    One constructor per procedure, its arguments in the order of the call; an
    out-pointer is part of the answer instead. A pointer to a constant structure
    stands for its contents; a pointer the program only passes as nil or copies
    is its address. *)
Inductive api :=
| CreateEventW (eventAttrs manualReset initialState : Z) (name : ptr16)
| SetEventP (event : Z)
| RegisterEventSourceW (uncServerName sourceName : ptr16)
| DeregisterEventSourceP (handle : Z)
| ReportEventW (log etype category eventId usrSId numStrings dataSize : Z)
    (strings : option (list ptr16)) (rawData : Z)
| RegCreateKeyExW (key : Z) (subkey : ptr16) (reserved : Z) (class : ptr16)
    (options desired sa : Z)
| RegDeleteKeyW (key : Z) (subkey : ptr16)
| RegSetValueExW (key : Z) (valueName : ptr16) (reserved vtype : Z) (buf : list Z) (bufsize : Z)
| AllocateAndInitializeSidP (identAuth : list Z)
    (subAuth subAuth0 subAuth1 subAuth2 subAuth3 subAuth4 subAuth5 subAuth6 subAuth7 : Z)
| FreeSidP (sid : Z)
| EqualSidP (sid1 sid2 : Z)
| OpenSCManagerW (machineName databaseName : ptr16) (access : Z)
| CloseServiceHandleP (handle : Z)
| CreateServiceW (mgr : Z) (serviceName displayName : ptr16)
    (access srvType startType errCtl : Z) (pathName loadOrderGroup : ptr16) (tagId : Z)
    (dependencies serviceStartName password : ptr16)
| OpenServiceW (mgr : Z) (serviceName : ptr16) (access : Z)
| DeleteServiceP (service : Z)
| StartServiceW (service numArgs : Z) (argVectors : option (list ptr16))
| QueryServiceStatusP (service : Z)
| ControlServiceP (service control : Z)
| StartServiceCtrlDispatcherW (serviceTable : list SERVICE_TABLE_ENTRY)
| SetServiceStatusP (service : Z) (serviceStatus : SERVICE_STATUS)
| ChangeServiceConfigW (service serviceType startType errorControl : Z)
    (binaryPathName loadOrderGroup : ptr16) (tagId : Z)
    (dependencies serviceStartName password displayName : ptr16)
| QueryServiceConfigW (service bufSize : Z)
| ChangeServiceConfig2W (service infoLevel : Z) (info : SERVICE_DESCRIPTION)
| QueryServiceConfig2W (service infoLevel buffSize : Z)
| GetCurrentThreadIdP
(* called through package syscall or by the assembly code *)
| CloseHandleP (handle : Z)
| WaitForSingleObjectP (handle waitMilliseconds : Z)
| RegOpenKeyExW (key : Z) (subkey : ptr16) (options desiredAccess : Z)
| RegCloseKeyP (key : Z)
| GetTokenInformationP (t infoClass infoLen : Z)
| OpenCurrentProcessTokenP
| CloseTokenP (t : Z)
| RegisterServiceCtrlHandlerExW (serviceName : ptr16) (handlerProc context : Z)
| MessageBeepP (uType : Z).

(** What each entry point stores through its out-pointers. *)
Definition out_of (p : api) : Type :=
  match p with
  | RegCreateKeyExW _ _ _ _ _ _ _ => (Z * Z)%type        (* key handle, disposition *)
  | AllocateAndInitializeSidP _ _ _ _ _ _ _ _ _ _ => Z   (* the SID *)
  | QueryServiceStatusP _ | ControlServiceP _ _ => SERVICE_STATUS
  | QueryServiceConfigW _ _ => (QUERY_SERVICE_CONFIG * Z)%type
  | QueryServiceConfig2W _ _ _ => (SERVICE_DESCRIPTION * Z)%type
  | RegOpenKeyExW _ _ _ _ => Z                            (* key handle *)
  | GetTokenInformationP _ _ _ => (Tokengroups * Z)%type
  | OpenCurrentProcessTokenP => Z                         (* token *)
  | _ => unit
  end.

(** The answer: the returned word, the last error, the out-values. *)
Record reply (p : api) := Answer {
  r_ret : Z;
  r_err : Z;
  r_out : out_of p
}.
Arguments Answer {p} r_ret r_err r_out.
Arguments r_ret {p} r.
Arguments r_err {p} r.
Arguments r_out {p} r.

Class Windows := {
  world : Type;
  call : ∀ p : api, world → reply p * world;
  (** [syscall.NewCallback]: a code address, or a panic *)
  new_callback : world → (Z + panic) * world;
  (** the argument vector in memory at an address: the strings' units *)
  argv_at : world → Z → option (list (list Z))
}.

(** ** The process *)

(** The package-level variables of svc/service.go that change after [init]. *)
Record pkgvars := {
  goWaitsH : Z;
  cWaitsH : Z;
  ssHandle : Z;
  sName : ptr16;
  sArgc : Z;
  sArgv : Z;
  ctlHandlerProc : Z
}.

Definition pkgvars_zero : pkgvars :=
  {| goWaitsH := 0; cWaitsH := 0; ssHandle := 0; sName := None; sArgc := 0; sArgv := 0;
     ctlHandlerProc := 0 |}.

(** A call made, with its answer. *)
Record entry := Entry {
  en_api : api;
  en_reply : reply en_api
}.

Section Process.
Context `{Windows}.

Record st := St {
  st_world : world;
  st_trace : list entry;
  st_vars : pkgvars
}.

Abbreviation M := (go st).

(** [syscall.Syscall]: the call happens and is recorded. *)
Definition syscall (p : api) : M (reply p) := λ s,
  let '(rep, w') := call p (st_world s) in
  (Ret rep, St w' (st_trace s ++ [Entry p rep]) (st_vars s)).

Definition set_vars (f : pkgvars → pkgvars) : M unit :=
  modify (λ s, St (st_world s) (st_trace s) (f (st_vars s))).

Definition calls (tr : list entry) : list api := en_api <$> tr.

Lemma calls_app tr tr' : calls (tr ++ tr') = calls tr ++ calls tr'.
Proof. apply fmap_app. Qed.

(** The rule of a call, for every answer, and for a known one. *)
Lemma wp_syscall p (Q : out (reply p) → st → Prop) s :
  (∀ rep w', call p (st_world s) = (rep, w') →
     Q (Ret rep) (St w' (st_trace s ++ [Entry p rep]) (st_vars s))) →
  wp (syscall p) Q s.
Proof. unfold wp, syscall. intros HQ. destruct (call p (st_world s)) as [rep w']. by apply HQ. Qed.

Lemma wp_set_vars f (Q : out unit → st → Prop) s :
  Q (Ret tt) (St (st_world s) (st_trace s) (f (st_vars s))) → wp (set_vars f) Q s.
Proof. done. Qed.

(** [makes s s' tr]: going from [s] to [s'] made exactly the calls [tr]. *)
Definition makes (s s' : st) (tr : list entry) : Prop := st_trace s' = st_trace s ++ tr.

Lemma makes_nil s : makes s s [].
Proof. unfold makes. by rewrite app_nil_r. Qed.

Lemma makes_trans s s' s'' tr tr' : makes s s' tr → makes s' s'' tr' → makes s s'' (tr ++ tr').
Proof. unfold makes. intros -> ->. by rewrite app_assoc. Qed.

Lemma makes_inj s s' tr tr' : makes s s' tr → makes s s' tr' → tr = tr'.
Proof. unfold makes. intros -> E. by apply app_inv_head in E. Qed.

End Process.
Arguments st : clear implicits.
Arguments st {H}.
Abbreviation M := (go st).

#[export] Hint Resolve makes_nil makes_trans : winsvc.

Ltac wp_go :=
  repeat (first
    [ wp_step
    | lazymatch goal with
      | |- wp (syscall _) _ _ => apply wp_syscall; intros ? ? ?
      | |- wp (set_vars _) _ _ => apply wp_set_vars
      end ]; cbn [st_trace st_vars st_world goWaitsH cWaitsH ssHandle sName sArgc sArgv
                  ctlHandlerProc]).

(** Computes the projections of a concrete trace; the answers' types are reduced
    too, so that the facts about them apply. *)
Ltac trace_cbn := cbn -[Z.eqb Z.ltb Z.leb Z.land Z.lor] in *.
