(* ===== verification/GoSyscall.v ===== *)
(** * What the sources use of Go's package [syscall]

    Constants, the string conversions, and the wrappers of the few Windows
    procedures the sources reach through the standard library instead of
    package [winapi]. *)
From Stdlib Require Import ZArith Lia.
From stdpp Require Import base option list strings sets.
From S2P Require Import Prelude GoText Go WinConst Machine.

Local Open Scope Z_scope.
Local Open Scope go_scope.

(** ** Constants *)
Definition APPLICATION_ERROR : Z := Z.shiftl 1 29.
Definition EINVAL : Z := APPLICATION_ERROR + 39.
Definition ERROR_INSUFFICIENT_BUFFER : Z := 122.
Definition INFINITE : Z := 0xffffffff.
Definition WAIT_OBJECT_0 : Z := 0.
Definition WAIT_FAILED : Z := 0xffffffff.
Definition HKEY_LOCAL_MACHINE : Z := 0x80000002.
Definition KEY_ALL_ACCESS : Z := 0xf003f.
Definition REG_SZ : Z := 1.
Definition REG_EXPAND_SZ : Z := 2.
Definition REG_DWORD : Z := 4.
Definition TokenGroups : Z := 2.

(** The error made from the last error [e1] of a failed call:
    [if e1 != 0 { err = error(e1) } else { err = syscall.EINVAL }]. *)
Definition errno_error (e1 : Z) : error := Errno (if e1 =? 0 then EINVAL else e1).

Lemma errno_error_nonzero e1 n : errno_error e1 = Errno n → n ≠ 0.
Proof. unfold errno_error. destruct (Z.eqb_spec e1 0); intros ?; simplify_eq; [done|lia]. Qed.

(** ** Strings *)

(** [syscall.StringToUTF16] panics on a string that holds a NUL. *)
Definition nul_panic : panic :=
  PanicString "syscall: string with NUL passed to StringToUTF16".

Definition StringToUTF16 (s : string) : out (list Z) :=
  if has_nul s then Panic nul_panic
  else Ret (units_of s ++ [0]).

(** [syscall.StringToUTF16Ptr(s)] is [&StringToUTF16(s)[0]]. *)
Definition StringToUTF16Ptr {S} (s : string) : go S ptr16 :=
  match StringToUTF16 s with
  | Ret us => ret (Some us)
  | Err e => err e
  | Panic p => throw p
  end.

Lemma StringToUTF16_ok s : has_nul s = false → StringToUTF16 s = Ret (units_of s ++ [0]).
Proof. unfold StringToUTF16. by intros ->. Qed.

(** [syscall.UTF16ToString] of the array of [n] units at a pointer, where the
    memory there holds [mem]: the units before the first NUL of the array, or all
    [n] of them; reading past the allocation faults. *)
Fixpoint read_units (n : Z) (mem : list Z) : option (list Z) :=
  if n <=? 0 then Some []
  else match mem with
       | [] => None
       | u :: mem => if u =? 0 then Some []
                     else cons u <$> read_units (n - 1) mem
       end.

Definition UTF16ToString_at (n : Z) (mem : list Z) : out string :=
  match read_units n mem with
  | Some us => Ret (units_to_string us)
  | None => Panic memory_fault
  end.

Lemma read_units_nul n us k :
  Forall (λ u, (u =? 0) = false) us → Z.of_nat (length us) < n →
  read_units n (us ++ 0 :: k) = Some us.
Proof.
  intros Hus. revert n. induction Hus as [|u us Hu Hus IH]; intros n Hn; simpl in *.
  - by destruct (Z.leb_spec n 0).
  - destruct (Z.leb_spec n 0); [lia|]. by rewrite Hu, IH by lia.
Qed.

Lemma read_units_full n us k :
  0 <= n → Forall (λ u, (u =? 0) = false) us → n <= Z.of_nat (length us) →
  read_units n (us ++ k) = Some (take (Z.to_nat n) us).
Proof.
  intros Hn Hus. revert n Hn. induction Hus as [|u us Hu Hus IH]; intros n Hn Hl; simpl in *.
  - assert (n = 0) as -> by lia. by destruct k.
  - destruct (Z.leb_spec n 0).
    + by assert (n = 0) as -> by lia.
    + rewrite Hu, IH by lia. simpl. replace (Z.to_nat n) with (S (Z.to_nat (n - 1))) by lia. done.
Qed.

(** A NUL-free string of fewer than [n] units is read back as it was written. *)
Lemma UTF16ToString_StringToUTF16 n s us :
  StringToUTF16 s = Ret us → Z.of_nat (length us) <= n →
  UTF16ToString_at n us = Ret (sanitize s).
Proof.
  unfold StringToUTF16, UTF16ToString_at. destruct (has_nul s) eqn:Hn; [done|].
  intros [= <-] Hl. rewrite length_app in Hl. simpl in Hl.
  rewrite read_units_nul by (auto with winsvc; lia). by rewrite units_to_string_of.
Qed.

(** ** Calls *)
Section Calls.
Context `{Windows}.

(** The failure test of the wrappers: [v] unless the returned word is 0. *)
Definition check0 {p A} (r : reply p) (v : A) : M A :=
  if r_ret r =? 0 then err (errno_error (r_err r)) else ret v.

(** The registry procedures return their error code. *)
Definition check_regerrno {p A} (r : reply p) (v : A) : M A :=
  if r_ret r =? 0 then ret v else err (Errno (r_ret r)).

Definition CloseHandle (h : Z) : M unit :=
  let! r := syscall (CloseHandleP h) in check0 r tt.

(** [s, err := syscall.WaitForSingleObject(h, ms)]: the event and, when it is
    [WAIT_FAILED], the error. *)
Definition WaitForSingleObject (h ms : Z) : M (Z * option error) :=
  let! r := syscall (WaitForSingleObjectP h ms) in
  let event := wrap 32 (r_ret r) in
  ret (event, if event =? 0xffffffff then Some (errno_error (r_err r)) else None).

Definition RegOpenKeyEx (key : Z) (subkey : ptr16) (options desired : Z) : M Z :=
  let! r := syscall (RegOpenKeyExW key subkey options desired) in check_regerrno r (r_out r).

Definition RegCloseKey (key : Z) : M unit :=
  let! r := syscall (RegCloseKeyP key) in check_regerrno r tt.

(** [e := syscall.GetTokenInformation(t, class, &b[0], len, &n)]: the buffer and
    [n] are set whatever [e] is. *)
Definition GetTokenInformation (t class len : Z) : M (Tokengroups * Z * option error) :=
  let! r := syscall (GetTokenInformationP t class len) in
  ret (r_out r, if r_ret r =? 0 then Some (errno_error (r_err r)) else None).

Definition OpenCurrentProcessToken : M Z :=
  let! r := syscall OpenCurrentProcessTokenP in check0 r (r_out r).

Definition Token_Close (t : Z) : M unit :=
  let! r := syscall (CloseTokenP t) in check0 r tt.

Lemma wp_check0 {p A} (r : reply p) (v : A) Q s :
  (r_ret r ≠ 0 → Q (Ret v) s) → (r_ret r = 0 → Q (Err (errno_error (r_err r))) s) →
  wp (check0 r v) Q s.
Proof. intros H1 H2. unfold check0. destruct (Z.eqb_spec (r_ret r) 0); [by apply H2|by apply H1]. Qed.

Lemma wp_check_regerrno {p A} (r : reply p) (v : A) Q s :
  (r_ret r = 0 → Q (Ret v) s) → (r_ret r ≠ 0 → Q (Err (Errno (r_ret r))) s) →
  wp (check_regerrno r v) Q s.
Proof.
  intros H1 H2. unfold check_regerrno. destruct (Z.eqb_spec (r_ret r) 0); [by apply H1|by apply H2].
Qed.

Lemma wp_StringToUTF16Ptr s Q σ :
  (has_nul s = false → Q (Ret (Some (units_of s ++ [0]))) σ) →
  (has_nul s = true → Q (Panic nul_panic) σ) →
  wp (StringToUTF16Ptr s) Q (σ : st).
Proof.
  intros H1 H2. unfold StringToUTF16Ptr, StringToUTF16.
  destruct (has_nul s); wp_step; auto.
Qed.

Lemma StringToUTF16Ptr_run s (σ : st) :
  has_nul s = false → StringToUTF16Ptr s σ = (Ret (Some (units_of s ++ [0])), σ).
Proof. unfold StringToUTF16Ptr, StringToUTF16. by intros ->. Qed.

End Calls.

(** [wp_go] with the rules of these wrappers. *)
Ltac wp_sys :=
  repeat (first
    [ progress wp_go
    | lazymatch goal with
      | |- wp (check0 _ _) _ _ => apply wp_check0; intros ?
      | |- wp (check_regerrno _ _) _ _ => apply wp_check_regerrno; intros ?
      | |- wp (StringToUTF16Ptr _) _ _ => apply wp_StringToUTF16Ptr; intros ?
      end ]).
