(* ===== verification/Script.v ===== *)
(** * A scripted Windows

    A concrete instance of the interface, on which the models run: it answers
    the calls in order with the results of a script, then with success. The
    out-values, the result of [NewCallback] and the memory of the argument
    vector are given once. It makes no claim about the real system; it is what
    the concrete runs of the development are computed on. *)
From Stdlib Require Import ZArith.
From stdpp Require Import base option list strings.
From S2P Require Import Prelude GoText Go WinConst Machine GoSyscall.

Local Open Scope Z_scope.

Definition no_status : SERVICE_STATUS :=
  {| ss_ServiceType := 0; ss_CurrentState := 0; ss_ControlsAccepted := 0;
     ss_Win32ExitCode := 0; ss_ServiceSpecificExitCode := 0; ss_CheckPoint := 0;
     ss_WaitHint := 0 |}.
Definition no_config : QUERY_SERVICE_CONFIG :=
  {| qc_ServiceType := 0; qc_StartType := 0; qc_ErrorControl := 0; qc_BinaryPathName := None;
     qc_LoadOrderGroup := None; qc_TagId := 0; qc_Dependencies := None;
     qc_ServiceStartName := None; qc_DisplayName := None |}.

(** The out-values of a system that stores zeros. *)
Definition zero_out (p : api) : out_of p :=
  match p with
  | RegCreateKeyExW _ _ _ _ _ _ _ => (0, 0)
  | AllocateAndInitializeSidP _ _ _ _ _ _ _ _ _ _ => 0
  | QueryServiceStatusP _ | ControlServiceP _ _ => no_status
  | QueryServiceConfigW _ _ => (no_config, 0)
  | QueryServiceConfig2W _ _ _ => ({| sd_Description := None |}, 0)
  | RegOpenKeyExW _ _ _ _ => 0
  | GetTokenInformationP _ _ _ => ({| tg_GroupCount := 0; tg_Groups := [] |}, 0)
  | OpenCurrentProcessTokenP => 0
  | _ => tt
  end.

Record script := {
  sc_outs : ∀ p, out_of p;
  sc_callback : Z + panic;
  sc_argv : Z → option (list (list Z))
}.

#[export] Instance ScriptWindows (sc : script) : Windows := {|
  world := list (Z * Z);
  call := λ p w,
    match w with
    | (r, e) :: w => (Answer r e (sc_outs sc p), w)
    | [] => (Answer 1 0 (sc_outs sc p), [])
    end;
  new_callback := λ w, (sc_callback sc, w);
  argv_at := λ _ a, sc_argv sc a
|}.

(** The script of a run in which nothing special happens. *)
Definition plain : script :=
  {| sc_outs := zero_out; sc_callback := inl 4096; sc_argv := λ _, None |}.

(** The state of a process that has made no call yet. *)
Definition fresh `{Windows} (w : world) : st := St w [] pkgvars_zero.
