(* ===== verification/GoOs.v ===== *)
(** * What the example uses of Go's packages [os], [path/filepath], [time], [fmt]

    The environment of a process is the class [Os]: its arguments, the file
    system, the clock, the texts of error numbers and the case tables of Unicode
    beyond ASCII. It is not part of the sources and nothing is assumed of it; a
    theorem about time takes the class [Clock], the documented behaviour of
    [time.Now] and [time.Sleep]. *)
From Stdlib Require Import ZArith Lia Ascii.
From stdpp Require Import base option list strings pretty.
From S2P Require Import Prelude GoText Go Machine Script.

Local Open Scope Z_scope.
Local Open Scope go_scope.

(** ** The environment *)

(** What the source looks at in an [os.FileInfo]: [Mode().IsDir()]. *)
Record FileInfo := { fi_IsDir : bool }.

Class Os `{Windows} := {
  Args : list string;                              (* [os.Args] *)
  abs_path : world → string → string + error;      (* [filepath.Abs] *)
  file_stat : world → string → FileInfo + error;   (* [os.Stat] *)
  now : world → Z * world;                         (* the time in nanoseconds *)
  asleep : Z → world → world;                      (* the world after a sleep *)
  Errno_text : Z → string;                         (* [syscall.Errno.Error] *)
  runtime_text : string → string;                  (* the texts of runtime errors *)
  unicode_lower : Z → Z                            (* [unicode.ToLower] from 0x80 on *)
}.

(** Time does not run backwards, and a sleep lasts at least as long as asked. *)
Class Clock `{Os} := {
  clock : world → Z;
  now_clock w : clock w <= (now w).1 <= clock (now w).2;
  asleep_clock d w : 0 <= d → clock w + d <= clock (asleep d w);
  call_clock p w : clock w <= clock (call p w).2
}.

(** ** Durations, in nanoseconds *)
Definition Millisecond : Z := 1000000.
Definition Second : Z := 1000 * Millisecond.

(** ** Texts *)
Definition is_separator (a : ascii) : bool := Ascii.eqb a "\" || Ascii.eqb a "/".

(** [filepath.Ext]: from the last dot on, unless a separator comes first; [r] is the
    part of the path still to be searched, backwards, [ext] what lies behind it. *)
Fixpoint ext_loop (r : list ascii) (ext : list ascii) : list ascii :=
  match r with
  | [] => []
  | a :: r => if is_separator a then [] else if Ascii.eqb a "." then a :: ext else ext_loop r (a :: ext)
  end.

Definition Ext (path : string) : string :=
  String.string_of_list_ascii (ext_loop (rev (String.list_ascii_of_string path)) []).

(** [unicode.ToLower] and [strings.ToLower]. *)
Definition lower_rune `{Os} (r : Z) : Z :=
  if r <? 0x80 then if (65 <=? r) && (r <=? 90) then r + 32 else r else unicode_lower r.

Definition ToLower `{Os} (s : string) : string :=
  runes_to_string (lower_rune <$> string_to_runes s).

(** [err.Error()], which is what the verbs [%s] and [%v] print of an error. *)
Definition error_text `{Os} (e : error) : string :=
  match e with
  | Errno n => Errno_text n
  | ErrorString s => s
  | RuntimeError s => runtime_text s
  end.

(** ** Calls *)
Section Calls.
Context `{Os}.

Definition Abs (p : string) : M string := λ s,
  (match abs_path (st_world s) p with inl q => Ret q | inr e => Err e end, s).

Definition Stat (p : string) : M FileInfo := λ s,
  (match file_stat (st_world s) p with inl fi => Ret fi | inr e => Err e end, s).

Definition Now : M Z := λ s,
  let '(t, w) := now (st_world s) in (Ret t, St w (st_trace s) (st_vars s)).

Definition Sleep (d : Z) : M unit :=
  modify (λ s, St (asleep d (st_world s)) (st_trace s) (st_vars s)).

Lemma wp_Abs p (Q : out string → st → Prop) s :
  Q (match abs_path (st_world s) p with inl q => Ret q | inr e => Err e end) s → wp (Abs p) Q s.
Proof. done. Qed.

Lemma wp_Stat p (Q : out FileInfo → st → Prop) s :
  Q (match file_stat (st_world s) p with inl fi => Ret fi | inr e => Err e end) s → wp (Stat p) Q s.
Proof. done. Qed.

Lemma wp_Now (Q : out Z → st → Prop) s :
  (∀ t w, now (st_world s) = (t, w) → Q (Ret t) (St w (st_trace s) (st_vars s))) → wp Now Q s.
Proof. unfold wp, Now. destruct (now (st_world s)) as [t w]. intros HQ. by apply HQ. Qed.

Lemma wp_Sleep d (Q : out unit → st → Prop) s :
  Q (Ret tt) (St (asleep d (st_world s)) (st_trace s) (st_vars s)) → wp (Sleep d) Q s.
Proof. done. Qed.

End Calls.

(** ** The extension of a path *)
Definition plain_char (a : ascii) : bool := negb (is_separator a) && negb (Ascii.eqb a ".").

Lemma ext_loop_plain l r ext :
  Forall (λ a, plain_char a = true) l → ext_loop (rev l ++ r) ext = ext_loop r (l ++ ext).
Proof.
  revert ext. induction l as [|a l IH] using rev_ind; intros ext Hl; [done|].
  apply Forall_app in Hl as [Hl Ha]. apply Forall_cons in Ha as [Ha _].
  rewrite rev_app_distr. cbn [rev app]. unfold plain_char in Ha. cbn [ext_loop].
  destruct (is_separator a); [done|]. destruct (Ascii.eqb a "."); [done|].
  rewrite IH by done. by rewrite <- app_assoc.
Qed.

Lemma list_ascii_app s t :
  String.list_ascii_of_string (s +:+ t)
  = String.list_ascii_of_string s ++ String.list_ascii_of_string t.
Proof. induction s as [|a s IH]; [done|]. simpl. by rewrite IH. Qed.

(** A file name with a dot has what follows its last dot as the extension. *)
Lemma Ext_dot dir ext :
  Forall (λ a, plain_char a = true) (String.list_ascii_of_string ext) →
  Ext (dir +:+ "." +:+ ext) = "." +:+ ext.
Proof.
  intros He. unfold Ext. rewrite !list_ascii_app. cbn [String.list_ascii_of_string app].
  rewrite rev_app_distr. cbn [rev]. rewrite <- app_assoc, ext_loop_plain by done.
  cbn. by rewrite app_nil_r, String.string_of_list_ascii_of_string.
Qed.

(** One without a dot behind the last separator has none. *)
Lemma Ext_none dir sep nm :
  is_separator sep = true →
  Forall (λ a, plain_char a = true) (String.list_ascii_of_string nm) →
  Ext (dir +:+ String sep nm) = "".
Proof.
  intros Hs Hn. unfold Ext. rewrite list_ascii_app. cbn [String.list_ascii_of_string].
  rewrite rev_app_distr. cbn [rev]. rewrite <- app_assoc, ext_loop_plain by done.
  cbn. by rewrite Hs.
Qed.

(** ** Lower case *)
Definition lower_byte (b : Z) : Z := if (65 <=? b) && (b <=? 90) then b + 32 else b.

Definition ascii_text (s : string) : Prop := Forall (λ b, b < 0x80) (bytes s).

#[export] Instance ascii_text_dec s : Decision (ascii_text s).
Proof. unfold ascii_text. apply _. Defined.

Lemma lower_byte_ascii b : is_byte b → b < 0x80 → is_byte (lower_byte b) ∧ lower_byte b < 0x80.
Proof. unfold lower_byte, is_byte. destruct ((65 <=? b) && (b <=? 90)) eqn:?; lia. Qed.

Lemma to_runes_ascii l : Forall (λ b, b < 0x80) l → to_runes l = l.
Proof.
  induction 1 as [|b l Hb _ IH]; [done|]. rewrite to_runes_cons. unfold decode1.
  rewrite (proj2 (Z.ltb_lt _ _) Hb). cbn [fst snd]. by rewrite IH.
Qed.

Lemma of_runes_ascii l : Forall (λ b, 0 <= b < 0x80) l → of_runes l = l.
Proof.
  induction 1 as [|b l Hb _ IH]; [done|]. cbn [of_runes]. rewrite IH. unfold encode_rune.
  assert (scalar b = true) as -> by (unfold scalar; lia).
  by rewrite (proj2 (Z.ltb_lt _ _) (proj2 Hb)).
Qed.

(** An ASCII text is lowered byte by byte, whatever the case tables are. *)
Lemma ToLower_ascii `{Os} s : ascii_text s → ToLower s = of_bytes (lower_byte <$> bytes s).
Proof.
  intros Hs. unfold ToLower, string_to_runes, runes_to_string. rewrite to_runes_ascii by done. f_equal.
  assert (lower_rune <$> bytes s = lower_byte <$> bytes s) as ->.
  { apply Forall_fmap_ext_1. eapply Forall_impl; [exact Hs|]. intros b Hb. unfold lower_rune, lower_byte.
    by rewrite (proj2 (Z.ltb_lt _ _) Hb). }
  apply of_runes_ascii, Forall_fmap. pose proof (bytes_is_byte s) as Hb. unfold ascii_text in Hs.
  rewrite Forall_forall in Hb, Hs |- *. intros b Hin. specialize (Hb b Hin). specialize (Hs b Hin).
  cbn. destruct (lower_byte_ascii b Hb Hs) as [? ?]. unfold is_byte in *. lia.
Qed.

(** ** A concrete environment

    A Windows with a clock next to its state, which a call advances by [per_call]
    and a sleep by its length, and a file system given by a list. *)
Definition TimedWindows (per_call : Z) (W : Windows) : Windows := {|
  world := Z * @world W;
  call := λ p w, let '(rep, w') := @call W p w.2 in (rep, (w.1 + per_call, w'));
  new_callback := λ w, let '(r, w') := @new_callback W w.2 in (r, (w.1, w'));
  argv_at := λ w a, @argv_at W w.2 a
|}.

Record env := {
  env_args : list string;
  env_files : list (string * bool)          (* the files, and whether directories *)
}.

(** The file system of [e] over any Windows, with a given clock. *)
Definition env_os (W : Windows) (e : env) (tick : @world W → Z) (nap : Z → @world W → @world W) :
    Os (H := W) :=
  Build_Os W (env_args e)
    (λ _ p, inl ("c:\" +:+ p))
    (λ _ p, match List.find (λ x, bool_decide (x.1 = p)) (env_files e) with
            | Some (_, d) => inl {| fi_IsDir := d |}
            | None => inr (Errno 2)
            end)
    (λ w, (tick w, w)) nap
    (λ n, "errno " +:+ pretty n) (λ s, s) (λ r, r).

(** [frozen]: the clock stands still while the process sleeps. *)
Definition TimedOs (per_call : Z) (W : Windows) (e : env) (frozen : bool) :
    Os (H := TimedWindows per_call W) :=
  env_os (TimedWindows per_call W) e (λ w, w.1) (λ d w, if frozen then w else (w.1 + d, w.2)).

Definition TimedClock W e : Clock (H0 := TimedOs 0 W e false).
Proof.
  refine {| clock := λ w : @world (TimedWindows 0 W), w.1 |}.
  - intros w. simpl. lia.
  - intros d w Hd. simpl. lia.
  - intros p w. simpl. destruct (@call W p w.2). simpl. lia.
Defined.
