(* ===== verification/Catalog.v ===== *)
(** * The machine as an installer sees it

    The catalog is the part of Windows that installing changes: the database of
    services, the registry, and the handles open on them. [effect] is the
    documented effect of a call and its answer on a catalog, [None] for an answer
    that Windows does not give. A Windows is [Catalogued] when its answers are of
    this kind and no other program changes the catalog meanwhile.

    Names of services, keys and values are compared without their case, which is
    Windows's [fold]. A service marked for deletion goes when its last handle is
    closed, unless it is running ([busy]). *)
From Stdlib Require Import ZArith Lia.
From stdpp Require Import base option list strings gmap.
From S2P Require Import Prelude GoText Go WinConst Machine GoSyscall Script.

Local Open Scope Z_scope.

Abbreviation wname := (list Z).

Record catalog := Catalog {
  services : gmap wname bool;                     (* installed; marked for deletion? *)
  busy : gset wname;                              (* the services that are running *)
  handles : gmap Z (option wname);                (* open on the manager or a service *)
  keys : gmap Z wname;                            (* open on the key of a path *)
  registry : gmap wname (gmap wname (Z * list Z))  (* the keys with their values *)
}.

#[export] Instance catalog_eq_dec : EqDecision catalog.
Proof. solve_decision. Defined.

Definition with_services (c : catalog) (ss : gmap wname bool) : catalog :=
  Catalog ss (busy c) (handles c) (keys c) (registry c).
Definition with_handles (c : catalog) (hs : gmap Z (option wname)) : catalog :=
  Catalog (services c) (busy c) hs (keys c) (registry c).
Definition with_keys (c : catalog) (ks : gmap Z wname) : catalog :=
  Catalog (services c) (busy c) (handles c) ks (registry c).
Definition with_registry (c : catalog) (r : gmap wname (gmap wname (Z * list Z))) : catalog :=
  Catalog (services c) (busy c) (handles c) (keys c) r.

(** The text a pointer leads to. *)
Definition cstr (p : ptr16) : wname :=
  match p with Some us => prefix_until (λ u, u =? 0) us | None => [] end.

(** A path of keys, joined with a backslash. *)
Definition join (base sub : wname) : wname :=
  match base with [] => sub | _ => base ++ 92 :: sub end.

Definition key_path (c : catalog) (k : Z) : option wname :=
  if k =? HKEY_LOCAL_MACHINE then Some [] else keys c !! k.

(** A service no handle is open on. *)
Definition unused (hs : gmap Z (option wname)) (n : wname) : Prop :=
  map_Forall (λ _ t, t ≠ Some n) hs.

#[export] Instance unused_dec hs n : Decision (unused hs n).
Proof. unfold unused. apply _. Defined.

(** A new handle on [t]. *)
Definition new_handle (c : catalog) (h : Z) (t : option wname) : option catalog :=
  match handles c !! h with None => Some (with_handles c (<[h:=t]> (handles c))) | Some _ => None end.
Definition new_key (c : catalog) (k : Z) (path : wname) : option catalog :=
  if decide (k = HKEY_LOCAL_MACHINE ∨ is_Some (keys c !! k)) then None
  else Some (with_keys c (<[k:=path]> (keys c))).

(** What closing the handle leaves of the services. *)
Definition swept (c : catalog) (hs : gmap Z (option wname)) (t : option wname) : gmap wname bool :=
  match t with
  | Some n =>
      if decide (services c !! n = Some true ∧ unused hs n ∧ n ∉ busy c) then delete n (services c)
      else services c
  | None => services c
  end.

Section Effect.
Context (fold : wname → wname).

Definition effect (en : entry) (c : catalog) : option catalog :=
  match en with
  | Entry (OpenSCManagerW _ _ _) rep =>
      if r_ret rep =? 0 then Some c else new_handle c (r_ret rep) None
  | Entry (OpenServiceW _ p _) rep =>
      if r_ret rep =? 0 then Some c
      else match services c !! fold (cstr p) with
           | Some _ => new_handle c (r_ret rep) (Some (fold (cstr p)))
           | None => None
           end
  | Entry (CreateServiceW _ p _ _ _ _ _ _ _ _ _ _ _) rep =>
      if r_ret rep =? 0 then Some c
      else match services c !! fold (cstr p) with
           | Some _ => None
           | None => new_handle (with_services c (<[fold (cstr p):=false]> (services c)))
                       (r_ret rep) (Some (fold (cstr p)))
           end
  | Entry (DeleteServiceP h) rep =>
      if r_ret rep =? 0 then Some c
      else match handles c !! h with
           | Some (Some n) => Some (with_services c (<[n:=true]> (services c)))
           | _ => None
           end
  | Entry (CloseServiceHandleP h) rep =>
      match handles c !! h with
      | Some t =>
          if r_ret rep =? 0 then None
          else let hs := delete h (handles c) in
               Some (with_handles (with_services c (swept c hs t)) hs)
      | None => if r_ret rep =? 0 then Some c else None
      end
  | Entry (RegOpenKeyExW k p _ _) rep =>
      if r_ret rep =? 0 then
        match key_path c k with
        | Some base =>
            if decide (is_Some (registry c !! join base (fold (cstr p))))
            then new_key c (r_out rep) (join base (fold (cstr p))) else None
        | None => None
        end
      else Some c
  | Entry (RegCreateKeyExW k p _ _ _ _ _) rep =>
      if r_ret rep =? 0 then
        match key_path c k with
        | Some base =>
            let path := join base (fold (cstr p)) in
            match registry c !! path with
            | Some _ => if (r_out rep).2 =? REG_OPENED_EXISTING_KEY then new_key c (r_out rep).1 path
                        else None
            | None => if (r_out rep).2 =? REG_OPENED_EXISTING_KEY then None
                      else new_key (with_registry c (<[path:=∅]> (registry c))) (r_out rep).1 path
            end
        | None => None
        end
      else Some c
  | Entry (RegDeleteKeyW k p) rep =>
      if r_ret rep =? 0 then
        match key_path c k with
        | Some base =>
            if decide (is_Some (registry c !! join base (fold (cstr p))))
            then Some (with_registry c (delete (join base (fold (cstr p))) (registry c))) else None
        | None => None
        end
      else Some c
  | Entry (RegSetValueExW k vn _ vt buf n) rep =>
      if r_ret rep =? 0 then
        match keys c !! k with
        | Some path =>
            Some (with_registry c
              (alter (λ vs, <[fold (cstr vn):=(vt, take (Z.to_nat n) buf)]> vs) path (registry c)))
        | None => None
        end
      else Some c
  | Entry (RegCloseKeyP k) rep =>
      match keys c !! k with
      | Some _ => if r_ret rep =? 0 then Some (with_keys c (delete k (keys c))) else None
      | None => if r_ret rep =? 0 then None else Some c
      end
  | _ => Some c
  end.

End Effect.

(** The calls the catalog is about. *)
Definition catalog_call (p : api) : bool :=
  match p with
  | OpenSCManagerW _ _ _ | OpenServiceW _ _ _ | CreateServiceW _ _ _ _ _ _ _ _ _ _ _ _ _
  | DeleteServiceP _ | CloseServiceHandleP _ | RegOpenKeyExW _ _ _ _
  | RegCreateKeyExW _ _ _ _ _ _ _ | RegDeleteKeyW _ _ | RegSetValueExW _ _ _ _ _ _
  | RegCloseKeyP _ => true
  | _ => false
  end.

Class Catalogued `{Win : Windows} := {
  fold : wname → wname;
  view : world → catalog;
  view_call p w rep w' :
    catalog_call p = true → call p w = (rep, w') →
    effect fold (Entry p rep) (view w) = Some (view w')
}.

(** ** Well-formed catalogs

    Handles are open on services that exist, and only those run. *)
Definition wf (c : catalog) : Prop :=
  map_Forall (λ _ t, match t with Some n => is_Some (services c !! n) | None => True end) (handles c) ∧
  set_Forall (λ n, is_Some (services c !! n)) (busy c).

Lemma wf_unused c n : wf c → services c !! n = None → unused (handles c) n ∧ n ∉ busy c.
Proof.
  intros [Hh Hb] Hn. split.
  - intros h t Ht ->. specialize (Hh _ _ Ht). simpl in Hh. rewrite Hn in Hh. by destruct Hh.
  - intros Hin. specialize (Hb _ Hin). simpl in Hb. rewrite Hn in Hb. by destruct Hb.
Qed.

(** ** A concrete machine

    It gives out the handles [next], [next + 1], ... and grants every call that the
    catalog allows, but for those that [faults] says it refuses; names are compared
    as ASCII texts are. *)
Record machine := Machine { m_catalog : catalog; m_next : positive; m_faults : list bool }.

Definition ascii_fold : wname → wname := fmap (λ u, if (97 <=? u) && (u <=? 122) then u - 32 else u).

(** Registry procedures return their error code, the others 0 on failure. *)
Definition returns_error (p : api) : bool :=
  match p with
  | RegOpenKeyExW _ _ _ _ | RegCreateKeyExW _ _ _ _ _ _ _ | RegDeleteKeyW _ _
  | RegSetValueExW _ _ _ _ _ _ | RegCloseKeyP _ => true
  | _ => false
  end.

(** The answer that grants the call, and the one that refuses it. *)
Definition granted_reply (c : catalog) (n : Z) (p : api) : reply p :=
  Answer (if returns_error p then 0 else n) 0
    match p as p' return out_of p' with
    | RegOpenKeyExW _ _ _ _ => n
    | RegCreateKeyExW k p _ _ _ _ _ =>
        (n, match key_path c k with
            | Some base =>
                match registry c !! join base (ascii_fold (cstr p)) with
                | Some _ => REG_OPENED_EXISTING_KEY
                | None => 1
                end
            | None => 1
            end)
    | p' => zero_out p'
    end.
Definition refused_reply (p : api) : reply p :=
  Answer (if returns_error p then 5 else 0) 5 (zero_out p).

(** A refusal is impossible only for the closing of a handle, which is granted. *)
Lemma granted_or_refused c (n : positive) p :
  catalog_call p = true → effect ascii_fold (Entry p (refused_reply p)) c = None →
  is_Some (effect ascii_fold (Entry p (granted_reply c (Zpos n) p)) c).
Proof.
  destruct p; try done; intros _; cbn [effect refused_reply r_ret returns_error]; try done.
  - cbn. by destruct (handles c !! handle).
  - cbn. by destruct (keys c !! key).
Qed.

Definition machine_call (p : api) (w : machine) : reply p * machine :=
  let c := m_catalog w in
  let ok := granted_reply c (Zpos (m_next w)) p in
  let no := refused_reply p in
  let after r := (λ c', (r, Machine c' (Pos.succ (m_next w)) (tail (m_faults w))))
                   <$> effect ascii_fold (Entry p r) c in
  default (ok, w)
    (if default false (head (m_faults w)) then after no ∪ after ok else after ok ∪ after no).

Definition CatalogWindows : Windows := {|
  world := machine;
  call := machine_call;
  new_callback := λ w, (inl 4096, w);
  argv_at := λ _ _, None
|}.

Definition CatalogWindows_Catalogued : Catalogued (Win := CatalogWindows).
Proof.
  refine {| fold := ascii_fold; view := m_catalog : @world CatalogWindows → catalog |}.
  intros p w rep w' Hp E. simpl in E. unfold machine_call in E.
  pose proof (granted_or_refused (m_catalog w) (m_next w) p Hp) as Hone.
  destruct (effect ascii_fold (Entry p (granted_reply _ _ p)) (m_catalog w)) as [c1|] eqn:E1;
    destruct (effect ascii_fold (Entry p (refused_reply p)) (m_catalog w)) as [c2|] eqn:E2;
    try (by destruct (Hone eq_refl));
    destruct (default false (head (m_faults w))); simpl in E; by simplify_eq.
Defined.

(** A machine with a few services and the key of the application event sources. *)
Definition demo_catalog (names sources : list wname) (app : wname) : catalog :=
  Catalog (list_to_map ((λ n, (n, false)) <$> names)) ∅ ∅ ∅
    (list_to_map ((λ n, (n, ∅)) <$> (app :: ((join app) <$> sources)))).
