(* ===== verification/Winapi.v ===== *)
(** * Package [winapi]: the generated wrappers of winapi/zwinapi_windows.go

    One definition per wrapper, with the conversion of its arguments, its
    failure convention ([failretval==0] by default, [!=0] for [FreeSid], the
    returned code for the registry, none for [EqualSid] and
    [GetCurrentThreadId]) and what it returns. A wrapper whose caller reads an
    out-parameter after a failure returns the out-values with the error. *)
From Stdlib Require Import ZArith Lia.
From stdpp Require Import base option list strings.
From S2P Require Import Prelude GoText Go WinConst Machine GoSyscall.

Local Open Scope Z_scope.
Local Open Scope go_scope.

Section Wrappers.
Context `{Windows}.

Definition CreateEvent (eventAttrs manualReset initialState : Z) (name : ptr16) : M Z :=
  let! r := syscall (CreateEventW eventAttrs manualReset initialState name) in
  check0 r (r_ret r).

Definition SetEvent (event : Z) : M unit :=
  let! r := syscall (SetEventP event) in check0 r tt.

Definition RegisterEventSource (uncServerName sourceName : ptr16) : M Z :=
  let! r := syscall (RegisterEventSourceW uncServerName sourceName) in check0 r (r_ret r).

Definition DeregisterEventSource (handle : Z) : M unit :=
  let! r := syscall (DeregisterEventSourceP handle) in check0 r tt.

Definition ReportEvent (log etype category eventId usrSId numStrings dataSize : Z)
    (strings : option (list ptr16)) (rawData : Z) : M unit :=
  let! r := syscall (ReportEventW log etype category eventId usrSId numStrings dataSize
                       strings rawData) in
  check0 r tt.

Definition RegCreateKeyEx (key : Z) (subkey : ptr16) (reserved : Z) (class : ptr16)
    (options desired sa : Z) : M (Z * Z) :=
  let! r := syscall (RegCreateKeyExW key subkey reserved class options desired sa) in
  check_regerrno r (r_out r).

Definition RegDeleteKey (key : Z) (subkey : ptr16) : M unit :=
  let! r := syscall (RegDeleteKeyW key subkey) in check_regerrno r tt.

Definition RegSetValueEx (key : Z) (valueName : ptr16) (reserved vtype : Z)
    (buf : list Z) (bufsize : Z) : M unit :=
  let! r := syscall (RegSetValueExW key valueName reserved vtype buf bufsize) in
  check_regerrno r tt.

Definition AllocateAndInitializeSid (identAuth : list Z) (subAuth : Z)
    (subAuth0 subAuth1 subAuth2 subAuth3 subAuth4 subAuth5 subAuth6 subAuth7 : Z) : M Z :=
  let! r := syscall (AllocateAndInitializeSidP identAuth subAuth subAuth0 subAuth1 subAuth2
                       subAuth3 subAuth4 subAuth5 subAuth6 subAuth7) in
  check0 r (r_out r).

Definition FreeSid (sid : Z) : M unit :=
  let! r := syscall (FreeSidP sid) in
  if r_ret r =? 0 then ret tt else err (errno_error (r_err r)).

Definition EqualSid (sid1 sid2 : Z) : M bool :=
  let! r := syscall (EqualSidP sid1 sid2) in ret (negb (r_ret r =? 0)).

Definition OpenSCManager (machineName databaseName : ptr16) (access : Z) : M Z :=
  let! r := syscall (OpenSCManagerW machineName databaseName access) in check0 r (r_ret r).

Definition CloseServiceHandle (handle : Z) : M unit :=
  let! r := syscall (CloseServiceHandleP handle) in check0 r tt.

Definition CreateService (mgr : Z) (serviceName displayName : ptr16)
    (access srvType startType errCtl : Z) (pathName loadOrderGroup : ptr16) (tagId : Z)
    (dependencies serviceStartName password : ptr16) : M Z :=
  let! r := syscall (CreateServiceW mgr serviceName displayName access srvType startType errCtl
                       pathName loadOrderGroup tagId dependencies serviceStartName password) in
  check0 r (r_ret r).

Definition OpenService (mgr : Z) (serviceName : ptr16) (access : Z) : M Z :=
  let! r := syscall (OpenServiceW mgr serviceName access) in check0 r (r_ret r).

Definition DeleteService (service : Z) : M unit :=
  let! r := syscall (DeleteServiceP service) in check0 r tt.

Definition StartService (service numArgs : Z) (argVectors : option (list ptr16)) : M unit :=
  let! r := syscall (StartServiceW service numArgs argVectors) in check0 r tt.

Definition QueryServiceStatus (service : Z) : M SERVICE_STATUS :=
  let! r := syscall (QueryServiceStatusP service) in check0 r (r_out r).

Definition ControlService (service control : Z) : M SERVICE_STATUS :=
  let! r := syscall (ControlServiceP service control) in check0 r (r_out r).

Definition StartServiceCtrlDispatcher (serviceTable : list SERVICE_TABLE_ENTRY) : M unit :=
  let! r := syscall (StartServiceCtrlDispatcherW serviceTable) in check0 r tt.

Definition SetServiceStatus (service : Z) (serviceStatus : SERVICE_STATUS) : M unit :=
  let! r := syscall (SetServiceStatusP service serviceStatus) in check0 r tt.

Definition ChangeServiceConfig (service serviceType startType errorControl : Z)
    (binaryPathName loadOrderGroup : ptr16) (tagId : Z)
    (dependencies serviceStartName password displayName : ptr16) : M unit :=
  let! r := syscall (ChangeServiceConfigW service serviceType startType errorControl
                       binaryPathName loadOrderGroup tagId dependencies serviceStartName
                       password displayName) in
  check0 r tt.

(** The structure and [*bytesNeeded] are read by the caller next to the error. *)
Definition QueryServiceConfig (service bufSize : Z) :
    M (QUERY_SERVICE_CONFIG * Z * option error) :=
  let! r := syscall (QueryServiceConfigW service bufSize) in
  ret (r_out r, if r_ret r =? 0 then Some (errno_error (r_err r)) else None).

Definition ChangeServiceConfig2 (service infoLevel : Z) (info : SERVICE_DESCRIPTION) : M unit :=
  let! r := syscall (ChangeServiceConfig2W service infoLevel info) in check0 r tt.

Definition QueryServiceConfig2 (service infoLevel buffSize : Z) :
    M (SERVICE_DESCRIPTION * Z * option error) :=
  let! r := syscall (QueryServiceConfig2W service infoLevel buffSize) in
  ret (r_out r, if r_ret r =? 0 then Some (errno_error (r_err r)) else None).

Definition GetCurrentThreadId : M Z :=
  let! r := syscall GetCurrentThreadIdP in ret (wrap 32 (r_ret r)).

End Wrappers.
