(* ===== verification/WinDecl.v ===== *)
(** * The //sys lines of package winapi and the code generated from them

    The wrappers of winapi/zwinapi_windows.go are generated from comments in the other
    files of the package: a line [//sys Name(parameters) (results) [test] = dll.proc]
    declares a procedure of Windows. The lines are read here as what they are, text,
    and every wrapper of Winapi is proved to be what its line declares: it calls the
    declared procedure of the declared library, passes one word for each parameter,
    and fails on the declared condition with the declared kind of error.

    What a line means is the convention of Go's generator: a line without a procedure
    means the one of the same name in kernel32, the result [err] is made from the last
    error when the word returned is 0, unless the line gives another test, and
    [regerrno] is the word returned. *)
From Stdlib Require Import ZArith Lia Ascii.
From stdpp Require Import base option list strings.
From S2P Require Import Prelude GoText Go WinConst Machine GoSyscall Winapi.

Local Open Scope Z_scope.
Local Open Scope string_scope.

(** ** The lines *)
Definition sys_event : list string := [
  "//sys	CreateEvent(eventAttrs *syscall.SecurityAttributes, manualReset uint32, initialState uint32, name *uint16) (handle syscall.Handle, err error) = kernel32.CreateEventW";
  "//sys	SetEvent(event syscall.Handle) (err error) = kernel32.SetEvent"
].
Definition sys_eventlog : list string := [
  "//sys	RegisterEventSource(uncServerName *uint16, sourceName *uint16) (handle syscall.Handle, err error) [failretval==0] = advapi32.RegisterEventSourceW";
  "//sys	DeregisterEventSource(handle syscall.Handle) (err error) = advapi32.DeregisterEventSource";
  "//sys	ReportEvent(log syscall.Handle, etype uint16, category uint16, eventId uint32, usrSId uintptr, numStrings uint16, dataSize uint32, strings **uint16, rawData *byte) (err error) = advapi32.ReportEventW"
].
Definition sys_registry : list string := [
  "//sys	RegCreateKeyEx(key syscall.Handle, subkey *uint16, reserved uint32, class *uint16, options uint32, desired uint32, sa *syscall.SecurityAttributes, result *syscall.Handle, disposition *uint32) (regerrno error) = advapi32.RegCreateKeyExW";
  "//sys	RegDeleteKey(key syscall.Handle, subkey *uint16) (regerrno error) = advapi32.RegDeleteKeyW";
  "//sys	RegSetValueEx(key syscall.Handle, valueName *uint16, reserved uint32, vtype uint32, buf *byte, bufsize uint32) (regerrno error) = advapi32.RegSetValueExW"
].
Definition sys_security : list string := [
  "//sys	AllocateAndInitializeSid(identAuth *SidIdentifierAuthority, subAuth byte, subAuth0 uint32, subAuth1 uint32, subAuth2 uint32, subAuth3 uint32, subAuth4 uint32, subAuth5 uint32, subAuth6 uint32, subAuth7 uint32, sid **syscall.SID) (err error) = advapi32.AllocateAndInitializeSid";
  "//sys	FreeSid(sid *syscall.SID) (err error) [failretval!=0] = advapi32.FreeSid";
  "//sys	EqualSid(sid1 *syscall.SID, sid2 *syscall.SID) (isEqual bool) = advapi32.EqualSid"
].
Definition sys_scm : list string := [
  "//sys	OpenSCManager(machineName *uint16, databaseName *uint16, access uint32) (handle syscall.Handle, err error) [failretval==0] = advapi32.OpenSCManagerW"
].
Definition sys_service : list string := [
  "//sys	CloseServiceHandle(handle syscall.Handle) (err error) = advapi32.CloseServiceHandle";
  "//sys	CreateService(mgr syscall.Handle, serviceName *uint16, displayName *uint16, access uint32, srvType uint32, startType uint32, errCtl uint32, pathName *uint16, loadOrderGroup *uint16, tagId *uint32, dependencies *uint16, serviceStartName *uint16, password *uint16) (handle syscall.Handle, err error) [failretval==0] = advapi32.CreateServiceW";
  "//sys	OpenService(mgr syscall.Handle, serviceName *uint16, access uint32) (handle syscall.Handle, err error) [failretval==0] = advapi32.OpenServiceW";
  "//sys	DeleteService(service syscall.Handle) (err error) = advapi32.DeleteService";
  "//sys	StartService(service syscall.Handle, numArgs uint32, argVectors **uint16) (err error) = advapi32.StartServiceW";
  "//sys	QueryServiceStatus(service syscall.Handle, status *SERVICE_STATUS) (err error) = advapi32.QueryServiceStatus";
  "//sys	ControlService(service syscall.Handle, control uint32, status *SERVICE_STATUS) (err error) = advapi32.ControlService";
  "//sys	StartServiceCtrlDispatcher(serviceTable *SERVICE_TABLE_ENTRY) (err error) = advapi32.StartServiceCtrlDispatcherW";
  "//sys	SetServiceStatus(service syscall.Handle, serviceStatus *SERVICE_STATUS) (err error) = advapi32.SetServiceStatus";
  "//sys	ChangeServiceConfig(service syscall.Handle, serviceType uint32, startType uint32, errorControl uint32, binaryPathName *uint16, loadOrderGroup *uint16, tagId *uint32, dependencies *uint16, serviceStartName *uint16, password *uint16, displayName *uint16) (err error) = advapi32.ChangeServiceConfigW";
  "//sys	QueryServiceConfig(service syscall.Handle, serviceConfig *QUERY_SERVICE_CONFIG, bufSize uint32, bytesNeeded *uint32) (err error) = advapi32.QueryServiceConfigW";
  "//sys	ChangeServiceConfig2(service syscall.Handle, infoLevel uint32, info *byte) (err error) = advapi32.ChangeServiceConfig2W";
  "//sys	QueryServiceConfig2(service syscall.Handle, infoLevel uint32, buff *byte, buffSize uint32, bytesNeeded *uint32) (err error) = advapi32.QueryServiceConfig2W"
].
Definition sys_syscall : list string := [
  "//sys	GetCurrentThreadId() (id uint32)"
].

Definition sys_lines : list string :=
  (sys_event ++ sys_eventlog ++ sys_registry ++ sys_security ++ sys_scm ++ sys_service ++ sys_syscall)%list.

(** ** Reading a line *)

(** What is before the first [sep], and what is behind it. *)
Definition split_at (sep s : string) : option (string * string) :=
  match String.index 0 sep s with
  | Some n =>
      let k := (n + String.length sep)%nat in
      Some (String.substring 0 n s, String.substring k (String.length s - k) s)
  | None => None
  end.

Fixpoint split_all (fuel : nat) (sep s : string) : list string :=
  match fuel, split_at sep s with
  | S fuel, Some (a, b) => a :: split_all fuel sep b
  | _, _ => [s]
  end.

(** [a int, b *byte]: names and types. *)
Definition read_params (s : string) : option (list (string * string)) :=
  if bool_decide (s = "") then Some []
  else mapM (split_at " ") (split_all (String.length s) ", " s).

Inductive test := FailIf0 | FailIfNot0.
#[export] Instance test_eq_dec : EqDecision test.
Proof. solve_decision. Defined.

Record decl := Decl {
  d_name : string;
  d_params : list (string * string);
  d_results : list (string * string);
  d_test : test;
  d_dll : string;
  d_proc : string
}.

(** [[failretval==0] = dll.proc], both optional. *)
Definition read_test (s : string) : option (test * string) :=
  match split_at "[failretval" s with
  | None => Some (FailIf0, s)
  | Some (_, s) =>
    match split_at "]" s with
    | Some ("==0", s) => Some (FailIf0, s)
    | Some ("!=0", s) => Some (FailIfNot0, s)
    | _ => None
    end
  end.

Definition read_proc (name s : string) : option (string * string) :=
  match split_at "= " s with
  | None => Some ("kernel32", name)
  | Some (_, s) => split_at "." s
  end.

Definition read_line (s : string) : option decl :=
  '(start, s) ← split_at "	" s;
  guard (start = "//sys");;
  '(name, s) ← split_at "(" s;
  '(params, s) ← split_at ")" s;
  '(_, s) ← split_at "(" s;
  '(results, s) ← split_at ")" s;
  ps ← read_params params;
  rs ← read_params results;
  '(t, s) ← read_test s;
  '(dll, proc) ← read_proc name s;
  Some (Decl name ps rs t dll proc).

Definition decls : list decl := Eval vm_compute in omap read_line sys_lines.

Definition declared (name : string) : option decl := list_find (λ d, d_name d = name) decls ≫= λ x, Some x.2.

(** ** The tables of the generated file

    The library and the procedure behind each [proc] variable; and the number of words
    each wrapper passes, with the number its [Syscall] function takes. *)
Definition procedure (p : api) : option (string * string) :=
  match p with
  | CreateEventW _ _ _ _ => Some ("kernel32", "CreateEventW")
  | SetEventP _ => Some ("kernel32", "SetEvent")
  | RegisterEventSourceW _ _ => Some ("advapi32", "RegisterEventSourceW")
  | DeregisterEventSourceP _ => Some ("advapi32", "DeregisterEventSource")
  | ReportEventW _ _ _ _ _ _ _ _ _ => Some ("advapi32", "ReportEventW")
  | RegCreateKeyExW _ _ _ _ _ _ _ => Some ("advapi32", "RegCreateKeyExW")
  | RegDeleteKeyW _ _ => Some ("advapi32", "RegDeleteKeyW")
  | RegSetValueExW _ _ _ _ _ _ => Some ("advapi32", "RegSetValueExW")
  | AllocateAndInitializeSidP _ _ _ _ _ _ _ _ _ _ => Some ("advapi32", "AllocateAndInitializeSid")
  | FreeSidP _ => Some ("advapi32", "FreeSid")
  | EqualSidP _ _ => Some ("advapi32", "EqualSid")
  | OpenSCManagerW _ _ _ => Some ("advapi32", "OpenSCManagerW")
  | CloseServiceHandleP _ => Some ("advapi32", "CloseServiceHandle")
  | CreateServiceW _ _ _ _ _ _ _ _ _ _ _ _ _ => Some ("advapi32", "CreateServiceW")
  | OpenServiceW _ _ _ => Some ("advapi32", "OpenServiceW")
  | DeleteServiceP _ => Some ("advapi32", "DeleteService")
  | StartServiceW _ _ _ => Some ("advapi32", "StartServiceW")
  | QueryServiceStatusP _ => Some ("advapi32", "QueryServiceStatus")
  | ControlServiceP _ _ => Some ("advapi32", "ControlService")
  | StartServiceCtrlDispatcherW _ => Some ("advapi32", "StartServiceCtrlDispatcherW")
  | SetServiceStatusP _ _ => Some ("advapi32", "SetServiceStatus")
  | ChangeServiceConfigW _ _ _ _ _ _ _ _ _ _ _ => Some ("advapi32", "ChangeServiceConfigW")
  | QueryServiceConfigW _ _ => Some ("advapi32", "QueryServiceConfigW")
  | ChangeServiceConfig2W _ _ _ => Some ("advapi32", "ChangeServiceConfig2W")
  | QueryServiceConfig2W _ _ _ => Some ("advapi32", "QueryServiceConfig2W")
  | GetCurrentThreadIdP => Some ("kernel32", "GetCurrentThreadId")
  | _ => None
  end.

Definition passed (p : api) : option (nat * nat) :=
  match p with
  | CreateEventW _ _ _ _ => Some (4, 6)%nat
  | SetEventP _ => Some (1, 3)%nat
  | RegisterEventSourceW _ _ => Some (2, 3)%nat
  | DeregisterEventSourceP _ => Some (1, 3)%nat
  | ReportEventW _ _ _ _ _ _ _ _ _ => Some (9, 9)%nat
  | RegCreateKeyExW _ _ _ _ _ _ _ => Some (9, 9)%nat
  | RegDeleteKeyW _ _ => Some (2, 3)%nat
  | RegSetValueExW _ _ _ _ _ _ => Some (6, 6)%nat
  | AllocateAndInitializeSidP _ _ _ _ _ _ _ _ _ _ => Some (11, 12)%nat
  | FreeSidP _ => Some (1, 3)%nat
  | EqualSidP _ _ => Some (2, 3)%nat
  | OpenSCManagerW _ _ _ => Some (3, 3)%nat
  | CloseServiceHandleP _ => Some (1, 3)%nat
  | CreateServiceW _ _ _ _ _ _ _ _ _ _ _ _ _ => Some (13, 15)%nat
  | OpenServiceW _ _ _ => Some (3, 3)%nat
  | DeleteServiceP _ => Some (1, 3)%nat
  | StartServiceW _ _ _ => Some (3, 3)%nat
  | QueryServiceStatusP _ => Some (2, 3)%nat
  | ControlServiceP _ _ => Some (3, 3)%nat
  | StartServiceCtrlDispatcherW _ => Some (1, 3)%nat
  | SetServiceStatusP _ _ => Some (2, 3)%nat
  | ChangeServiceConfigW _ _ _ _ _ _ _ _ _ _ _ => Some (11, 12)%nat
  | QueryServiceConfigW _ _ => Some (4, 6)%nat
  | ChangeServiceConfig2W _ _ _ => Some (3, 3)%nat
  | QueryServiceConfig2W _ _ _ => Some (5, 6)%nat
  | GetCurrentThreadIdP => Some (0, 3)%nat
  | _ => None
  end.


(** The functions of the generated file, in their order. *)
Definition wrappers : list string := [
  "CreateEvent"; "SetEvent"; "RegisterEventSource"; "DeregisterEventSource";
  "ReportEvent"; "RegCreateKeyEx"; "RegDeleteKey"; "RegSetValueEx";
  "AllocateAndInitializeSid"; "FreeSid"; "EqualSid"; "OpenSCManager";
  "CloseServiceHandle"; "CreateService"; "OpenService"; "DeleteService";
  "StartService"; "QueryServiceStatus"; "ControlService"; "StartServiceCtrlDispatcher";
  "SetServiceStatus"; "ChangeServiceConfig"; "QueryServiceConfig"; "ChangeServiceConfig2";
  "QueryServiceConfig2"; "GetCurrentThreadId"
].

(** ** What a line declares *)

(** The first result, unless it is the error. *)
Inductive kind := NoResult | Word | Word32 | Truth.
#[export] Instance kind_eq_dec : EqDecision kind.
Proof. solve_decision. Defined.

Definition kind_of (d : decl) : option kind :=
  match d_results d with
  | (_, ty) :: _ =>
      if bool_decide (ty = "error") then Some NoResult
      else if bool_decide (ty = "syscall.Handle") then Some Word
      else if bool_decide (ty = "uint32") then Some Word32
      else if bool_decide (ty = "bool") then Some Truth
      else None
  | [] => Some NoResult
  end.

Inductive failure := LastError (t : test) | ReturnedError | NoError.

Definition failure_of (d : decl) : failure :=
  if bool_decide (("err", "error") ∈ d_results d) then LastError (d_test d)
  else if bool_decide (("regerrno", "error") ∈ d_results d) then ReturnedError
  else NoError.

Local Open Scope Z_scope.

Definition value (k : kind) : Type :=
  match k with NoResult => unit | Word | Word32 => Z | Truth => bool end.

Definition value_of (k : kind) (r : Z) : value k :=
  match k return value k with
  | NoResult => tt
  | Word => r
  | Word32 => wrap 32 r
  | Truth => negb (r =? 0)
  end.

Local Open Scope go_scope.

Section Generated.
Context `{Windows}.

Definition error_of {p} (f : failure) (r : reply p) : option error :=
  match f with
  | LastError FailIf0 => if r_ret r =? 0 then Some (errno_error (r_err r)) else None
  | LastError FailIfNot0 => if r_ret r =? 0 then None else Some (errno_error (r_err r))
  | ReturnedError => if r_ret r =? 0 then None else Some (Errno (r_ret r))
  | NoError => None
  end.

(** The code of a wrapper: the call, its result, what it stored, the error. *)
Definition generated (k : kind) (f : failure) (p : api) : M (value k * out_of p * option error) :=
  let! r := syscall p in ret (value_of k (r_ret r), r_out r, error_of f r).

(** What is left of it for a caller that looks at the results only when there is no
    error. *)
Definition or_error {A B} (res : A → B) (m : M (A * option error)) : M B :=
  let! r := m in
  match r.2 with None => ret (res r.1) | Some e => err e end.

(** The line [name] declares the procedure [p] and a first result of kind [k], and the
    words it declares are those passed, in the smallest [Syscall] that takes them. *)
Definition declares (name : string) (p : api) (k : kind) (f : failure) : Prop :=
  ∃ d n slots, declared name = Some d ∧ procedure p = Some (d_dll d, d_proc d) ∧
    passed p = Some (n, slots) ∧ n = length (d_params d) ∧
    (n ≤ slots ∧ slots < max 1 n + 3 ∧ slots mod 3 = 0)%nat ∧
    kind_of d = Some k ∧ failure_of d = f.

(** A wrapper is what a line declares. *)
Definition is_declared {A} (name : string) (p : api) (k : kind) (res : value k * out_of p → A)
    (m : M A) : Prop :=
  ∃ f, declares name p k f ∧ ∀ s, m s = or_error res (generated k f p) s.

(** One that hands over its results and its error. *)
Definition is_declared_both {A} (name : string) (p : api) (k : kind) (res : value k * out_of p → A)
    (m : M (A * option error)) : Prop :=
  ∃ f, declares name p k f ∧
    ∀ s, m s = (let! r := generated k f p in ret (res r.1, r.2)) s.
End Generated.

(** Every line is read, and no two declare the same name. *)
Lemma sys_lines_read : length decls = length sys_lines ∧ NoDup (d_name <$> decls).
Proof. split; [by vm_compute|]. by apply (bool_decide_unpack _); vm_compute. Qed.

Ltac solve_declares :=
  match goal with |- declares ?name ?p _ _ =>
    let d := eval vm_compute in (declared name) in
    let n := eval cbv [passed] in (passed p) in
    match d with Some ?d => match n with Some (?n, ?slots) =>
      exists d, n, slots; split_and!; [by vm_compute|done|done|done|lia|lia|done|by vm_compute|done]
    end end
  end.
Ltac solve_wrapper :=
  intros ?; unfold or_error, generated, bind, check0, check_regerrno;
  match goal with |- context [syscall ?q ?s] =>
    let r := fresh "r" in destruct (syscall q s) as [[r|?|?] ?]; cbn; try done; by destruct (r_ret r =? 0)
  end.
Ltac solve_declared :=
  lazymatch goal with |- is_declared_both _ _ _ _ _ => unfold is_declared_both | _ => unfold is_declared end;
  first [exists (LastError FailIf0); split; [solve_declares|] | exists (LastError FailIfNot0); split; [solve_declares|]
        | exists ReturnedError; split; [solve_declares|] | exists NoError; split; [solve_declares|]];
  solve_wrapper.

(** C33: every generated wrapper is what its //sys line declares: it makes one call, of
    the declared procedure of the declared library, passes a word for each declared
    parameter through the smallest [Syscall] that takes so many, and fails on the
    declared condition with the declared kind of error; and there is nothing declared
    without a wrapper. *)
Theorem wrappers_follow_declarations `{Windows} :
  (d_name <$> decls) = wrappers ∧
  (∀ a m i n, is_declared "CreateEvent" (CreateEventW a m i n) Word fst (CreateEvent a m i n)) ∧
  (∀ h, is_declared "SetEvent" (SetEventP h) NoResult fst (SetEvent h)) ∧
  (∀ u s, is_declared "RegisterEventSource" (RegisterEventSourceW u s) Word fst (RegisterEventSource u s)) ∧
  (∀ h, is_declared "DeregisterEventSource" (DeregisterEventSourceP h) NoResult fst (DeregisterEventSource h)) ∧
  (∀ l t c e u n d s r, is_declared "ReportEvent" (ReportEventW l t c e u n d s r) NoResult fst (ReportEvent l t c e u n d s r)) ∧
  (∀ k s r c o d a, is_declared "RegCreateKeyEx" (RegCreateKeyExW k s r c o d a) NoResult snd (RegCreateKeyEx k s r c o d a)) ∧
  (∀ k s, is_declared "RegDeleteKey" (RegDeleteKeyW k s) NoResult fst (RegDeleteKey k s)) ∧
  (∀ k n r t b z, is_declared "RegSetValueEx" (RegSetValueExW k n r t b z) NoResult fst (RegSetValueEx k n r t b z)) ∧
  (∀ i n a0 a1 a2 a3 a4 a5 a6 a7, is_declared "AllocateAndInitializeSid" (AllocateAndInitializeSidP i n a0 a1 a2 a3 a4 a5 a6 a7) NoResult snd (AllocateAndInitializeSid i n a0 a1 a2 a3 a4 a5 a6 a7)) ∧
  (∀ a, is_declared "FreeSid" (FreeSidP a) NoResult fst (FreeSid a)) ∧
  (∀ a b, is_declared "EqualSid" (EqualSidP a b) Truth fst (EqualSid a b)) ∧
  (∀ m d a, is_declared "OpenSCManager" (OpenSCManagerW m d a) Word fst (OpenSCManager m d a)) ∧
  (∀ h, is_declared "CloseServiceHandle" (CloseServiceHandleP h) NoResult fst (CloseServiceHandle h)) ∧
  (∀ m n d a t st e p g ti de u pw, is_declared "CreateService" (CreateServiceW m n d a t st e p g ti de u pw) Word fst (CreateService m n d a t st e p g ti de u pw)) ∧
  (∀ m n a, is_declared "OpenService" (OpenServiceW m n a) Word fst (OpenService m n a)) ∧
  (∀ h, is_declared "DeleteService" (DeleteServiceP h) NoResult fst (DeleteService h)) ∧
  (∀ h n v, is_declared "StartService" (StartServiceW h n v) NoResult fst (StartService h n v)) ∧
  (∀ h, is_declared "QueryServiceStatus" (QueryServiceStatusP h) NoResult snd (QueryServiceStatus h)) ∧
  (∀ h c, is_declared "ControlService" (ControlServiceP h c) NoResult snd (ControlService h c)) ∧
  (∀ t, is_declared "StartServiceCtrlDispatcher" (StartServiceCtrlDispatcherW t) NoResult fst (StartServiceCtrlDispatcher t)) ∧
  (∀ h t, is_declared "SetServiceStatus" (SetServiceStatusP h t) NoResult fst (SetServiceStatus h t)) ∧
  (∀ h t st e p g ti de u pw d, is_declared "ChangeServiceConfig" (ChangeServiceConfigW h t st e p g ti de u pw d) NoResult fst (ChangeServiceConfig h t st e p g ti de u pw d)) ∧
  (∀ h n, is_declared_both "QueryServiceConfig" (QueryServiceConfigW h n) NoResult snd (QueryServiceConfig h n)) ∧
  (∀ h l d, is_declared "ChangeServiceConfig2" (ChangeServiceConfig2W h l d) NoResult fst (ChangeServiceConfig2 h l d)) ∧
  (∀ h l n, is_declared_both "QueryServiceConfig2" (QueryServiceConfig2W h l n) NoResult snd (QueryServiceConfig2 h l n)) ∧
  is_declared "GetCurrentThreadId" GetCurrentThreadIdP Word32 fst GetCurrentThreadId.
Proof.
  split; [by vm_compute|]. split_and!; intros;
    unfold CreateEvent, SetEvent, RegisterEventSource, DeregisterEventSource, ReportEvent, RegCreateKeyEx, RegDeleteKey, RegSetValueEx, AllocateAndInitializeSid, FreeSid, EqualSid, OpenSCManager, CloseServiceHandle, CreateService, OpenService, DeleteService, StartService, QueryServiceStatus, ControlService, StartServiceCtrlDispatcher, SetServiceStatus, ChangeServiceConfig, QueryServiceConfig, ChangeServiceConfig2, QueryServiceConfig2, GetCurrentThreadId;
    solve_declared.
Qed.
