(* ===== verification/SvcEvent.v ===== *)
(** * svc/event.go: the auto-reset events between the Go and the assembly code *)
From Stdlib Require Import ZArith Lia.
From stdpp Require Import base option list strings.
From S2P Require Import Prelude GoText Go WinConst Machine GoSyscall Winapi.

Local Open Scope Z_scope.
Local Open Scope go_scope.

Record event := Event { ev_h : Z }.

Section Events.
Context `{Windows}.

Definition newEvent : M event :=
  let! h := CreateEvent 0 0 0 None in ret (Event h).

Definition Close (e : event) : M unit := CloseHandle (ev_h e).

Definition Set_ (e : event) : M unit := SetEvent (ev_h e).

Definition Wait (e : event) : M unit :=
  let! (s, e1) := WaitForSingleObject (ev_h e) INFINITE in
  if s =? WAIT_OBJECT_0 then ret tt
  else if s =? WAIT_FAILED then
    match e1 with Some x => err x | None => ret tt end
  else err (ErrorString "unexpected result from WaitForSingleObject").

(** The rules of the four operations: each makes one call. *)
Lemma wp_newEvent (Q : out event → st → Prop) s :
  (∀ rep w', let s' := St w' (st_trace s ++ [Entry (CreateEventW 0 0 0 None) rep]) (st_vars s) in
     (r_ret rep ≠ 0 → Q (Ret (Event (r_ret rep))) s') ∧
     (r_ret rep = 0 → Q (Err (errno_error (r_err rep))) s')) →
  wp newEvent Q s.
Proof.
  intros HQ. unfold newEvent, CreateEvent. wp_sys; by apply HQ.
Qed.

Lemma wp_Close e (Q : out unit → st → Prop) s :
  (∀ rep w', let s' := St w' (st_trace s ++ [Entry (CloseHandleP (ev_h e)) rep]) (st_vars s) in
     (r_ret rep ≠ 0 → Q (Ret tt) s') ∧ (r_ret rep = 0 → Q (Err (errno_error (r_err rep))) s')) →
  wp (Close e) Q s.
Proof. intros HQ. unfold Close, CloseHandle. wp_sys; by apply HQ. Qed.

(** The handles of the events created and of those closed along a trace. *)
Definition created_event (en : entry) : option Z :=
  match en with
  | Entry (CreateEventW _ _ _ _) rep => if r_ret rep =? 0 then None else Some (r_ret rep)
  | _ => None
  end.
Definition closed_handle (en : entry) : option Z :=
  match en with Entry (CloseHandleP h) _ => Some h | _ => None end.
Definition created_events (tr : list entry) : list Z := omap created_event tr.
Definition closed_handles (tr : list entry) : list Z := omap closed_handle tr.

(** [Wait] gives nil exactly when the wait ended with the event signalled. *)
Lemma Wait_outcome e s :
  wp (Wait e) (λ o s', ∃ rep,
    makes s s' [Entry (WaitForSingleObjectP (ev_h e) INFINITE) rep] ∧
    o = (if wrap 32 (r_ret rep) =? WAIT_OBJECT_0 then Ret tt
         else if wrap 32 (r_ret rep) =? WAIT_FAILED then Err (errno_error (r_err rep))
         else Err (ErrorString "unexpected result from WaitForSingleObject"))) s.
Proof.
  unfold Wait, WaitForSingleObject, WAIT_FAILED, WAIT_OBJECT_0. wp_sys.
  destruct (Z.eqb_spec (wrap 32 (r_ret rep)) 0) as [E0|E0]; [wp_sys; exists rep; by rewrite E0|].
  destruct (Z.eqb_spec (wrap 32 (r_ret rep)) 0xffffffff) as [E1|E1]; wp_sys; exists rep;
    (split; [done|]).
  - by rewrite E1.
  - by rewrite (proj2 (Z.eqb_neq _ _) E0), (proj2 (Z.eqb_neq _ _) E1).
Qed.

End Events.
