(* ===== verification/SvcService.v ===== *)
(** * svc/service.go: the service object, status reports and the start-up

    The types of the package, [newService], [close], [updateStatus],
    [newCallback], and the parts of [run] and [Run] that run on one goroutine;
    how the goroutines meet is the subject of SvcSystem. *)
From Stdlib Require Import ZArith Lia.
From stdpp Require Import base option list strings.
From S2P Require Import Prelude GoText Go WinConst Machine GoSyscall Script Winapi SvcEvent.

Local Open Scope Z_scope.
Local Open Scope go_scope.

(** ** States, commands, accepted controls *)
Definition Stopped : Z := SERVICE_STOPPED.
Definition StartPending : Z := SERVICE_START_PENDING.
Definition StopPending : Z := SERVICE_STOP_PENDING.
Definition Running : Z := SERVICE_RUNNING.
Definition ContinuePending : Z := SERVICE_CONTINUE_PENDING.
Definition PausePending : Z := SERVICE_PAUSE_PENDING.
Definition Paused : Z := SERVICE_PAUSED.

Definition Stop : Z := SERVICE_CONTROL_STOP.
Definition Pause : Z := SERVICE_CONTROL_PAUSE.
Definition Continue : Z := SERVICE_CONTROL_CONTINUE.
Definition Interrogate : Z := SERVICE_CONTROL_INTERROGATE.
Definition Shutdown : Z := SERVICE_CONTROL_SHUTDOWN.
Definition PreShutdown : Z := SERVICE_CONTROL_PRESHUTDOWN.

Definition AcceptStop : Z := SERVICE_ACCEPT_STOP.
Definition AcceptShutdown : Z := SERVICE_ACCEPT_SHUTDOWN.
Definition AcceptPreShutdown : Z := SERVICE_ACCEPT_PRESHUTDOWN.
Definition AcceptPauseAndContinue : Z := SERVICE_ACCEPT_PAUSE_CONTINUE.

Record Status := {
  State : Z;
  Accepts : Z;
  CheckPoint : Z;
  WaitHint : Z
}.

(** [Status{State: x}] *)
Definition status_of (x : Z) : Status :=
  {| State := x; Accepts := 0; CheckPoint := 0; WaitHint := 0 |}.

Record ChangeRequest := {
  Cmd : Z;
  CurrentStatus : Status
}.

Record ctlEvent := {
  cmd : Z;
  eventType : Z;
  eventData : Z;
  context : Z;
  errno : Z
}.

Record exitCode := {
  isSvcSpecific : bool;
  ec_errno : Z
}.

(** The channel [s.c] and the handler belong to the concurrent system. *)
Record service := {
  name : string;
  h : Z;
  cWaits : event;
  goWaits : event
}.

#[export] Instance Status_eq_dec : EqDecision Status.
Proof. solve_decision. Defined.
#[export] Instance ChangeRequest_eq_dec : EqDecision ChangeRequest.
Proof. solve_decision. Defined.
#[export] Instance ctlEvent_eq_dec : EqDecision ctlEvent.
Proof. solve_decision. Defined.
#[export] Instance exitCode_eq_dec : EqDecision exitCode.
Proof. solve_decision. Defined.

Definition sysErrSetServiceStatusFailed : Z := APPLICATION_ERROR + 0.
Definition sysErrNewThreadInCallback : Z := APPLICATION_ERROR + 1.

(** The structure [updateStatus] fills in. *)
Definition service_status (status : Status) (ec : exitCode) : SERVICE_STATUS :=
  let accepts := Accepts status in
  let ca := 0 in
  let ca := if (accepts &&& AcceptStop)%winsvc =? 0 then ca
            else (ca ||| SERVICE_ACCEPT_STOP)%winsvc in
  let ca := if (accepts &&& AcceptShutdown)%winsvc =? 0 then ca
            else (ca ||| SERVICE_ACCEPT_SHUTDOWN)%winsvc in
  let ca := if (accepts &&& AcceptPreShutdown)%winsvc =? 0 then ca
            else (ca ||| SERVICE_ACCEPT_PRESHUTDOWN)%winsvc in
  let ca := if (accepts &&& AcceptPauseAndContinue)%winsvc =? 0 then ca
            else (ca ||| SERVICE_ACCEPT_PAUSE_CONTINUE)%winsvc in
  let '(win32, specific) :=
    if ec_errno ec =? 0 then (NO_ERROR, NO_ERROR)
    else if isSvcSpecific ec then (ERROR_SERVICE_SPECIFIC_ERROR, ec_errno ec)
    else (ec_errno ec, NO_ERROR) in
  {| ss_ServiceType := SERVICE_WIN32_OWN_PROCESS;
     ss_CurrentState := State status;
     ss_ControlsAccepted := ca;
     ss_Win32ExitCode := win32;
     ss_ServiceSpecificExitCode := specific;
     ss_CheckPoint := CheckPoint status;
     ss_WaitHint := WaitHint status |}.

Section Service.
Context `{Windows}.

Definition newService (name : string) : M service :=
  let! cw := newEvent in
  let! gw := attempt newEvent in
  match gw with
  | inr e => ignore (Close cw) ;; err e
  | inl gw => ret {| name := name; h := 0; cWaits := cw; goWaits := gw |}
  end.

Definition close (s : service) : M unit :=
  ignore (Close (cWaits s)) ;; ignore (Close (goWaits s)) ;; ret tt.

Definition updateStatus (s : service) (status : Status) (ec : exitCode) : M unit :=
  if h s =? 0 then err (ErrorString "updateStatus with no service status handle")
  else SetServiceStatus (h s) (service_status status ec).

(** [syscall.NewCallback] and the deferred [recover] around it. *)
Definition NewCallback : M Z := λ s,
  let '(r, w') := new_callback (st_world s) in
  (match r with inl cb => Ret cb | inr p => Panic p end, St w' (st_trace s) (st_vars s)).

Definition newCallback : M Z :=
  recovering (λ r, match r with
                   | PanicString v => Err (ErrorString v)
                   | PanicError v => Err v
                   | PanicOther => Err (ErrorString "unexpected panic in syscall.NewCallback")
                   end) NewCallback.

(** *** The control handler, up to its send on [s.c] *)
Definition ctlHandler (tid ctl event eventData ctx : Z) : M ctlEvent :=
  let! i := GetCurrentThreadId in
  ret {| cmd := ctl; eventType := event; eventData := eventData; context := ctx;
         errno := if i =? tid then 0 else sysErrNewThreadInCallback |}.

(** *** The start of [run]: the wait, the handle and the arguments *)
Fixpoint args_of (ps : list (list Z)) : out (list string) :=
  match ps with
  | [] => Ret []
  | a :: ps =>
    match UTF16ToString_at (2 ^ 20) a with
    | Ret x => match args_of ps with Ret xs => Ret (x :: xs) | o => o end
    | Err e => Err e
    | Panic p => Panic p
    end
  end.

(** The slice of the 100 pointers at [sArgv] up to [sArgc], and the strings there. *)
Definition run_args : M (list string) := λ s,
  let argc := sArgc (st_vars s) in
  let argv := sArgv (st_vars s) in
  (if argv =? 0 then Panic memory_fault
   else if 100 <? argc then Panic slice_out_of_range
   else match argv_at (st_world s) argv with
        | None => if argc =? 0 then Ret [] else Panic memory_fault
        | Some ps => if Z.of_nat (length ps) <? argc then Panic memory_fault
                     else args_of (take (Z.to_nat argc) ps)
        end, s).

Definition run_start (s : service) : M (service * list string) :=
  ignore (Wait (goWaits s)) ;;
  let! σ := get in
  let s := {| name := name s; h := ssHandle (st_vars σ); cWaits := cWaits s;
              goWaits := goWaits s |} in
  let! args := run_args in
  ret (s, args).

(** *** [Run] up to the start of the goroutines, and its last call *)
Definition Run_prepare (servicemain : Z) (name : string) :
    M (Z * service * list SERVICE_TABLE_ENTRY) :=
  let! tid := GetCurrentThreadId in
  let! s := newService name in
  let! p := StringToUTF16Ptr name in
  let t := [{| te_ServiceName := p; te_ServiceProc := servicemain |};
            {| te_ServiceName := None; te_ServiceProc := 0 |}] in
  set_vars (λ v, {| goWaitsH := ev_h (goWaits s); cWaitsH := ev_h (cWaits s);
                    ssHandle := ssHandle v; sName := p; sArgc := sArgc v; sArgv := sArgv v;
                    ctlHandlerProc := ctlHandlerProc v |}) ;;
  let! cb := attempt newCallback in
  set_vars (λ v, {| goWaitsH := goWaitsH v; cWaitsH := cWaitsH v; ssHandle := ssHandle v;
                    sName := sName v; sArgc := sArgc v; sArgv := sArgv v;
                    ctlHandlerProc := match cb with inl c => c | inr _ => 0 end |}) ;;
  match cb with
  | inr e => err e
  | inl _ => ret (tid, s, t)
  end.

Definition Run_dispatch (t : list SERVICE_TABLE_ENTRY) : M unit :=
  StartServiceCtrlDispatcher t.

End Service.

(** ** What the service control manager is told *)

(** One acceptance flag of [updateStatus]: copied when it is set in [a]. *)
Lemma accept_step_testbit a ca n i :
  0 <= n →
  Z.testbit (if Z.land a (Z.shiftl 1 n) =? 0 then ca else Z.lor ca (Z.shiftl 1 n)) i
  = Z.testbit ca i || (Z.testbit a n && (i =? n)).
Proof.
  intros Hn. rewrite land_flag by done. destruct (Z.testbit a n); simpl.
  - by apply lor_flag_testbit.
  - by rewrite orb_false_r.
Qed.

(** The four controls the package knows: stop, pause/continue, shutdown, pre-shutdown. *)
Definition known_accepts : Z := 0x107.

Lemma known_accepts_testbit i :
  Z.testbit known_accepts i = (i =? 0) || (i =? 1) || (i =? 2) || (i =? 8).
Proof.
  change known_accepts with
    (Z.lor (Z.lor (Z.lor (Z.lor 0 (Z.shiftl 1 0)) (Z.shiftl 1 1)) (Z.shiftl 1 2)) (Z.shiftl 1 8)).
  by rewrite !lor_flag_testbit, Z.bits_0 by lia.
Qed.

Lemma service_status_accepts status ec :
  ss_ControlsAccepted (service_status status ec) = Z.land (Accepts status) known_accepts.
Proof.
  unfold service_status.
  destruct (if ec_errno ec =? 0 then _ else _) as [win32 specific]. cbn [ss_ControlsAccepted].
  apply Z.bits_inj. intros i.
  unfold AcceptStop, AcceptShutdown, AcceptPreShutdown, AcceptPauseAndContinue,
    SERVICE_ACCEPT_STOP, SERVICE_ACCEPT_SHUTDOWN, SERVICE_ACCEPT_PRESHUTDOWN,
    SERVICE_ACCEPT_PAUSE_CONTINUE.
  rewrite !accept_step_testbit, Z.land_spec, known_accepts_testbit, Z.bits_0 by lia.
  destruct (decide (i = 0)) as [->|]; [simpl; by rewrite ?andb_true_r, ?andb_false_r, ?orb_false_r|].
  destruct (decide (i = 1)) as [->|]; [simpl; by rewrite ?andb_true_r, ?andb_false_r, ?orb_false_r|].
  destruct (decide (i = 2)) as [->|]; [simpl; by rewrite ?andb_true_r, ?andb_false_r, ?orb_false_r|].
  destruct (decide (i = 8)) as [->|]; [simpl; by rewrite ?andb_true_r, ?andb_false_r, ?orb_false_r|].
  by rewrite !(proj2 (Z.eqb_neq i _)), !andb_false_r by done.
Qed.

(** How the control manager reads the two exit-code fields. *)
Definition decode_exit (t : SERVICE_STATUS) : exitCode :=
  if ss_Win32ExitCode t =? ERROR_SERVICE_SPECIFIC_ERROR
  then {| isSvcSpecific := true; ec_errno := ss_ServiceSpecificExitCode t |}
  else {| isSvcSpecific := false; ec_errno := ss_Win32ExitCode t |}.

(** An exit code is read back as it was given, unless it is the plain error
    number 1066, which announces a service-specific one; "no error" is read as
    error 0. *)
Lemma decode_service_status status ec :
  (isSvcSpecific ec = false → ec_errno ec ≠ ERROR_SERVICE_SPECIFIC_ERROR) →
  decode_exit (service_status status ec)
  = if ec_errno ec =? 0 then {| isSvcSpecific := false; ec_errno := 0 |} else ec.
Proof.
  intros Hamb. unfold decode_exit, service_status. destruct ec as [[] e]; simpl in *.
  - by destruct (Z.eqb_spec e 0).
  - destruct (Z.eqb_spec e 0) as [->|?]; simpl; [done|].
    destruct (Z.eqb_spec e ERROR_SERVICE_SPECIFIC_ERROR); [by destruct Hamb|done].
Qed.

Section ServiceTheorems.
Context `{Windows}.

Lemma wp_SetServiceStatus hd t (Q : out unit → st → Prop) s :
  (∀ rep w', let s' := St w' (st_trace s ++ [Entry (SetServiceStatusP hd t) rep]) (st_vars s) in
     (r_ret rep ≠ 0 → Q (Ret tt) s') ∧ (r_ret rep = 0 → Q (Err (errno_error (r_err rep))) s')) →
  wp (SetServiceStatus hd t) Q s.
Proof. intros HQ. unfold SetServiceStatus. wp_sys; by apply HQ. Qed.

(** [updateStatus] with no handle makes no call; otherwise it makes one call,
    with the structure below, and gives nil exactly when Windows reports success. *)
Lemma updateStatus_run sv status ec s :
  wp (updateStatus sv status ec) (λ o s', ∃ tr, makes s s' tr ∧ st_vars s' = st_vars s ∧
    if h sv =? 0 then
      tr = [] ∧ o = Err (ErrorString "updateStatus with no service status handle")
    else ∃ rep, tr = [Entry (SetServiceStatusP (h sv) (service_status status ec)) rep] ∧
      o = if r_ret rep =? 0 then Err (errno_error (r_err rep)) else Ret tt) s.
Proof.
  unfold updateStatus. destruct (h sv =? 0).
  - wp_step. exists []. eauto with winsvc.
  - apply wp_SetServiceStatus. intros rep w'. cbv zeta.
    split; intros Hr; (eexists; split; [done|]; split; [done|]; exists rep; split; [done|]).
    + by rewrite (proj2 (Z.eqb_neq _ _) Hr).
    + by rewrite Hr.
Qed.

(** The control handler always gets as far as its send. *)
Lemma ctlHandler_sends t ctl ev data ctx σ : ∃ e σ', ctlHandler t ctl ev data ctx σ = (Ret e, σ').
Proof.
  unfold ctlHandler, GetCurrentThreadId, syscall, bind, ret. destruct (call _ _). eauto.
Qed.

Lemma ctlHandler_cmd t ctl ev data ctx σ e σ' : ctlHandler t ctl ev data ctx σ = (Ret e, σ') → cmd e = ctl.
Proof.
  unfold ctlHandler, GetCurrentThreadId, bind, ret. repeat case_match; intros; by simplify_eq/=.
Qed.

End ServiceTheorems.

(** ** Properties *)
Section Properties.
Context `{Windows}.

(** C9: a status report with a handle makes exactly one call, whose structure
    carries the state, the check point and the wait hint unchanged, accepts
    exactly those of the four known controls that the status accepts, and whose
    exit fields read back as the given exit code (except for the one ambiguous
    code); it returns nil exactly when Windows reports success. *)
Theorem updateStatus_reports sv status ec s :
  h sv ≠ 0 →
  wp (updateStatus sv status ec) (λ o s', ∃ t rep,
    makes s s' [Entry (SetServiceStatusP (h sv) t) rep] ∧
    ss_ServiceType t = SERVICE_WIN32_OWN_PROCESS ∧
    ss_CurrentState t = State status ∧
    ss_ControlsAccepted t = Z.land (Accepts status) known_accepts ∧
    ss_CheckPoint t = CheckPoint status ∧ ss_WaitHint t = WaitHint status ∧
    ((isSvcSpecific ec = false → ec_errno ec ≠ ERROR_SERVICE_SPECIFIC_ERROR) →
     decode_exit t = if ec_errno ec =? 0 then {| isSvcSpecific := false; ec_errno := 0 |} else ec) ∧
    (o = Ret tt ↔ r_ret rep ≠ 0)) s.
Proof.
  intros Hh. eapply wp_mono; [apply updateStatus_run|].
  intros o s' (tr & Hm & _ & Hif). rewrite (proj2 (Z.eqb_neq _ _) Hh) in Hif.
  destruct Hif as (rep & -> & ->).
  eexists _, rep. split; [exact Hm|]. rewrite service_status_accepts.
  split_and!; try done; try (unfold service_status; by destruct (if ec_errno ec =? 0 then _ else _)).
  - apply decode_service_status.
  - destruct (Z.eqb_spec (r_ret rep) 0) as [->|?]; split; congruence.
Qed.

(** [newCallback] never panics: whatever [syscall.NewCallback] panics with
    becomes an error, the panic's own string or error where it has one, and no
    callback is returned with it. *)
Theorem newCallback_total s :
  wp newCallback (λ o s', makes s s' [] ∧
    match o, (new_callback (st_world s)).1 with
    | Ret cb, inl cb' => cb = cb'
    | Err e, inr (PanicString v) => e = ErrorString v
    | Err e, inr (PanicError v) => e = v
    | Err e, inr PanicOther => e = ErrorString "unexpected panic in syscall.NewCallback"
    | _, _ => False
    end) s.
Proof.
  unfold newCallback. wp_step. unfold wp, NewCallback.
  destruct (new_callback (st_world s)) as [[cb|[v|v|]] w']; simpl;
    (split; [by unfold makes; rewrite app_nil_r|done]).
Qed.

(** *** The arguments *)
Lemma args_of_strings (args : list string) :
  Forall (λ a, has_nul a = false ∧ Z.of_nat (length (units_of a)) < 2 ^ 20) args →
  args_of ((λ a, units_of a ++ [0]) <$> args) = Ret (sanitize <$> args).
Proof.
  induction 1 as [|a args [Ha Hl] Hargs IH]; [done|].
  cbn [fmap list_fmap args_of].
  rewrite (UTF16ToString_StringToUTF16 _ a) by (first [by apply StringToUTF16_ok
    | rewrite length_app; cbn [length]; lia]).
  cbn [fmap list_fmap] in IH. by rewrite IH.
Qed.

(** The arguments [run] hands to [Execute] are the strings in memory at the
    saved vector, in order and complete, for up to 100 arguments. *)
Theorem run_args_reads_all (args : list string) rest s :
  Forall (λ a, has_nul a = false ∧ Z.of_nat (length (units_of a)) < 2 ^ 20) args →
  Z.of_nat (length args) <= 100 →
  sArgc (st_vars s) = Z.of_nat (length args) →
  sArgv (st_vars s) ≠ 0 →
  argv_at (st_world s) (sArgv (st_vars s)) = Some (((λ a, units_of a ++ [0]) <$> args) ++ rest) →
  run_args s = (Ret (sanitize <$> args), s).
Proof.
  intros Hargs Hl Hc Hv Hm. unfold run_args.
  rewrite Hc, Hm, (proj2 (Z.eqb_neq _ _) Hv), (proj2 (Z.ltb_ge _ _) Hl).
  rewrite length_app, length_fmap, (proj2 (Z.ltb_ge _ _)) by lia.
  rewrite Nat2Z.id, take_app_length' by by rewrite length_fmap.
  by rewrite args_of_strings.
Qed.

(** With more than 100 arguments the service does not start: [run] panics
    on the slice expression, whatever the arguments are. *)
Theorem run_args_over_100_panics s :
  sArgv (st_vars s) ≠ 0 → 100 < sArgc (st_vars s) →
  run_args s = (Panic slice_out_of_range, s).
Proof.
  intros Hv Hc. unfold run_args.
  by rewrite (proj2 (Z.eqb_neq _ _) Hv), (proj2 (Z.ltb_lt _ _) Hc).
Qed.

(** The ways through [newService]: both events, or an error with nothing left open. *)
Lemma newService_cases nm s :
  wp (newService nm) (λ o s', ∃ tr, makes s s' tr ∧ st_vars s' = st_vars s ∧
    match o with
    | Ret sv => name sv = nm ∧ h sv = 0 ∧
                created_events tr = [ev_h (cWaits sv); ev_h (goWaits sv)] ∧
                closed_handles tr = []
    | Err _ => closed_handles tr = created_events tr
    | Panic _ => False
    end) s.
Proof.
  unfold newService. wp_go. apply wp_newEvent. intros rep w'. split; intros Hr; cbn [st_trace].
  2: { eexists. split; [done|]. split; [done|]. trace_cbn. by rewrite Hr. }
  wp_go. apply wp_newEvent. intros rep2 w2. split; intros Hr2; cbn [st_trace st_vars].
  - wp_go. eexists. split; [by unfold makes; rewrite <- app_assoc|]. split; [done|]. trace_cbn.
    by rewrite !(proj2 (Z.eqb_neq _ _)) by done.
  - wp_go. apply wp_Close. intros rep3 w3.
    split; intros Hr3; wp_go; (eexists; split; [by unfold makes; cbn; rewrite <- !app_assoc|];
      split; [done|]; trace_cbn; by rewrite (proj2 (Z.eqb_neq _ _) Hr), Hr2).
Qed.

(** The set-up of [Run]. On success the dispatch table holds the service's
    name and the entry point and ends with the null entry, and the variables the
    assembly code reads hold the two events, the name and the callback. A name
    with a NUL panics. On an error either every created event has been closed, or
    [NewCallback] failed, and then both events stay open. *)
Theorem Run_prepare_spec servicemain nm s :
  wp (Run_prepare servicemain nm) (λ o s', ∃ tr, makes s s' tr ∧
    match o with
    | Ret (tid, sv, t) =>
        has_nul nm = false ∧ name sv = nm ∧ h sv = 0 ∧
        t = [{| te_ServiceName := Some (units_of nm ++ [0]); te_ServiceProc := servicemain |};
             {| te_ServiceName := None; te_ServiceProc := 0 |}] ∧
        goWaitsH (st_vars s') = ev_h (goWaits sv) ∧ cWaitsH (st_vars s') = ev_h (cWaits sv) ∧
        sName (st_vars s') = Some (units_of nm ++ [0]) ∧
        (∃ w, (new_callback w).1 = inl (ctlHandlerProc (st_vars s'))) ∧
        created_events tr = [ev_h (cWaits sv); ev_h (goWaits sv)] ∧ closed_handles tr = []
    | Err e => closed_handles tr = created_events tr ∨
        (∃ w p, (new_callback w).1 = inr p) ∧ length (created_events tr) = 2%nat ∧
        closed_handles tr = []
    | Panic p => has_nul nm = true
    end) s.
Proof.
  unfold Run_prepare, GetCurrentThreadId. wp_go.
  eapply wp_mono; [apply newService_cases|].
  intros o s' (tr & Hm & Hv & Ho). unfold makes in Hm. cbn [st_trace] in Hm.
  rewrite <- app_assoc in Hm.
  assert (created_events ([Entry GetCurrentThreadIdP rep] ++ tr) = created_events tr) as Ec by done.
  assert (closed_handles ([Entry GetCurrentThreadIdP rep] ++ tr) = closed_handles tr) as El by done.
  destruct o as [sv|e|p]; [| |done].
  2: { eexists. split; [exact Hm|]. left. by rewrite Ec, El. }
  destruct Ho as (Hn & Hh & Hcr & Hcl).
  wp_sys; [|eexists; split; [exact Hm|done]].
  unfold newCallback, set_vars. wp_go. unfold wp, NewCallback.
  destruct (new_callback _) as [[cb|[v|v|]] w2] eqn:Hcb; cbn -[units_of app];
    (eexists; split; [exact Hm|]; cbn -[units_of app]; rewrite Ec, El, Hcr);
    [split_and!; try done; eexists; by rewrite Hcb|right..];
    (split_and!; try done; eexists _, _; by rewrite Hcb).
Qed.

End Properties.

(** ** The theorems on concrete inputs *)
Definition demo_service : service :=
  {| name := "demo"; h := 7; cWaits := Event 1; goWaits := Event 2 |}.

Lemma updateStatus_reports_witness :
  h demo_service ≠ 0 ∧
  wp (updateStatus demo_service {| State := Running; Accepts := 0xffff; CheckPoint := 3; WaitHint := 9 |}
        {| isSvcSpecific := false; ec_errno := 5 |}) (λ o s', ∃ t rep,
    makes (fresh (H := ScriptWindows plain) []) s' [Entry (SetServiceStatusP 7 t) rep] ∧
    ss_ServiceType t = SERVICE_WIN32_OWN_PROCESS ∧ ss_CurrentState t = 4 ∧
    ss_ControlsAccepted t = Z.land 0xffff known_accepts ∧
    ss_CheckPoint t = 3 ∧ ss_WaitHint t = 9 ∧
    ((false = false → 5 ≠ ERROR_SERVICE_SPECIFIC_ERROR) →
     decode_exit t = if 5 =? 0 then {| isSvcSpecific := false; ec_errno := 0 |}
                     else {| isSvcSpecific := false; ec_errno := 5 |}) ∧
    (o = Ret tt ↔ r_ret rep ≠ 0)) (fresh (H := ScriptWindows plain) []).
Proof.
  split; [done|]. exact (updateStatus_reports demo_service _ _ (fresh (H := ScriptWindows plain) [])
    ltac:(done)).
Defined.

(** A process whose service was started with two arguments. *)
Definition two_args : list string := ["svc"; "-v"]%string.
Definition args_script : script :=
  {| sc_outs := zero_out; sc_callback := inl 4096;
     sc_argv := λ _, Some ((λ a, units_of a ++ [0]) <$> two_args) |}.
Definition args_state (n : Z) : st (H := ScriptWindows args_script) :=
  St (H := ScriptWindows args_script) [] []
    {| goWaitsH := 0; cWaitsH := 0; ssHandle := 7; sName := None; sArgc := n; sArgv := 4096;
       ctlHandlerProc := 0 |}.

Lemma run_args_reads_all_witness : run_args (args_state 2) = (Ret two_args, args_state 2).
Proof.
  refine (run_args_reads_all two_args [] (args_state 2) _ _ _ _ _);
    [repeat constructor; by vm_compute|by vm_compute|done|done|by vm_compute].
Defined.

Lemma run_args_over_100_panics_witness :
  sArgc (st_vars (args_state 101)) = 101 ∧
  run_args (args_state 101) = (Panic slice_out_of_range, args_state 101).
Proof. split; [done|]. by apply run_args_over_100_panics. Defined.
