(* ===== verification/SvcAsm.v ===== *)
(** * svc/sys_amd64.s and svc/sys_386.s: the service's main function

    Windows calls [servicemain] on a thread of its own. It saves the arguments,
    registers the control handler, wakes [run] and sleeps until [run] has
    reported the service stopped. The two files differ in how they save the
    argument vector: [MOVL] stores 32 bits, which is the whole variable on 386
    and its low half on amd64. ServiceMain proves that the
    instructions of both files do these steps. *)
From Stdlib Require Import ZArith Lia.
From stdpp Require Import base option list strings.
From S2P Require Import Prelude GoText Go WinConst Machine GoSyscall Script Winapi.

Local Open Scope Z_scope.
Local Open Scope go_scope.

Inductive arch := AMD64 | I386.

#[export] Instance arch_eq_dec : EqDecision arch.
Proof. solve_decision. Defined.

Definition word_bits (a : arch) : Z := match a with AMD64 => 64 | I386 => 32 end.

(** [MOVL v, x(SB)]: the low 32 bits of the variable are replaced. *)
Definition movl (old v : Z) : Z := (old / 2 ^ 32) * 2 ^ 32 + wrap 32 v.

(** Where [servicemain] is; its local values are in the constructor. *)
Inductive smain_pc :=
| SmIdle                     (* Windows has not called it *)
| SmEntry (argc argv : Z)    (* called *)
| SmRegister                 (* about to register the control handler *)
| SmStore (hd : Z)           (* about to store the handle it was given *)
| SmSignal                   (* about to signal [goWaits] *)
| SmWait                     (* about to wait for [cWaits] *)
| SmExited.

#[export] Instance smain_pc_eq_dec : EqDecision smain_pc.
Proof. solve_decision. Defined.

Section Asm.
Context `{Windows}.
Context (servicectlhandler : Z).

(** The code up to the next point where the other goroutines can tell the
    difference: a store to a shared variable, or a call of Windows. *)
Definition servicemain_step (p : smain_pc) : M smain_pc :=
  match p with
  | SmEntry argc argv =>
      set_vars (λ v, {| goWaitsH := goWaitsH v; cWaitsH := cWaitsH v; ssHandle := ssHandle v;
                        sName := sName v; sArgc := movl (sArgc v) argc;
                        sArgv := movl (sArgv v) argv; ctlHandlerProc := ctlHandlerProc v |}) ;;
      ret SmRegister
  | SmRegister =>
      let! σ := get in
      let! r := syscall (RegisterServiceCtrlHandlerExW (sName (st_vars σ)) servicectlhandler 0) in
      ret (if r_ret r =? 0 then SmExited else SmStore (r_ret r))
  | SmStore hd =>
      set_vars (λ v, {| goWaitsH := goWaitsH v; cWaitsH := cWaitsH v; ssHandle := hd;
                        sName := sName v; sArgc := sArgc v; sArgv := sArgv v;
                        ctlHandlerProc := ctlHandlerProc v |}) ;;
      ret SmSignal
  | SmSignal =>
      let! σ := get in
      syscall (SetEventP (goWaitsH (st_vars σ))) ;;
      ret SmWait
  | SmWait =>
      let! σ := get in
      syscall (WaitForSingleObjectP (cWaitsH (st_vars σ)) 0xffffffff) ;;
      ret SmExited
  | SmIdle | SmExited => ret p
  end.

(** It is running. *)
Definition sm_running (p : smain_pc) : bool :=
  match p with SmIdle | SmExited => false | _ => true end.

(** The variables after the argument registers have been saved. *)
Lemma movl_small old v : 0 <= old < 2 ^ 32 → u32 v → movl old v = v.
Proof.
  intros Ho Hv. unfold movl. rewrite wrap_small by done. rewrite Z.div_small by done. lia.
Qed.

Lemma movl_zero v : movl 0 v = wrap 32 v.
Proof. done. Qed.

(** What [servicemain] saves: the argument count is exact, the address of the
    argument vector only when it fits in 32 bits, which it does on 386, while on
    amd64 an address above 4 GB is cut off. *)
Theorem servicemain_saves a argc argv s :
  u32 argc → in_range (word_bits a) argv →
  sArgc (st_vars s) = 0 → sArgv (st_vars s) = 0 →
  wp (servicemain_step (SmEntry argc argv)) (λ o s',
    o = Ret SmRegister ∧ sArgc (st_vars s') = argc ∧ (sArgv (st_vars s') = argv ↔ argv < 2 ^ 32) ∧
    (a = I386 → sArgv (st_vars s') = argv)) s.
Proof.
  intros Hc Hv H0 H1. unfold servicemain_step. wp_go. rewrite H0, H1, !movl_zero, wrap_small by done.
  assert (wrap 32 argv = argv ↔ argv < 2 ^ 32) as Hw.
  { split; [intros <-; apply wrap_in_range; lia|]. intros Hlt. apply wrap_small.
    unfold in_range in *. lia. }
  split; [done|]. split; [done|]. split; [done|]. intros ->. by apply Hw, Hv.
Qed.

End Asm.

(** ** The theorem on a concrete input *)
Definition asm_state : st := fresh (H := ScriptWindows plain) [].

Lemma servicemain_saves_witness :
  wp (servicemain_step 4096 (SmEntry 1 (2 ^ 33))) (λ o s',
    o = Ret SmRegister ∧ sArgc (st_vars s') = 1 ∧ (sArgv (st_vars s') = 2 ^ 33 ↔ 2 ^ 33 < 2 ^ 32) ∧
    (AMD64 = I386 → sArgv (st_vars s') = 2 ^ 33)) asm_state.
Proof.
  refine (servicemain_saves 4096 AMD64 1 (2 ^ 33) asm_state _ _ eq_refl eq_refl);
    by unfold in_range.
Defined.
