(* ===== verification/Cpu.v ===== *)
(** * The machine under the assembly files

    The instructions that svc/sys_amd64.s and svc/sys_386.s are written in (the
    operand order and the mnemonics are those of Go's assembler), on a machine with
    registers, a stack in memory and the package's variables, and the calling
    conventions of Windows on both architectures. A call of Windows answers as
    [Windows] says and otherwise leaves behind what it likes: what is in the volatile
    registers, in the flags, and on its part of the stack is a parameter. *)
From Stdlib Require Import ZArith Lia.
From stdpp Require Import base option list strings.
From S2P Require Import Prelude GoText Go WinConst Machine GoSyscall Winapi SvcAsm.

Local Open Scope Z_scope.

Inductive reg := AX | BX | CX | DX | SI | DI | BP | SP | R8 | R9.

Definition reg_code (r : reg) : nat :=
  match r with
  | AX => 0 | BX => 1 | CX => 2 | DX => 3 | SI => 4 | DI => 5 | BP => 6 | SP => 7 | R8 => 8 | R9 => 9
  end.

(** The procedures of Windows that the code calls. *)
Inductive proc := SetEventProc | WaitForSingleObjectProc | RegisterServiceCtrlHandlerExWProc.

(** A machine word: a number, a pointer to text, the address of a procedure. *)
Inductive word := Int (z : Z) | Text (p : ptr16) | Proc (f : proc).

(** The variables of svc/service.go that the assembly code names. *)
Inductive var :=
| GoWaitsH | CWaitsH | SsHandle | SName | SArgc | SArgv | CtlHandlerProc
| CSetEvent | CWaitForSingleObject | CRegisterServiceCtrlHandlerExW.

(** [init] (service.go): the procedure whose address it stores in a variable. Package
    syscall finds the address by the procedure's name in kernel32.dll and advapi32.dll,
    or panics. *)
Definition init (x : var) : option proc :=
  match x with
  | CSetEvent => Some SetEventProc
  | CWaitForSingleObject => Some WaitForSingleObjectProc
  | CRegisterServiceCtrlHandlerExW => Some RegisterServiceCtrlHandlerExWProc
  | _ => None
  end.

Inductive operand :=
| Reg (r : reg)          (* [AX] *)
| Imm (z : Z)            (* [$0] *)
| Var (v : var)          (* [·sName(SB)] *)
| HandlerAddr            (* [$·servicectlhandler(SB)] *)
| Stk (off : Z).         (* [4(SP)] *)

Inductive instr :=
| MOVL (src dst : operand)
| MOVQ (src dst : operand)
| PUSHL (r : reg)
| POPL (r : reg)
| ADD_SP (n : Z)         (* [ADDL $12, SP], [ADDQ $32, SP] *)
| SUB_SP (n : Z)
| CMP (r : reg) (n : Z)
| JE (target : nat)
| CALL (r : reg)
| JMP (r : reg)
| RET.

Record cpu := Cpu {
  regs : reg → word;
  mem : Z → word;               (* the stack, by address *)
  zf : bool;
  pc_at : nat;
  left_to : option word;        (* where control has gone when the code is left *)
  call_sps : list Z             (* the stack pointer at each call made *)
}.

Definition set_reg (r : reg) (w : word) (f : reg → word) : reg → word := λ r',
  if Nat.eqb (reg_code r) (reg_code r') then w else f r'.
Definition store (a : Z) (w : word) (f : Z → word) : Z → word := λ a',
  if a =? a' then w else f a'.

Lemma store_eq a a' w f : a = a' → store a w f a' = w.
Proof. intros ->. unfold store. by rewrite Z.eqb_refl. Qed.
Lemma store_ne a a' w f : a ≠ a' → store a w f a' = f a'.
Proof. intros Hne. unfold store. by rewrite (proj2 (Z.eqb_neq _ _) Hne). Qed.

Lemma set_reg_same r w f : set_reg r w f r = w.
Proof. unfold set_reg. by rewrite Nat.eqb_refl. Qed.
Lemma set_reg_other r r' w f : reg_code r ≠ reg_code r' → set_reg r w f r' = f r'.
Proof. intros Hne. unfold set_reg. by rewrite (proj2 (Nat.eqb_neq _ _) Hne). Qed.

(** The size of a word on the stack. *)
Definition word_bytes (a : arch) : Z := match a with AMD64 => 8 | I386 => 4 end.

(** What a procedure leaves behind. On 386 it also takes its arguments off the stack. *)
Class Callee := {
  volatile : proc → cpu → reg → word;
  stack_use : proc → cpu → Z → word;
  flag_left : proc → cpu → bool;
  popped : proc → cpu → Z
}.

Section Cpu.
Context `{Win : Windows} `{Callee} (a : arch) (servicectlhandler : Z).

Definition advance (c : cpu) : cpu :=
  Cpu (regs c) (mem c) (zf c) (S (pc_at c)) (left_to c) (call_sps c).
Definition with_reg (r : reg) (w : word) (c : cpu) : cpu :=
  Cpu (set_reg r w (regs c)) (mem c) (zf c) (pc_at c) (left_to c) (call_sps c).
Definition with_mem (m : Z → word) (c : cpu) : cpu :=
  Cpu (regs c) m (zf c) (pc_at c) (left_to c) (call_sps c).
Definition jump_to (w : word) (c : cpu) : cpu :=
  Cpu (regs c) (mem c) (zf c) (pc_at c) (Some w) (call_sps c).

Definition sp_of (c : cpu) : option Z := match regs c SP with Int z => Some z | _ => None end.

(** What a variable holds. The package is initialised before any code of it runs. *)
Definition read_var (v : pkgvars) (x : var) : word :=
  match x with
  | GoWaitsH => Int (goWaitsH v)
  | CWaitsH => Int (cWaitsH v)
  | SsHandle => Int (ssHandle v)
  | SName => Text (sName v)
  | SArgc => Int (sArgc v)
  | SArgv => Int (sArgv v)
  | CtlHandlerProc => Int (ctlHandlerProc v)
  | CSetEvent | CWaitForSingleObject | CRegisterServiceCtrlHandlerExW =>
      match init x with Some f => Proc f | None => Int 0 end
  end.

(** A store to one of the three variables the code changes. *)
Definition write_var (x : var) (z : Z) (v : pkgvars) : option pkgvars :=
  match x with
  | SsHandle => Some {| goWaitsH := goWaitsH v; cWaitsH := cWaitsH v; ssHandle := z; sName := sName v;
                        sArgc := sArgc v; sArgv := sArgv v; ctlHandlerProc := ctlHandlerProc v |}
  | SArgc => Some {| goWaitsH := goWaitsH v; cWaitsH := cWaitsH v; ssHandle := ssHandle v;
                     sName := sName v; sArgc := z; sArgv := sArgv v; ctlHandlerProc := ctlHandlerProc v |}
  | SArgv => Some {| goWaitsH := goWaitsH v; cWaitsH := cWaitsH v; ssHandle := ssHandle v;
                     sName := sName v; sArgc := sArgc v; sArgv := z; ctlHandlerProc := ctlHandlerProc v |}
  | _ => None
  end.

Definition load (v : pkgvars) (c : cpu) (o : operand) : option word :=
  match o with
  | Reg r => Some (regs c r)
  | Imm z => Some (Int z)
  | Var x => Some (read_var v x)
  | HandlerAddr => Some (Int servicectlhandler)
  | Stk off => match sp_of c with Some sp => Some (mem c (sp + off)) | None => None end
  end.

(** The instruction is not possible here. *)
Definition stuck : M cpu := throw memory_fault.

(** A move of [width] bits: a whole word, or on amd64 the low half of one, which is
    extended by zeros in a register and leaves the rest of a variable alone. *)
Definition move (width : Z) (src dst : operand) (c : cpu) : M cpu := λ s,
  let whole := width =? word_bits a in
  match load (st_vars s) c src with
  | None => stuck s
  | Some w =>
    match dst with
    | Reg r =>
        if whole then (Ret (with_reg r w c), s)
        else match w with Int z => (Ret (with_reg r (Int (wrap width z)) c), s) | _ => stuck s end
    | Stk off =>
        match sp_of c with
        | Some sp => if whole then (Ret (with_mem (store (sp + off) w (mem c)) c), s) else stuck s
        | None => stuck s
        end
    | Var x =>
        match w, read_var (st_vars s) x with
        | Int z, Int old =>
            match write_var x (if whole then z else movl old z) (st_vars s) with
            | Some v => (Ret c, St (st_world s) (st_trace s) v)
            | None => stuck s
            end
        | _, _ => stuck s
        end
    | _ => stuck s
    end
  end.

(** The words a procedure finds as its arguments. *)
Definition argument (c : cpu) (sp : Z) (i : nat) : word :=
  match a with
  | AMD64 => match i with 0%nat => regs c CX | 1%nat => regs c DX | _ => regs c R8 end
  | I386 => mem c (sp + 4 * Z.of_nat i)
  end.

Definition arg_count (f : proc) : Z :=
  match f with SetEventProc => 1 | WaitForSingleObjectProc => 2 | RegisterServiceCtrlHandlerExWProc => 3 end.

(** The part of the stack from the stack pointer up that a procedure may use: the home
    of the four register arguments on amd64, its arguments on 386. *)
Definition owned (f : proc) : Z := match a with AMD64 => 32 | I386 => 4 * arg_count f end.

Definition preserved (r : reg) : bool :=
  match r with BX | SI | DI | BP => true | _ => false end.

(** The state after a call that answered [r]. *)
Definition after_call (f : proc) (sp r : Z) (c : cpu) : cpu :=
  Cpu (λ x, match x with
            | AX => Int r
            | SP => Int (match a with AMD64 => sp | I386 => sp + popped f c end)
            | _ => if preserved x then regs c x else volatile f c x
            end)
      (λ x, if x <? sp + owned f then stack_use f c x else mem c x)
      (flag_left f c) (pc_at c) (left_to c) (call_sps c ++ [sp]).

Definition call_windows (f : proc) (sp : Z) (c : cpu) : M cpu :=
  match f, argument c sp 0, argument c sp 1, argument c sp 2 with
  | RegisterServiceCtrlHandlerExWProc, Text nm, Int hp, Int ctx =>
      let! r := syscall (RegisterServiceCtrlHandlerExW nm hp ctx) in ret (after_call f sp (r_ret r) c)
  | SetEventProc, Int e, _, _ =>
      let! r := syscall (SetEventP e) in ret (after_call f sp (r_ret r) c)
  | WaitForSingleObjectProc, Int e, Int ms, _ =>
      let! r := syscall (WaitForSingleObjectP e (wrap 32 ms)) in ret (after_call f sp (r_ret r) c)
  | _, _, _, _ => stuck
  end%go.

Definition exec_instr (i : instr) (c : cpu) : M cpu :=
  match i with
  | MOVL src dst => let! c := move 32 src dst c in ret (advance c)
  | MOVQ src dst =>
      match a with AMD64 => let! c := move 64 src dst c in ret (advance c) | I386 => stuck end
  | PUSHL r =>
      match sp_of c with
      | Some sp =>
          let sp' := sp - word_bytes a in
          ret (advance (with_reg SP (Int sp') (with_mem (store sp' (regs c r) (mem c)) c)))
      | None => stuck
      end
  | POPL r =>
      match sp_of c with
      | Some sp => ret (advance (with_reg SP (Int (sp + word_bytes a)) (with_reg r (mem c sp) c)))
      | None => stuck
      end
  | ADD_SP n =>
      match sp_of c with Some sp => ret (advance (with_reg SP (Int (sp + n)) c)) | None => stuck end
  | SUB_SP n =>
      match sp_of c with Some sp => ret (advance (with_reg SP (Int (sp - n)) c)) | None => stuck end
  | CMP r n =>
      match regs c r with
      | Int z => ret (advance (Cpu (regs c) (mem c) (z =? n) (pc_at c) (left_to c) (call_sps c)))
      | _ => stuck
      end
  | JE target =>
      ret (if zf c then Cpu (regs c) (mem c) (zf c) target (left_to c) (call_sps c) else advance c)
  | CALL r =>
      match regs c r, sp_of c with
      | Proc f, Some sp => let! c := call_windows f sp c in ret (advance c)
      | _, _ => stuck
      end
  | JMP r => ret (jump_to (regs c r) c)
  | RET =>
      match sp_of c with
      | Some sp => ret (jump_to (mem c sp) (with_reg SP (Int (sp + word_bytes a)) c))
      | None => stuck
      end
  end%go.

(** One instruction of the program, and [n] of them; none when it has been left. *)
Definition step_code (prog : list instr) (c : cpu) : M cpu :=
  match left_to c, prog !! pc_at c with
  | Some _, _ => ret c
  | None, Some i => exec_instr i c
  | None, None => stuck
  end.

Fixpoint run_code (prog : list instr) (n : nat) (c : cpu) : M cpu :=
  match n with
  | O => ret c
  | S n => let! c := step_code prog c in run_code prog n c
  end%go.

Lemma run_code_S prog n c s :
  run_code prog (S n) c s
  = match step_code prog c s with
    | (Ret c', s') => run_code prog n c' s' | (Err e, s') => (Err e, s') | (Panic p, s') => (Panic p, s')
    end.
Proof. done. Qed.

Lemma run_code_0 prog c s : run_code prog 0 c s = (Ret c, s).
Proof. done. Qed.

Lemma run_code_app prog n m c s :
  run_code prog (n + m) c s = bind (run_code prog n c) (run_code prog m) s.
Proof.
  revert c s. induction n as [|n IH]; intros c s; [done|]. simpl. unfold bind.
  destruct (step_code prog c s) as [[c'|e|p] s']; [apply IH|done..].
Qed.
End Cpu.
