(* ===== verification/ServiceMain.v ===== *)
(** * svc/sys_amd64.s and svc/sys_386.s, instruction by instruction

    The two programs, and that both do what [servicemain_step] says, whatever the
    other threads do in between, and return to where they were called from as the
    calling convention asks. *)
From Stdlib Require Import ZArith Lia.
From stdpp Require Import base option list strings.
From S2P Require Import Prelude GoText Go WinConst Machine GoSyscall Script Winapi SvcAsm Cpu.

Local Open Scope Z_scope.

(** ** The programs *)
Definition exit_amd64 : nat := 18.
Definition servicemain_amd64 : list instr := [
  MOVL (Reg CX) (Var SArgc);
  MOVL (Reg DX) (Var SArgv);
  SUB_SP 32;
  MOVQ (Var SName) (Reg CX);
  MOVQ HandlerAddr (Reg DX);
  MOVQ (Imm 0) (Reg R8);
  MOVQ (Var CRegisterServiceCtrlHandlerExW) (Reg AX);
  CALL AX;
  CMP AX 0;
  JE exit_amd64;
  MOVQ (Reg AX) (Var SsHandle);
  MOVQ (Var GoWaitsH) (Reg CX);
  MOVQ (Var CSetEvent) (Reg AX);
  CALL AX;
  MOVQ (Var CWaitsH) (Reg CX);
  MOVQ (Imm 4294967295) (Reg DX);
  MOVQ (Var CWaitForSingleObject) (Reg AX);
  CALL AX;
  (* exit: *)
  ADD_SP 32;
  RET
].

Definition servicectlhandler_amd64 : list instr := [MOVQ (Var CtlHandlerProc) (Reg AX); JMP AX].

Definition exit_386 : nat := 35.
Definition servicemain_386 : list instr := [
  MOVL (Stk 4) (Reg AX);
  MOVL (Reg AX) (Var SArgc);
  MOVL (Stk 8) (Reg AX);
  MOVL (Reg AX) (Var SArgv);
  PUSHL BP;
  PUSHL BX;
  PUSHL SI;
  PUSHL DI;
  SUB_SP 12;
  MOVL (Var SName) (Reg AX);
  MOVL (Reg AX) (Stk 0);
  MOVL HandlerAddr (Reg AX);
  MOVL (Reg AX) (Stk 4);
  MOVL (Imm 0) (Stk 8);
  MOVL (Var CRegisterServiceCtrlHandlerExW) (Reg AX);
  MOVL (Reg SP) (Reg BP);
  CALL AX;
  MOVL (Reg BP) (Reg SP);
  CMP AX 0;
  JE exit_386;
  MOVL (Reg AX) (Var SsHandle);
  MOVL (Var GoWaitsH) (Reg AX);
  MOVL (Reg AX) (Stk 0);
  MOVL (Var CSetEvent) (Reg AX);
  MOVL (Reg SP) (Reg BP);
  CALL AX;
  MOVL (Reg BP) (Reg SP);
  MOVL (Var CWaitsH) (Reg AX);
  MOVL (Reg AX) (Stk 0);
  MOVL (Imm (-1)) (Reg AX);
  MOVL (Reg AX) (Stk 4);
  MOVL (Var CWaitForSingleObject) (Reg AX);
  MOVL (Reg SP) (Reg BP);
  CALL AX;
  MOVL (Reg BP) (Reg SP);
  (* exit: *)
  ADD_SP 12;
  POPL DI;
  POPL SI;
  POPL BX;
  POPL BP;
  MOVL (Stk 0) (Reg CX);
  ADD_SP 12;
  JMP CX
].

Definition servicectlhandler_386 : list instr := [MOVL (Var CtlHandlerProc) (Reg CX); JMP CX].

Definition servicemain_code (a : arch) : list instr :=
  match a with AMD64 => servicemain_amd64 | I386 => servicemain_386 end.

(** Where the code is at each place of [servicemain_step], and how many instructions
    it takes to the next. *)
Definition place (a : arch) (p : smain_pc) : nat :=
  match a, p with
  | AMD64, SmRegister => 2 | AMD64, SmStore _ => 10 | AMD64, SmSignal => 11 | AMD64, SmWait => 14
  | AMD64, SmExited => 18
  | I386, SmRegister => 4 | I386, SmStore _ => 20 | I386, SmSignal => 21 | I386, SmWait => 27
  | I386, SmExited => 35
  | _, _ => 0
  end.
Definition block (a : arch) (p : smain_pc) : nat :=
  match a, p with
  | AMD64, SmEntry _ _ => 2 | AMD64, SmRegister => 8 | AMD64, SmStore _ => 1 | AMD64, SmSignal => 3
  | AMD64, SmWait => 4 | AMD64, SmExited => 2
  | I386, SmEntry _ _ => 4 | I386, SmRegister => 16 | I386, SmStore _ => 1 | I386, SmSignal => 6
  | I386, SmWait => 8 | I386, SmExited => 8
  | _, _ => 0
  end.

(** ** The frame

    What Windows had in the registers and on the stack when it called. *)
Record frame := Frame {
  f_sp : Z;
  f_ret : word;
  f_regs : reg → word
}.

Section ServiceMain.
Context `{Win : Windows} `{Callee} (servicectlhandler : Z).

(** The stack pointer, the return address and the caller's registers in the body. *)
Definition body_sp (a : arch) (f : frame) : Z := f_sp f - match a with AMD64 => 32 | I386 => 28 end.
Definition in_frame (a : arch) (f : frame) (c : cpu) : Prop :=
  mem c (f_sp f) = f_ret f ∧ left_to c = None ∧
  Forall (eq (body_sp a f)) (call_sps c) ∧ call_sps c ≠ [] ∧
  match a with
  | AMD64 => regs c SP = Int (f_sp f - 32) ∧ ∀ r, preserved r = true → regs c r = f_regs f r
  | I386 =>
      regs c SP = Int (f_sp f - 28) ∧
      mem c (f_sp f - 4) = f_regs f BP ∧ mem c (f_sp f - 8) = f_regs f BX ∧
      mem c (f_sp f - 12) = f_regs f SI ∧ mem c (f_sp f - 16) = f_regs f DI
  end.

(** Before the frame is set up. *)
Definition on_entry (f : frame) (c : cpu) : Prop :=
  mem c (f_sp f) = f_ret f ∧ left_to c = None ∧ call_sps c = [] ∧ regs c SP = Int (f_sp f) ∧
  ∀ r, preserved r = true → regs c r = f_regs f r.

(** The arguments where the convention puts them. *)
Definition given (a : arch) (f : frame) (argc argv : Z) (c : cpu) : Prop :=
  match a with
  | AMD64 => regs c CX = Int argc ∧ regs c DX = Int argv
  | I386 => mem c (f_sp f + 4) = Int argc ∧ mem c (f_sp f + 8) = Int argv ∧ u32 argc ∧ u32 argv
  end.

Definition at_place (a : arch) (f : frame) (p : smain_pc) (c : cpu) : Prop :=
  pc_at c = place a p ∧
  match p with
  | SmIdle => False
  | SmEntry argc argv => on_entry f c ∧ given a f argc argv c
  | SmRegister => on_entry f c
  | SmStore hd => in_frame a f c ∧ regs c AX = Int hd
  | _ => in_frame a f c
  end.

(** Variables of 32 bits on 386. *)
Definition vars_fit (a : arch) (v : pkgvars) : Prop :=
  a = I386 → u32 (sArgc v) ∧ u32 (sArgv v).

Abbreviation code a := (run_code a servicectlhandler (servicemain_code a)).

(** From a place, a block of instructions does one step of [servicemain_step]. *)
Definition simulates_from (a : arch) (f : frame) (p : smain_pc) (c : cpu) (s : st) : Prop :=
  ∃ c' s' p', code a (block a p) c s = (Ret c', s') ∧
    servicemain_step servicectlhandler p s = (Ret p', s') ∧ at_place a f p' c'.

(** Symbolic execution: the equations of the registers and the stack are used as they
    are needed. *)
Ltac open_state c s :=
  destruct c as [rs m z pc' lt cs], s as [w tr [gw cw sh sn ac av cp]];
  repeat match goal with
         | E : at_place _ _ _ _ |- _ => unfold at_place, on_entry, given, in_frame in E; cbn in E
         | E : vars_fit _ _ |- _ => unfold vars_fit in E; cbn in E
         end; destruct_and?; subst.
Ltac code_cbn :=
  cbv beta iota zeta delta [bind ret throw stuck step_code exec_instr move load read_var init write_var
    with_reg with_mem jump_to advance sp_of
    regs mem zf pc_at left_to call_sps word_bits word_bytes call_windows argument after_call preserved
    servicemain_code servicemain_amd64 servicemain_386 lookup list_lookup block exit_amd64 exit_386
    set_vars modify get servicemain_step syscall st_world st_trace st_vars owned arg_count
    goWaitsH cWaitsH ssHandle sName sArgc sArgv ctlHandlerProc];
  change (32 =? 64) with false; change (64 =? 64) with true; change (32 =? 32) with true;
  change (wrap 32 4294967295) with 4294967295; change (wrap 32 (-1)) with 4294967295;
  cbv iota beta.
Ltac code_one :=
  rewrite run_code_S; code_cbn;
  repeat (first
    [ match goal with
      | E : ?x = Int _ |- context [?x] => rewrite E
      end
    | rewrite set_reg_same
    | rewrite set_reg_other by done
    | rewrite store_eq by lia
    | rewrite store_ne by lia
    | match goal with |- context [volatile ?f ?c] => generalize (volatile f c); intros ? end
    | match goal with |- context [stack_use ?f ?c] => generalize (stack_use f c); intros ? end
    | match goal with |- context [flag_left ?f ?c] => generalize (flag_left f c); intros ? end
    | match goal with |- context [popped ?f ?c] => generalize (popped f c); intros ? end
    | match goal with E : call _ _ = _ |- _ => rewrite E end
    ]; code_cbn).
Ltac code_step :=
  unfold simulates_from; cbv delta [block servicemain_step] iota beta; code_cbn;
  repeat code_one; rewrite ?run_code_0; code_cbn.

Ltac memory :=
  repeat (first [rewrite store_eq by lia | rewrite store_ne by lia | rewrite (proj2 (Z.ltb_ge _ _)) by lia]).
(** A word that is known to be on the stack. *)
Ltac on_stack :=
  match goal with E : ?m ?x = ?v |- ?m ?y = ?v => replace y with x by lia; exact E end.
(** The next place is reached: its equations. *)
Ltac done_at :=
  do 3 eexists; split; [reflexivity|]; split; [reflexivity|];
  unfold at_place, in_frame, on_entry; split_and!; try done; cbn -[Z.add Z.sub Z.ltb set_reg];
  try (intros r Hr; destruct r; try discriminate Hr; cbn -[set_reg]);
  repeat (rewrite set_reg_same || rewrite set_reg_other by done); memory; try done;
  first
    [ by auto
    | rewrite ?Forall_app, ?Forall_singleton; unfold body_sp; split_and?; first [done | lia]
    | match goal with |- ?l ++ _ ≠ [] => by destruct l end
    | f_equal; lia ].

Lemma entry_block a f argc argv c s :
  vars_fit a (st_vars s) → at_place a f (SmEntry argc argv) c →
  simulates_from a f (SmEntry argc argv) c s.
Proof.
  intros Hv Hat.
  destruct a; open_state c s.
  - code_step. done_at.
  - destruct (Hv eq_refl). code_step. rewrite !movl_small by done. done_at.
Qed.

Lemma store_block a f hd c s :
  at_place a f (SmStore hd) c → simulates_from a f (SmStore hd) c s.
Proof. intros Hat. destruct a; open_state c s; code_step; done_at. Qed.

Lemma register_block a f c s :
  at_place a f SmRegister c → simulates_from a f SmRegister c s.
Proof.
  intros Hat. destruct a; open_state c s;
    destruct (call (RegisterServiceCtrlHandlerExW sn servicectlhandler 0) w) as [rep w0] eqn:E;
    code_step; destruct (r_ret rep =? 0); done_at.
Qed.

Lemma signal_block a f c s : at_place a f SmSignal c → simulates_from a f SmSignal c s.
Proof.
  intros Hat. destruct a; open_state c s;
    destruct (call (SetEventP gw) w) as [rep w0] eqn:E; code_step; done_at.
Qed.

Lemma wait_block a f c s : at_place a f SmWait c → simulates_from a f SmWait c s.
Proof.
  intros Hat. destruct a; open_state c s;
    destruct (call (WaitForSingleObjectP cw 0xffffffff) w) as [rep w0] eqn:E; code_step; done_at.
Qed.

(** It is back where it was called from: the stack pointer is where the convention
    wants it (on 386 the two arguments are gone too), the caller's registers are as
    they were. *)
Definition returned (a : arch) (f : frame) (c : cpu) : Prop :=
  left_to c = Some (f_ret f) ∧ Forall (eq (body_sp a f)) (call_sps c) ∧ call_sps c ≠ [] ∧
  regs c SP = Int (f_sp f + match a with AMD64 => 8 | I386 => 12 end) ∧
  ∀ r, preserved r = true → regs c r = f_regs f r.

Lemma exit_block a f c s :
  at_place a f SmExited c → ∃ c', code a (block a SmExited) c s = (Ret c', s) ∧ returned a f c'.
Proof.
  intros Hat. unfold returned, preserved.
  destruct a; open_state c s; code_step;
    (eexists; split; [reflexivity|]; cbn -[Z.add Z.sub set_reg]; split_and!;
     [f_equal; on_stack|done|done|rewrite set_reg_same; f_equal; lia|];
     intros r Hr; destruct r; try discriminate Hr;
     repeat (rewrite set_reg_same || rewrite set_reg_other by done); first [on_stack|by auto]).
Qed.

Lemma block_simulates a f p c s :
  sm_running p = true → (∀ argc argv, p = SmEntry argc argv → vars_fit a (st_vars s)) →
  at_place a f p c → simulates_from a f p c s.
Proof.
  intros Hp Hv Hat. destruct p; try done;
    eauto using entry_block, register_block, store_block, signal_block, wait_block.
Qed.

(** ** The thread among the others

    Between two blocks the other threads may do anything but write the two variables
    that only [servicemain] writes. *)
Inductive thread_label := TBlock | TReturn | TOthers.

Definition same_saved (v v' : pkgvars) : Prop := sArgc v' = sArgc v ∧ sArgv v' = sArgv v.

(** How many instructions the code takes from where it is to the next place. *)
Definition block_at (a : arch) (n : nat) : nat :=
  match a, n with
  | AMD64, 0 => 2 | AMD64, 2 => 8 | AMD64, 10 => 1 | AMD64, 11 => 3 | AMD64, 14 => 4 | AMD64, 18 => 2
  | I386, 0 => 4 | I386, 4 => 16 | I386, 20 => 1 | I386, 21 => 6 | I386, 27 => 8 | I386, 35 => 8
  | _, _ => 0
  end%nat.

Inductive code_thread (a : arch) : cpu * st → thread_label → cpu * st → Prop :=
| code_block c s c' s' :
    left_to c = None → pc_at c ≠ place a SmExited →
    code a (block_at a (pc_at c)) c s = (Ret c', s') → code_thread a (c, s) TBlock (c', s')
| code_return c s c' s' :
    left_to c = None → pc_at c = place a SmExited →
    code a (block_at a (pc_at c)) c s = (Ret c', s') → code_thread a (c, s) TReturn (c', s')
| code_others c s s' :
    same_saved (st_vars s) (st_vars s') → code_thread a (c, s) TOthers (c, s').

Inductive model_thread : smain_pc * st → thread_label → smain_pc * st → Prop :=
| model_block p s p' s' :
    sm_running p = true → servicemain_step servicectlhandler p s = (Ret p', s') →
    model_thread (p, s) TBlock (p', s')
| model_others p s s' :
    same_saved (st_vars s) (st_vars s') → model_thread (p, s) TOthers (p, s').

(** The return is not seen. *)
Definition seen (l : thread_label) : option thread_label :=
  match l with TReturn => None | _ => Some l end.

(** The two threads are at the same place, with the same shared state. *)
Definition in_step (a : arch) (f : frame) (x : cpu * st) (y : smain_pc * st) : Prop :=
  x.2 = y.2 ∧ (∀ argc argv, y.1 = SmEntry argc argv → vars_fit a (st_vars y.2)) ∧
  (at_place a f y.1 x.1 ∨ y.1 = SmExited ∧ returned a f x.1).

Lemma block_at_place a p : p ≠ SmIdle → block_at a (place a p) = block a p.
Proof. by destruct a, p. Qed.

Lemma place_running a p : p ≠ SmIdle → sm_running p = false ↔ place a p = place a SmExited.
Proof. by destruct a, p. Qed.

Lemma place_left a f p c : at_place a f p c → left_to c = None ∧ p ≠ SmIdle.
Proof. intros [_ Hat]. by destruct p; unfold on_entry, in_frame in Hat; destruct_and?. Qed.

Lemma step_not_entry hp p s p' s' argc argv :
  servicemain_step hp p s = (Ret p', s') → sm_running p = true → p' ≠ SmEntry argc argv.
Proof.
  destruct p; try done; cbn; unfold bind, ret, get, syscall, set_vars, modify; intros E _ ->;
    repeat case_match; simplify_eq/=; by case_match.
Qed.

Lemma code_simulates a f : simulates (code_thread a) model_thread seen (in_step a f).
Proof.
  intros x l x' [p s] (Heq & Hfit & Hat) Hs. inv Hs; cbn in Heq, Hfit, Hat; subst.
  - destruct Hat as [Hat|[_ [Hl _]]]; [|congruence].
    destruct (place_left _ _ _ _ Hat) as [_ Hidle]. pose proof Hat as [Hpc _].
    rewrite Hpc, (block_at_place a p Hidle) in *.
    assert (sm_running p = true) as Hr.
    { destruct (sm_running p) eqn:E; [done|]. by apply (place_running a p Hidle) in E. }
    destruct (block_simulates a f p c s Hr Hfit Hat) as (c1 & s1 & p1 & E1 & E2 & Hat1).
    match goal with E : _ = (Ret c', s') |- _ => rewrite E1 in E; injection E as <- <- end.
    exists (p1, s1). split; [|by apply model_block]. split_and!; [done| |by left].
    cbn. intros argc argv Hp1. by destruct (step_not_entry _ _ _ _ _ argc argv E2 Hr).
  - destruct Hat as [Hat|[_ [Hl _]]]; [|congruence].
    destruct (place_left _ _ _ _ Hat) as [_ Hidle]. pose proof Hat as [Hpc _].
    assert (p = SmExited) as ->.
    { assert (sm_running p = false) as E by (apply (place_running a p Hidle); congruence).
      by destruct p. }
    rewrite Hpc, (block_at_place a SmExited Hidle) in *.
    destruct (exit_block a f c s Hat) as (c1 & E1 & Hret).
    match goal with E : _ = (Ret c', s') |- _ => rewrite E1 in E; injection E as <- <- end.
    exists (SmExited, s). split; [|done]. split_and!; [done|done|by right].
  - exists (p, s'). split; [|by apply model_others]. split_and!; [done| |done].
    cbn. intros argc argv Hp Ha. destruct (Hfit _ _ Hp Ha). unfold same_saved in *. destruct_and?.
    by repeat match goal with E : _ = _ |- _ => rewrite E end.
Qed.

(** The thread is never stuck: until it has returned it has a next block. *)
Lemma code_goes_on a f c p s :
  in_step a f (c, s) (p, s) → left_to c = None →
  ∃ l x, l ≠ TOthers ∧ code_thread a (c, s) l x.
Proof.
  intros (_ & Hfit & Hat) Hl. cbn in *. destruct Hat as [Hat|[_ [Hl' _]]]; [|congruence].
  destruct (place_left _ _ _ _ Hat) as [_ Hidle]. pose proof Hat as [Hpc _].
  destruct (sm_running p) eqn:Hr.
  - destruct (block_simulates a f p c s Hr Hfit Hat) as (c1 & s1 & p1 & E1 & _).
    exists TBlock, (c1, s1). split; [done|]. apply code_block; [done| |].
    + rewrite Hpc. intros E. apply (place_running a p Hidle) in E. congruence.
    + by rewrite Hpc, (block_at_place a p Hidle).
  - assert (p = SmExited) as -> by by destruct p.
    destruct (exit_block a f c s Hat) as (c1 & E1 & _). exists TReturn, (c1, s). split; [done|].
    apply code_return; [done..|]. by rewrite Hpc, (block_at_place a SmExited Hidle).
Qed.

(** How Windows calls [servicemain]. *)
Definition called (a : arch) (f : frame) (argc argv : Z) (c : cpu) (s : st) : Prop :=
  pc_at c = 0%nat ∧ on_entry f c ∧ given a f argc argv c ∧ vars_fit a (st_vars s).

Lemma called_in_step a f argc argv c s :
  called a f argc argv c s → in_step a f (c, s) (SmEntry argc argv, s).
Proof.
  intros (Hpc & Hen & Hg & Hv). split_and!; [done|done|left]. split; [|by split].
  cbn. rewrite Hpc. by destruct a.
Qed.

Lemma code_exec a f argc argv c s ls c' s' :
  called a f argc argv c s → exec (code_thread a) (c, s) ls (c', s') →
  ∃ p, exec model_thread (SmEntry argc argv, s) (observations seen ls) (p, s') ∧
    in_step a f (c', s') (p, s').
Proof.
  intros Hc%called_in_step Hex.
  destruct (simulation_exec _ _ _ _ _ _ _ _ (code_simulates a f) Hc Hex) as ([p s1] & Hs & Hm).
  pose proof Hs as [Heq _]. cbn in Heq. subst s1. eauto.
Qed.

(** C31: the assembly code of both architectures does what [servicemain_step] says,
    whatever the other threads do between its blocks: every execution of the code is
    one of the model with the same effect on Windows and on the variables; it is
    never stuck, and when it is left it has returned to where Windows called it from,
    with the stack pointer and the caller's registers as the convention wants. *)
Theorem servicemain_code_refines a f argc argv c s ls c' s' :
  called a f argc argv c s → exec (code_thread a) (c, s) ls (c', s') →
  ∃ p, exec model_thread (SmEntry argc argv, s) (observations seen ls) (p, s') ∧
    match left_to c' with
    | None => ∃ l x, l ≠ TOthers ∧ code_thread a (c', s') l x
    | Some _ => p = SmExited ∧ returned a f c'
    end.
Proof.
  intros Hc Hex. destruct (code_exec _ _ _ _ _ _ _ _ _ Hc Hex) as (p & Hm & Hs). exists p. split; [done|].
  destruct (left_to c') eqn:Hl; [|by apply (code_goes_on a f c' p)].
  destruct Hs as (_ & _ & [Hat|?]); [|done]. apply place_left in Hat as [? _]. cbn in *. congruence.
Qed.

(** C32: on amd64 the code calls Windows with a misaligned stack: the convention wants
    the stack pointer to be a multiple of 16 at a call, so that it is 8 more than one
    when [servicemain] is entered, behind the return address; and so it is again at
    every call the code makes, because it takes 32 bytes off and not 40. *)
Theorem amd64_calls_are_misaligned f argc argv c s ls c' s' :
  called AMD64 f argc argv c s → f_sp f mod 16 = 8 → exec (code_thread AMD64) (c, s) ls (c', s') →
  Forall (λ sp, sp mod 16 = 8) (call_sps c') ∧ (left_to c' ≠ None → call_sps c' ≠ []).
Proof.
  intros Hc Hsp Hex. destruct (code_exec _ _ _ _ _ _ _ _ _ Hc Hex) as (p & _ & _ & _ & Hs). cbn in Hs.
  assert (call_sps c' = [] ∨ Forall (eq (body_sp AMD64 f)) (call_sps c') ∧ call_sps c' ≠ []) as Hcs.
  { destruct Hs as [[_ Hat]|[_ Hr]].
    - destruct p; unfold on_entry, in_frame in Hat; destruct_and?; auto. done.
    - unfold returned in Hr. destruct_and?. auto. }
  assert ((f_sp f - 32) mod 16 = 8) as Hb.
  { replace (f_sp f - 32) with (f_sp f + (-2) * 16) by lia. by rewrite Z.mod_add. }
  destruct Hcs as [E|[Hf Hne]].
  - rewrite E. split; [done|]. intros Hl. destruct Hs as [Hat|[_ Hr]].
    + by destruct (place_left _ _ _ _ Hat).
    + unfold returned in Hr. by destruct_and?.
  - split; [|done]. eapply Forall_impl; [exact Hf|]. by intros sp <-.
Qed.

(** [servicectlhandler] is a jump: the callback finds the registers and the stack as
    Windows left them for it, but for one register that carries no argument. *)
Theorem servicectlhandler_jumps a c s :
  pc_at c = 0%nat → left_to c = None →
  ∃ c', run_code a servicectlhandler
      match a with AMD64 => servicectlhandler_amd64 | I386 => servicectlhandler_386 end 2 c s = (Ret c', s) ∧
    left_to c' = Some (Int (ctlHandlerProc (st_vars s))) ∧ mem c' = mem c ∧
    ∀ r, r ≠ match a with AMD64 => AX | I386 => CX end → regs c' r = regs c r.
Proof.
  intros Hpc Hl. destruct c as [rs m z pc' lt cs], s as [w tr v]. cbn in Hpc, Hl. subst.
  destruct a; (eexists; split; [reflexivity|]; cbn; split_and!; [done|done|]; by intros []).
Qed.
End ServiceMain.

(** ** On concrete machines

    The callee leaves zeros behind, takes its arguments off the stack on 386; Windows
    answers every call with 1. *)
#[local] Instance plain_windows : Windows := ScriptWindows plain.
#[local] Instance zeros : Callee :=
  {| volatile := λ _ _ _, Int 0; stack_use := λ _ _ _, Int 0; flag_left := λ _ _, true;
     popped := λ f _, 4 * arg_count f |}.

Definition demo_frame (sp : Z) : frame := {| f_sp := sp; f_ret := Int 4660; f_regs := λ r, Int (Z.of_nat (reg_code r)) |}.

(** The arguments are 1 and the address 12288. *)
Definition demo_called (a : arch) (sp : Z) : cpu :=
  {| regs := set_reg SP (Int sp) (match a with
               | AMD64 => set_reg CX (Int 1) (set_reg DX (Int 12288) (f_regs (demo_frame sp)))
               | I386 => f_regs (demo_frame sp)
               end);
     mem := store sp (Int 4660) (store (sp + 4) (Int 1) (store (sp + 8) (Int 12288) (λ _, Int 0)));
     zf := false; pc_at := 0; left_to := None; call_sps := [] |}.

(** An executor for a thread alone. *)
Definition code_next (a : arch) (x : cpu * st) (l : thread_label) : option (cpu * st) :=
  match left_to x.1, run_code a 4096 (servicemain_code a) (block_at a (pc_at x.1)) x.1 x.2, l with
  | None, (Ret c, s), TBlock => if decide (pc_at x.1 = place a SmExited) then None else Some (c, s)
  | None, (Ret c, s), TReturn => if decide (pc_at x.1 = place a SmExited) then Some (c, s) else None
  | _, _, _ => None
  end.

Lemma code_next_sound a x l x' : code_next a x l = Some x' → code_thread 4096 a x l x'.
Proof.
  unfold code_next. destruct x as [c s]. cbn [fst snd]. destruct (left_to c) eqn:Hl; [done|].
  destruct (run_code _ _ _ _ _ _) as [[c'|e|p] s'] eqn:E; try done.
  destruct l; try done; case_decide; try done; intros [= <-].
  - by apply code_block.
  - by apply code_return.
Qed.

Definition whole_run : list thread_label := [TBlock; TBlock; TBlock; TBlock; TBlock; TReturn].
Definition demo_start (a : arch) : cpu * st := (demo_called a 65528, asm_state).
Definition demo_final (a : arch) : cpu * st :=
  default (demo_start a) (run_schedule (code_next a) (demo_start a) whole_run).

Lemma demo_called_called a : called a (demo_frame 65528) 1 12288 (demo_called a 65528) asm_state.
Proof.
  split; [by destruct a|]. split.
  - split_and!; try by destruct a. intros r Hr. by destruct a, r.
  - split; [by destruct a|]. by intros _.
Qed.

Lemma demo_code_exec a :
  exec (code_thread 4096 a) (demo_called a 65528, asm_state) whole_run ((demo_final a).1, (demo_final a).2).
Proof.
  rewrite <- surjective_pairing.
  apply (run_schedule_exec _ (code_next a)); [intros ???; apply code_next_sound|].
  apply succeeds_default. by destruct a; vm_compute.
Qed.

#[local] Opaque demo_final.

(** Both return, after three calls. *)
Lemma servicemain_code_refines_witness :
  (left_to (demo_final AMD64).1, left_to (demo_final I386).1) = (Some (Int 4660), Some (Int 4660)) ∧
  ∃ p, exec (model_thread 4096) (SmEntry 1 12288, asm_state) (observations seen whole_run)
         (p, (demo_final I386).2) ∧
    match left_to (demo_final I386).1 with
    | None => ∃ l x, l ≠ TOthers ∧ code_thread 4096 I386 ((demo_final I386).1, (demo_final I386).2) l x
    | Some _ => p = SmExited ∧ returned I386 (demo_frame 65528) (demo_final I386).1
    end.
Proof.
  split; [by vm_compute|].
  exact (servicemain_code_refines 4096 I386 (demo_frame 65528) 1 12288 (demo_called I386 65528) asm_state
            whole_run (demo_final I386).1 (demo_final I386).2 (demo_called_called I386) (demo_code_exec I386)).
Defined.

Lemma amd64_calls_are_misaligned_witness :
  call_sps (demo_final AMD64).1 = [65496; 65496; 65496] ∧
  Forall (λ sp, sp mod 16 = 8) (call_sps (demo_final AMD64).1) ∧
  (left_to (demo_final AMD64).1 ≠ None → call_sps (demo_final AMD64).1 ≠ []).
Proof.
  split; [by vm_compute|].
  exact (amd64_calls_are_misaligned 4096 (demo_frame 65528) 1 12288 (demo_called AMD64 65528) asm_state
           whole_run (demo_final AMD64).1 (demo_final AMD64).2 (demo_called_called AMD64) eq_refl
           (demo_code_exec AMD64)).
Defined.
