(* ===== verification/SvcSystem.v ===== *)
(** * The running service: the goroutines of svc/service.go and their channels

    [Run] starts a goroutine for [run], [run] starts one for the handler's
    [Execute], Windows runs the assembly [servicemain] on one thread and calls
    the control handler on another. They meet on four unbuffered channels and
    two events. [sys] is the state of all of them, [step] one step of any of
    them; a send and its receive on an unbuffered channel are one step.

    The user's [Handler] is an interface, the class below: a process that
    receives change requests, sends statuses, returns an exit code. *)
From Stdlib Require Import ZArith Lia.
From stdpp Require Import base option list strings.
From S2P Require Import Prelude GoText Go WinConst Machine GoSyscall Script Winapi.
From S2P Require Import SvcEvent SvcService SvcAsm.

Local Open Scope Z_scope.
Local Open Scope go_scope.

(** The operations a step runs are used through their lemmas. *)
#[global] Arguments service_status : simpl never.
#[global] Arguments ctlHandler : simpl never.
#[global] Arguments updateStatus : simpl never.
#[global] Arguments run_start : simpl never.
#[global] Arguments Run_dispatch : simpl never.
#[global] Arguments Set_ : simpl never.
#[global] Arguments servicemain_step : simpl never.

(** ** The interface of a handler *)

(** What a handler can do next; [g] tells its goroutines apart. *)
Inductive hact :=
| HRecv (cr : ChangeRequest)          (* receive a request from [r] *)
| HSend (g : nat) (c : Status)        (* send a status on [s] *)
| HReturn (ssec : bool) (ec : Z)      (* [Execute] returns *)
| HTau (g : nat)                      (* a step of its own *)
| HPanic (p : panic).                 (* a panic nobody recovers *)

Class Handler := {
  hstate : Type;
  Execute : list string → hstate;
  hnext : hstate → hact → option hstate
}.

(** ** The [select] loop of [run] *)
Record loop := Loop {
  l_status : Status;
  l_ec : exitCode;
  l_cmd : Z;
  l_out : bool;    (* [outch] is [cmdsToHandler], not nil *)
  l_in : bool      (* [inch] is [s.c], not nil *)
}.

Definition loop_init : loop :=
  {| l_status := status_of Stopped; l_ec := {| isSvcSpecific := true; ec_errno := 0 |};
     l_cmd := 0; l_out := false; l_in := true |}.

Definition with_errno (ec : exitCode) (n : Z) : exitCode :=
  {| isSvcSpecific := isSvcSpecific ec; ec_errno := n |}.

(** The cases of the [select]: [inl] goes round the loop, [inr] breaks out of it
    with the exit code it leaves in [ec]; [None] when the channel is nil. *)
Definition case_inch (l : loop) (r : ctlEvent) : option (loop + exitCode) :=
  if l_in l then
    Some (if errno r =? 0 then
            inl {| l_status := l_status l; l_ec := l_ec l; l_cmd := cmd r;
                   l_out := true; l_in := false |}
          else inr (with_errno (l_ec l) (errno r)))
  else None.

Definition case_outch (l : loop) : option (ChangeRequest * loop) :=
  if l_out l then
    Some ({| Cmd := l_cmd l; CurrentStatus := l_status l |},
          {| l_status := l_status l; l_ec := l_ec l; l_cmd := l_cmd l;
             l_out := false; l_in := true |})
  else None.

(** After [updateStatus(&c, &ec)]. *)
Definition update_errno (e : error) : Z :=
  match e with
  | Errno n => wrap 32 n
  | _ => sysErrSetServiceStatusFailed
  end.

Definition case_changes (l : loop) (c : Status) (o : out unit) : loop + exitCode :=
  match o with
  | Err e => inr (with_errno (l_ec l) (update_errno e))
  | _ => inl {| l_status := c; l_ec := l_ec l; l_cmd := l_cmd l;
                l_out := l_out l; l_in := l_in l |}
  end.

(** ** The state of the process *)
Inductive run_pc :=
| RunWait                              (* at [s.goWaits.Wait()] *)
| RunSelect (l : loop)                 (* at the [select] *)
| RunUpdate (l : loop) (c : Status)    (* received [c], about to report it *)
| RunBreak (ec : exitCode)             (* out of the loop, about to report the end *)
| RunSet                               (* about to set [cWaits] *)
| RunDone.

(** The goroutine that runs [Execute]: at [exitFromHandler <-] once it returned. *)
Inductive hret_state := NotReturned | Returning (ec : exitCode) | Returned.

Section System.
Context `{Win : Windows} `{Hand : Handler}.
Context (servicectlhandler : Z) (table : list SERVICE_TABLE_ENTRY).

Record sys := Sys {
  os : st;                       (* Windows, the calls made, the package variables *)
  sv : service;
  tid : Z;                       (* the thread of [Run] *)
  pc : run_pc;
  hproc : option hstate;         (* the handler's goroutines, once started *)
  hret : hret_state;
  cbs : list ctlEvent;           (* control handlers at [s.c <- e] *)
  smain : smain_pc;
  ran : option (out unit);       (* the result of [Run] *)
  crash : option panic           (* an unrecovered panic has ended the process *)
}.

Definition set_os (s : sys) (o : st) : sys :=
  Sys o (sv s) (tid s) (pc s) (hproc s) (hret s) (cbs s) (smain s) (ran s) (crash s).
Definition set_sv (s : sys) (x : service) : sys :=
  Sys (os s) x (tid s) (pc s) (hproc s) (hret s) (cbs s) (smain s) (ran s) (crash s).
Definition set_pc (s : sys) (p : run_pc) : sys :=
  Sys (os s) (sv s) (tid s) p (hproc s) (hret s) (cbs s) (smain s) (ran s) (crash s).
Definition set_hproc (s : sys) (hs : hstate) : sys :=
  Sys (os s) (sv s) (tid s) (pc s) (Some hs) (hret s) (cbs s) (smain s) (ran s) (crash s).
Definition set_hret (s : sys) (r : hret_state) : sys :=
  Sys (os s) (sv s) (tid s) (pc s) (hproc s) r (cbs s) (smain s) (ran s) (crash s).
Definition set_cbs (s : sys) (c : list ctlEvent) : sys :=
  Sys (os s) (sv s) (tid s) (pc s) (hproc s) (hret s) c (smain s) (ran s) (crash s).
Definition set_smain (s : sys) (m : smain_pc) : sys :=
  Sys (os s) (sv s) (tid s) (pc s) (hproc s) (hret s) (cbs s) m (ran s) (crash s).
Definition set_ran (s : sys) (o : out unit) : sys :=
  Sys (os s) (sv s) (tid s) (pc s) (hproc s) (hret s) (cbs s) (smain s) (Some o) (crash s).
Definition set_crash (s : sys) (p : panic) : sys :=
  Sys (os s) (sv s) (tid s) (pc s) (hproc s) (hret s) (cbs s) (smain s) (ran s) (Some p).

(** The state [Run] reaches with [go s.run()]. *)
Definition sys_init (o : st) (s : service) (t : Z) : sys :=
  Sys o s t RunWait None NotReturned [] SmIdle None None.

(** Where [run] goes after a case of the select. *)
Definition pc_of (r : loop + exitCode) : run_pc :=
  match r with inl l => RunSelect l | inr ec => RunBreak ec end.

(** ** Steps *)
Inductive label :=
| LControl (ctl event eventData ctx : Z)   (* Windows calls the control handler *)
| LServiceMain (argc argv : Z)             (* Windows calls [servicemain] *)
| LMain                                    (* a step of [servicemain] *)
| LDispatch                                (* [StartServiceCtrlDispatcher] returns *)
| LEnv (w : world)                         (* the rest of the system moves *)
| LStart                                   (* [run] wakes up and starts [Execute] *)
| LStartPanic (p : panic)                  (* [run] wakes up and panics on the arguments *)
| LAccept (n : nat) (e : ctlEvent)         (* case [r := <-inch] *)
| LDeliver (cr : ChangeRequest)            (* case [outch <- ChangeRequest] *)
| LChange (g : nat) (c : Status)           (* case [c := <-changesFromHandler] *)
| LUpdate (c : Status) (o : out unit)      (* its [updateStatus] *)
| LExit (ec : exitCode)                    (* case [ec = <-exitFromHandler] *)
| LFinal (ec : exitCode)                   (* the last [updateStatus] *)
| LSet                                     (* [s.cWaits.Set()] *)
| LReturn (ssec : bool) (ec : Z)           (* [Execute] returns *)
| LTau (g : nat)
| LPanic (p : panic).

Definition os_world (o : st) (w : world) : st := St w (st_trace o) (st_vars o).

Inductive step (s : sys) : label → sys → Prop :=
| step_control ctl ev data ctx e o :
    crash s = None →
    ctlHandler (tid s) ctl ev data ctx (os s) = (Ret e, o) →
    step s (LControl ctl ev data ctx) (set_cbs (set_os s o) (cbs s ++ [e]))
| step_servicemain argc argv :
    crash s = None → smain s = SmIdle →
    step s (LServiceMain argc argv) (set_smain s (SmEntry argc argv))
| step_main p o :
    crash s = None → sm_running (smain s) = true →
    servicemain_step servicectlhandler (smain s) (os s) = (Ret p, o) →
    step s LMain (set_smain (set_os s o) p)
| step_dispatch r o :
    crash s = None → ran s = None →
    Run_dispatch table (os s) = (r, o) →
    step s LDispatch (set_ran (set_os s o) r)
| step_env w :
    crash s = None →
    step s (LEnv w) (set_os s (os_world (os s) w))
| step_start x args o :
    crash s = None → pc s = RunWait →
    run_start (sv s) (os s) = (Ret (x, args), o) →
    step s LStart (set_hproc (set_pc (set_sv (set_os s o) x) (RunSelect loop_init)) (Execute args))
| step_start_panic p o :
    crash s = None → pc s = RunWait →
    run_start (sv s) (os s) = (Panic p, o) →
    step s (LStartPanic p) (set_crash (set_os s o) p)
| step_accept n e l r :
    crash s = None → pc s = RunSelect l →
    cbs s !! n = Some e → case_inch l e = Some r →
    step s (LAccept n e) (set_pc (set_cbs s (delete n (cbs s))) (pc_of r))
| step_deliver cr l l' hs hs' :
    crash s = None → pc s = RunSelect l → hproc s = Some hs →
    case_outch l = Some (cr, l') → hnext hs (HRecv cr) = Some hs' →
    step s (LDeliver cr) (set_hproc (set_pc s (RunSelect l')) hs')
| step_change g c l hs hs' :
    crash s = None → pc s = RunSelect l → hproc s = Some hs →
    hnext hs (HSend g c) = Some hs' →
    step s (LChange g c) (set_hproc (set_pc s (RunUpdate l c)) hs')
| step_update l c r o :
    crash s = None → pc s = RunUpdate l c →
    updateStatus (sv s) c (l_ec l) (os s) = (r, o) →
    step s (LUpdate c r) (set_pc (set_os s o) (pc_of (case_changes l c r)))
| step_exit l ec :
    crash s = None → pc s = RunSelect l → hret s = Returning ec →
    step s (LExit ec) (set_hret (set_pc s (RunBreak ec)) Returned)
| step_final ec r o :
    crash s = None → pc s = RunBreak ec →
    updateStatus (sv s) (status_of Stopped) ec (os s) = (r, o) →
    step s (LFinal ec) (set_pc (set_os s o) RunSet)
| step_set r o :
    crash s = None → pc s = RunSet →
    Set_ (cWaits (sv s)) (os s) = (r, o) →
    step s LSet (set_pc (set_os s o) RunDone)
| step_return ssec n hs hs' :
    crash s = None → hproc s = Some hs → hret s = NotReturned →
    hnext hs (HReturn ssec n) = Some hs' →
    step s (LReturn ssec n)
      (set_hret (set_hproc s hs') (Returning {| isSvcSpecific := ssec; ec_errno := n |}))
| step_tau g hs hs' :
    crash s = None → hproc s = Some hs → hnext hs (HTau g) = Some hs' →
    step s (LTau g) (set_hproc s hs')
| step_panic p hs hs' :
    crash s = None → hproc s = Some hs → hnext hs (HPanic p) = Some hs' →
    step s (LPanic p) (set_crash (set_hproc s hs') p).

(** ** The executor

    [next] runs one step: every choice of the system is in the label, so a
    schedule is a list of labels. *)
Definition next (s : sys) (l : label) : option sys :=
  match crash s with Some _ => None | None =>
  match l with
  | LControl ctl ev data ctx =>
      match ctlHandler (tid s) ctl ev data ctx (os s) with
      | (Ret e, o) => Some (set_cbs (set_os s o) (cbs s ++ [e]))
      | _ => None
      end
  | LServiceMain argc argv =>
      if decide (smain s = SmIdle) then Some (set_smain s (SmEntry argc argv)) else None
  | LMain =>
      if sm_running (smain s) then
        match servicemain_step servicectlhandler (smain s) (os s) with
        | (Ret p, o) => Some (set_smain (set_os s o) p)
        | _ => None
        end
      else None
  | LDispatch =>
      match ran s with
      | None => let '(r, o) := Run_dispatch table (os s) in Some (set_ran (set_os s o) r)
      | Some _ => None
      end
  | LEnv w => Some (set_os s (os_world (os s) w))
  | LStart =>
      match pc s, run_start (sv s) (os s) with
      | RunWait, (Ret (x, args), o) =>
          Some (set_hproc (set_pc (set_sv (set_os s o) x) (RunSelect loop_init)) (Execute args))
      | _, _ => None
      end
  | LStartPanic p =>
      match pc s, run_start (sv s) (os s) with
      | RunWait, (Panic p', o) =>
          if decide (p = p') then Some (set_crash (set_os s o) p) else None
      | _, _ => None
      end
  | LAccept n e =>
      match pc s with
      | RunSelect l =>
          if decide (cbs s !! n = Some e) then
            (λ r, set_pc (set_cbs s (delete n (cbs s))) (pc_of r)) <$> case_inch l e
          else None
      | _ => None
      end
  | LDeliver cr =>
      match pc s, hproc s with
      | RunSelect l, Some hs =>
          match case_outch l, hnext hs (HRecv cr) with
          | Some (cr', l'), Some hs' =>
              if decide (cr = cr') then Some (set_hproc (set_pc s (RunSelect l')) hs') else None
          | _, _ => None
          end
      | _, _ => None
      end
  | LChange g c =>
      match pc s, hproc s with
      | RunSelect l, Some hs =>
          (λ hs', set_hproc (set_pc s (RunUpdate l c)) hs') <$> hnext hs (HSend g c)
      | _, _ => None
      end
  | LUpdate c r =>
      match pc s with
      | RunUpdate l c' =>
          let '(r', o) := updateStatus (sv s) c (l_ec l) (os s) in
          if decide (c = c' ∧ r = r') then Some (set_pc (set_os s o) (pc_of (case_changes l c r)))
          else None
      | _ => None
      end
  | LExit ec =>
      match pc s, hret s with
      | RunSelect l, Returning ec' =>
          if decide (ec = ec') then Some (set_hret (set_pc s (RunBreak ec)) Returned) else None
      | _, _ => None
      end
  | LFinal ec =>
      match pc s with
      | RunBreak ec' =>
          let '(r, o) := updateStatus (sv s) (status_of Stopped) ec (os s) in
          if decide (ec = ec') then Some (set_pc (set_os s o) RunSet) else None
      | _ => None
      end
  | LSet =>
      match pc s with
      | RunSet => let '(r, o) := Set_ (cWaits (sv s)) (os s) in Some (set_pc (set_os s o) RunDone)
      | _ => None
      end
  | LReturn ssec n =>
      match hproc s, hret s with
      | Some hs, NotReturned =>
          (λ hs', set_hret (set_hproc s hs')
                    (Returning {| isSvcSpecific := ssec; ec_errno := n |}))
          <$> hnext hs (HReturn ssec n)
      | _, _ => None
      end
  | LTau g =>
      match hproc s with
      | Some hs => set_hproc s <$> hnext hs (HTau g)
      | None => None
      end
  | LPanic p =>
      match hproc s with
      | Some hs => (λ hs', set_crash (set_hproc s hs') p) <$> hnext hs (HPanic p)
      | None => None
      end
  end end.

Lemma step_complete s l s' : step s l s' → next s l = Some s'.
Proof.
  intros Hs. unfold next. inv Hs;
    repeat match goal with E : _ = _ |- _ => rewrite E end;
    try done; simpl; try by rewrite decide_True by done.
Qed.

Lemma step_sound s l s' : next s l = Some s' → step s l s'.
Proof.
  unfold next. destruct (crash s) eqn:Hc; [done|]. intros Hn.
  destruct l; cases_hyp; simplify_option_eq; destruct_and?; subst; eauto using step.
Qed.

(** The service object is filled in once, when [run] wakes up. *)
Lemma step_sv s l s' : step s l s' → pc s ≠ RunWait → sv s' = sv s ∧ pc s' ≠ RunWait.
Proof.
  intros Hs Hp. inv Hs; try done; simpl; (split; [done|]); try done; by destruct (case_changes _ _ _) || by destruct r.
Qed.

Lemma exec_sv s ls s' : exec step s ls s' → pc s ≠ RunWait → sv s' = sv s ∧ pc s' ≠ RunWait.
Proof.
  intros Hex Hp. revert Hex. apply (exec_invariant step (λ _ s', sv s' = sv s ∧ pc s' ≠ RunWait)); [done|].
  intros _ s1 l s2 [<- Hp1] Hs. by eapply step_sv.
Qed.

(** ** The handler's part of an execution *)
Definition act_of (l : label) : option hact :=
  match l with
  | LDeliver cr => Some (HRecv cr)
  | LChange g c => Some (HSend g c)
  | LReturn ssec ec => Some (HReturn ssec ec)
  | LTau g => Some (HTau g)
  | LPanic p => Some (HPanic p)
  | _ => None
  end.
Definition acts (ls : list label) : list hact := omap act_of ls.

Definition handler_step (hs : hstate) (a : hact) (hs' : hstate) : Prop := hnext hs a = Some hs'.

Lemma step_handler s l s' hs :
  step s l s' → hproc s = Some hs → pc s ≠ RunWait →
  ∃ hs', hproc s' = Some hs' ∧
    match act_of l with Some a => handler_step hs a hs' | None => hs' = hs end.
Proof.
  intros Hs Hh Hp. unfold handler_step. inv Hs; simplify_eq/=; eauto.
Qed.

(** Before it is started there is none; then it runs as a handler on its own. *)
Lemma sys_handler o x t ls s :
  exec step (sys_init o x t) ls s →
  match hproc s with
  | None => pc s = RunWait ∧ acts ls = []
  | Some hs => pc s ≠ RunWait ∧ ∃ args, exec handler_step (Execute args) (acts ls) hs
  end.
Proof.
  apply (exec_invariant step (λ ls s, match hproc s with
    | None => pc s = RunWait ∧ acts ls = []
    | Some hs => pc s ≠ RunWait ∧ ∃ args, exec handler_step (Execute args) (acts ls) hs
    end)); [done|].
  clear ls s. intros ls s l s' Hi Hs. unfold acts. rewrite omap_app.
  destruct (hproc s) as [hs|] eqn:Hh.
  - destruct Hi as (Hp & args & Hex). destruct (step_handler _ _ _ _ Hs Hh Hp) as (hs' & Hh' & Ha).
    rewrite Hh'. split.
    + inv Hs; try done; simpl; try (by destruct r); congruence || by destruct (case_changes _ _ _).
    + exists args. cbn [omap list_omap]. destruct (act_of l) as [a|]; cbn in *.
      * eapply exec_snoc; [exact Hex|exact Ha].
      * by rewrite app_nil_r, Ha.
  - destruct Hi as (Hp & Ha). unfold acts in Ha. rewrite Ha.
    inv Hs; simplify_eq/=; rewrite ?Hh; try (by split); try congruence.
    split; [done|]. exists args. constructor.
Qed.

End System.
