(* ===== verification/SvcProtocol.v ===== *)
(** * The protocol a service speaks, and that [run] implements it

    [spec] is what the package promises a handler and Windows: requests are
    handed over one at a time with the status last reported, statuses are
    reported as they come, and the end is reported once and then signalled. The
    refinement shows that every execution of the goroutines of SvcSystem is an
    execution of [spec], for every handler and every behaviour of Windows; the
    other theorems are what follows for the requests, the statuses and the end. *)
From Stdlib Require Import ZArith Lia.
From stdpp Require Import base option list strings.
From S2P Require Import Prelude GoText Go WinConst Machine GoSyscall Script Winapi.
From S2P Require Import SvcEvent SvcService SvcAsm SvcSystem.

Local Open Scope Z_scope.

(** ** The abstract protocol *)
Inductive spec :=
| SNew
| SRun (pending : option Z) (reported : Status)
| SEnd (ec : exitCode)
| SReported
| SOver.

Inductive obs :=
| OStart
| OAccept (c : Z)               (* a control is taken from Windows *)
| ODeliver (cr : ChangeRequest) (* a request is handed to the handler *)
| OReport (c : Status)          (* a status of the handler is reported *)
| OFail (n : Z)                 (* the service gives up with an error number *)
| OExit (ec : exitCode)         (* the handler has returned *)
| OFinal (ec : exitCode)        (* the end is reported *)
| OSignal.                      (* [servicemain] is released *)

Inductive spec_step : spec → obs → spec → Prop :=
| spec_start : spec_step SNew OStart (SRun None (status_of Stopped))
| spec_accept c st : spec_step (SRun None st) (OAccept c) (SRun (Some c) st)
| spec_deliver c st :
    spec_step (SRun (Some c) st) (ODeliver {| Cmd := c; CurrentStatus := st |}) (SRun None st)
| spec_report p st c : spec_step (SRun p st) (OReport c) (SRun p c)
| spec_fail p st n :
    spec_step (SRun p st) (OFail n) (SEnd {| isSvcSpecific := true; ec_errno := n |})
| spec_exit p st ec : spec_step (SRun p st) (OExit ec) (SEnd ec)
| spec_final ec : spec_step (SEnd ec) (OFinal ec) SReported
| spec_signal : spec_step SReported OSignal SOver.

Definition accepted (os : list obs) : list Z :=
  omap (λ o, match o with OAccept c => Some c | _ => None end) os.
Definition delivered (os : list obs) : list ChangeRequest :=
  omap (λ o, match o with ODeliver cr => Some cr | _ => None end) os.
Definition reported (os : list obs) : list Status :=
  omap (λ o, match o with OReport c => Some c | _ => None end) os.
(** The status the service is known to be in: the last one reported. *)
Definition current (os : list obs) : Status := default (status_of Stopped) (last (reported os)).
Definition finals (os : list obs) : list exitCode :=
  omap (λ o, match o with OFinal ec => Some ec | _ => None end) os.

Lemma accepted_snoc os o : accepted (os ++ [o]) = accepted os ++ accepted [o].
Proof. apply omap_app. Qed.
Lemma delivered_snoc os o : delivered (os ++ [o]) = delivered os ++ delivered [o].
Proof. apply omap_app. Qed.
Lemma reported_snoc os o : reported (os ++ [o]) = reported os ++ reported [o].
Proof. apply omap_app. Qed.
Lemma finals_snoc os o : finals (os ++ [o]) = finals os ++ finals [o].
Proof. apply omap_app. Qed.
Lemma current_snoc os o :
  current (os ++ [o]) = match o with OReport c => c | _ => current os end.
Proof.
  unfold current. rewrite reported_snoc.
  destruct o; cbn; rewrite ?app_nil_r; try done. by rewrite last_snoc.
Qed.

(** What is known of the past in each state of the protocol: the requests handed
    over, the status, the end. *)
Definition undelivered (os : list obs) (t : spec) (k : list Z) : Prop :=
  accepted os = (Cmd <$> delivered os) ++ k ∧ (length k ≤ 1)%nat ∧
  match t with SNew => k = [] | SRun p _ => k = option_list p | _ => True end.

Lemma spec_fifo os t : exec spec_step SNew os t → ∃ k, undelivered os t k.
Proof.
  apply (exec_invariant spec_step (λ os t, ∃ k, undelivered os t k)).
  { exists []. split_and!; [done|simpl; lia|done]. }
  clear os t. intros os t o t' (k & Hk & Hl & Hp) Hs. unfold undelivered.
  rewrite accepted_snoc, delivered_snoc, fmap_app, Hk.
  inv Hs; cbn in *; subst; cbn in *; rewrite ?app_nil_r;
    (eexists; split; [first [by rewrite ?app_nil_r | by rewrite <- ?app_assoc]|]; simpl;
     split; [lia|done]).
Qed.

Lemma spec_current os t :
  exec spec_step SNew os t →
  match t with SNew => os = [] | SRun _ st => st = current os | _ => True end.
Proof.
  apply (exec_invariant spec_step (λ os t, match t with
    | SNew => os = [] | SRun _ st => st = current os | _ => True end)); [done|].
  clear os t. intros os t o t' Ht Hs.
  inv Hs; cbn in *; subst; rewrite ?current_snoc; done.
Qed.

Lemma spec_finals os t :
  exec spec_step SNew os t →
  length (finals os) = match t with SReported | SOver => 1%nat | _ => 0%nat end.
Proof.
  apply (exec_invariant spec_step (λ os t,
    length (finals os) = match t with SReported | SOver => 1%nat | _ => 0%nat end)); [done|].
  clear os t. intros os t o t' Ht Hs. rewrite finals_snoc, length_app, Ht. by inv Hs.
Qed.

(** ** The goroutines implement it *)
Section Protocol.
Context `{Win : Windows} `{Hand : Handler}.
Context (servicectlhandler : Z) (table : list SERVICE_TABLE_ENTRY).
Local Abbreviation stp := (step servicectlhandler table).

Definition observe (l : label) : option obs :=
  match l with
  | LStart => Some OStart
  | LAccept _ e => Some (if errno e =? 0 then OAccept (cmd e) else OFail (errno e))
  | LDeliver cr => Some (ODeliver cr)
  | LUpdate c (Err e) => Some (OFail (update_errno e))
  | LUpdate c _ => Some (OReport c)
  | LExit ec => Some (OExit ec)
  | LFinal ec => Some (OFinal ec)
  | LSet => Some OSignal
  | _ => None
  end.

(** The protocol state of the process. *)
Definition abs (s : sys) : spec :=
  match pc s with
  | RunWait => SNew
  | RunSelect l | RunUpdate l _ => SRun (if l_out l then Some (l_cmd l) else None) (l_status l)
  | RunBreak ec => SEnd ec
  | RunSet => SReported
  | RunDone => SOver
  end.

(** The invariant of [run]'s variables: exactly one of the two channel variables
    is nil, the exit code is untouched in the loop, and the handler exists as
    soon as the loop does. *)
Definition loop_ok (l : loop) : Prop :=
  l_ec l = {| isSvcSpecific := true; ec_errno := 0 |} ∧ l_in l = negb (l_out l).

Definition wf (s : sys) : Prop :=
  match pc s with
  | RunWait => hproc s = None ∧ hret s = NotReturned
  | RunSelect l | RunUpdate l _ => loop_ok l ∧ is_Some (hproc s)
  | _ => is_Some (hproc s)
  end.

Lemma wf_init o x t : wf (sys_init o x t).
Proof. done. Qed.

Lemma case_inch_ok l e r :
  loop_ok l → case_inch l e = Some r → l_out l = false ∧
  r = if errno e =? 0
      then inl {| l_status := l_status l; l_ec := l_ec l; l_cmd := cmd e; l_out := true;
                  l_in := false |}
      else inr {| isSvcSpecific := true; ec_errno := errno e |}.
Proof.
  intros [Hec Hin]. unfold case_inch, with_errno. rewrite Hin, Hec.
  destruct (l_out l); [done|]. cbn. intros [= <-]. done.
Qed.

Lemma case_outch_ok l cr l' :
  loop_ok l → case_outch l = Some (cr, l') →
  l_out l = true ∧ cr = {| Cmd := l_cmd l; CurrentStatus := l_status l |} ∧
  loop_ok l' ∧ l_out l' = false ∧ l_status l' = l_status l.
Proof.
  intros [Hec Hin]. unfold case_outch. destruct (l_out l); [|done]. by intros [= <- <-].
Qed.

Lemma case_changes_ok l c r :
  loop_ok l →
  match r with
  | Err e => case_changes l c r
             = inr {| isSvcSpecific := true; ec_errno := update_errno e |}
  | _ => ∃ l', case_changes l c r = inl l' ∧ loop_ok l' ∧ l_out l' = l_out l ∧
               l_cmd l' = l_cmd l ∧ l_status l' = c
  end.
Proof.
  intros [Hec Hin]. unfold case_changes, with_errno. rewrite Hec.
  destruct r; [eexists; by split_and!| |eexists; by split_and!]. done.
Qed.

Lemma updateStatus_no_panic x c ec o p o' : updateStatus x c ec o ≠ (Panic p, o').
Proof.
  intros E. pose proof (wp_run _ _ _ _ _ (updateStatus_run x c ec o) E) as (tr & _ & _ & Hif).
  destruct (h x =? 0); [by destruct Hif|]. destruct Hif as (rep & _ & Ho). by case_match.
Qed.

(** Inverts a step, with what the invariant says of its case of the select. *)
Ltac step_cases :=
  match goal with H : step _ _ _ _ _ |- _ => inv H end;
  repeat match goal with E : pc _ = _ |- _ => progress rewrite E in * end;
  try match goal with
      | W : loop_ok ?l ∧ _, E : case_inch ?l _ = Some _ |- _ =>
          destruct (case_inch_ok _ _ _ (proj1 W) E) as [? ->]
      | W : loop_ok ?l ∧ _, E : case_outch ?l = Some _ |- _ =>
          destruct (case_outch_ok _ _ _ (proj1 W) E) as (? & -> & ? & ? & ?)
      | W : loop_ok ?l ∧ _, E : updateStatus _ ?c _ _ = (?r, _) |- _ =>
          pose proof (case_changes_ok l c r (proj1 W))
      end.

(** Rewrites with the known values of the loop's variables. *)
Ltac loop_eqs :=
  repeat match goal with
  | E : ∃ _, _ |- _ => destruct E
  | E : _ ∧ _ |- _ => destruct E
  | E : pc _ = _ |- _ => progress rewrite E
  | E : l_out _ = _ |- _ => progress rewrite E
  | E : l_cmd _ = _ |- _ => progress rewrite E
  | E : l_status _ = _ |- _ => progress rewrite E
  | E : case_changes _ _ _ = _ |- _ => progress rewrite E; cbn
  end; cbn.

Lemma step_wf s l s' : wf s → stp s l s' → wf s'.
Proof.
  unfold wf. intros Hw Hs. step_cases; cbn in *; try done; try (by case_match);
    try (by destruct_and?); try (by case_match; destruct_and?; eauto).
  - destruct Hw as [[] ?]. by destruct (errno e =? 0).
  - destruct (pc s); destruct_and?; simplify_eq; eauto.
  - destruct (pc s); destruct_and?; simplify_eq; eauto.
  - destruct (pc s); destruct_and?; simplify_eq; eauto.
Qed.

Lemma reachable_wf o x t s : reachable stp (sys_init o x t) s → wf s.
Proof. apply reachable_invariant; [apply wf_init|apply step_wf]. Qed.

Lemma run_simulates : simulates stp spec_step observe (λ s t, wf s ∧ t = abs s).
Proof.
  intros s l s' t [Hw ->] Hs. exists (abs s').
  split; [split; [by eapply step_wf|done]|].
  unfold wf, abs in *. step_cases; cbn in *; try done; try (by constructor).
  - loop_eqs. done.
  - loop_eqs. destruct (errno e =? 0); constructor.
  - loop_eqs. constructor.
  - destruct r as [[]|e|p].
    + loop_eqs. constructor.
    + loop_eqs. constructor.
    + exfalso. by eapply updateStatus_no_panic.
Qed.

Abbreviation history ls := (observations observe ls).

Lemma history_spec o x t ls s :
  exec stp (sys_init o x t) ls s → wf s ∧ exec spec_step SNew (history ls) (abs s).
Proof.
  intros Hex.
  destruct (simulation_exec _ _ _ _ _ _ _ SNew run_simulates (conj (wf_init o x t) eq_refl) Hex)
    as (t' & [Hw ->] & Hsp). done.
Qed.

(** ** The status reports in the calls *)
Definition report_of (en : entry) : option SERVICE_STATUS :=
  match en with Entry (SetServiceStatusP _ t) _ => Some t | _ => None end.
Definition reports (tr : list entry) : list SERVICE_STATUS := omap report_of tr.

Lemma reports_app tr tr' : reports (tr ++ tr') = reports tr ++ reports tr'.
Proof. apply omap_app. Qed.

(** A computation that reports no status. *)
Definition quiet {A} (m : M A) : Prop :=
  ∀ s, reports (st_trace (m s).2) = reports (st_trace s).

Lemma quiet_ret {A} (a : A) : quiet (ret a).
Proof. done. Qed.
Lemma quiet_err {A} e : quiet (A := A) (err e).
Proof. done. Qed.
Lemma quiet_get : quiet get.
Proof. done. Qed.
Lemma quiet_set_vars f : quiet (set_vars f).
Proof. done. Qed.
Lemma quiet_bind {A B} (m : M A) (k : A → M B) : quiet m → (∀ a, quiet (k a)) → quiet (bind m k).
Proof.
  intros Hm Hk s. unfold bind. specialize (Hm s).
  destruct (m s) as [[a|e|p] s']; simpl in *; [by rewrite Hk|done|done].
Qed.
Lemma quiet_ignore {A} (m : M A) : quiet m → quiet (ignore m).
Proof. intros Hm s. unfold ignore. specialize (Hm s). by destruct (m s) as [[a|e|p] s']. Qed.
Lemma quiet_check0 {p A} (r : reply p) (v : A) : quiet (check0 r v).
Proof. intros s. unfold check0. by destruct (r_ret r =? 0). Qed.
Lemma quiet_syscall p :
  (∀ rep, report_of (Entry p rep) = None) → quiet (syscall p).
Proof.
  intros Hp s. unfold syscall. destruct (call p (st_world s)) as [rep w]. simpl.
  rewrite reports_app. unfold reports at 2. cbn [omap list_omap]. by rewrite Hp, app_nil_r.
Qed.

Ltac solve_quiet :=
  repeat (intros; first
    [ apply quiet_bind | apply quiet_ignore | apply quiet_ret | apply quiet_err | apply quiet_get
    | apply quiet_set_vars | apply quiet_check0 | apply quiet_syscall; done
    | case_match ]).

Lemma ctlHandler_quiet t ctl ev data ctx : quiet (ctlHandler t ctl ev data ctx).
Proof. unfold ctlHandler, GetCurrentThreadId. solve_quiet. Qed.
Lemma servicemain_step_quiet hp p : quiet (servicemain_step hp p).
Proof. unfold servicemain_step. solve_quiet. Qed.
Lemma Run_dispatch_quiet t : quiet (Run_dispatch t).
Proof. unfold Run_dispatch, StartServiceCtrlDispatcher. solve_quiet. Qed.
Lemma Set_quiet e : quiet (Set_ e).
Proof. unfold Set_, SetEvent. solve_quiet. Qed.
Lemma run_start_quiet x : quiet (run_start x).
Proof.
  unfold run_start, Wait, WaitForSingleObject. solve_quiet.
Qed.

Lemma quiet_run {A} (m : M A) s o s' :
  quiet m → m s = (o, s') → reports (st_trace s') = reports (st_trace s).
Proof. intros Hq E. specialize (Hq s). by rewrite E in Hq. Qed.

Lemma updateStatus_reports_run x c ec o r o' :
  updateStatus x c ec o = (r, o') → h x ≠ 0 →
  reports (st_trace o') = reports (st_trace o) ++ [service_status c ec].
Proof.
  intros E Hh. pose proof (wp_run _ _ _ _ _ (updateStatus_run x c ec o) E) as (tr & Hm & _ & Hif).
  rewrite (proj2 (Z.eqb_neq _ _) Hh) in Hif. destruct Hif as (rep & -> & _).
  by rewrite Hm, reports_app.
Qed.

(** The statuses the handler sends, and what Windows is told of one. *)
Definition sends (acts : list hact) : list Status :=
  omap (λ a, match a with HSend _ c => Some c | _ => None end) acts.

Lemma sends_app acts acts' : sends (acts ++ acts') = sends acts ++ sends acts'.
Proof. apply omap_app. Qed.
Lemma acts_snoc ls l : acts (ls ++ [l]) = acts ls ++ acts [l].
Proof. apply omap_app. Qed.

Definition as_told (c : Status) : SERVICE_STATUS :=
  service_status c {| isSvcSpecific := true; ec_errno := 0 |}.

(** A status [run] has received and not reported yet. *)
Definition on_its_way (p : run_pc) : list SERVICE_STATUS :=
  match p with RunUpdate _ c => [as_told c] | _ => [] end.

(** What the labels say was told to Windows. *)
Definition told1 (l : label) : list SERVICE_STATUS :=
  match l with
  | LUpdate c _ => [service_status c {| isSvcSpecific := true; ec_errno := 0 |}]
  | LFinal ec => [service_status (status_of Stopped) ec]
  | _ => []
  end.
Definition told (ls : list label) : list SERVICE_STATUS := ls ≫= told1.

Lemma told_snoc ls l : told (ls ++ [l]) = told ls ++ told1 l.
Proof. unfold told. rewrite bind_app. cbn. by rewrite app_nil_r. Qed.

Definition told_ok (o : st) (ls : list label) (s : sys) : Prop :=
  wf s ∧
  match pc s with
  | RunWait => reports (st_trace (os s)) = reports (st_trace o) ∧ told ls = []
  | _ => h (sv s) ≠ 0 → reports (st_trace (os s)) = reports (st_trace o) ++ told ls
  end.

Ltac rewrite_quiet :=
  repeat match goal with
  | E : ctlHandler _ _ _ _ _ _ = _ |- _ => apply quiet_run in E; [|apply ctlHandler_quiet]
  | E : servicemain_step _ _ _ = _ |- _ => apply quiet_run in E; [|apply servicemain_step_quiet]
  | E : Run_dispatch _ _ = _ |- _ => apply quiet_run in E; [|apply Run_dispatch_quiet]
  | E : Set_ _ _ = _ |- _ => apply quiet_run in E; [|apply Set_quiet]
  | E : run_start _ _ = _ |- _ => apply quiet_run in E; [|apply run_start_quiet]
  end.

Lemma told_ok_step o ls s l s' : told_ok o ls s → stp s l s' → told_ok o (ls ++ [l]) s'.
Proof.
  intros [Hw Ht] Hs. split; [by eapply step_wf|]. rewrite told_snoc.
  unfold wf in Hw. step_cases; cbn in *; rewrite ?app_nil_r; rewrite_quiet;
    try (destruct (pc s); intuition congruence).
  - destruct Ht as [Hr Hl]. by rewrite H1, Hr, Hl, app_nil_r.
  - by destruct (errno e =? 0).
  - assert (h (sv s) ≠ 0 → reports (st_trace o0) = reports (st_trace o) ++ told ls ++
      [service_status c {| isSvcSpecific := true; ec_errno := 0 |}]) as Hr.
    { intros Hh. destruct Hw as [[<- _] _]. erewrite updateStatus_reports_run by done.
      by rewrite Ht, app_assoc. }
    by destruct (case_changes l0 c r).
  - intros Hh. erewrite updateStatus_reports_run by done. by rewrite Ht, app_assoc.
Qed.

Lemma told_ok_exec o x t ls s : exec stp (sys_init o x t) ls s → told_ok o ls s.
Proof.
  apply exec_invariant; [|apply told_ok_step]. split; [apply wf_init|done].
Qed.

(** A step tells Windows what its label says, or nothing. *)
Lemma updateStatus_reports_at_most x c ec o r o' :
  updateStatus x c ec o = (r, o') →
  ∃ k, reports (st_trace o') = reports (st_trace o) ++ k ∧ (k = [] ∨ k = [service_status c ec]).
Proof.
  intros E. destruct (decide (h x = 0)) as [Hh|Hh].
  - pose proof (wp_run _ _ _ _ _ (updateStatus_run x c ec o) E) as (tr & Hm & _ & Hif).
    rewrite (proj2 (Z.eqb_eq _ _) Hh) in Hif. destruct Hif as [-> _].
    exists []. split; [|by left]. by rewrite Hm, !app_nil_r.
  - exists [service_status c ec]. split; [|by right]. by eapply updateStatus_reports_run.
Qed.

Lemma step_tells s l s' :
  wf s → stp s l s' →
  ∃ k, reports (st_trace (os s')) = reports (st_trace (os s)) ++ k ∧ (k = [] ∨ k = told1 l).
Proof.
  intros Hw Hs. unfold wf in Hw. step_cases; cbn in *; rewrite_quiet;
    try (exists []; rewrite app_nil_r; split; [done|by left]).
  - destruct Hw as [[<- _] _]. by eapply updateStatus_reports_at_most.
  - by eapply updateStatus_reports_at_most.
Qed.

(** ** After the loop *)
Definition over (s : sys) : Prop :=
  match pc s with RunBreak _ | RunSet | RunDone => True | _ => False end.

(** The steps that serve a callback or the handler. *)
Definition serves (l : label) : bool :=
  match l with
  | LStart | LAccept _ _ | LDeliver _ | LChange _ _ | LUpdate _ _ | LExit _ => true
  | _ => false
  end.

Definition abandoned (s0 : sys) (ls : list label) (s : sys) : Prop :=
  over s ∧ forallb (negb ∘ serves) ls = true ∧ (∃ k, cbs s = cbs s0 ++ k) ∧
  (hret s0 ≠ Returned → hret s ≠ Returned).

Lemma abandoned_step s0 ls s l s' :
  abandoned s0 ls s → stp s l s' → abandoned s0 (ls ++ [l]) s'.
Proof.
  unfold abandoned, over. intros (Ho & Hf & [k Hk] & Hr) Hs. rewrite forallb_app, Hf.
  match goal with H : step _ _ _ _ _ |- _ => inv H end;
    repeat match goal with E : pc _ = _ |- _ => rewrite E in * end; cbn in *; try done;
    split_and!; eauto.
  exists (k ++ [e]). by rewrite Hk, app_assoc.
Qed.

Lemma abandoned_exec s ls s' : over s → exec stp s ls s' → abandoned s ls s'.
Proof.
  intros Ho. apply exec_invariant; [|apply abandoned_step].
  split_and!; [done|done|exists []; by rewrite app_nil_r|done].
Qed.

(** ** The end of the service *)
Definition final_last (ls : list label) (s : sys) : Prop :=
  wf s ∧
  match pc s with
  | RunSet | RunDone => ∃ ec, finals (history ls) = [ec] ∧
      last (told ls) = Some (service_status (status_of Stopped) ec)
  | _ => finals (history ls) = []
  end.

Lemma final_last_step ls s l s' : final_last ls s → stp s l s' → final_last (ls ++ [l]) s'.
Proof.
  intros [Hw Hf] Hs. split; [by eapply step_wf|].
  rewrite observations_snoc, told_snoc. unfold finals in *. rewrite omap_app.
  unfold wf in Hw. step_cases; cbn in *; rewrite ?app_nil_r;
    try (by destruct (pc s)); try (by rewrite Hf).
  - destruct (errno e =? 0); cbn; by rewrite Hf.
  - rewrite Hf. destruct r as [|e|]; cbn; by destruct (case_changes l0 c _).
  - exists ec. rewrite Hf. by rewrite last_snoc.
Qed.

Lemma final_last_exec o x t ls s : exec stp (sys_init o x t) ls s → final_last ls s.
Proof. apply exec_invariant; [by split|apply final_last_step]. Qed.

(** What Windows is told at the end. *)
Definition end_told (ls : list label) : list SERVICE_STATUS :=
  service_status (status_of Stopped) <$> finals (history ls).

Lemma finals_history ls l : finals (history (ls ++ [l])) = finals (history ls) ++ finals (history [l]).
Proof. unfold finals. by rewrite observations_app, omap_app. Qed.
Lemma end_told_snoc ls l : end_told (ls ++ [l]) = end_told ls ++ end_told [l].
Proof. unfold end_told. by rewrite finals_history, fmap_app. Qed.

(** One step: what the handler sends is on its way, and what is on its way is told; the
    end is told by itself. *)
Lemma way_step s l s' :
  wf s → stp s l s' →
  told1 l ++ on_its_way (pc s')
  = on_its_way (pc s) ++ (as_told <$> sends (acts [l])) ++ end_told [l].
Proof.
  unfold wf. intros Hw Hs.
  inv Hs; repeat match goal with E : pc _ = _ |- _ => rewrite E in * end; try done;
    cbn; rewrite ?app_nil_r; try done.
  all: try (match goal with E : pc _ = _ |- _ => by rewrite E end).
  - destruct r; by destruct (errno e =? 0).
  - by destruct r; destruct (case_changes _ _ _).
Qed.

(** All statuses sent so far, then the end, are told or on their way. *)
Definition ledger (ls : list label) (s : sys) : Prop :=
  final_last ls s ∧
  told ls ++ on_its_way (pc s) = (as_told <$> sends (acts ls)) ++ end_told ls.

Lemma ledger_step ls s l s' : ledger ls s → stp s l s' → ledger (ls ++ [l]) s'.
Proof.
  intros [Hf Ht] Hs. split; [by eapply final_last_step|].
  rewrite told_snoc, acts_snoc, end_told_snoc, sends_app, fmap_app, <- app_assoc.
  rewrite (way_step _ _ _ (proj1 Hf) Hs), app_assoc, Ht, <- !app_assoc. f_equal.
  destruct (sends (acts [l])) as [|c cs] eqn:Hsend; [done|].
  assert (end_told ls = []) as ->; [|done]. unfold end_told.
  destruct Hf as [_ Hf]. inv Hs; try done; repeat match goal with E : pc _ = _ |- _ => rewrite E in * end;
    by rewrite Hf.
Qed.

Lemma ledger_exec o x t ls s : exec stp (sys_init o x t) ls s → ledger ls s.
Proof. apply exec_invariant; [by split; [split|]|apply ledger_step]. Qed.

(** *** How the service ends

    With the code that [Execute] has returned, or with the error number of the event
    that has broken the loop. *)
Definition returned (l : label) : option exitCode :=
  match l with LReturn ssec n => Some {| isSvcSpecific := ssec; ec_errno := n |} | _ => None end.
Definition broken (l : label) : option Z :=
  match l with
  | LAccept _ e => if errno e =? 0 then None else Some (errno e)
  | LUpdate _ (Err e) => Some (update_errno e)
  | _ => None
  end.
Definition ends_with (bs : list Z) (rs : list exitCode) (ec : exitCode) : Prop :=
  match bs with [] => rs = [ec] | _ => bs = [ec_errno ec] ∧ isSvcSpecific ec = true end.

Definition accounted (bs : list Z) (rs fs : list exitCode) (p : run_pc) (hr : hret_state) : Prop :=
  match p with
  | RunWait => bs = [] ∧ rs = [] ∧ hr = NotReturned
  | RunSelect _ | RunUpdate _ _ =>
      bs = [] ∧ rs = match hr with Returning ec => [ec] | _ => [] end ∧ hr ≠ Returned
  | RunBreak ec => ends_with bs rs ec ∧ (bs = [] → hr = Returned)
  | RunSet | RunDone => ∃ ec, fs = [ec] ∧ ends_with bs rs ec ∧ (bs = [] → hr = Returned)
  end.
Definition in_account (ls : list label) (s : sys) : Prop :=
  accounted (omap broken ls) (omap returned ls) (finals (history ls)) (pc s) (hret s).

(** [Execute] returns after the loop only when something else has broken it. *)
Lemma accounted_return bs rs fs p ec :
  p ≠ RunWait → accounted bs rs fs p NotReturned → accounted bs (rs ++ [ec]) fs p (Returning ec).
Proof.
  destruct p as [| | |ec0| |]; cbn; [done| | | | |]; intros _.
  1, 2: by intros (-> & -> & _).
  - intros [He Hr]. destruct bs; [by discriminate Hr|]. by split.
  - intros (ec0 & Hf & He & Hr). exists ec0. destruct bs; [by discriminate Hr|]. by split_and!.
  - intros (ec0 & Hf & He & Hr). exists ec0. destruct bs; [by discriminate Hr|]. by split_and!.
Qed.

Lemma in_account_step ls s l s' :
  final_last ls s → in_account ls s → stp s l s' → in_account (ls ++ [l]) s'.
Proof.
  unfold in_account. intros [Hw Hf] Ha Hs. pose proof Hw as Hw'. unfold wf in Hw.
  rewrite finals_history, !(omap_app _ ls).
  step_cases; cbn in *; rewrite ?app_nil_r; try done.
  - destruct Ha as (-> & -> & ->). done.
  - match goal with E : pc _ = _ |- _ => by rewrite E end.
  - destruct Ha as (-> & ? & ?). by destruct (errno e =? 0).
  - destruct Ha as (-> & ? & ?). destruct r; destruct_and?; cbn; rewrite ?app_nil_r;
      [loop_eqs; by split_and!| |loop_eqs; by split_and!].
    match goal with E : loop_ok _ |- _ => destruct E as [-> _] end. by split.
  - destruct Ha as (-> & Hr & _). match goal with E : hret _ = _ |- _ => rewrite E in Hr end. by split.
  - rewrite Hf. exists ec. by split.
  - match goal with E : hret _ = _ |- _ => rewrite E in Ha end.
    apply accounted_return; [|done]. intros E. unfold wf in Hw'. rewrite E in Hw'.
    destruct Hw' as [? _]. congruence.
Qed.

Lemma in_account_exec o x t ls s : exec stp (sys_init o x t) ls s → in_account ls s.
Proof.
  intros Hex. apply (exec_invariant stp (λ ls s, final_last ls s ∧ in_account ls s)) in Hex; [apply Hex|by split; [split|]|].
  intros ls1 s1 l s2 [Hf Ha] Hs. split; [by eapply final_last_step|by eapply in_account_step].
Qed.

(** ** Properties *)

(** C1: the goroutines implement the protocol: whatever the handler, Windows and
    the schedule do, the requests, reports and the end of every execution are an
    execution of [spec], in the state the variables of [run] stand for. *)
Theorem run_refines_protocol o x t ls s :
  exec stp (sys_init o x t) ls s → exec spec_step SNew (history ls) (abs s).
Proof. apply history_spec. Qed.

(** C2: no control is lost, duplicated or reordered: the commands handed to the
    handler are the controls taken from Windows, in that order, except that at
    most one taken control is still waiting for the handler. *)
Theorem requests_in_order o x t ls s :
  exec stp (sys_init o x t) ls s →
  ∃ k, accepted (history ls) = (Cmd <$> delivered (history ls)) ++ k ∧ (length k ≤ 1)%nat ∧
    match pc s with
    | RunSelect l | RunUpdate l _ => k = if l_out l then [l_cmd l] else []
    | _ => True
    end.
Proof.
  intros Hex. destruct (history_spec _ _ _ _ _ Hex) as [_ Hsp].
  destruct (spec_fifo _ _ Hsp) as (k & Hk & Hl & Hp). exists k. split_and!; [done..|].
  unfold abs in Hp. destruct (pc s); try done; by destruct (l_out l).
Qed.

(** C3: every request carries the status last reported with success, or
    [Stopped] before the first report. *)
Theorem request_carries_status o x t ls s cr s' :
  exec stp (sys_init o x t) ls s → stp s (LDeliver cr) s' →
  CurrentStatus cr = current (history ls).
Proof.
  intros Hex Hs. destruct (history_spec _ _ _ _ _ Hex) as [Hw Hsp].
  apply spec_current in Hsp. unfold wf, abs in *. step_cases; by rewrite <- Hsp.
Qed.

(** C4: with a status handle, what Windows is told is exactly what the handler sends,
    each status once and in order (the one that [run] has received last may still be
    on its way), followed by the report of the end, if it has come. What the handler
    sends is what its own execution says, from its start on. *)
Theorem reports_are_the_statuses o x t ls s :
  exec stp (sys_init o x t) ls s → h (sv s) ≠ 0 → pc s ≠ RunWait →
  reports (st_trace (os s)) ++ on_its_way (pc s)
    = reports (st_trace o) ++ (as_told <$> sends (acts ls)) ++ end_told ls ∧
  ∃ args hs, hproc s = Some hs ∧ exec handler_step (Execute args) (acts ls) hs.
Proof.
  intros Hex Hh Hp. destruct (told_ok_exec _ _ _ _ _ Hex) as [Hw Ht].
  destruct (ledger_exec _ _ _ _ _ Hex) as [_ Hl]. split.
  - rewrite <- Hl, app_assoc. f_equal. destruct (pc s); try done; by apply Ht.
  - pose proof (sys_handler _ _ _ _ _ _ _ Hex) as Hr. unfold wf in Hw.
    destruct (hproc s) as [hs|]; [|by destruct Hr]. destruct Hr as (_ & args & Hr). eauto.
Qed.

(** C5: with a status handle, when [run] is done Windows has been told the statuses the
    handler has sent and then the state [Stopped], once and last; with the exit code
    that [Execute] has returned, unless the loop was broken by a control on the wrong
    thread or by a failed status report, and then with the number of that error as a
    service-specific code. *)
Theorem end_reported_once o x t ls s :
  exec stp (sys_init o x t) ls s → h (sv s) ≠ 0 → pc s = RunDone →
  ∃ ec, reports (st_trace (os s))
      = reports (st_trace o) ++ (as_told <$> sends (acts ls)) ++ [service_status (status_of Stopped) ec] ∧
    match omap broken ls with
    | [] => omap returned ls = [ec]
    | ns => ∃ n, ns = [n] ∧ ec = {| isSvcSpecific := true; ec_errno := n |}
    end.
Proof.
  intros Hex Hh Hp. destruct (told_ok_exec _ _ _ _ _ Hex) as [_ Ht].
  destruct (ledger_exec _ _ _ _ _ Hex) as [_ Hl]. pose proof (in_account_exec _ _ _ _ _ Hex) as Ha.
  unfold in_account in Ha. rewrite Hp in *. destruct Ha as (ec & Hf & He & _). exists ec. split.
  - change (on_its_way RunDone) with (@nil SERVICE_STATUS) in Hl. rewrite app_nil_r in Hl.
    rewrite (Ht Hh), Hl. unfold end_told. by rewrite Hf.
  - unfold ends_with in He. destruct (omap broken ls); [done|]. destruct He as [-> Hs].
    exists (ec_errno ec). split; [done|]. destruct ec. simpl in *. by subst.
Qed.

(** C6: the loop never blocks its partners: at the select it takes any status
    the handler sends and the exit code once there is one, a waiting control
    when no request is pending, and hands a pending request to a handler that
    asks for it; and it comes back from a status report by itself. *)
Theorem run_never_blocks o x t s :
  reachable stp (sys_init o x t) s → crash s = None →
  match pc s with
  | RunSelect l =>
      (∀ hs g c, hproc s = Some hs → is_Some (hnext hs (HSend g c)) →
         ∃ s', stp s (LChange g c) s') ∧
      (∀ ec, hret s = Returning ec → ∃ s', stp s (LExit ec) s') ∧
      (if l_out l then
         ∀ hs, hproc s = Some hs →
           let cr := {| Cmd := l_cmd l; CurrentStatus := l_status l |} in
           is_Some (hnext hs (HRecv cr)) → ∃ s', stp s (LDeliver cr) s'
       else ∀ n e, cbs s !! n = Some e → ∃ s', stp s (LAccept n e) s')
  | RunUpdate l c => ∃ r s', stp s (LUpdate c r) s' ∧ hproc s' = hproc s ∧
      ((∃ l', pc s' = RunSelect l') ∨ (∃ ec, pc s' = RunBreak ec))
  | _ => True
  end.
Proof.
  intros Hre Hc. pose proof (reachable_wf _ _ _ _ Hre) as Hw. unfold wf in Hw.
  destruct (pc s) as [|l|l c| | |] eqn:Hp; try done.
  - split_and!.
    + intros hs g c Hhs [hs' Hn]. eauto using step.
    + intros ec Hr. eauto using step.
    + destruct Hw as [[_ Hin] _]. destruct (l_out l) eqn:Ho.
      * intros hs Hhs cr [hs' Hn]. eexists. eapply step_deliver; try done.
        unfold case_outch. by rewrite Ho.
      * intros n e He. eexists. eapply step_accept; try done. unfold case_inch. by rewrite Hin.
  - destruct (updateStatus (sv s) c (l_ec l) (os s)) as [r o'] eqn:E.
    exists r. eexists. split; [by eapply step_update|]. split; [done|]. cbn.
    destruct (case_changes l c r); cbn; eauto.
Qed.

(** The last two steps of [run]. *)
Lemma break_reaches_end s ec :
  crash s = None → pc s = RunBreak ec →
  ∃ s', exec stp s [LFinal ec; LSet] s' ∧ pc s' = RunDone.
Proof.
  intros Hc Hp.
  destruct (updateStatus (sv s) (status_of Stopped) ec (os s)) as [r o1] eqn:E1.
  destruct (Set_ (cWaits (sv s)) o1) as [r2 o2] eqn:E2.
  eexists. split.
  - eapply exec_cons; [by eapply step_final|]. eapply exec_one. by eapply step_set.
  - done.
Qed.

Lemma select_reaches_end s l ec :
  crash s = None → hret s = Returning ec → pc s = RunSelect l →
  ∃ s', exec stp s [LExit ec; LFinal ec; LSet] s' ∧ pc s' = RunDone.
Proof.
  intros Hc Hr Hp.
  destruct (break_reaches_end (set_hret (set_pc s (RunBreak ec)) Returned) ec Hc eq_refl)
    as (s' & Hex & Hd).
  exists s'. split; [|done]. eapply exec_cons; [by eapply step_exit|done].
Qed.

(** Once [Execute] has returned, the steps of [run] alone, at most four of
    them, take the service to its end. *)
Theorem exit_reaches_end s ec :
  crash s = None → hret s = Returning ec →
  (∃ l, pc s = RunSelect l) ∨ (∃ l c, pc s = RunUpdate l c) →
  ∃ ls s', exec stp s ls s' ∧ pc s' = RunDone ∧ (length ls ≤ 4)%nat.
Proof.
  intros Hc Hr [[l Hp]|(l & c & Hp)].
  - destruct (select_reaches_end s l ec Hc Hr Hp) as (s' & ? & ?). eexists _, s'. split_and!; [done..|simpl; lia].
  - destruct (updateStatus (sv s) c (l_ec l) (os s)) as [r o'] eqn:E.
    assert (stp s (LUpdate c r) (set_pc (set_os s o') (pc_of (case_changes l c r)))) as Hu
      by by eapply step_update.
    destruct (case_changes l c r) as [l'|ec'] eqn:Ec.
    + destruct (select_reaches_end (set_pc (set_os s o') (RunSelect l')) l' ec Hc Hr eq_refl) as (s' & ? & ?).
      eexists _, s'. split_and!; [by eapply exec_cons|done|simpl; lia].
    + destruct (break_reaches_end (set_pc (set_os s o') (RunBreak ec')) ec' Hc eq_refl) as (s' & ? & ?).
      eexists _, s'. split_and!; [by eapply exec_cons|done|simpl; lia].
Qed.

(** C8: after the loop nobody is served any more: a control handler then at its
    send, or one called later, never returns, and an [Execute] whose exit code
    was not taken never gets rid of it. *)
Theorem after_the_loop_nobody_is_served s ls s' :
  over s → exec stp s ls s' →
  over s' ∧ forallb (negb ∘ serves) ls = true ∧ (∃ k, cbs s' = cbs s ++ k) ∧
  (hret s ≠ Returned → hret s' ≠ Returned).
Proof. apply abandoned_exec. Qed.

(** The control handler forwards its arguments unchanged, and marks the
    event exactly when it does not run on the thread of [Run]. *)
Theorem ctlHandler_event t ctl ev data ctx s :
  wp (ctlHandler t ctl ev data ctx) (λ o s', ∃ rep,
    makes s s' [Entry GetCurrentThreadIdP rep] ∧
    o = Ret {| cmd := ctl; eventType := ev; eventData := data; context := ctx;
               errno := if wrap 32 (r_ret rep) =? t then 0 else sysErrNewThreadInCallback |}) s.
Proof. unfold ctlHandler, GetCurrentThreadId. wp_go. by exists rep. Qed.

(** The executor and the step relation agree, so every run computed with
    [next] is a run of the system and the other way round. *)
Lemma next_is_step s l s' : next servicectlhandler table s l = Some s' ↔ stp s l s'.
Proof. split; [apply step_sound|apply step_complete]. Qed.

End Protocol.
