(* ===== verification/SvcHandshake.v ===== *)
(** * The hand-over between [servicemain] and [run]

    [servicemain] saves the arguments, registers the control handler, publishes
    its handle in [ssHandle] and then signals [goWaits]; [run] waits for [goWaits]
    and then reads [ssHandle]. The package checks neither that the wait succeeded
    nor that the handle is there. This file shows that it need not: when an event
    is signalled only by [SetEvent] and a wait ends only when its event is
    signalled, [run] never works without the handle that Windows returned. *)
From Stdlib Require Import ZArith Lia.
From stdpp Require Import base option list strings.
From S2P Require Import Prelude GoText Go WinConst Machine GoSyscall Script Winapi.
From S2P Require Import SvcEvent SvcService SvcAsm SvcSystem SvcProtocol.

Local Open Scope Z_scope.
Local Open Scope go_scope.

(** ** Events that only [SetEvent] signals *)
Class Events `{Win : Windows} := {
  signalled : world → Z → Prop;
  only_SetEvent p w rep w' hd :
    call p w = (rep, w') → signalled w' hd → signalled w hd ∨ p = SetEventP hd
}.

Section Handshake.
Context `{Win : Windows} `{Hand : Handler} `{Ev : !Events}.
Context (servicectlhandler : Z) (table : list SERVICE_TABLE_ENTRY).

(** What the scheduler owes the program: the wait of [run] is over only when its
    event is signalled, and nobody else signals it. *)
Definition fair_wait (s : sys) (l : label) : Prop :=
  match l with
  | LStart | LStartPanic _ => signalled (st_world (os s)) (ev_h (goWaits (sv s)))
  | LEnv w => ∀ hd, signalled w hd → signalled (st_world (os s)) hd
  | _ => True
  end.

Definition wait_step (s : sys) (l : label) (s' : sys) : Prop :=
  step servicectlhandler table s l s' ∧ fair_wait s l.

(** The labels about which the scheduler owes nothing. *)
Definition harmless (l : label) : bool :=
  match l with LStart | LStartPanic _ | LEnv _ => false | _ => true end.

Lemma wait_schedule s ls d :
  forallb harmless ls = true → succeeds (run_schedule (next servicectlhandler table) s ls) = true →
  exec wait_step s ls (default d (run_schedule (next servicectlhandler table) s ls)).
Proof.
  intros Hl E. apply (succeeds_default _ d) in E. revert s Hl E.
  induction ls as [|l ls IH]; simpl; intros s Hl E; [constructor|].
  apply andb_prop in Hl as [Hl Hls].
  destruct (next servicectlhandler table s l) as [s1|] eqn:E1; [|done].
  eapply exec_cons; [|by apply IH]. split; [by apply step_sound|]. by destruct l.
Qed.

Lemma wait_next s l d :
  fair_wait s l → succeeds (next servicectlhandler table s l) = true →
  wait_step s l (default d (next servicectlhandler table s l)).
Proof. intros Hf E. split; [|done]. by apply step_sound, succeeds_default. Qed.

(** The handle is one that Windows returned for the control handler. *)
Definition registered (o : st) (hd : Z) : Prop :=
  hd ≠ 0 ∧ ∃ nm rep, Entry (RegisterServiceCtrlHandlerExW nm servicectlhandler 0) rep ∈ st_trace o ∧
                     r_ret rep = hd.

(** The arguments are those of the call of [servicemain]; [v] are the variables
    before it. *)
Definition args_saved (v : pkgvars) (ls : list label) (v' : pkgvars) : Prop :=
  ∃ argc argv, LServiceMain argc argv ∈ ls ∧
    sArgc v' = movl (sArgc v) argc ∧ sArgv v' = movl (sArgv v) argv.

Definition same_args (v v' : pkgvars) : Prop := sArgc v' = sArgc v ∧ sArgv v' = sArgv v.

(** [servicemain] has not signalled yet. *)
Definition before_signal (m : smain_pc) : bool :=
  match m with SmIdle | SmEntry _ _ | SmRegister | SmStore _ => true | _ => false end.

Definition sm_ok (gw : Z) (v : pkgvars) (ls : list label) (o : st) (m : smain_pc) : Prop :=
  match m with
  | SmIdle => same_args v (st_vars o)
  | SmEntry argc argv => LServiceMain argc argv ∈ ls ∧ same_args v (st_vars o)
  | SmRegister => args_saved v ls (st_vars o)
  | SmStore hd => registered o hd ∧ args_saved v ls (st_vars o)
  | SmSignal | SmWait => registered o (ssHandle (st_vars o)) ∧ args_saved v ls (st_vars o)
  | SmExited => signalled (st_world o) gw →
      registered o (ssHandle (st_vars o)) ∧ args_saved v ls (st_vars o)
  end.

(** The invariant, on the parts of the state it is about. *)
Definition handed (gw : Z) (v : pkgvars) (ls : list label) (o : st) (x : service) (p : run_pc)
    (m : smain_pc) : Prop :=
  goWaitsH (st_vars o) = gw ∧ ev_h (goWaits x) = gw ∧ ev_h (cWaits x) ≠ gw ∧
  (before_signal m = true → ¬ signalled (st_world o) gw) ∧ sm_ok gw v ls o m ∧
  (p = RunWait ∨ before_signal m = false ∧ registered o (h x) ∧ args_saved v ls (st_vars o)).
Definition handed_over (gw : Z) (v : pkgvars) (ls : list label) (s : sys) : Prop :=
  handed gw v ls (os s) (sv s) (pc s) (smain s).

(** A computation that neither signals the event nor touches the variables. *)
Definition still (gw : Z) {A} (m : M A) : Prop :=
  ∀ s, st_vars (m s).2 = st_vars s ∧ (∃ tr, makes s (m s).2 tr) ∧
    (signalled (st_world (m s).2) gw → signalled (st_world s) gw).

Lemma still_ret gw {A} (a : A) : still gw (ret a).
Proof. intros s. split_and!; eauto with winsvc. Qed.
Lemma still_err gw {A} e : still gw (A := A) (err e).
Proof. intros s. split_and!; eauto with winsvc. Qed.
Lemma still_get gw : still gw get.
Proof. intros s. split_and!; eauto with winsvc. Qed.
Lemma still_pure gw {A} (m : M A) : (∀ s, (m s).2 = s) → still gw m.
Proof. intros Hm s. rewrite Hm. split_and!; eauto with winsvc. Qed.
Lemma still_bind gw {A B} (m : M A) (k : A → M B) :
  still gw m → (∀ a, still gw (k a)) → still gw (bind m k).
Proof.
  intros Hm Hk s. unfold bind. specialize (Hm s). destruct (m s) as [[a|e|p] s']; simpl in *; try done.
  destruct Hm as (Hv & [tr Ht] & Hs). destruct (Hk a s') as (Hv' & [tr' Ht'] & Hs').
  split_and!; [congruence|eauto with winsvc|auto].
Qed.
Lemma still_ignore gw {A} (m : M A) : still gw m → still gw (ignore m).
Proof. intros Hm s. unfold ignore. specialize (Hm s). by destruct (m s) as [[a|e|p] s']. Qed.
Lemma still_syscall gw p : p ≠ SetEventP gw → still gw (syscall p).
Proof.
  intros Hp s. unfold syscall. destruct (call p (st_world s)) as [rep w] eqn:E. simpl.
  split_and!; [done|by eexists|]. intros Hs. by destruct (only_SetEvent _ _ _ _ _ E Hs).
Qed.

Ltac solve_still :=
  repeat (intros; first
    [ apply still_bind | apply still_ignore | apply still_ret | apply still_err | apply still_get
    | apply still_syscall; done | apply still_pure; intros; unfold check0; by case_match
    | case_match ]).

Lemma ctlHandler_still gw t ctl ev data ctx : still gw (ctlHandler t ctl ev data ctx).
Proof. unfold ctlHandler, GetCurrentThreadId. solve_still. Qed.
Lemma Run_dispatch_still gw t : still gw (Run_dispatch t).
Proof. unfold Run_dispatch, StartServiceCtrlDispatcher. solve_still. Qed.
Lemma updateStatus_still gw x c ec : still gw (updateStatus x c ec).
Proof. unfold updateStatus, SetServiceStatus. solve_still. Qed.
Lemma Set_still gw e : ev_h e ≠ gw → still gw (Set_ e).
Proof.
  intros He. unfold Set_, SetEvent. apply still_bind; [apply still_syscall; congruence|].
  intros r. apply still_pure. intros s. unfold check0. by case_match.
Qed.
Lemma Wait_still gw e : still gw (Wait e).
Proof. unfold Wait, WaitForSingleObject. solve_still. Qed.

Lemma still_run gw {A} (m : M A) s o s' :
  still gw m → m s = (o, s') →
  st_vars s' = st_vars s ∧ (∃ tr, makes s s' tr) ∧
  (signalled (st_world s') gw → signalled (st_world s) gw).
Proof. intros Hm E. specialize (Hm s). by rewrite E in Hm. Qed.

Lemma registered_more o o' tr hd : makes o o' tr → registered o hd → registered o' hd.
Proof.
  intros Hm (Hn & nm & rep & Hin & Hr). split; [done|]. exists nm, rep. split; [|done].
  rewrite Hm. apply elem_of_app. by left.
Qed.

(** [run_start] takes the handle over. *)
Lemma run_start_run x o r o' :
  run_start x o = (r, o') →
  st_vars o' = st_vars o ∧ (∃ tr, makes o o' tr) ∧
  (∀ gw, signalled (st_world o') gw → signalled (st_world o) gw) ∧
  (∀ x' args, r = Ret (x', args) →
     h x' = ssHandle (st_vars o) ∧ goWaits x' = goWaits x ∧ cWaits x' = cWaits x).
Proof.
  unfold run_start, bind. intros E.
  destruct (ignore (Wait (goWaits x)) o) as [ow o1] eqn:Ew.
  assert (∀ gw, st_vars o1 = st_vars o ∧ (∃ tr, makes o o1 tr) ∧
            (signalled (st_world o1) gw → signalled (st_world o) gw)) as Hw.
  { intros gw. eapply still_run; [apply still_ignore, Wait_still|exact Ew]. }
  pose proof (Hw 0) as (Hv & Ht & _).
  assert (∀ gw, signalled (st_world o1) gw → signalled (st_world o) gw) as Hsig
    by (intros gw; apply (Hw gw)).
  destruct ow as [u|e|p]; [|by simplify_eq; split_and!..].
  cbn [get] in E. unfold run_args in E.
  match type of E with match ?a with _ => _ end = _ => destruct a as [args|e|p] end;
    cbn [ret] in E; unfold ret in E; simplify_eq; split_and!; try done.
  intros x' args' [= <- <-]. cbn. by rewrite Hv.
Qed.

Lemma args_saved_more v ls l v' : args_saved v ls v' → args_saved v (ls ++ [l]) v'.
Proof.
  intros (argc & argv & Hin & Hc & Hv). exists argc, argv. split; [|done].
  apply elem_of_app. by left.
Qed.

(** A signalled event means that everything has been handed over. *)
Lemma handed_signalled gw v ls o x p m :
  handed gw v ls o x p m → signalled (st_world o) gw →
  before_signal m = false ∧ registered o (ssHandle (st_vars o)) ∧ args_saved v ls (st_vars o).
Proof.
  intros (_ & _ & _ & Hn & Hm & _) Hs. destruct m; simpl in *; try (by destruct Hn); by auto.
Qed.

(** A move that leaves the variables alone and signals nothing. *)
Definition quiet_move (gw : Z) (o o' : st) : Prop :=
  st_vars o' = st_vars o ∧ (∃ tr, makes o o' tr) ∧
  (signalled (st_world o') gw → signalled (st_world o) gw).

Lemma quiet_move_refl gw o : quiet_move gw o o.
Proof. split_and!; eauto with winsvc. Qed.

Lemma sm_ok_move gw v ls o o' m l :
  quiet_move gw o o' → sm_ok gw v ls o m → sm_ok gw v (ls ++ [l]) o' m.
Proof.
  intros (Hv & [tr Ht] & Hs). unfold sm_ok. rewrite Hv.
  assert (∀ hd, registered o hd ∧ args_saved v ls (st_vars o) →
                registered o' hd ∧ args_saved v (ls ++ [l]) (st_vars o)) as Hboth.
  { intros hd [Hr Ha]. split; [by eapply registered_more|by apply args_saved_more]. }
  destruct m; auto using args_saved_more.
  intros [Hin Hsame]. split; [|done]. apply elem_of_app. by left.
Qed.

Lemma handed_move gw v ls l o o' x p p' m :
  handed gw v ls o x p m → quiet_move gw o o' → (p' = p ∨ p ≠ RunWait) →
  handed gw v (ls ++ [l]) o' x p' m.
Proof.
  intros (Hg & Hgo & Hc & Hn & Hm & Hp) Hmove Hpc. pose proof Hmove as (Hv & [tr Ht] & Hsig).
  unfold handed. rewrite Hv. repeat (split; [done|]).
  split; [intros Hb Hs; by apply (Hn Hb), Hsig|]. split; [by eapply sm_ok_move|].
  destruct Hp as [Hp|(Hb & Hr & Ha)];
    [|right; split_and!; [done|by eapply registered_more|by apply args_saved_more]].
  destruct Hpc as [-> | Hne]; [by left|done].
Qed.
(** The step that saves the arguments, and the others of [servicemain]. *)
Lemma handed_main gw v ls l o x p m m' o' :
  handed gw v ls o x p m → sm_running m = true →
  servicemain_step servicectlhandler m o = (Ret m', o') → handed gw v (ls ++ [l]) o' x p m'.
Proof.
  intros Hh Hrun E. pose proof Hh as (Hg & Hgo & Hc & Hn & Hm & Hp).
  destruct m as [|argc argv| |hd| | |]; try done; unfold servicemain_step in E;
    unfold bind, set_vars, modify, get, syscall, ret in E; cbn [st_vars st_world st_trace] in E.
  - (* the arguments *)
    simplify_eq. destruct Hm as [Hin [Ha Hv]]. unfold handed. cbn. split_and!; try done.
    + exists argc, argv. cbn. rewrite Ha, Hv. split; [|done]. apply elem_of_app. by left.
    + destruct Hp as [Hp|(Hb & _)]; [by left|done].
  - (* the registration *)
    destruct (call _ (st_world o)) as [rep w] eqn:Ecall. injection E as <- <-.
    assert (¬ signalled w (goWaitsH (st_vars o))) as Hn'.
    { intros Hs. rewrite Hg in Hs. destruct (only_SetEvent _ _ _ _ _ Ecall Hs); [by apply Hn|done]. }
    rewrite Hg in Hn'. destruct Hp as [Hp|(Hb & _)]; [|done].
    unfold handed. cbn. destruct (r_ret rep =? 0) eqn:Hr; cbn; split_and!; auto; try done.
    + split; [by apply Z.eqb_neq in Hr|]. eexists _, rep. split; [|done]. apply elem_of_app. right. by left.
    + by apply args_saved_more.
  - (* the handle *)
    simplify_eq. destruct Hm as [Hreg Ha]. destruct Hp as [Hp|(Hb & _)]; [|done].
    unfold handed. cbn. split_and!; try done; [|by left].
    by apply (args_saved_more v ls l) in Ha.
  - (* the signal *)
    destruct (call _ (st_world o)) as [rep w] eqn:Ecall. injection E as <- <-.
    destruct Hm as [Hreg Ha]. unfold handed. cbn. split_and!; try done.
    + by eapply (registered_more o _ [Entry _ rep]).
    + by apply args_saved_more.
    + destruct Hp as [Hp|(Hb & Hr & Ha')]; [by left|right].
      split_and!; [done|by eapply (registered_more o _ [Entry _ rep])|by apply args_saved_more].
  - (* the wait *)
    destruct (call _ (st_world o)) as [rep w] eqn:Ecall. injection E as <- <-.
    destruct Hm as [Hreg Ha]. unfold handed. cbn. split_and!; try done.
    + intros _. split; [by eapply (registered_more o _ [Entry _ rep])|by apply args_saved_more].
    + destruct Hp as [Hp|(Hb & Hr & Ha')]; [by left|right].
      split_and!; [done|by eapply (registered_more o _ [Entry _ rep])|by apply args_saved_more].
Qed.

Lemma handed_over_step gw v ls s l s' :
  handed_over gw v ls s → wait_step s l s' → handed_over gw v (ls ++ [l]) s'.
Proof.
  intros Hh [Hst Hfair]. pose proof Hh as (Hg & Hgo & Hc & Hn & Hm & Hp). unfold handed_over in *.
  inv Hst; cbn [os sv pc smain set_os set_cbs set_smain set_ran set_pc set_hproc set_sv set_crash set_hret];
    try (eapply handed_move; [exact Hh|apply quiet_move_refl|by (left + (right; congruence))]);
    try (eapply handed_move; [exact Hh|eapply still_run; [|eassumption];
           first [apply ctlHandler_still | apply Run_dispatch_still
                 | apply updateStatus_still | by apply Set_still]
         |by (left + (right; congruence))]).
  - match goal with E : smain s = _ |- _ => rewrite E in * end.
    destruct Hp as [Hp|(Hb & _)]; [|done]. unfold handed. split_and!; try done.
    + split; [apply elem_of_app; right; by left|done].
    + by left.
  - by eapply handed_main.
  - eapply handed_move; [exact Hh| |by left].
    split_and!; [done|exists []; unfold makes; by rewrite app_nil_r|apply Hfair].
  - match goal with E : run_start _ _ = _ |- _ =>
      destruct (run_start_run _ _ _ _ E) as (Hv & [tr Ht] & Hsig & Hx) end.
    destruct (Hx _ _ eq_refl) as (Hh' & Hgo' & Hc'). cbn in Hfair. rewrite Hgo in Hfair.
    destruct (handed_signalled _ _ _ _ _ _ _ Hh Hfair) as (Hb & Hr & Ha).
    assert (handed (goWaitsH (st_vars (os s))) v (ls ++ [LStart]) o (sv s) (pc s) (smain s))
      as (Hg1 & Hgo1 & Hc1 & Hn1 & Hm1 & _).
    { eapply handed_move; [exact Hh| |by left]. split_and!; eauto. }
    unfold handed. rewrite Hgo', Hc', Hh', Hv in *. split_and!; try done.
    right. split_and!; [done|by eapply registered_more|by apply args_saved_more].
  - match goal with E : run_start _ _ = _ |- _ =>
      destruct (run_start_run _ _ _ _ E) as (Hv & Ht & Hsig & _) end.
    eapply handed_move; [exact Hh| |by left]. split_and!; [done|done|apply Hsig].
Qed.

(** C7: no service works without its status handle, or before its arguments are
    saved. Assume that the two events are different, that [goWaits] is not signalled
    at the start and that only [SetEvent] signals it, and that [run]'s wait ends only
    when it is signalled. Then, once [run] is past its wait, the handle it uses is one
    that Windows returned for the control handler, and is not 0; and the argument
    variables hold what [servicemain] has saved of the arguments Windows called it
    with: the low 32 bits of each, over what the variable held before. That is all of
    the count, and all of the address on 386; on amd64 it is the address only when
    that is below 4 GB (the upper half is lost). *)
Theorem run_has_registered_handle gw o x t ls s :
  goWaitsH (st_vars o) = gw → ev_h (goWaits x) = gw → ev_h (cWaits x) ≠ gw →
  ¬ signalled (st_world o) gw →
  exec wait_step (sys_init o x t) ls s →
  pc s = RunWait ∨
  registered (os s) (h (sv s)) ∧ args_saved (st_vars o) ls (st_vars (os s)).
Proof.
  intros Hg Hgo Hc Hn Hex.
  assert (handed_over gw (st_vars o) ls s) as (_ & _ & _ & _ & _ & Hp).
  { revert Hex. apply exec_invariant.
    - split_and!; try done. by left.
    - intros ls1 s1 l s2. apply handed_over_step. }
  destruct Hp as [Hp|(_ & Hp)]; [by left|by right].
Qed.

End Handshake.
