(* ===== verification/ExampleService.v ===== *)
(** * example/service.go: the example handler

    [myservice.Execute] as an instance of the handler interface: its main loop
    and the goroutines it starts for pre-shutdown requests, which share the
    variable [checkpoint] and the channel [shutdown]. A goroutine runs without
    interruption between two operations that block (a channel operation, a
    sleep, the wait for a tick); the expression of a send is evaluated when the
    goroutine arrives at the send. *)
From Stdlib Require Import ZArith Lia.
From stdpp Require Import base option list strings.
From S2P Require Import Prelude GoText Go WinConst Machine GoSyscall Winapi.
From S2P Require Import SvcEvent SvcService SvcAsm SvcSystem.

Local Open Scope Z_scope.

Definition cmdsAccepted : Z :=
  (AcceptStop ||| AcceptShutdown ||| AcceptPauseAndContinue ||| AcceptPreShutdown)%winsvc.

Inductive tick_kind := fasttick | slowtick.

(** Where [Execute] is. *)
Inductive main_pc :=
| MStart                         (* at the send of [StartPending] *)
| MRun                           (* at the send of [Running] *)
| MSelect                        (* at the [select] *)
| MEcho1 (cs : Status)           (* [Interrogate]: at the first send *)
| MSleep (cs : Status)           (* between the two sends *)
| MEcho2 (cs : Status)           (* at the second send *)
| MPause                         (* at the send of [Paused] *)
| MContinue                      (* at the send of [Running] *)
| MStopping (cp : Z)             (* after the loop, at the send of [StopPending] *)
| MReturn
| MDone.

(** Where a pre-shutdown goroutine is. *)
Inductive worker_pc :=
| WStart
| WSend (cp : Z)                 (* at the send, with the check point it read *)
| WSleep
| WDone.

Record myservice := MyService {
  m_pc : main_pc;
  m_tick : tick_kind;
  m_checkpoint : Z;
  m_shutdown : bool;              (* the channel [shutdown] is closed *)
  m_workers : list worker_pc;
  m_log : list ChangeRequest      (* the requests reported to [elog.Error] *)
}.

Definition running_status : Status :=
  {| State := Running; Accepts := cmdsAccepted; CheckPoint := 0; WaitHint := 0 |}.
Definition paused_status : Status :=
  {| State := Paused; Accepts := cmdsAccepted; CheckPoint := 0; WaitHint := 0 |}.
Definition pending_status (cp : Z) : Status :=
  {| State := StopPending; Accepts := 0; CheckPoint := cp; WaitHint := 3000 |}.
Definition stopping_status (cp : Z) : Status :=
  {| State := StopPending; Accepts := 0; CheckPoint := cp; WaitHint := 0 |}.

Definition go_to (m : myservice) (p : main_pc) : myservice :=
  MyService p (m_tick m) (m_checkpoint m) (m_shutdown m) (m_workers m) (m_log m).
Definition with_worker (m : myservice) (i : nat) (w : worker_pc) : myservice :=
  MyService (m_pc m) (m_tick m) (m_checkpoint m) (m_shutdown m) (<[i:=w]> (m_workers m)) (m_log m).

Definition Execute_start (args : list string) : myservice :=
  MyService MStart fasttick 1 false [] [].

(** [case c := <-r] and its [switch c.Cmd]. *)
Definition on_request (m : myservice) (cr : ChangeRequest) : myservice :=
  let c := Cmd cr in
  if c =? Interrogate then go_to m (MEcho1 (CurrentStatus cr))
  else if (c =? Stop) || (c =? Shutdown) then go_to m (MStopping (m_checkpoint m))
  else if c =? PreShutdown then
    MyService MSelect (m_tick m) (m_checkpoint m) (m_shutdown m) (m_workers m ++ [WStart]) (m_log m)
  else if c =? Pause then go_to m MPause
  else if c =? Continue then go_to m MContinue
  else MyService MSelect (m_tick m) (m_checkpoint m) (m_shutdown m) (m_workers m) (m_log m ++ [cr]).

(** The send of [Execute]'s own goroutine. *)
Definition main_send (m : myservice) : option (Status * myservice) :=
  match m_pc m with
  | MStart => Some (status_of StartPending, go_to m MRun)
  | MRun => Some (running_status, go_to m MSelect)
  | MEcho1 cs => Some (cs, go_to m (MSleep cs))
  | MEcho2 cs => Some (cs, go_to m MSelect)
  | MPause => Some (paused_status,
      MyService MSelect slowtick (m_checkpoint m) (m_shutdown m) (m_workers m) (m_log m))
  | MContinue => Some (running_status,
      MyService MSelect fasttick (m_checkpoint m) (m_shutdown m) (m_workers m) (m_log m))
  | MStopping cp => Some (stopping_status cp, go_to m MReturn)
  | _ => None
  end.

(** After the sleep of a worker: [checkpoint++; if checkpoint > 30 { return }], with
    the deferred [close(shutdown)], which panics when it is closed already. *)
Definition closed_twice : panic := PanicError (RuntimeError "close of closed channel").

Definition worker_wakes (m : myservice) (i : nat) : myservice + panic :=
  let cp := wrap 32 (m_checkpoint m + 1) in
  if 30 <? cp then
    if m_shutdown m then inr closed_twice
    else inl (MyService (m_pc m) (m_tick m) cp true (<[i:=WDone]> (m_workers m)) (m_log m))
  else inl (MyService (m_pc m) (m_tick m) cp (m_shutdown m) (<[i:=WSend cp]> (m_workers m)) (m_log m)).

(** Goroutine 0 is [Execute]; as goroutine 1 it takes the case [<-shutdown]; the
    pre-shutdown goroutine [i] is [2 + i]. *)
Definition my_next (m : myservice) (a : hact) : option myservice :=
  match a with
  | HRecv cr => match m_pc m with MSelect => Some (on_request m cr) | _ => None end
  | HSend 0 c =>
      match main_send m with
      | Some (c', m') => if decide (c = c') then Some m' else None
      | None => None
      end
  | HSend (S (S i)) c =>
      match m_workers m !! i with
      | Some (WSend cp) =>
          if decide (c = pending_status cp) then Some (with_worker m i WSleep) else None
      | _ => None
      end
  | HTau 0 =>
      match m_pc m with
      | MSelect => Some m                         (* a tick: [beep()] *)
      | MSleep cs => Some (go_to m (MEcho2 cs))
      | _ => None
      end
  | HTau 1 =>
      match m_pc m with
      | MSelect => if m_shutdown m then Some (go_to m (MStopping (m_checkpoint m))) else None
      | _ => None
      end
  | HTau (S (S i)) =>
      match m_workers m !! i with
      | Some WStart => Some (with_worker m i (WSend (m_checkpoint m)))
      | Some WSleep => match worker_wakes m i with inl m' => Some m' | inr _ => None end
      | _ => None
      end
  | HPanic p =>
      if existsb (λ i, match m_workers m !! i, worker_wakes m i with
                       | Some WSleep, inr p' => bool_decide (p = p')
                       | _, _ => false
                       end) (seq 0 (length (m_workers m)))
      then Some m else None
  | HReturn ssec ec =>
      match m_pc m with
      | MReturn => if decide (ssec = false ∧ ec = 0) then Some (go_to m MDone) else None
      | _ => None
      end
  | HSend 1 _ => None
  end.

#[export] Instance MyHandler : Handler :=
  {| hstate := myservice; Execute := Execute_start; hnext := my_next |}.

(** ** The handler on its own

    A run of the handler's goroutines, whoever receives and answers. *)
Definition hstep (m : myservice) (a : hact) (m' : myservice) : Prop := my_next m a = Some m'.

Abbreviation hrun args := (exec hstep (Execute_start args)).

Definition is_preshutdown (a : hact) : bool :=
  match a with HRecv cr => Cmd cr =? PreShutdown | _ => false end.
Definition preshutdowns (acts : list hact) : nat := length (filter is_preshutdown acts).
(** The statuses goroutine [g] has sent. *)
Definition sent_by (g : nat) (acts : list hact) : list Status :=
  omap (λ a, match a with HSend g' c => if decide (g = g') then Some c else None | _ => None end) acts.

Lemma preshutdowns_snoc acts a :
  preshutdowns (acts ++ [a]) = (preshutdowns acts + if is_preshutdown a then 1 else 0)%nat.
Proof.
  unfold preshutdowns. rewrite filter_app, length_app. f_equal.
  rewrite filter_cons. by destruct (is_preshutdown a).
Qed.

Lemma sent_by_snoc g acts a : sent_by g (acts ++ [a]) = sent_by g acts ++ sent_by g [a].
Proof. apply omap_app. Qed.

Lemma main_send_pc m c m' :
  main_send m = Some (c, m') →
  m_workers m' = m_workers m ∧ m_checkpoint m' = m_checkpoint m ∧ m_shutdown m' = m_shutdown m.
Proof. unfold main_send. destruct (m_pc m); intros; simplify_eq; done. Qed.

(** The cases of a step of the handler. *)
Ltac hstep_cases :=
  match goal with H : hstep ?m ?a ?m' |- _ =>
    unfold hstep, my_next in H; destruct a as [?cr|[|[|?i]] ?c|?ssec ?ec|[|[|?i]]|?p]
  end; cases_hyp; simplify_eq/=.

(** One worker per pre-shutdown request; the channel is closed by a worker that
    has ended. *)
Definition workers_ok (acts : list hact) (m : myservice) : Prop :=
  length (m_workers m) = preshutdowns acts ∧
  (m_shutdown m = true → ∃ i, m_workers m !! i = Some WDone).

Lemma on_request_workers m cr :
  m_shutdown (on_request m cr) = m_shutdown m ∧
  m_checkpoint (on_request m cr) = m_checkpoint m ∧
  m_workers (on_request m cr)
    = m_workers m ++ (if is_preshutdown (HRecv cr) then [WStart] else []).
Proof.
  unfold on_request, is_preshutdown. cbv zeta.
  destruct (Z.eqb_spec (Cmd cr) Interrogate) as [->|_]; [by rewrite app_nil_r|].
  destruct (Z.eqb_spec (Cmd cr) Stop) as [->|_]; [by rewrite app_nil_r|].
  destruct (Z.eqb_spec (Cmd cr) Shutdown) as [->|_]; [by rewrite app_nil_r|].
  destruct (Z.eqb_spec (Cmd cr) PreShutdown) as [_|_]; [done|].
  destruct (Cmd cr =? Pause), (Cmd cr =? Continue); by rewrite app_nil_r.
Qed.
Lemma worker_wakes_cases m i m' :
  worker_wakes m i = inl m' →
  m_pc m' = m_pc m ∧ m_checkpoint m' = wrap 32 (m_checkpoint m + 1) ∧
  ((30 < m_checkpoint m' ∧ m_shutdown m = false ∧ m_shutdown m' = true ∧
    m_workers m' = <[i:=WDone]> (m_workers m)) ∨
   (m_checkpoint m' <= 30 ∧ m_shutdown m' = m_shutdown m ∧
    m_workers m' = <[i:=WSend (m_checkpoint m')]> (m_workers m))).
Proof.
  unfold worker_wakes. destruct (Z.ltb_spec 30 (wrap 32 (m_checkpoint m + 1))).
  - destruct (m_shutdown m) eqn:E; [done|]. intros [= <-]. cbn. eauto 10.
  - intros [= <-]. cbn. eauto 10.
Qed.

(** A worker that has ended stays so when another worker moves. *)
Lemma done_insert (l : list worker_pc) i w :
  l !! i ≠ Some WDone → (∃ j, l !! j = Some WDone) → ∃ j, <[i:=w]> l !! j = Some WDone.
Proof.
  intros Hi [j Hj]. exists j. rewrite list_lookup_insert_ne; [done|]. by intros ->.
Qed.

Lemma hstep_workers acts m a m' :
  workers_ok acts m → hstep m a m' → workers_ok (acts ++ [a]) m'.
Proof.
  unfold workers_ok. intros [Hl Hc] Hs. rewrite preshutdowns_snoc.
  hstep_cases; rewrite ?Nat.add_0_r, ?length_insert;
    try (split; [done|]; intros ?; apply done_insert; [congruence|by apply Hc]);
    try (split; [done|intros _; by apply Hc || exact Hc]); try by split.
  - destruct (on_request_workers m cr) as (-> & _ & ->). rewrite length_app, Hl. split.
    + f_equal. unfold is_preshutdown. by destruct (_ =? _).
    + intros H. destruct (Hc H) as [i Hi]. exists i. by apply lookup_app_l_Some.
  - match goal with E : main_send _ = Some _ |- _ => apply main_send_pc in E as (-> & _ & ->) end.
    done.
  - match goal with E : worker_wakes _ _ = inl _ |- _ =>
      apply worker_wakes_cases in E as (_ & _ & [(_ & _ & _ & ->)|(_ & -> & ->)]) end;
      rewrite length_insert; (split; [done|]); intros H.
    + exists i. apply list_lookup_insert_eq. by eapply lookup_lt_Some.
    + apply done_insert; [congruence|by apply Hc].
Qed.

Lemma hrun_workers args acts m : hrun args acts m → workers_ok acts m.
Proof. apply exec_invariant; [done|]. intros. by eapply hstep_workers. Qed.

(** When a panic is possible, a sleeping worker is about to close the channel a
    second time. *)
Lemma my_next_panic m p m' :
  my_next m (HPanic p) = Some m' →
  p = closed_twice ∧ m_shutdown m = true ∧ ∃ i, m_workers m !! i = Some WSleep.
Proof.
  simpl. destruct (existsb _ _) eqn:E; [|done]. intros _.
  apply existsb_exists in E as (i & _ & Hi). destruct (m_workers m !! i) as [[]|] eqn:Hw; try done.
  destruct (worker_wakes m i) as [|p'] eqn:Hk; [done|]. apply bool_decide_eq_true in Hi as ->.
  unfold worker_wakes in Hk. destruct (30 <? _); [|done]. destruct (m_shutdown m); [|done].
  simplify_eq. eauto.
Qed.

(** A panic takes two pre-shutdown requests. *)
Lemma panic_takes_two args acts m p :
  hrun args acts m → is_Some (my_next m (HPanic p)) → (2 ≤ preshutdowns acts)%nat.
Proof.
  intros Hex [m' E]. destruct (hrun_workers _ _ _ Hex) as [Hl Hc].
  apply my_next_panic in E as (_ & Hs & i & Hi). destruct (Hc Hs) as [j Hj].
  pose proof (lookup_lt_Some _ _ _ Hi). pose proof (lookup_lt_Some _ _ _ Hj).
  assert (i ≠ j) by congruence. lia.
Qed.

(** C36: with at most one pre-shutdown request, no goroutine of the handler ever
    panics. *)
Theorem one_preshutdown_is_safe args acts m p :
  hrun args acts m → (preshutdowns acts ≤ 1)%nat → my_next m (HPanic p) = None.
Proof.
  intros Hex Hp. destruct (my_next m (HPanic p)) as [m'|] eqn:E; [|done].
  pose proof (panic_takes_two args acts m p Hex (mk_is_Some _ _ E)). lia.
Qed.

Definition reported_up_to (acts : list hact) (k : Z) : Prop :=
  sent_by 2 acts = pending_status <$> seqZ 1 k.

(** The one worker, the check point and the statuses it has sent. *)
Definition worker_inv (acts : list hact) (m : myservice) : Prop :=
  match m_workers m with
  | [] | [WStart] => reported_up_to acts 0 ∧ m_checkpoint m = 1 ∧ m_shutdown m = false
  | [WSend c] => reported_up_to acts (c - 1) ∧ m_checkpoint m = c ∧ 1 <= c <= 30 ∧
                 m_shutdown m = false
  | [WSleep] => reported_up_to acts (m_checkpoint m) ∧ 1 <= m_checkpoint m <= 30 ∧
                m_shutdown m = false
  | [WDone] => reported_up_to acts 30 ∧ m_checkpoint m = 31 ∧ m_shutdown m = true
  | _ => True
  end.

Lemma reported_snoc_other acts a k :
  sent_by 2 [a] = [] → reported_up_to (acts ++ [a]) k ↔ reported_up_to acts k.
Proof. intros E. unfold reported_up_to. by rewrite sent_by_snoc, E, app_nil_r. Qed.

Lemma reported_snoc_send acts c :
  1 <= c → reported_up_to acts (c - 1) →
  reported_up_to (acts ++ [HSend 2 (pending_status c)]) c.
Proof.
  unfold reported_up_to. intros Hc E. rewrite sent_by_snoc, E.
  replace c with ((c - 1) + 1) at 3 by lia. rewrite seqZ_app, fmap_app by lia.
  f_equal. replace (1 + (c - 1)) with c by lia. done.
Qed.

Lemma lookup_singleton {A} (l : list A) i x :
  l !! i = Some x → (length l ≤ 1)%nat → l = [x] ∧ i = 0%nat.
Proof.
  destruct l as [|y [|z l]]; simpl; [done| |lia]. destruct i; simpl; [|by rewrite lookup_nil].
  by intros [= ->].
Qed.

(** A step that leaves the workers' state alone, and is no send of theirs, keeps
    the invariant. *)
Lemma worker_inv_same acts a m m' :
  worker_inv acts m → m_workers m' = m_workers m → m_checkpoint m' = m_checkpoint m →
  m_shutdown m' = m_shutdown m → sent_by 2 [a] = [] → worker_inv (acts ++ [a]) m'.
Proof.
  unfold worker_inv. intros Hi -> -> -> Ha.
  destruct (m_workers m) as [|[| | |] [|]]; try done; by rewrite reported_snoc_other.
Qed.
Lemma worker_inv_step acts m a m' :
  worker_inv acts m → workers_ok acts m → hstep m a m' →
  (length (m_workers m') ≤ 1)%nat → worker_inv (acts ++ [a]) m'.
Proof.
  intros Hi [Hn Hd] Hs Hl.
  hstep_cases; try (by eapply worker_inv_same).
  - destruct (on_request_workers m cr) as (Hs & Hc & Hw). rewrite Hw, length_app in Hl.
    destruct (is_preshutdown (HRecv cr)) eqn:Hp.
    + simpl in Hl. destruct (m_workers m) as [|] eqn:Hm; [|simpl in Hl; lia].
      unfold worker_inv in *. rewrite Hw, Hc, Hs. rewrite Hm in Hi.
      cbn. by rewrite reported_snoc_other.
    + rewrite app_nil_r in Hw. by eapply worker_inv_same.
  - match goal with E : main_send _ = Some _ |- _ => apply main_send_pc in E as (? & ? & ?) end.
    by eapply worker_inv_same.
  - rewrite length_insert in Hl.
    match goal with E : m_workers m !! _ = Some _ |- _ =>
      destruct (lookup_singleton _ _ _ E Hl) as [Hw ->] end.
    unfold worker_inv in *. cbn. rewrite Hw in Hi |- *. cbn. destruct Hi as (Hr & -> & Hc & Hsh).
    split_and!; try done; try lia. apply reported_snoc_send; [lia|done].
  - rewrite length_insert in Hl.
    match goal with E : m_workers m !! _ = Some _ |- _ =>
      destruct (lookup_singleton _ _ _ E Hl) as [Hw ->] end.
    unfold worker_inv in *. cbn. rewrite Hw in Hi |- *. cbn. destruct Hi as (Hr & -> & Hsh).
    rewrite reported_snoc_other by done. split_and!; try done; lia.
  - match goal with E : worker_wakes _ _ = inl _, E' : m_workers m !! _ = Some _ |- _ =>
      apply worker_wakes_cases in E as (_ & Hc & Hw'); 
      assert (length (m_workers m) ≤ 1)%nat as Hl'
        by (destruct Hw' as [(_ & _ & _ & Hw')|(_ & _ & Hw')]; by rewrite Hw', length_insert in Hl);
      destruct (lookup_singleton _ _ _ E' Hl') as [Hw ->]
    end.
    unfold worker_inv in *. rewrite Hw in Hi, Hw'. destruct Hi as (Hr & Hrange & Hsh).
    rewrite wrap_small in Hc by (unfold in_range; lia).
    destruct Hw' as [(H30 & _ & Hs & ->)|(H30 & Hs & ->)]; cbn; rewrite reported_snoc_other by done.
    + assert (m_checkpoint m = 30) as Hm by lia. rewrite Hm in Hr. split_and!; [done|lia|done].
    + rewrite Hc in *. replace (m_checkpoint m + 1 - 1) with (m_checkpoint m) by lia.
      split_and!; [done|done|lia|lia|congruence].
Qed.

Lemma hrun_worker_inv args acts m :
  hrun args acts m → workers_ok acts m ∧ ((length (m_workers m) ≤ 1)%nat → worker_inv acts m).
Proof.
  apply (exec_invariant hstep (λ acts m,
    workers_ok acts m ∧ ((length (m_workers m) ≤ 1)%nat → worker_inv acts m))); [by split|].
  intros acts' m' a m'' [Hok Hi] Hs. split; [by eapply hstep_workers|]. intros Hl.
  eapply worker_inv_step; [|done..]. apply Hi.
  destruct (hstep_workers _ _ _ _ Hok Hs) as [Hn' _]. destruct Hok as [Hn _].
  rewrite Hn' in Hl. rewrite Hn. rewrite preshutdowns_snoc in Hl. lia.
Qed.

(** What the one worker does next when it has sent [k] check points and the channel is
    open: it sends check point [k + 1]; or it wakes up (or starts), and then it has
    closed the channel when [k] is 30, and sends check point [k + 1] otherwise. *)
Definition next_checkpoint (m : myservice) (k : Z) : Prop :=
  k < 30 ∧ is_Some (my_next m (HSend 2 (pending_status (k + 1)))).
Definition worker_goes_on (m : myservice) (k : Z) : Prop :=
  next_checkpoint m k ∨
  ∃ m', my_next m (HTau 2) = Some m' ∧
    (k = 30 ∧ m_shutdown m' = true ∧ m_checkpoint m' = 31 ∨
     m_shutdown m' = false ∧ next_checkpoint m' k).

Lemma sends_next m c : m_workers m = [WSend c] → 1 <= c <= 30 → next_checkpoint m (c - 1).
Proof.
  intros Hw Hc. split; [lia|]. cbn [my_next]. rewrite Hw. cbn [lookup list_lookup].
  replace (c - 1 + 1) with c by lia. rewrite decide_True by done. by eexists.
Qed.

Lemma sleeper_goes_on m :
  m_workers m = [WSleep] → 1 <= m_checkpoint m <= 30 → m_shutdown m = false →
  worker_goes_on m (m_checkpoint m).
Proof.
  intros Hw Hc Hs. right. cbn [my_next]. rewrite Hw. cbn [lookup list_lookup].
  destruct (worker_wakes m 0) as [m'|p] eqn:E.
  2: { unfold worker_wakes in E. rewrite Hs in E. by destruct (30 <? _). }
  exists m'. split; [done|]. apply worker_wakes_cases in E as (_ & Hc' & Hcase).
  rewrite wrap_small in Hc' by (unfold in_range; lia).
  destruct Hcase as [(H30 & _ & Hs' & _)|(H30 & Hs' & Hw')]; [left|right].
  - split_and!; [lia|done|lia].
  - split; [congruence|]. rewrite Hw in Hw'. replace (m_checkpoint m) with (m_checkpoint m' - 1) by lia.
    apply sends_next; [done|lia].
Qed.

Lemma starter_goes_on m :
  m_workers m = [WStart] → m_checkpoint m = 1 → m_shutdown m = false → worker_goes_on m 0.
Proof.
  intros Hw Hc Hs. right. cbn [my_next]. rewrite Hw. cbn [lookup list_lookup].
  eexists. split; [done|]. right. split; [done|]. apply (sends_next _ 1); [|lia].
  cbn. by rewrite Hw, Hc.
Qed.

(** C35: a pre-shutdown makes the progress Windows waits for. At any time, with at most
    one pre-shutdown request received, its goroutine has sent [StopPending] with the check
    points 1, 2, ... k, without gaps, k at most 30; and the channel [shutdown] is closed
    only when k is 30 and the check point 31. While the channel is open and the request has
    been received, the goroutine goes on: it is ready to send check point k + 1, or it
    starts or wakes from its sleep, and has then closed the channel if k is 30, and is
    ready to send check point k + 1 if k is less. *)
Theorem preshutdown_checkpoints args acts m :
  hrun args acts m → (preshutdowns acts ≤ 1)%nat →
  ∃ k, 0 <= k <= 30 ∧ sent_by 2 acts = pending_status <$> seqZ 1 k ∧
    (m_shutdown m = true → k = 30 ∧ m_checkpoint m = 31) ∧
    (m_shutdown m = false → preshutdowns acts = 1%nat → worker_goes_on m k).
Proof.
  intros Hex Hp. destruct (hrun_worker_inv _ _ _ Hex) as [[Hn _] Hi].
  specialize (Hi ltac:(lia)). unfold worker_inv in Hi. rewrite <- Hn in *.
  destruct (m_workers m) as [|[|c| |] [|w l]] eqn:Hw; simpl in Hp; try lia.
  - destruct Hi as (Hr & _ & Hs). exists 0. by split_and!; [lia|lia|done|congruence|].
  - destruct Hi as (Hr & Hc & Hs). exists 0. split_and!; [lia|lia|done|congruence|].
    intros _ _. by apply starter_goes_on.
  - destruct Hi as (Hr & _ & Hc & Hs). exists (c - 1). split_and!; [lia|lia|done|congruence|].
    intros _ _. left. by apply sends_next.
  - destruct Hi as (Hr & Hc & Hs). exists (m_checkpoint m). split_and!; [lia|lia|done|congruence|].
    intros _ _. by apply sleeper_goes_on.
  - destruct Hi as (Hr & Hc & Hs). exists 30. split_and!; [lia|lia|done|done|congruence].
Qed.

(** *** The conversation of [Execute] itself *)
Definition received (acts : list hact) : list ChangeRequest :=
  omap (λ a, match a with HRecv cr => Some cr | _ => None end) acts.

(** What a request is answered with. *)
Definition replies (cr : ChangeRequest) : list Status :=
  if Cmd cr =? Interrogate then [CurrentStatus cr; CurrentStatus cr]
  else if Cmd cr =? Pause then [paused_status]
  else if Cmd cr =? Continue then [running_status]
  else [].

Definition greeting : list Status := [status_of StartPending; running_status].

(** What [Execute] is about to send before it is back at the [select]. *)
Definition pending_sends (p : main_pc) : list Status :=
  match p with
  | MStart => greeting
  | MRun | MContinue => [running_status]
  | MEcho1 cs => [cs; cs]
  | MSleep cs | MEcho2 cs => [cs]
  | MPause => [paused_status]
  | _ => []
  end.

Definition farewell (p : main_pc) (l : list Status) : Prop :=
  match p with
  | MReturn | MDone => ∃ cp, l = [stopping_status cp]
  | _ => l = []
  end.

Definition conversation (acts : list hact) (m : myservice) : Prop :=
  ∃ l, farewell (m_pc m) l ∧
    sent_by 0 acts ++ pending_sends (m_pc m) = greeting ++ (received acts ≫= replies) ++ l.

Lemma received_snoc acts a : received (acts ++ [a]) = received acts ++ received [a].
Proof. apply omap_app. Qed.

Lemma on_request_pending m cr :
  pending_sends (m_pc (on_request m cr)) = replies cr ∧ farewell (m_pc (on_request m cr)) [].
Proof.
  unfold on_request, replies. cbv zeta.
  destruct (Z.eqb_spec (Cmd cr) Interrogate) as [_|_]; [done|].
  destruct (Z.eqb_spec (Cmd cr) Stop) as [->|_]; [done|].
  destruct (Z.eqb_spec (Cmd cr) Shutdown) as [->|_]; [done|].
  destruct (Z.eqb_spec (Cmd cr) PreShutdown) as [->|_]; [done|].
  by destruct (Cmd cr =? Pause), (Cmd cr =? Continue).
Qed.

Lemma main_send_conversation m c m' l :
  main_send m = Some (c, m') → farewell (m_pc m) l →
  l = [] ∧ ∃ l', farewell (m_pc m') l' ∧
    c :: pending_sends (m_pc m') = pending_sends (m_pc m) ++ l'.
Proof.
  unfold main_send. intros Hm Hf. destruct (m_pc m); simplify_eq/=; (split; [done|]);
    try (exists []; split; [done|by rewrite ?app_nil_r]).
  eexists [_]. eauto.
Qed.

Lemma worker_wakes_pc m i m' : worker_wakes m i = inl m' → m_pc m' = m_pc m.
Proof. intros Hw. by apply worker_wakes_cases in Hw as [? _]. Qed.

Lemma conversation_step acts m a m' :
  conversation acts m → hstep m a m' → conversation (acts ++ [a]) m'.
Proof.
  intros (l & Hf & Hc) Hs. unfold conversation. rewrite sent_by_snoc, received_snoc, bind_app.
  hstep_cases; rewrite ?app_nil_r in *;
    try (match goal with E : worker_wakes _ _ = inl _ |- _ => rewrite (worker_wakes_pc _ _ _ E) end);
    try (by eexists; split; [done|]; rewrite ?app_nil_r).
  - destruct (on_request_pending m cr) as [-> Hf']. exists []. split; [done|].
    rewrite app_nil_r. by rewrite Hc.
  - match goal with E : main_send _ = Some _ |- _ =>
      destruct (main_send_conversation _ _ _ _ E Hf) as (-> & l' & Hf' & Hp) end.
    exists l'. split; [done|]. rewrite <- app_assoc. simpl. rewrite Hp, app_assoc, Hc.
    by rewrite app_nil_r.
  - rewrite E. exists []. by rewrite !app_nil_r.
Qed.

Lemma hrun_conversation args acts m : hrun args acts m → conversation acts m.
Proof. apply exec_invariant; [by exists []|]. intros. by eapply conversation_step. Qed.

Lemma conversation_at_select args acts m :
  hrun args acts m → m_pc m = MSelect → sent_by 0 acts = greeting ++ (received acts ≫= replies).
Proof.
  intros Hex Hp. destruct (hrun_conversation _ _ _ Hex) as (l & Hf & Hc).
  rewrite Hp in Hf, Hc. simpl in Hf. rewrite app_nil_r in Hc. subst l. by rewrite Hc, app_nil_r.
Qed.

(** [Execute] answers every request exactly as it should, in order: at the
    select, the statuses it has sent are the greeting and then the answers to
    the requests received, an interrogation twice with the status it came with;
    when it returns, it has reported [StopPending] on top and nothing else. *)
Theorem Execute_conversation args acts m :
  hrun args acts m →
  (m_pc m = MSelect → sent_by 0 acts = greeting ++ (received acts ≫= replies)) ∧
  (m_pc m = MDone → ∃ cp,
     sent_by 0 acts = greeting ++ (received acts ≫= replies) ++ [stopping_status cp]).
Proof.
  intros Hex. split; [by apply (conversation_at_select args)|]. intros Hp.
  destruct (hrun_conversation _ _ _ Hex) as (l & Hf & Hc).
  rewrite Hp in Hf, Hc. simpl in Hf. rewrite app_nil_r in Hc. destruct Hf as [cp ->]. eauto.
Qed.
