(* ===== verification/ExampleBeep.v ===== *)
(** * example/beep.go, and what a tick does

    Every tick of the example's [select] beeps: it calls MessageBeep and drops the
    answer. In SvcSystem a tick is a step of the handler that changes nothing, and
    Windows may move at any time; here the two are put together. The records of the
    calls, which the theorems about status reports are about, do not list the beeps. *)
From Stdlib Require Import ZArith Lia.
From stdpp Require Import base option list strings.
From S2P Require Import Prelude GoText Go WinConst Machine GoSyscall Script Winapi.
From S2P Require Import SvcEvent SvcService SvcAsm SvcSystem SvcProtocol ExampleService.

Local Open Scope Z_scope.
Local Open Scope go_scope.

Section Beep.
Context `{Win : Windows} (servicectlhandler : Z) (table : list SERVICE_TABLE_ENTRY).

(** [beepFunc.Call(0xffffffff)] *)
Definition beep : M unit := let! _ := syscall (MessageBeepP 0xffffffff) in ret tt.

(** The case [<-tick] of the [select]. *)
Definition tick_case (m : myservice) : M myservice :=
  match m_pc m with
  | MSelect => beep ;; ret (go_to m MSelect)
  | _ => ret m
  end.

Lemma beep_quiet : quiet beep.
Proof. apply quiet_bind; [by apply quiet_syscall|intros _; apply quiet_ret]. Qed.

(** A beep always succeeds, is one call, and leaves the package variables alone. *)
Lemma beep_run s :
  ∃ rep w, call (MessageBeepP 0xffffffff) (st_world s) = (rep, w) ∧
    beep s = (Ret tt, St w (st_trace s ++ [Entry (MessageBeepP 0xffffffff) rep]) (st_vars s)).
Proof.
  unfold beep, bind, syscall. destruct (call _ (st_world s)) as [rep w]. by exists rep, w.
Qed.

(** A tick is what [SvcSystem.step] says it is: a step of the handler's own, in which it
    stays where it is, and a move of Windows; nothing is reported. *)
Lemma tick_is_two_steps (s : sys (Hand := MyHandler)) m :
  crash s = None → hproc s = Some m → m_pc m = MSelect →
  ∃ o, tick_case m (os s) = (Ret m, o) ∧
    exec (step servicectlhandler table) s [LTau 0; LEnv (st_world o)] (set_os s (os_world (os s) (st_world o))) ∧
    reports (st_trace o) = reports (st_trace (os s)) ∧ st_vars o = st_vars (os s).
Proof.
  intros Hc Hm Hp. destruct (beep_run (os s)) as (rep & w & _ & Hb).
  unfold tick_case. rewrite Hp. unfold bind. rewrite Hb. eexists. split.
  - assert (go_to m MSelect = m) as -> by (rewrite <- Hp; by destruct m). done.
  - split; [|split; [|done]].
    2: { pose proof (beep_quiet (os s)) as Hq. by rewrite Hb in Hq. }
    assert (set_hproc s m = s) as Hs by (destruct s; simpl in *; by subst).
    apply (exec_cons _ _ _ s); [|apply exec_one; by apply step_env].
    rewrite <- Hs at 2. eapply step_tau; [done|done|]. simpl. unfold main_send. by rewrite Hp.
Qed.
End Beep.
