(* ===== verification/ExampleRuns.v ===== *)
(** * The example service under [svc.Run]

    The goroutines of SvcSystem with the handler of ExampleService: what the
    service does when it is told to stop, for every behaviour of Windows, and
    whole runs computed on the scripted Windows, which also show that the
    theorems of the service package apply to real executions. *)
From Stdlib Require Import ZArith Lia.
From stdpp Require Import base option list strings.
From S2P Require Import Prelude GoText Go WinConst Machine GoSyscall Script Winapi.
From S2P Require Import SvcEvent SvcService SvcAsm SvcSystem SvcProtocol SvcHandshake.
From S2P Require Import ExampleService.

Local Open Scope Z_scope.

Section Stopping.
Context `{Win : Windows}.
Context (servicectlhandler : Z) (table : list SERVICE_TABLE_ENTRY).
Local Abbreviation stp := (step (Hand := MyHandler) servicectlhandler table).

(** From the send of [StopPending] the service reaches its end. *)
Lemma stopping_reaches_end s l (m : myservice) cp :
  crash s = None → pc s = RunSelect l → hproc s = Some m → hret s = NotReturned →
  m_pc m = MStopping cp →
  ∃ ls s', exec stp s ls s' ∧ pc s' = RunDone ∧ (length ls ≤ 6)%nat.
Proof.
  intros Hc Hp Hh Hr Hm.
  set (m1 := go_to m MReturn). set (c := stopping_status cp).
  assert (hnext (Handler := MyHandler) m (HSend 0 c) = Some m1) as Hn.
  { simpl. unfold main_send. rewrite Hm. by rewrite decide_True. }
  pose (s1 := set_hproc (set_pc s (RunUpdate l c)) m1).
  assert (stp s (LChange 0 c) s1) as H1 by by eapply step_change.
  destruct (updateStatus (sv s1) c (l_ec l) (os s1)) as [r o] eqn:E.
  pose (s2 := set_pc (set_os s1 o) (pc_of (case_changes l c r))).
  assert (stp s1 (LUpdate c r) s2) as H2 by by eapply step_update.
  destruct (pc_of (case_changes l c r)) as [|l'| |ec| |] eqn:Hpc;
    try (by destruct (case_changes l c r)).
  - pose (ec := {| isSvcSpecific := false; ec_errno := 0 |}).
    pose (s3 := set_hret (set_hproc s2 (go_to m1 MDone)) (Returning ec)).
    assert (stp s2 (LReturn false 0) s3) as H3 by by eapply step_return.
    destruct (select_reaches_end servicectlhandler table s3 l' ec Hc eq_refl) as (s' & Hex & Hd).
    { done. }
    eexists _, s'. split; [eauto using exec_cons|]. split; [done|simpl; lia].
  - destruct (break_reaches_end servicectlhandler table s2 ec Hc eq_refl) as (s' & Hex & Hd).
    eexists _, s'. split; [eauto using exec_cons|]. split; [done|simpl; lia].
Qed.

(** Told to stop or to shut down while it waits for a request, the example
    service comes to its end: there is an execution of at most eight steps from
    the accepted control to the signal that releases [servicemain]. *)
Theorem stop_ends_the_service o x t s l n e (m : myservice) :
  reachable stp (sys_init o x t) s → crash s = None →
  pc s = RunSelect l → l_out l = false → cbs s !! n = Some e → errno e = 0 →
  cmd e = Stop ∨ cmd e = Shutdown →
  hproc s = Some m → m_pc m = MSelect → hret s = NotReturned →
  ∃ ls s', exec stp s ls s' ∧ pc s' = RunDone ∧ (length ls ≤ 8)%nat.
Proof.
  intros Hre Hc Hp Hout He Herr Hcmd Hh Hm Hr.
  pose proof (reachable_wf _ _ _ _ _ _ Hre) as Hw. unfold wf in Hw. rewrite Hp in Hw.
  destruct Hw as [[_ Hin] _]. rewrite Hout in Hin.
  pose (l1 := {| l_status := l_status l; l_ec := l_ec l; l_cmd := cmd e; l_out := true; l_in := false |}).
  pose (s1 := set_pc (set_cbs s (delete n (cbs s))) (pc_of (inl l1))).
  assert (stp s (LAccept n e) s1) as H1.
  { eapply step_accept; try done. unfold case_inch. by rewrite Hin, Herr. }
  pose (cr := {| Cmd := cmd e; CurrentStatus := l_status l |}).
  pose (l2 := {| l_status := l_status l; l_ec := l_ec l; l_cmd := cmd e; l_out := false; l_in := true |}).
  pose (m1 := on_request m cr).
  pose (s2 := set_hproc (set_pc s1 (RunSelect l2)) m1).
  assert (stp s1 (LDeliver cr) s2) as H2.
  { eapply step_deliver; try done. simpl. by rewrite Hm. }
  assert (m_pc m1 = MStopping (m_checkpoint m)) as Hm1.
  { unfold m1, on_request, cr. simpl. by destruct Hcmd as [-> | ->]. }
  destruct (stopping_reaches_end s2 l2 m1 _ Hc eq_refl eq_refl Hr Hm1) as (ls & s' & Hex & Hd & Hl).
  eexists _, s'. split; [eauto using exec_cons|]. split; [done|simpl; lia].
Qed.

End Stopping.

(** ** A whole run

    The service is started with one argument, interrogated, stopped; every call
    succeeds. *)
Definition demo_script : script :=
  {| sc_outs := zero_out; sc_callback := inl 4096;
     sc_argv := λ _, Some [units_of "demo" ++ [0]] |}.
#[local] Instance DemoWindows : Windows := ScriptWindows demo_script.

Definition demo_prepared : out (Z * service * list SERVICE_TABLE_ENTRY) * st :=
  Run_prepare 8192 "demo" (fresh []).
Definition demo_os : st := demo_prepared.2.
Definition demo_sv : service :=
  match demo_prepared.1 with Ret (_, sv, _) => sv | _ => demo_service end.
Definition demo_table : list SERVICE_TABLE_ENTRY :=
  match demo_prepared.1 with Ret (_, _, t) => t | _ => [] end.
Definition demo_tid : Z := match demo_prepared.1 with Ret (t, _, _) => t | _ => 0 end.

Abbreviation demo_step := (step (Win := DemoWindows) (Hand := MyHandler) 4096 demo_table).
Abbreviation demo_next := (next (Win := DemoWindows) (Hand := MyHandler) 4096 demo_table).
Definition demo_init : sys (Win := DemoWindows) (Hand := MyHandler) :=
  sys_init demo_os demo_sv demo_tid.

(** The handler sends [c], which is reported. *)
Definition says (g : nat) (c : Status) : list (label (Win := DemoWindows)) :=
  [LChange g c; LUpdate c (Ret tt)].
(** The control [c] arrives in status [cs] and is handed over. *)
Definition control (c : Z) (cs : Status) : list (label (Win := DemoWindows)) :=
  [LControl c 0 0 0;
   LAccept 0 {| cmd := c; eventType := 0; eventData := 0; context := 0; errno := 0 |};
   LDeliver {| Cmd := c; CurrentStatus := cs |}].

Definition demo_start : list label :=
  [LServiceMain 1 12288; LMain; LMain; LMain; LMain; LStart] ++ says 0 (status_of StartPending) ++ says 0 running_status.
Definition demo_talk : list label :=
  control Interrogate running_status ++ says 0 running_status ++ [LTau 0]
  ++ says 0 running_status ++ control Stop running_status.
Definition no_error : exitCode := {| isSvcSpecific := false; ec_errno := 0 |}.
Definition demo_stop : list label :=
  says 0 (stopping_status 1) ++ [LReturn false 0; LExit no_error].
Definition demo_finish : list label := [LFinal no_error; LSet; LMain; LDispatch].

Definition after (s : sys) (ls : list label) : sys :=
  default s (run_schedule demo_next s ls).

Definition runs (s : sys) (ls : list label) : bool := succeeds (run_schedule demo_next s ls).

Lemma after_exec s ls : runs s ls = true → exec demo_step s ls (after s ls).
Proof.
  intros E. apply (run_schedule_exec _ demo_next); [intros ???; apply step_sound|].
  by apply succeeds_default.
Qed.

Lemma after_step s l : runs s [l] = true → demo_step s l (after s [l]).
Proof.
  unfold runs, after. simpl. intros E. apply step_sound. by destruct (demo_next s l).
Qed.

Definition demo_running : sys := after demo_init demo_start.
Definition demo_broken : sys := after demo_init (demo_start ++ demo_talk ++ demo_stop).
Definition demo_labels : list label := demo_start ++ demo_talk ++ demo_stop ++ demo_finish.
Definition demo_over : sys := after demo_init demo_labels.

Lemma demo_running_exec : exec demo_step demo_init demo_start demo_running.
Proof. apply after_exec. by vm_compute. Qed.
Lemma demo_broken_exec :
  exec demo_step demo_init (demo_start ++ demo_talk ++ demo_stop) demo_broken.
Proof. apply after_exec. by vm_compute. Qed.
Lemma demo_exec : exec demo_step demo_init demo_labels demo_over.
Proof. apply after_exec. by vm_compute. Qed.

(** The run, and what the theorems of the service package say of it. *)
Lemma run_refines_protocol_witness :
  exec spec_step SNew (observations observe demo_labels) (abs demo_over).
Proof. exact (run_refines_protocol _ _ _ _ _ _ _ demo_exec). Defined.

Lemma requests_in_order_witness :
  ∃ k, accepted (observations observe demo_labels)
       = (Cmd <$> delivered (observations observe demo_labels)) ++ k ∧ (length k ≤ 1)%nat ∧
    match pc demo_over with
    | RunSelect l | RunUpdate l _ => k = if l_out l then [l_cmd l] else []
    | _ => True
    end.
Proof. exact (requests_in_order _ _ _ _ _ _ _ demo_exec). Defined.

(** Up to the delivery of the request to stop, and that step. *)
Definition demo_accepted : list label := demo_start ++ take 2 (control Stop running_status).
Definition stop_request : ChangeRequest := {| Cmd := Stop; CurrentStatus := running_status |}.

Lemma demo_accepted_exec : exec demo_step demo_init demo_accepted (after demo_init demo_accepted).
Proof. apply after_exec. by vm_compute. Qed.
Lemma demo_deliver_step :
  demo_step (after demo_init demo_accepted) (LDeliver stop_request)
    (after (after demo_init demo_accepted) [LDeliver stop_request]).
Proof. apply after_step. by vm_compute. Qed.

Lemma request_carries_status_witness :
  CurrentStatus stop_request = current (observations observe demo_accepted).
Proof.
  exact (request_carries_status _ _ _ _ _ _ _ _ _ demo_accepted_exec demo_deliver_step).
Defined.

Lemma reports_are_the_statuses_witness :
  reports (st_trace (os demo_over)) ++ on_its_way (pc demo_over)
    = reports (st_trace demo_os) ++ (as_told <$> sends (acts demo_labels)) ++ end_told demo_labels ∧
  ∃ args hs, hproc demo_over = Some hs ∧ exec (handler_step (Hand := MyHandler)) (Execute args) (acts demo_labels) hs.
Proof.
  refine (reports_are_the_statuses _ _ _ _ _ _ _ demo_exec _ _); by vm_compute.
Defined.

Lemma end_reported_once_witness :
  omap broken demo_labels = [] ∧ omap returned demo_labels = [no_error] ∧
  ∃ ec, reports (st_trace (os demo_over))
      = reports (st_trace demo_os) ++ (as_told <$> sends (acts demo_labels)) ++ [service_status (status_of Stopped) ec] ∧
    match omap broken demo_labels with
    | [] => omap returned demo_labels = [ec]
    | ns => ∃ n, ns = [n] ∧ ec = {| isSvcSpecific := true; ec_errno := n |}
    end.
Proof.
  split; [by vm_compute|]. split; [by vm_compute|].
  refine (end_reported_once _ _ _ _ _ _ _ demo_exec _ _); by vm_compute.
Defined.

Lemma demo_running_crash : crash demo_running = None.
Proof. by vm_compute. Qed.

Lemma run_never_blocks_witness :
  reachable demo_step demo_init demo_running ∧
  match pc demo_running with
  | RunSelect l =>
      (∀ hs g c, hproc demo_running = Some hs → is_Some (hnext hs (HSend g c)) →
         ∃ s', demo_step demo_running (LChange g c) s') ∧
      (∀ ec, hret demo_running = Returning ec → ∃ s', demo_step demo_running (LExit ec) s') ∧
      (if l_out l then
         ∀ hs, hproc demo_running = Some hs →
           let cr := {| Cmd := l_cmd l; CurrentStatus := l_status l |} in
           is_Some (hnext hs (HRecv cr)) → ∃ s', demo_step demo_running (LDeliver cr) s'
       else ∀ n e, cbs demo_running !! n = Some e →
              ∃ s', demo_step demo_running (LAccept n e) s')
  | RunUpdate l c => ∃ r s', demo_step demo_running (LUpdate c r) s' ∧
      hproc s' = hproc demo_running ∧
      ((∃ l', pc s' = RunSelect l') ∨ (∃ ec, pc s' = RunBreak ec))
  | _ => True
  end.
Proof.
  assert (reachable demo_step demo_init demo_running) as Hre
    by (eexists; apply demo_running_exec).
  split; [exact Hre|]. exact (run_never_blocks _ _ _ _ _ _ Hre demo_running_crash).
Defined.

(** [Execute] has returned, [run] is at its select. *)
Definition demo_returning : sys :=
  after demo_init (demo_start ++ demo_talk ++ says 0 (stopping_status 1) ++ [LReturn false 0]).

Lemma exit_reaches_end_witness :
  hret demo_returning = Returning no_error ∧
  ∃ ls s', exec demo_step demo_returning ls s' ∧ pc s' = RunDone ∧ (length ls ≤ 4)%nat.
Proof.
  assert (hret demo_returning = Returning no_error) as Hr by by vm_compute.
  split; [exact Hr|].
  refine (exit_reaches_end _ _ demo_returning no_error _ Hr _); [by vm_compute|].
  left. eexists. by vm_compute.
Defined.

(** After the loop two more controls arrive, and [run] ends. *)
Definition late_controls : list label :=
  [LControl Stop 0 0 0; LControl Interrogate 0 0 0; LFinal no_error; LSet].

Lemma late_exec : exec demo_step demo_broken late_controls (after demo_broken late_controls).
Proof. apply after_exec. by vm_compute. Qed.

Lemma after_the_loop_nobody_is_served_witness :
  over (after demo_broken late_controls) ∧ forallb (negb ∘ serves) late_controls = true ∧
  (∃ k, cbs (after demo_broken late_controls) = cbs demo_broken ++ k) ∧
  (hret demo_broken ≠ Returned → hret (after demo_broken late_controls) ≠ Returned).
Proof.
  refine (after_the_loop_nobody_is_served _ _ demo_broken late_controls _ _ late_exec).
  by vm_compute.
Defined.

(** The service is running and a stop is waiting to be accepted. *)
Definition demo_told : list label := demo_start ++ take 1 (control Stop running_status).
Definition stop_event : ctlEvent :=
  {| cmd := Stop; eventType := 0; eventData := 0; context := 0; errno := 0 |}.

Lemma demo_told_exec : exec demo_step demo_init demo_told (after demo_init demo_told).
Proof. apply after_exec. by vm_compute. Qed.

Lemma stop_ends_the_service_witness :
  cbs (after demo_init demo_told) !! 0%nat = Some stop_event ∧
  ∃ ls s', exec demo_step (after demo_init demo_told) ls s' ∧ pc s' = RunDone ∧
    (length ls ≤ 8)%nat.
Proof.
  split; [by vm_compute|].
  refine (stop_ends_the_service 4096 demo_table demo_os demo_sv demo_tid
            (after demo_init demo_told) _ 0%nat stop_event _ _ _ _ _ _ _ _ _ _ _);
    [eexists; apply demo_told_exec | by vm_compute | vm_compute; reflexivity | by vm_compute
    | by vm_compute | done | by left | vm_compute; reflexivity | by vm_compute | by vm_compute].
Defined.

(** ** Two pre-shutdown requests

    Worker 3 is at its first sleep while worker 2 goes through its thirty steps
    and closes the channel; then worker 3 closes it again. *)
Definition second_worker : list label :=
  control PreShutdown running_status ++ control PreShutdown running_status
  ++ [LTau 3] ++ says 3 (pending_status 1).
Definition thirty_steps : list label :=
  seqZ 1 30 ≫= λ c, [LTau 2] ++ says 2 (pending_status c).

Definition crash_labels : list label :=
  demo_start ++ second_worker ++ thirty_steps ++ [LTau 2; LPanic closed_twice].

(** C37: a second pre-shutdown request can bring the whole process down: there is
    an execution of the service, with a well-behaved Windows, in which a worker
    closes the closed channel and the process dies without reporting its end. *)
Theorem second_preshutdown_crashes :
  ∃ ls s, exec demo_step demo_init ls s ∧ crash s = Some closed_twice ∧
    finals (observations observe ls) = [].
Proof.
  exists crash_labels, (after demo_init crash_labels). split; [|by vm_compute].
  apply after_exec. by vm_compute.
Qed.

(** *** The handler's own theorems on a run with one pre-shutdown *)
Definition one_preshutdown : list hact :=
  [HSend 0 (status_of StartPending); HSend 0 running_status;
   HRecv {| Cmd := PreShutdown; CurrentStatus := running_status |}]
  ++ (seqZ 1 30 ≫= λ c, [HTau 2; HSend 2 (pending_status c)])
  ++ [HTau 2; HTau 1; HSend 0 (stopping_status 31); HReturn false 0].

Definition hafter (acts : list hact) : myservice :=
  default (Execute_start []) (run_schedule my_next (Execute_start []) acts).

Lemma one_preshutdown_run : hrun [] one_preshutdown (hafter one_preshutdown).
Proof. apply (run_schedule_exec hstep my_next); [done|by vm_compute]. Qed.

Lemma one_preshutdown_is_safe_witness :
  my_next (hafter one_preshutdown) (HPanic closed_twice) = None.
Proof. refine (one_preshutdown_is_safe _ _ _ _ one_preshutdown_run _). by apply Nat.leb_le. Defined.

Lemma preshutdown_checkpoints_witness :
  m_shutdown (hafter one_preshutdown) = true ∧
  ∃ k, 0 <= k <= 30 ∧ sent_by 2 one_preshutdown = pending_status <$> seqZ 1 k ∧
    (m_shutdown (hafter one_preshutdown) = true →
     k = 30 ∧ m_checkpoint (hafter one_preshutdown) = 31) ∧
    (m_shutdown (hafter one_preshutdown) = false → preshutdowns one_preshutdown = 1%nat →
     worker_goes_on (hafter one_preshutdown) k).
Proof.
  split; [by vm_compute|].
  refine (preshutdown_checkpoints _ _ _ one_preshutdown_run _). by apply Nat.leb_le.
Defined.

Lemma Execute_conversation_witness :
  m_pc (hafter one_preshutdown) = MDone ∧
  ((m_pc (hafter one_preshutdown) = MSelect →
    sent_by 0 one_preshutdown = greeting ++ (received one_preshutdown ≫= replies)) ∧
   (m_pc (hafter one_preshutdown) = MDone → ∃ cp,
     sent_by 0 one_preshutdown
     = greeting ++ (received one_preshutdown ≫= replies) ++ [stopping_status cp])).
Proof. split; [by vm_compute|]. exact (Execute_conversation _ _ _ one_preshutdown_run). Defined.

(** ** A start on a Windows with events

    The world is the list of the signalled events. *)
#[local] Instance EventWindows : Windows := {|
  world := list Z;
  call := λ p w,
    (Answer (match p with WaitForSingleObjectP _ _ => 0 | _ => 1 end) 0 (zero_out p),
     match p with SetEventP hd => hd :: w | _ => w end);
  new_callback := λ w, (inl 4096, w);
  argv_at := λ _ _, Some []
|}.

#[local] Instance EventWindows_Events : Events (Win := EventWindows).
Proof.
  refine (Build_Events EventWindows (λ w hd, hd ∈ (w : list Z)) _).
  intros p w rep w' hd [= _ <-] Hin. destruct p; try (by left).
  apply elem_of_cons in Hin as [->|Hin]; [by right|by left].
Defined.

Definition event_os : st (H := EventWindows) :=
  St (H := EventWindows) [] []
    {| goWaitsH := 2; cWaitsH := 1; ssHandle := 0; sName := None; sArgc := 0; sArgv := 0;
       ctlHandlerProc := 4096 |}.
Definition event_init : sys (Win := EventWindows) (Hand := MyHandler) :=
  sys_init event_os demo_service 1.
Definition event_main : list (label (Win := EventWindows)) :=
  [LServiceMain 0 8192; LMain; LMain; LMain; LMain].
Definition event_labels : list (label (Win := EventWindows)) := event_main ++ [LStart].
Abbreviation event_step := (wait_step (Win := EventWindows) (Hand := MyHandler) 4096 []).
Abbreviation event_next := (next (Win := EventWindows) (Hand := MyHandler) 4096 []).
Definition event_signalled : sys (Win := EventWindows) (Hand := MyHandler) :=
  default event_init (run_schedule event_next event_init event_main).
Definition event_end : sys (Win := EventWindows) (Hand := MyHandler) :=
  default event_init (event_next event_signalled LStart).

Lemma event_fair : fair_wait event_signalled LStart.
Proof.
  assert (bool_decide (ev_h (goWaits (sv event_signalled)) ∈ (st_world (os event_signalled) : list Z))
          = true) as E by by vm_compute.
  exact (bool_decide_eq_true_1 _ E).
Qed.

Lemma event_exec : exec event_step event_init event_labels event_end.
Proof.
  apply (exec_snoc _ _ _ event_signalled).
  - apply wait_schedule; by vm_compute.
  - apply wait_next; [apply event_fair|by vm_compute].
Qed.

Lemma run_has_registered_handle_witness :
  pc event_end = RunSelect loop_init ∧
  (pc event_end = RunWait ∨
   registered 4096 (os event_end) (h (sv event_end)) ∧
   args_saved (st_vars event_os) event_labels (st_vars (os event_end))).
Proof.
  split; [by vm_compute|].
  refine (run_has_registered_handle 4096 [] 2 event_os demo_service 1 event_labels event_end
            eq_refl eq_refl _ _ event_exec); [done|]. cbn. by intros ?%elem_of_nil.
Defined.
