(* ===== verification/ExampleEnd.v ===== *)
(** * When the example service is reported stopped

    The state [Stopped] is what a client of the service control manager waits for.
    Of the example service Windows hears it only once the service is really over:
    none of the statuses its handler sends has this state, so that it is the end
    [run] reports. *)
From Stdlib Require Import ZArith Lia.
From stdpp Require Import base option list strings.
From S2P Require Import Prelude GoText Go WinConst Machine GoSyscall Script Winapi.
From S2P Require Import SvcEvent SvcService SvcAsm SvcSystem SvcProtocol ExampleService.

Local Open Scope Z_scope.

(** ** The handler *)

(** A status that does not say [Stopped]. *)
Definition alive (c : Status) : Prop := State c ≠ Stopped.

(** No status the handler is about to send says [Stopped], and it has no goroutines
    before its first status. *)
Definition handler_alive (m : myservice) : Prop :=
  Forall alive (pending_sends (m_pc m)) ∧ (m_pc m = MStart → m_workers m = []).

Lemma start_alive args : handler_alive (Execute_start args).
Proof. by split; [repeat constructor|]. Qed.

Ltac not_start := split; [repeat constructor; try done|by intros].

Lemma send_alive m g c m' :
  handler_alive m → my_next m (HSend g c) = Some m' →
  alive c ∧ handler_alive m' ∧ m_pc m' ≠ MStart.
Proof.
  intros [Hp Hs] Hn. destruct g as [|[|i]]; simpl in Hn; [|done|].
  - unfold main_send in Hn. destruct (m_pc m) eqn:E; try done; case_decide; simplify_eq/=;
      (split; [by inv Hp || by repeat constructor|]); (split; [|done]); not_start;
      by inv Hp.
  - destruct (m_workers m !! i) as [[]|] eqn:Hw; try done. case_decide; simplify_eq/=.
    split; [done|]. assert (m_pc m ≠ MStart) as Hne by (intros E; by rewrite (Hs E) in Hw).
    by split.
Qed.

Lemma recv_alive m cr m' :
  handler_alive m → alive (CurrentStatus cr) → my_next m (HRecv cr) = Some m' →
  m_pc m ≠ MStart ∧ handler_alive m' ∧ m_pc m' ≠ MStart.
Proof.
  intros [Hp Hs] Hc Hn. simpl in Hn. destruct (m_pc m) eqn:E; try done. simplify_eq.
  split; [done|].
  assert (Forall alive (replies cr) ∧ m_pc (on_request m cr) ≠ MStart) as [Hr Hne].
  { unfold replies, on_request. cbv zeta.
    repeat case_match; (split; [repeat constructor; done|]); done. }
  split; [|done]. split; [|done]. by rewrite (proj1 (on_request_pending m cr)).
Qed.

Lemma tau_alive m g m' :
  handler_alive m → my_next m (HTau g) = Some m' →
  handler_alive m' ∧ (m_pc m = MStart ↔ m_pc m' = MStart).
Proof.
  intros [Hp Hs] Hn. destruct g as [|[|i]]; simpl in Hn.
  - destruct (m_pc m) eqn:E; simplify_eq/=.
    + rewrite E. split; [|done]. by split; rewrite E.
    + split; [|done]. by split.
  - destruct (m_pc m); try done. destruct (m_shutdown m); simplify_eq/=. split; [|done].
    not_start.
  - destruct (m_workers m !! i) as [[]|] eqn:Hw; try done.
    + simplify_eq/=. split; [|done]. split; [done|]. intros E. by rewrite (Hs E) in Hw.
    + destruct (worker_wakes m i) as [m1|] eqn:Hk; simplify_eq.
      pose proof (worker_wakes_pc _ _ _ Hk) as E. rewrite E. split; [|done]. split; [by rewrite E|].
      rewrite E. intros E'. by rewrite (Hs E') in Hw.
Qed.

Lemma return_alive m ssec ec m' :
  my_next m (HReturn ssec ec) = Some m' → handler_alive m → m_pc m ≠ MStart ∧ handler_alive m' ∧ m_pc m' ≠ MStart.
Proof.
  simpl. destruct (m_pc m); try done. case_decide; intros ? Hp; simplify_eq/=.
  split; [done|]. split; [|done]. by not_start.
Qed.

Lemma my_next_same m p m' : my_next m (HPanic p) = Some m' → m' = m.
Proof. simpl. destruct (existsb _ _); congruence. Qed.

(** ** The service *)
Section End.
Context `{Win : Windows}.
Context (servicectlhandler : Z) (table : list SERVICE_TABLE_ENTRY).
Local Abbreviation stp := (step (Hand := MyHandler) servicectlhandler table).
Implicit Types s : sys (Hand := MyHandler).

(** The end has been reported. *)
Definition ended s : Prop := pc s = RunSet ∨ pc s = RunDone.

(** Windows has been told that the service has stopped. *)
Definition told_stopped s : Prop :=
  Exists (λ t, ss_CurrentState t = Stopped) (reports (st_trace (os s))).

(** What the statuses on their way from the handler to Windows say. *)
Definition passing (p : run_pc) (m : myservice) : Prop :=
  match p with
  | RunSelect l => m_pc m = MStart ∨ alive (l_status l)
  | RunUpdate l c => alive c ∧ m_pc m ≠ MStart
  | _ => True
  end.
Definition talk s : Prop := ∀ m, hproc s = Some m → handler_alive m ∧ passing (pc s) m.

Ltac step_inv :=
  match goal with H : step _ _ _ _ _ |- _ => inv H end;
  repeat match goal with E : pc _ = _ |- _ => progress rewrite E in * end;
  repeat match goal with E : hproc _ = _ |- _ => progress rewrite E in * end.

Lemma passing_inch l e r m : passing (RunSelect l) m → case_inch l e = Some r → passing (pc_of r) m.
Proof. unfold case_inch. intros Hp. destruct (l_in l); [|done]. intros [= <-]. by destruct (errno e =? 0). Qed.

Lemma passing_changes l c r m : passing (RunUpdate l c) m → passing (pc_of (case_changes l c r)) m.
Proof. intros [Hc _]. destruct r; simpl; auto. Qed.

(** A step of the handler that neither starts nor ends before its first status. *)
Lemma passing_tau p m m' :
  passing p m → (m_pc m = MStart ↔ m_pc m' = MStart) → passing p m'.
Proof. unfold passing. destruct p; tauto. Qed.

Lemma talk_step s l s' : wf s → talk s → stp s l s' → talk s'.
Proof.
  intros Hw Ht Hs. unfold talk, wf in *.
  step_inv; cbn [pc hproc set_os set_sv set_pc set_hproc set_hret set_cbs set_smain set_ran set_crash] in *;
    try done; intros m Hm; simplify_eq;
    try match type of Ht with ∀ m, Some ?hs = Some m → _ => destruct (Ht hs eq_refl) as [Ha Hp] end.
  - by split; [apply start_alive|left].
  - by destruct Hw; simplify_eq.
  - destruct (Ht m Hm) as [Ha Hp]. split; [done|]. by eapply passing_inch.
  - match goal with E : hnext _ (HRecv _) = _ |- _ => rename E into Hn end.
    match goal with E : case_outch _ = Some _ |- _ =>
      unfold case_outch in E; destruct (l_out l0); [|done]; injection E as <- <- end.
    assert (m_pc hs ≠ MStart) as Hne by (intros E; simpl in Hn; by rewrite E in Hn).
    destruct Hp as [|Hp]; [done|]. destruct (recv_alive _ {| Cmd := l_cmd l0; CurrentStatus := l_status l0 |} _ Ha Hp Hn) as (_ & ? & ?). split; [done|by right].
  - match goal with E : hnext _ _ = _ |- _ => destruct (send_alive _ _ _ _ Ha E) as (? & ? & ?) end.
    done.
  - destruct (Ht m Hm) as [Ha Hp]. split; [done|]. by apply passing_changes.
  - by destruct (Ht m Hm).
  - match goal with E : hnext _ _ = _ |- _ => destruct (return_alive _ _ _ _ E Ha) as (? & ? & ?) end.
    split; [done|]. eapply passing_tau; [exact Hp|tauto].
  - match goal with E : hnext _ _ = _ |- _ => destruct (tau_alive _ _ _ Ha E) as (? & ?) end.
    split; [done|]. by eapply passing_tau.
  - match goal with E : hnext _ (HPanic _) = _ |- _ => apply my_next_same in E as -> end. done.
Qed.

(** The end is never taken back. *)
Lemma ended_step s l s' : ended s → stp s l s' → ended s'.
Proof.
  unfold ended. intros [E|E] Hs; inv Hs; rewrite ?E in *; simplify_eq/=; auto.
Qed.

Lemma ended_exec s ls s' : ended s → exec stp s ls s' → ended s'.
Proof. intros He. apply (exec_invariant stp (λ _ s', ended s')); [done|]. intros. by eapply ended_step. Qed.

Definition truly_stopped s : Prop := wf s ∧ talk s ∧ (told_stopped s → ended s).

Lemma told1_stopped s l s' :
  talk s → wf s → stp s l s' → Exists (λ t, ss_CurrentState t = Stopped) (told1 l) → ended s'.
Proof.
  intros Ht Hw Hs. unfold ended, wf, talk in *. destruct l; cbn [told1]; intros He; try by inv He.
  - inv Hs. match goal with E : pc s = _ |- _ => rewrite E in * end. destruct Hw as [_ [m Hm]].
    destruct (Ht m Hm) as [_ [Hc _]]. inv He as [? ? He'|? ? He']; [|by inv He'].
    exfalso. apply Hc. revert He'. unfold service_status. by destruct (if ec_errno _ =? 0 then _ else _).
  - inv Hs. by left.
Qed.

Lemma truly_stopped_step s l s' : truly_stopped s → stp s l s' → truly_stopped s'.
Proof.
  intros (Hw & Ht & He) Hs. split; [by eapply step_wf|]. split; [by eapply talk_step|].
  unfold told_stopped in *. destruct (step_tells _ _ _ _ _ Hw Hs) as (k & -> & Hk).
  rewrite Exists_app. intros [Hold|Hnew]; [by eapply ended_step; [apply He|]|].
  destruct Hk as [-> | ->]; [by inv Hnew|by eapply told1_stopped].
Qed.

(** Windows hears from the service that it has stopped only when [run] has left its
    loop and has reported the end. *)
Lemma stopped_is_over o x t ls s :
  reports (st_trace o) = [] → exec stp (sys_init o x t) ls s → truly_stopped s.
Proof.
  intros Ho. apply (exec_invariant stp (λ _ s, truly_stopped s)).
  - split; [done|]. split; [done|]. unfold told_stopped. simpl. rewrite Ho. intros He. inv He.
  - intros _ s1 l s2. apply truly_stopped_step.
Qed.

End End.
