(* ===== verification/Settling.v ===== *)
(** * The example service comes to rest

    Under [svc.Run] the example service has only so much to do: every step of its
    goroutines that is not a timer uses up some of [work_left], and only a new control
    adds to it. When nothing is left to do the service either waits for the next
    control, having answered all there were, or it is over; and a control that asks
    it to end leaves no other way than to be over. These theorems are about every
    schedule: they do not say which step comes first, only that steps are taken. *)
From Stdlib Require Import ZArith Lia.
From stdpp Require Import base option list strings.
From S2P Require Import Prelude GoText Go WinConst Machine GoSyscall Script Winapi.
From S2P Require Import SvcEvent SvcService SvcAsm SvcSystem SvcProtocol ExampleService ExampleRuns ExampleEnd.

Local Open Scope Z_scope.

(** ** What the handler has still to do *)
Definition main_rank (p : main_pc) : nat :=
  match p with
  | MStart => 8
  | MRun | MPause | MContinue | MEcho2 _ => 6
  | MSleep _ => 7
  | MEcho1 _ => 9
  | MSelect => 4
  | MStopping _ => 3
  | MReturn => 1
  | MDone => 0
  end.

Definition worker_rank (w : worker_pc) : nat :=
  match w with WStart => 4 | WSend _ => 3 | WSleep => 1 | WDone => 0 end.

(** The rounds the pre-shutdown goroutines have left, all together. *)
Definition rounds (m : myservice) : nat := Z.to_nat (31 - m_checkpoint m).

Definition handler_work (m : myservice) : nat :=
  main_rank (m_pc m) + sum_list_with worker_rank (m_workers m) + 3 * rounds m.

(** The shared variable [checkpoint], and the channel. *)
Definition progress_ok (m : myservice) : Prop :=
  1 <= m_checkpoint m <= 31 ∧ (m_checkpoint m = 31 → m_shutdown m = true) ∧
  (WDone ∈ m_workers m → m_shutdown m = true).

Lemma done_in_insert (l : list worker_pc) i w : WDone ∈ <[i:=w]> l → w = WDone ∨ WDone ∈ l.
Proof.
  intros [j Hj]%list_elem_of_lookup. destruct (decide (i = j)) as [<-|Hne].
  - left. destruct (decide (i < length l)%nat).
    + rewrite list_lookup_insert_eq in Hj by done. congruence.
    + apply lookup_lt_Some in Hj. rewrite length_insert in Hj. lia.
  - right. rewrite list_lookup_insert_ne in Hj by done. by eapply list_elem_of_lookup_2.
Qed.

Lemma progress_step m a m' : progress_ok m → hstep m a m' → progress_ok m'.
Proof.
  unfold progress_ok. intros (Hc & H31 & Hd) Hs.
  hstep_cases; try done;
    try (split_and!; [lia|lia|done|]; by intros [?|?]%done_in_insert; [|by apply Hd]).
  - destruct (on_request_workers m cr) as (-> & -> & ->). split_and!; [lia|lia|done|].
    rewrite elem_of_app. intros [H|H]; [by apply Hd|].
    destruct (is_preshutdown (HRecv cr)); [by apply list_elem_of_singleton in H|by apply not_elem_of_nil in H].
  - match goal with E : main_send _ = Some _ |- _ => apply main_send_pc in E as (-> & -> & ->) end. done.
  - match goal with E : worker_wakes _ _ = inl _ |- _ =>
      apply worker_wakes_cases in E as (_ & E' & [(H30 & Hs0 & -> & ->)|(H30 & -> & ->)]) end.
    + assert (m_checkpoint m ≠ 31) by (intros H; rewrite (H31 H) in Hs0; done).
      rewrite wrap_small in E' by (unfold in_range; lia). split_and!; [lia|lia|done|done].
    + rewrite wrap_small in E' by (unfold in_range; lia). split_and!; [lia|lia|lia|].
      by intros [?|?]%done_in_insert; [|by apply Hd].
Qed.

Lemma start_work args : handler_work (Execute_start args) = 98%nat.
Proof. done. Qed.

(** What each action does to the work. *)
Lemma send_work m g c m' : hstep m (HSend g c) m' → (handler_work m' + 2 = handler_work m)%nat.
Proof.
  unfold hstep, handler_work, rounds. destruct g as [|[|i]]; simpl; [|done|].
  - unfold main_send. destruct (m_pc m); try done; case_decide; intros; simplify_eq/=; lia.
  - destruct (m_workers m !! i) as [[]|] eqn:Hw; try done. case_decide; intros; simplify_eq/=.
    pose proof (sum_list_with_insert worker_rank _ _ _ WSleep Hw) as E. simpl in E. lia.
Qed.

Lemma recv_work m cr m' : hstep m (HRecv cr) m' → (handler_work m' ≤ handler_work m + 5)%nat.
Proof.
  unfold hstep, handler_work, rounds. simpl. destruct (m_pc m) eqn:E; try done. intros [= <-].
  destruct (on_request_workers m cr) as (_ & -> & ->). rewrite sum_list_with_app.
  unfold on_request, is_preshutdown. cbv zeta.
  destruct (Z.eqb_spec (Cmd cr) Interrogate) as [->|_]; [simpl; lia|].
  destruct (Z.eqb_spec (Cmd cr) Stop) as [->|_]; [simpl; lia|].
  destruct (Z.eqb_spec (Cmd cr) Shutdown) as [->|_]; [simpl; lia|].
  destruct (Z.eqb_spec (Cmd cr) PreShutdown) as [_|_]; [simpl; lia|].
  destruct (Cmd cr =? Pause), (Cmd cr =? Continue); simpl; lia.
Qed.

Lemma return_work m ssec ec m' :
  hstep m (HReturn ssec ec) m' → (handler_work m' + 1 = handler_work m)%nat.
Proof.
  unfold hstep, handler_work, rounds. simpl. destruct (m_pc m); try done.
  case_decide; intros; simplify_eq/=. lia.
Qed.

(** A step of its own is a tick, which changes nothing, or progress. *)
Lemma tau_work m g m' :
  progress_ok m → hstep m (HTau g) m' →
  (g = 0%nat ∧ m' = m) ∨ (handler_work m' < handler_work m)%nat.
Proof.
  unfold hstep, handler_work, rounds. intros (Hc & H31 & _).
  destruct g as [|[|i]]; simpl.
  - destruct (m_pc m) eqn:E; intros; simplify_eq/=; [by left|right; lia].
  - destruct (m_pc m); try done. destruct (m_shutdown m); intros; simplify_eq/=. right; lia.
  - destruct (m_workers m !! i) as [[]|] eqn:Hw; try done.
    + intros; simplify_eq/=. right.
      pose proof (sum_list_with_insert worker_rank _ _ _ (WSend (m_checkpoint m)) Hw) as E. simpl in E. lia.
    + destruct (worker_wakes m i) as [m1|] eqn:Hk; [|done]. intros [= <-]. right.
      apply worker_wakes_cases in Hk as (-> & E & [(H30 & Hs0 & _ & ->)|(H30 & _ & ->)]).
      * assert (m_checkpoint m ≠ 31) by (intros H; rewrite (H31 H) in Hs0; done).
        rewrite wrap_small in E by (unfold in_range; lia).
        pose proof (sum_list_with_insert worker_rank _ _ _ WDone Hw) as E'. simpl in E'. lia.
      * rewrite wrap_small in E by (unfold in_range; lia).
        pose proof (sum_list_with_insert worker_rank _ _ _ (WSend (m_checkpoint m1)) Hw) as E'. simpl in E'. lia.
Qed.

(** The last place of [Execute] is reached by its return only, and not left. *)
Lemma returns_only m a m' :
  hstep m a m' → m_pc m' = MDone → m_pc m = MDone ∨ ∃ ssec ec, a = HReturn ssec ec.
Proof.
  intros Hs. hstep_cases; intros Hd; try done; try congruence; eauto.
  - exfalso. revert Hd. unfold on_request. cbv zeta. repeat case_match; done.
  - match goal with H : main_send _ = Some _ |- _ => unfold main_send in H; destruct (m_pc m); by simplify_eq/= end.
  - match goal with H : worker_wakes _ _ = inl _ |- _ => rewrite <- (worker_wakes_pc _ _ _ H) end. by left.
Qed.

Lemma done_stays m a m' : hstep m a m' → m_pc m = MDone → m_pc m' = MDone.
Proof.
  intros Hs. hstep_cases; intros Hd; try done; try congruence.
  - unfold main_send in *. by rewrite Hd in *.
  - match goal with H : worker_wakes _ _ = inl _ |- _ => by rewrite (worker_wakes_pc _ _ _ H) end.
Qed.

(** A step the handler can take by itself; none at its [select] with nothing to
    do, and none when [Execute] has returned. *)
Definition worker_todo (m : myservice) : option hact :=
  match m_workers m with
  | WStart :: _ | WSleep :: _ => Some (HTau 2)
  | WSend cp :: _ => Some (HSend 2 (pending_status cp))
  | _ => None
  end.
Definition my_todo (m : myservice) : option hact :=
  match m_pc m with
  | MSelect => if m_shutdown m then Some (HTau 1) else worker_todo m
  | MSleep _ => Some (HTau 0)
  | MReturn => Some (HReturn false 0)
  | _ => (λ x, HSend 0 x.1) <$> main_send m
  end.

Lemma worker_todo_step m a :
  m_shutdown m = false → worker_todo m = Some a → ∃ m', hstep m a m' ∧ m' ≠ m.
Proof.
  unfold worker_todo, hstep. intros Hs Ha.
  assert (∀ m', m_workers m' ≠ m_workers m → m' ≠ m) as Hne by by intros m' H ->.
  destruct (m_workers m) as [|[|cp| |] ws] eqn:Hw; try done; injection Ha as <-;
    cbn [my_next]; rewrite Hw; cbn [lookup list_lookup].
  - eexists. split; [done|]. apply Hne. by rewrite <- Hw; cbn; rewrite Hw.
  - rewrite decide_True by done. eexists. split; [done|]. apply Hne. cbn. by rewrite Hw.
  - destruct (worker_wakes m 0) as [m'|] eqn:Hk.
    + eexists. split; [done|]. apply Hne.
      apply worker_wakes_cases in Hk as (_ & _ & [(_ & _ & _ & ->)|(_ & _ & ->)]); by rewrite Hw.
    + unfold worker_wakes in Hk. rewrite Hs in Hk. by case_match.
Qed.

Lemma my_todo_step m a : my_todo m = Some a → ∃ m', hstep m a m' ∧ m' ≠ m.
Proof.
  unfold my_todo. intros Ha.
  assert (∀ m', m_pc m' ≠ m_pc m → m' ≠ m) as Hne by by intros m' H ->.
  destruct (m_pc m) eqn:Hp; try (unfold main_send in Ha; rewrite Hp in Ha; simpl in Ha);
    simplify_eq; try (unfold hstep; cbn; unfold main_send; rewrite Hp, decide_True by done;
      eexists; split; [done|]; apply Hne; by cbn).
  - destruct (m_shutdown m) eqn:Hs; [|by apply worker_todo_step].
    injection Ha as <-. unfold hstep. cbn. rewrite Hp, Hs. eexists. split; [done|]. by apply Hne.
  - unfold hstep. cbn. rewrite Hp. eexists. split; [done|]. by apply Hne.
Qed.

Lemma my_todo_acts m a :
  my_todo m = Some a →
  (∃ g c, a = HSend g c) ∨ (∃ g, a = HTau g) ∨ (∃ ssec ec, a = HReturn ssec ec).
Proof.
  unfold my_todo, worker_todo, main_send. intros Ha.
  repeat case_match; simplify_eq/=; eauto.
Qed.

Lemma my_recv m cr : m_pc m = MSelect → my_next m (HRecv cr) = Some (on_request m cr).
Proof. simpl. by intros ->. Qed.

Lemma my_todo_none m :
  progress_ok m → my_todo m = None →
  m_pc m = MDone ∨ m_pc m = MSelect ∧ m_shutdown m = false ∧ m_workers m = [].
Proof.
  intros (_ & _ & Hd). unfold my_todo, main_send. destruct (m_pc m); try done; [|by left].
  destruct (m_shutdown m); [done|]. unfold worker_todo. intros Hw. right. split_and!; [done|done|].
  destruct (m_workers m) as [|[] ws]; try done. discriminate Hd. apply list_elem_of_here.
Qed.

(** ** What the service has still to do *)
Section Settling.
Context `{Win : Windows}.
Context (servicectlhandler : Z) (table : list SERVICE_TABLE_ENTRY).
Local Abbreviation stp := (step (Hand := MyHandler) servicectlhandler table).
Implicit Types s : sys (Hand := MyHandler).

Definition loop_work (l : loop) : nat := if l_out l then 6 else 0.

Definition run_work (p : run_pc) : nat :=
  match p with
  | RunWait => 102
  | RunSelect l => 3 + loop_work l
  | RunUpdate l _ => 4 + loop_work l
  | RunBreak _ => 2
  | RunSet => 1
  | RunDone => 0
  end.

Definition work_left s : nat :=
  run_work (pc s) + 7 * length (cbs s) + from_option handler_work 0%nat (hproc s)
  + match crash s with None => 1 | Some _ => 0 end.

(** The steps that are work: those of the goroutines, timers apart. *)
Definition works (l : label) : bool :=
  match l with
  | LStart | LStartPanic _ | LAccept _ _ | LDeliver _ | LChange _ _ | LUpdate _ _ | LExit _
  | LFinal _ | LSet | LReturn _ _ | LPanic _ => true
  | LTau g => negb (bool_decide (g = 0%nat))
  | _ => false
  end.
Definition is_control (l : label) : bool := match l with LControl _ _ _ _ => true | _ => false end.

Definition work_done (ls : list label) : nat := length (List.filter works ls).
Definition controls (ls : list label) : nat := length (List.filter is_control ls).

Definition serving s : Prop := wf s ∧ ∀ m, hproc s = Some m → progress_ok m.

Lemma reachable_serving o x t s : reachable stp (sys_init o x t) s → serving s.
Proof.
  intros [ls Hex]. split; [eapply reachable_wf; by exists ls|]. intros m Hm.
  pose proof (sys_handler _ _ _ _ _ _ _ Hex) as Hh. rewrite Hm in Hh. destruct Hh as (_ & args & Hr).
  revert Hr. apply (exec_invariant (handler_step (Hand := MyHandler)) (λ _ m, progress_ok m)).
  - split_and!; try done. by intros ?%not_elem_of_nil.
  - intros _ m1 a m2. apply progress_step.
Qed.

Lemma case_inch_work l e r :
  loop_ok l → case_inch l e = Some r → (run_work (pc_of r) < run_work (RunSelect l) + 7)%nat.
Proof.
  intros Hl E. destruct (case_inch_ok _ _ _ Hl E) as [Ho ->].
  destruct (errno e =? 0); simpl; unfold loop_work; rewrite ?Ho; simpl; lia.
Qed.

Lemma case_changes_work l c r :
  loop_ok l → (run_work (pc_of (case_changes l c r)) < run_work (RunUpdate l c))%nat.
Proof.
  intros Hl. pose proof (case_changes_ok l c r Hl) as H.
  destruct r; [destruct H as (l' & -> & _ & E & _)|rewrite H|destruct H as (l' & -> & _ & E & _)];
    simpl; unfold loop_work; rewrite ?E; lia.
Qed.

Lemma length_delete (l : list ctlEvent) n e : l !! n = Some e → length l = S (length (delete n l)).
Proof. intros H. rewrite length_delete; [|by eexists]. apply lookup_lt_Some in H. lia. Qed.

(** Every step keeps its part of the account. *)
Lemma step_work s l s' :
  serving s → stp s l s' →
  ((if works l then 1 else 0) + work_left s' ≤ work_left s + (if is_control l then 7 else 0))%nat.
Proof.
  intros [Hw Hp] Hs. unfold wf, work_left in *.
  inv Hs; repeat match goal with E : pc _ = _ |- _ => rewrite E in * end;
    repeat match goal with E : hproc _ = _ |- _ => rewrite E in * end;
    cbn [pc cbs hproc crash set_os set_sv set_pc set_hproc set_hret set_cbs set_smain set_ran set_crash
         works is_control from_option] in *;
    repeat match goal with E : crash _ = None |- _ => rewrite E in * end.
  all: rewrite ?length_app; try (simpl; lia).
  - change (@Execute MyHandler args) with (Execute_start args). rewrite start_work.
    cbn [run_work]. unfold loop_work. cbn [l_out loop_init]. lia.
  - match goal with E : pc s = RunWait |- _ => rewrite E end. lia.
  - match goal with E : case_inch _ _ = _ |- _ => pose proof (case_inch_work _ _ _ (proj1 Hw) E) end.
    match goal with E : cbs _ !! _ = _ |- _ => rewrite (length_delete _ _ _ E) end. lia.
  - match goal with E : case_outch _ = _ |- _ =>
      destruct (case_outch_ok _ _ _ (proj1 Hw) E) as (Ho & _ & _ & Ho' & _) end.
    match goal with E : hnext _ _ = _ |- _ => pose proof (recv_work _ _ _ E) end.
    cbn [run_work]. unfold loop_work. rewrite Ho, Ho'. lia.
  - match goal with E : hnext _ _ = _ |- _ => pose proof (send_work _ _ _ _ E) end. cbn [run_work]. lia.
  - pose proof (case_changes_work l0 c r (proj1 Hw)). lia.
  - match goal with E : hnext _ _ = _ |- _ => pose proof (return_work _ _ _ _ E) end. lia.
  - match goal with E : hnext _ _ = _ |- _ => destruct (tau_work _ _ _ (Hp _ eq_refl) E) as [[-> ->]|] end;
      [simpl; lia|]. case_bool_decide; simpl; lia.
  - match goal with E : hnext _ _ = _ |- _ => apply my_next_same in E as -> end. lia.
Qed.

Lemma serving_step s l s' : serving s → stp s l s' → serving s'.
Proof.
  intros [Hw Hp] Hs. split; [by eapply step_wf|]. intros m' Hm'. unfold wf in Hw.
  destruct (hproc s) as [m|] eqn:Hm.
  - assert (pc s ≠ RunWait) as Hne by (intros E; rewrite E in Hw; by destruct Hw).
    destruct (step_handler _ _ _ _ _ _ Hs Hm Hne) as (m1 & Hm1 & Ha). simplify_eq.
    specialize (Hp m eq_refl). destruct (act_of l) as [a|]; [by eapply progress_step|by subst].
  - inv Hs; simplify_eq/=; try congruence. split_and!; try done. by intros ?%not_elem_of_nil.
Qed.

Lemma filter_snoc {A} (f : A → bool) l x :
  length (List.filter f (l ++ [x])) = (length (List.filter f l) + if f x then 1 else 0)%nat.
Proof. rewrite List.filter_app, length_app. simpl. by destruct (f x). Qed.

Lemma work_bound s ls s' :
  serving s → exec stp s ls s' →
  serving s' ∧ (work_done ls + work_left s' ≤ work_left s + 7 * controls ls)%nat.
Proof.
  intros Hsv. apply (exec_invariant stp (λ ls s',
    serving s' ∧ (work_done ls + work_left s' ≤ work_left s + 7 * controls ls)%nat)).
  { split; [done|]. simpl. lia. }
  intros ls1 s1 l s2 [Hs1 Hb] Hst. split; [by eapply serving_step|].
  pose proof (step_work _ _ _ Hs1 Hst) as H. unfold work_done, controls in *. rewrite !filter_snoc.
  destruct (works l), (is_control l); lia.
Qed.

(** ** At rest

    The steps the service makes by itself, those apart that change nothing (ticks). *)
Definition internal (l : label) : bool :=
  match l with LTau _ => true | _ => works l end.
Definition busy_step s l s' : Prop := stp s l s' ∧ internal l = true ∧ s' ≠ s.
Definition settled s : Prop := ∀ l s', ¬ busy_step s l s'.

(** Waiting for the next control, with nothing pending. *)
Definition idle s : Prop :=
  ∃ l m, pc s = RunSelect l ∧ l_out l = false ∧ cbs s = [] ∧ hret s = NotReturned ∧
    hproc s = Some m ∧ m_pc m = MSelect ∧ m_workers m = [] ∧ m_shutdown m = false.

(** [Execute] has returned when its goroutine is at the send of the exit code or
    past it, and [run] is past its loop when it has received the code. *)
Definition returned_ok s : Prop :=
  match hret s with
  | NotReturned => ∀ m, hproc s = Some m → m_pc m ≠ MDone
  | Returning _ => ∃ m, hproc s = Some m ∧ m_pc m = MDone
  | Returned => over s
  end.

Lemma returned_step s l s' : wf s → returned_ok s → stp s l s' → returned_ok s'.
Proof.
  unfold returned_ok, wf. intros Hw Hr Hs.
  destruct (hret s) eqn:Hret.
  - inv Hs; cbn; rewrite ?Hret; try done; try (by left); try congruence;
      try (intros m' [= <-]; first [done|intros Hd;
        match goal with E : hproc s = _, H : hnext _ _ = _ |- _ =>
          destruct (returns_only _ _ _ H Hd) as [Hd'|(? & ? & ?)]; [by apply (Hr _ E)|done] end]).
    exists hs'. split; [done|]. match goal with H : hnext _ _ = _ |- _ => simpl in H end.
    destruct (m_pc hs); try done. by case_decide; simplify_eq/=.
  - destruct Hr as (m & Hm & Hd).
    inv Hs; cbn; rewrite ?Hret; try done; try congruence; eauto.
    1: match goal with E : pc s = _ |- _ => rewrite E in Hw; by destruct Hw end.
    all: match goal with H : hnext ?h _ = _ |- _ => replace h with m in H by congruence; eauto using done_stays end.
  - unfold over in *. inv Hs; cbn; rewrite ?Hret; try done; try congruence;
      match goal with E : pc s = _ |- _ => by rewrite E in * end.
Qed.

(** What holds of every state of the service. *)
Definition sound s : Prop := serving s ∧ returned_ok s.

Lemma sound_step s l s' : sound s → stp s l s' → sound s'.
Proof.
  intros [Hs Hr] Hst. split; [by eapply serving_step|]. eapply returned_step; [apply Hs|done..].
Qed.

Lemma reachable_sound o x t s : reachable stp (sys_init o x t) s → sound s.
Proof.
  apply reachable_invariant; [|apply sound_step]. by split.
Qed.

(** *** What keeps a service busy *)
Lemma args_of_ends ps : match args_of ps with Err _ => False | _ => True end.
Proof.
  induction ps as [|a ps IH]; [done|]. cbn [args_of]. unfold UTF16ToString_at. repeat case_match; done.
Qed.

Lemma run_start_ends x σ : match (run_start x σ).1 with Err _ => False | _ => True end.
Proof.
  unfold run_start, bind, ignore. destruct (Wait _ σ) as [[|e|p] σ1]; cbn; try done.
  all: unfold run_args; pose proof (args_of_ends) as Ha.
  all: repeat case_match; simplify_eq/=; try done.
  all: match goal with H : args_of ?l = Err _ |- _ => specialize (Ha l); by rewrite H in Ha end.
Qed.

(** A step the service can take by itself. *)
Definition todo_select s (l : loop) (m : myservice) : option label :=
  match my_todo m with
  | Some (HSend g c) => Some (LChange g c)
  | Some (HTau g) => Some (LTau g)
  | Some (HReturn ssec ec) => Some (LReturn ssec ec)
  | Some _ => None
  | None =>
    match hret s with
    | Returning ec => Some (LExit ec)
    | _ =>
      match case_outch l, cbs s with
      | Some (cr, _), _ => Some (LDeliver cr)
      | None, e :: _ => Some (LAccept 0 e)
      | None, [] => None
      end
    end
  end.

Definition todo s : option label :=
  match pc s with
  | RunWait =>
      match (run_start (sv s) (os s)).1 with
      | Ret _ => Some LStart | Panic p => Some (LStartPanic p) | Err _ => None
      end
  | RunSelect l => hproc s ≫= todo_select s l
  | RunUpdate l c => Some (LUpdate c (updateStatus (sv s) c (l_ec l) (os s)).1)
  | RunBreak ec => Some (LFinal ec)
  | RunSet => Some LSet
  | RunDone => None
  end.

Lemma busy_pc s l s' : stp s l s' → internal l = true → pc s' ≠ pc s → busy_step s l s'.
Proof. intros Hst Hl Hne. split_and!; [done|done|]. by intros ->. Qed.

Lemma busy_hproc s l s' m m' :
  stp s l s' → internal l = true → hproc s = Some m → hproc s' = Some m' → m' ≠ m → busy_step s l s'.
Proof. intros Hst Hl Hm Hm' Hne. split_and!; [done|done|]. intros ->. congruence. Qed.

(** What [Execute] can do, the service can. *)
Lemma todo_handler s l m a lb :
  returned_ok s → crash s = None → pc s = RunSelect l → hproc s = Some m → my_todo m = Some a →
  todo_select s l m = Some lb → ∃ s', busy_step s lb s'.
Proof.
  intros Hr Hc Hp Hm Ha. unfold todo_select. rewrite Ha. destruct (my_todo_step _ _ Ha) as (m' & Hn & Hne).
  destruct a; intros [= <-].
  - eexists. eapply busy_pc; [by eapply step_change|done|by rewrite Hp].
  - assert (hret s = NotReturned) as Hret.
    { unfold returned_ok, over in Hr. rewrite Hp in Hr. destruct (hret s); [done| |done].
      destruct Hr as (m1 & ? & Hd). simplify_eq. unfold my_todo, main_send in Ha. by rewrite Hd in Ha. }
    eexists. by eapply busy_hproc; [by eapply step_return|..].
  - eexists. by eapply busy_hproc; [by eapply step_tau|..].
Qed.

Lemma returning_is_done s l m :
  returned_ok s → pc s = RunSelect l → hproc s = Some m → m_pc m = MDone → ∃ ec, hret s = Returning ec.
Proof.
  unfold returned_ok, over. intros Hr Hp Hm Hd. rewrite Hp in Hr. destruct (hret s); [by destruct (Hr m)|eauto|done].
Qed.

Lemma todo_busy s l : sound s → crash s = None → todo s = Some l → ∃ s', busy_step s l s'.
Proof.
  intros [[Hw Hpr] Hr] Hc. unfold todo, wf in *. destruct (pc s) as [|l0|l0 c|ec| |] eqn:Hp.
  - destruct (run_start (sv s) (os s)) as [[[x args]|e|p] σ] eqn:Er; intros [= <-]; eexists.
    + eapply busy_pc; [by eapply step_start|done|by rewrite Hp].
    + split_and!; [by eapply step_start_panic|done|]. intros H. apply (f_equal crash) in H.
      by rewrite Hc in H.
  - destruct Hw as [Hl [m Hm]]. rewrite Hm. simpl.
    destruct (my_todo m) as [a|] eqn:Ha; [by eapply todo_handler|].
    unfold todo_select. rewrite Ha.
    destruct (my_todo_none m (Hpr m Hm) Ha) as [Hd|(Hsel & _ & _)].
    + destruct (returning_is_done _ _ _ Hr Hp Hm Hd) as [ec Hret]. rewrite Hret. intros [= <-].
      eexists. eapply busy_pc; [by eapply step_exit|done|by rewrite Hp].
    + destruct (hret s) as [|ec|] eqn:Hret.
      3: { unfold returned_ok, over in Hr. by rewrite Hret, Hp in Hr. }
      2: { intros [= <-]. eexists. eapply busy_pc; [by eapply step_exit|done|by rewrite Hp]. }
      destruct (case_outch l0) as [[cr l1]|] eqn:Hco.
      * intros [= <-]. eexists. eapply busy_pc; [eapply step_deliver; try done; by rewrite (my_recv m)|done|].
        rewrite Hp. intros [= ->]. destruct (case_outch_ok _ _ _ Hl Hco) as (H & _ & _ & H' & _). congruence.
      * destruct (cbs s) as [|e k] eqn:Hcb; [done|]. intros [= <-].
        destruct (case_inch l0 e) as [r|] eqn:Hci.
        2: { unfold case_inch, case_outch in *. destruct Hl as [_ Hin]. rewrite Hin in Hci.
             by destruct (l_out l0). }
        eexists. split_and!; [eapply step_accept; [done|done|by rewrite Hcb|done]|done|].
        intros H. apply (f_equal (length ∘ cbs)) in H. simpl in H. rewrite Hcb in H. simpl in H. lia.
  - destruct (updateStatus (sv s) c (l_ec l0) (os s)) as [r σ] eqn:Eu. intros [= <-]. eexists.
    eapply busy_pc; [by eapply step_update|done|]. rewrite Hp. simpl. by destruct (case_changes _ _ _).
  - destruct (updateStatus (sv s) (status_of Stopped) ec (os s)) as [r σ] eqn:Eu. intros [= <-]. eexists.
    eapply busy_pc; [by eapply step_final|done|]. by rewrite Hp.
  - destruct (Set_ (cWaits (sv s)) (os s)) as [r σ] eqn:Eu. intros [= <-]. eexists.
    eapply busy_pc; [by eapply step_set|done|]. by rewrite Hp.
  - done.
Qed.

(** With nothing to do it waits for the next control, with nothing pending, or is over. *)
Lemma todo_none s : sound s → todo s = None → pc s = RunDone ∨ idle s.
Proof.
  intros [[Hw Hpr] Hr]. unfold todo, wf in *. destruct (pc s) as [|l| | | |] eqn:Hp; try done; [| |by left].
  { pose proof (run_start_ends (sv s) (os s)) as He. by destruct (run_start (sv s) (os s)).1. }
  destruct Hw as [[_ Hin] [m Hm]]. rewrite Hm. simpl. unfold todo_select.
  destruct (my_todo m) as [a|] eqn:Ha; [by destruct (my_todo_acts _ _ Ha) as [(? & ? & ->)|[[? ->]|(? & ? & ->)]]|].
  unfold returned_ok, over in Hr. rewrite Hp in Hr.
  destruct (hret s) eqn:Hret; [|done|done].
  destruct (my_todo_none m (Hpr m Hm) Ha) as [Hd|(Hsel & Hsh & Hwk)]; [by destruct (Hr m Hm)|].
  unfold case_outch. destruct (l_out l) eqn:Ho; [done|]. destruct (cbs s) eqn:Hcb; [|done]. intros _.
  right. exists l, m. by split_and!.
Qed.

Lemma settled_idle s : sound s → crash s = None → settled s → pc s = RunDone ∨ idle s.
Proof.
  intros Hso Hc Hs. destruct (todo s) as [l|] eqn:Ht; [|by apply todo_none].
  destruct (todo_busy _ _ Hso Hc Ht) as (s' & Hb). by destruct (Hs l s').
Qed.

(** ... and rest is what such a service is at. *)
Lemma idle_stays s lb s' : idle s → stp s lb s' → internal lb = true → s' = s.
Proof.
  intros (l & m & Hp & Hout & Hcb & Hret & Hm & Hsel & Hwk & Hsh) Hst Hl.
  inv Hst; try done; try congruence;
    repeat match goal with
    | E : hproc s = Some ?x |- _ => assert (x = m) as -> by congruence; clear E
    | E : pc s = RunSelect ?x |- _ => assert (x = l) as -> by congruence; clear E
    end; repeat match goal with E : hnext _ _ = _ |- _ => simpl in E end.
  - by rewrite Hcb, lookup_nil in *.
  - unfold case_outch in *. by rewrite Hout in *.
  - destruct g as [|[|g]]; [unfold main_send in *; by rewrite Hsel in *|done|by rewrite Hwk, lookup_nil in *].
  - by rewrite Hsel in *.
  - destruct g as [|[|g]]; [|by rewrite Hsel, Hsh in *|by rewrite Hwk, lookup_nil in *].
    rewrite Hsel in *. simplify_eq. destruct s. simpl in *. by subst.
  - by rewrite Hwk in *.
Qed.

Lemma idle_settled s : idle s → settled s.
Proof. intros Hi l s' (Hst & Hl & Hne). by apply Hne, (idle_stays s l s'). Qed.

(** A service that is over is at rest when its goroutines have ended. *)
Lemma over_settled s m :
  pc s = RunDone → hret s = Returned → hproc s = Some m → m_pc m = MDone → m_workers m = [] →
  settled s.
Proof.
  intros Hp Hret Hm Hd Hwk lb s' (Hst & Hl & _).
  inv Hst; try done; try congruence;
    repeat match goal with E : hproc s = Some ?x |- _ => assert (x = m) as -> by congruence; clear E end;
    repeat match goal with E : hnext _ _ = _ |- _ => simpl in E end.
  - destruct g as [|[|g]]; by rewrite ?Hd, ?Hwk, ?lookup_nil in *.
  - by rewrite Hwk in *.
Qed.

(** *** Nothing goes on for ever *)
Lemma busy_step_work s l s' : serving s → busy_step s l s' → (work_left s' < work_left s)%nat.
Proof.
  intros Hs (Hst & Hl & Hne). pose proof (step_work _ _ _ Hs Hst) as H.
  destruct l; simpl in Hl; try done; cbn [works is_control] in H; try lia.
  case_bool_decide as Hg; simpl in H; [|lia]. subst g. clear H.
  destruct Hs as [_ Hp]. inv Hst.
  match goal with Hn : hnext _ (HTau 0) = Some _, E : hproc s = _ |- _ =>
    unfold work_left; cbn [pc cbs hproc crash set_hproc]; rewrite E;
    destruct (tau_work _ _ _ (Hp _ E) Hn) as [[_ ->]|Hlt] end; [|cbn [from_option]; lia].
  exfalso. apply Hne. destruct s. simpl in *. by subst.
Qed.

Lemma busy_exec_work s ls s' :
  serving s → exec busy_step s ls s' → (length ls + work_left s' ≤ work_left s)%nat.
Proof.
  intros Hs Hex.
  apply (exec_invariant busy_step (λ ls s', serving s' ∧ (length ls + work_left s' ≤ work_left s)%nat)) in Hex;
    [apply Hex|done|].
  intros ls1 s1 l s2 [Hs1 Hb] Hst. split; [eapply serving_step; [done|apply Hst]|].
  pose proof (busy_step_work _ _ _ Hs1 Hst). rewrite length_app. simpl. lia.
Qed.

Lemma busy_exec s ls s' : exec busy_step s ls s' → exec stp s ls s'.
Proof. induction 1 as [|s ls s1 l s2 _ IH (Hs & _)]; eauto using exec. Qed.

Lemma start_left o x t : work_left (sys_init o x t) = 103%nat.
Proof. done. Qed.

(** Left to itself, it comes to rest. *)
Definition at_rest s : Prop := crash s ≠ None ∨ pc s = RunDone ∨ idle s.

Fixpoint work_off (n : nat) s : list label * sys :=
  match n, todo s with
  | S n, Some l =>
    match next servicectlhandler table s l with
    | Some s1 => let '(ls, s') := work_off n s1 in (l :: ls, s')
    | None => ([], s)
    end
  | _, _ => ([], s)
  end.

Lemma work_off_rests n s :
  sound s → (work_left s ≤ n)%nat →
  exec busy_step s (work_off n s).1 (work_off n s).2 ∧ at_rest (work_off n s).2.
Proof.
  revert s. induction n as [|n IH]; intros s Hso Hn.
  - split; [constructor|]. destruct (crash s) eqn:Hc; [by left; cbn; rewrite Hc|].
    unfold work_left in Hn. rewrite Hc in Hn. lia.
  - cbn [work_off]. destruct (crash s) as [p|] eqn:Hc.
    { assert (∀ l, next servicectlhandler table s l = None) as Hno by (intros l; unfold next; by rewrite Hc).
      destruct (todo s) as [l|]; rewrite ?Hno; (split; [constructor|]; left; cbn; by rewrite Hc). }
    destruct (todo s) as [l|] eqn:Ht.
    2: { split; [constructor|]. right. by apply todo_none. }
    destruct (todo_busy _ _ Hso Hc Ht) as (s1 & Hb). pose proof Hb as [Hst _].
    rewrite (step_complete _ _ _ _ _ Hst). pose proof (busy_step_work _ _ _ (proj1 Hso) Hb) as Hlt.
    destruct (IH s1) as [Hex Hrest]; [by eapply sound_step|lia|].
    destruct (work_off n s1) as [ls s']. split; [|done]. by eapply exec_cons.
Qed.

(** At rest there is nothing to do. *)
Lemma rest_todo s : at_rest s → crash s = None → todo s = None.
Proof.
  intros [Hr|[Hr|Hr]] Hc; [by rewrite Hc in Hr|unfold todo; by rewrite Hr|].
  destruct Hr as (l & m & Hp & Ho & Hk & Hret & Hm & Hsel & Hwk & Hsh).
  unfold todo, todo_select. rewrite Hp, Hm. simpl.
  unfold my_todo, worker_todo, case_outch. by rewrite Hsel, Hsh, Hwk, Hret, Ho, Hk.
Qed.

(** *** The end is coming

    From the moment Windows has called the control handler with a control that asks
    the service to end. *)
Definition ends_service (c : Z) : Prop := c = Stop ∨ c = Shutdown ∨ c = PreShutdown.
Definition fatal (e : ctlEvent) : Prop := errno e ≠ 0 ∨ ends_service (cmd e).

(** [Execute] is past its loop, or a goroutine has been started that will end it. *)
Definition leaving (m : myservice) : Prop :=
  m_workers m ≠ [] ∨ match m_pc m with MStopping _ | MReturn | MDone => True | _ => False end.

Definition coming_at (k : list ctlEvent) (p : run_pc) (h : option myservice) : Prop :=
  match p with
  | RunWait => Exists fatal k
  | RunSelect l | RunUpdate l _ =>
      Exists fatal k ∨ (l_out l = true ∧ ends_service (l_cmd l)) ∨ ∃ m, h = Some m ∧ leaving m
  | _ => True
  end.
Definition coming s : Prop := coming_at (cbs s) (pc s) (hproc s).

Lemma insert_not_nil (l : list worker_pc) i w : l ≠ [] → <[i:=w]> l ≠ [].
Proof. intros Hl E. apply Hl, length_zero_iff_nil. by rewrite <- (length_insert l i w), E. Qed.

Lemma leaving_step m a m' : leaving m → hstep m a m' → leaving m'.
Proof.
  intros Hl Hs. hstep_cases; unfold leaving in *; cbn; try done;
    try match goal with E : m_pc _ = _ |- _ => rewrite E in Hl end; try tauto;
    try (destruct Hl as [Hl|Hl]; [left; by apply insert_not_nil|by right]).
  - destruct (on_request_workers m cr) as (_ & _ & ->). left. destruct Hl as [Hl|[]].
    by destruct (m_workers m).
  - match goal with H : main_send _ = Some _ |- _ =>
      pose proof (main_send_pc _ _ _ H) as (-> & _); unfold main_send in H end.
    destruct Hl as [Hl|Hl]; [by left|]. destruct (m_pc m); simplify_eq/=; by right.
  - match goal with H : worker_wakes _ _ = inl _ |- _ =>
      apply worker_wakes_cases in H as (-> & _ & [(_ & _ & _ & ->)|(_ & _ & ->)]) end;
      (destruct Hl as [Hl|Hl]; [left; by apply insert_not_nil|by right]).
Qed.

Lemma recv_leaving m cr m' : hstep m (HRecv cr) m' → ends_service (Cmd cr) → leaving m'.
Proof.
  unfold hstep, my_next. destruct (m_pc m); try done. intros [= <-] Hc. unfold leaving, on_request.
  destruct Hc as [-> | [-> | ->]]; cbn; [by right|by right|left]. by destruct (m_workers m).
Qed.

(** The steps of the handler, and those of [run] that leave the rest alone. *)
Lemma coming_handler k p m a m' : hstep m a m' → coming_at k p (Some m) → coming_at k p (Some m').
Proof.
  intros Hs. unfold coming_at. pose proof (leaving_step m a m') as Hl.
  destruct p; try done; (intros [H|[H|(m1 & [= ->] & H)]]; [by left|by right; left|right; right; eauto]).
Qed.

Lemma coming_start k h : Exists fatal k → coming_at k (RunSelect loop_init) h.
Proof. by left. Qed.

Lemma coming_accept k n e l r h :
  loop_ok l → k !! n = Some e → case_inch l e = Some r →
  coming_at k (RunSelect l) h → coming_at (delete n k) (pc_of r) h.
Proof.
  intros Hl Hk Hr. destruct (case_inch_ok _ _ _ Hl Hr) as [Ho ->].
  destruct (Z.eqb_spec (errno e) 0) as [He|]; [|done]. simpl. rewrite Ho.
  intros [H|[[? _]|H]]; [|done|by right; right].
  rewrite (delete_Permutation _ _ _ Hk) in H. apply Exists_cons in H as [[?|H]|H]; [done|by right; left|by left].
Qed.

Lemma coming_deliver k l cr l' m m' :
  case_outch l = Some (cr, l') → hstep m (HRecv cr) m' →
  coming_at k (RunSelect l) (Some m) → coming_at k (RunSelect l') (Some m').
Proof.
  unfold case_outch. destruct (l_out l); [|done]. intros [= <- <-] Hs [H|[[_ H]|(m1 & [= <-] & H)]].
  - by left.
  - right; right. eexists. split; [done|]. by eapply recv_leaving.
  - right; right. eexists. split; [done|]. by eapply leaving_step.
Qed.

Lemma coming_changes k l c r h :
  loop_ok l → coming_at k (RunUpdate l c) h → coming_at k (pc_of (case_changes l c r)) h.
Proof.
  intros Hl. pose proof (case_changes_ok l c r Hl) as H.
  destruct r; [destruct H as (l' & -> & _ & E1 & E2 & _)|by rewrite H|
    destruct H as (l' & -> & _ & E1 & E2 & _)]; simpl; by rewrite E1, E2.
Qed.

Lemma coming_control k e p h : coming_at k p h → coming_at (k ++ [e]) p h.
Proof. unfold coming_at. destruct p; rewrite ?Exists_app; tauto. Qed.

Lemma coming_step s l s' : wf s → coming s → stp s l s' → coming s'.
Proof.
  unfold wf, coming. intros Hw Hd Hs.
  inv Hs; repeat match goal with E : pc _ = _ |- _ => rewrite E in * end;
    repeat match goal with E : hproc _ = _ |- _ => rewrite E in * end;
    cbn [pc cbs hproc set_os set_sv set_pc set_hproc set_hret set_cbs set_smain set_ran set_crash];
    try done; eauto using coming_handler, coming_control, coming_start, coming_deliver.
  - match goal with E : pc s = _ |- _ => by rewrite E end.
  - eapply coming_accept; by try apply Hw.
  - eapply coming_changes; [apply Hw|done].
Qed.

Lemma coming_exec s ls s' : wf s → coming s → exec stp s ls s' → coming s'.
Proof.
  intros Hw Hc Hex.
  apply (exec_invariant stp (λ _ s', wf s' ∧ coming s')) in Hex; [apply Hex|done|].
  intros _ s1 l s2 [Hw1 Hc1] Hs. split; [by eapply step_wf|by eapply coming_step].
Qed.

Lemma fatal_coming s e : e ∈ cbs s → fatal e → coming s.
Proof.
  intros Hin Hf. assert (Exists fatal (cbs s)) by (apply Exists_exists; eauto).
  unfold coming, coming_at. destruct (pc s); auto.
Qed.

Lemma coming_not_idle s : coming s → idle s → False.
Proof.
  intros Hc (l & m & Hp & Ho & Hk & _ & Hm & Hs & Hw & _). unfold coming in Hc.
  rewrite Hp, Hk, Hm in Hc. destruct Hc as [H|[[H _]|(m1 & [= <-] & [H|H])]]; [by inv H|congruence|done|by rewrite Hs in H].
Qed.

(** ** Properties *)

(** C15: the service has only so much to do: whatever the schedule, its goroutines
    take no more than 103 steps that change something, and seven more for every
    control that Windows has passed on; this counts the steps taken so far, but for the
    wake-ups from the sleep in the answer to Interrogate, and all those of any run of the
    service by itself from here on. *)
Theorem work_is_bounded o x t ls s ls' s' :
  exec stp (sys_init o x t) ls s → exec busy_step s ls' s' →
  (work_done ls + length ls' ≤ 103 + 7 * controls ls)%nat.
Proof.
  intros Hex Hb. assert (serving (sys_init o x t)) as H0 by by apply (reachable_serving o x t), reachable_refl.
  destruct (work_bound _ _ _ H0 Hex) as [Hs Hw].
  pose proof (busy_exec_work _ _ _ Hs Hb). change (work_left (sys_init o x t)) with 103%nat in Hw. lia.
Qed.

(** Stop means stop: from the moment the control handler has been called with a
    control that asks the service to end (stop, shut-down, pre-shutdown), or on
    the wrong thread, the service comes to rest only when [run] is done; what other
    controls arrive, and in which order things happen, does not matter. *)
Theorem stop_always_ends o x t s e ls s' :
  reachable stp (sys_init o x t) s → e ∈ cbs s → fatal e →
  exec stp s ls s' → settled s' → crash s' = None → pc s' = RunDone.
Proof.
  intros Hre Hin Hf Hex Hs Hc.
  assert (reachable stp (sys_init o x t) s') as Hre'.
  { destruct Hre as [ls0 H0]. exists (ls0 ++ ls). by eapply exec_app. }
  destruct (settled_idle s' (reachable_sound _ _ _ _ Hre') Hc Hs) as [|Hi]; [done|].
  exfalso. eapply coming_not_idle; [|exact Hi]. eapply coming_exec; [|by eapply fatal_coming|done].
  by eapply reachable_wf.
Qed.

(** The service always can come to rest: from every state it reaches there is a
    way, of no more steps than [work_left] says, for its goroutines alone to where it
    is over or waits for the next control with nothing pending (or a goroutine of the
    handler has panicked); [work_off] finds it. *)
Theorem service_comes_to_rest o x t s :
  reachable stp (sys_init o x t) s →
  let '(ls, s') := work_off (work_left s) s in
  exec busy_step s ls s' ∧ (length ls ≤ work_left s)%nat ∧ at_rest s'.
Proof.
  intros Hre%reachable_sound. destruct (work_off_rests (work_left s) s Hre) as [Hex Hr]; [done|].
  destruct (work_off (work_left s) s) as [ls s']. pose proof (busy_exec_work _ _ _ (proj1 Hre) Hex).
  split_and!; [done|simpl in *; lia|done].
Qed.

End Settling.

(** ** On the run of ExampleRuns *)
#[local] Existing Instance DemoWindows.

(** The executor, restricted to steps that are work. *)
Definition busy_next (s : sys (Win := DemoWindows) (Hand := MyHandler)) (l : label) :
    option (sys (Win := DemoWindows) (Hand := MyHandler)) :=
  match demo_next s l with
  | Some s' => if internal l && (work_left s' <? work_left s)%nat then Some s' else None
  | None => None
  end.

Lemma busy_next_sound s l s' : busy_next s l = Some s' → busy_step 4096 demo_table s l s'.
Proof.
  unfold busy_next. destruct (demo_next s l) as [s1|] eqn:E; [|done].
  destruct (internal l) eqn:Hl; [|done]. destruct (Nat.ltb_spec (work_left s1) (work_left s)); [|done].
  intros [= <-]. split_and!; [by apply step_sound|done|]. intros ->. lia.
Qed.

(** What is left to do once the control [Stop] has arrived. *)
Definition stop_work : list label :=
  drop 1 (control Stop running_status) ++ demo_stop ++ [LFinal no_error; LSet].
Definition demo_stopping : sys := after demo_init demo_told.
Definition demo_rest : sys (Win := DemoWindows) (Hand := MyHandler) :=
  default demo_stopping (run_schedule busy_next demo_stopping stop_work).

Lemma stop_work_exec : exec (busy_step 4096 demo_table) demo_stopping stop_work demo_rest.
Proof.
  apply (run_schedule_exec _ busy_next); [intros ???; apply busy_next_sound|].
  apply succeeds_default. by vm_compute.
Qed.

(** 5 steps until the service is running, 8 more for the control: 13 of 110. *)
Lemma work_is_bounded_witness :
  (work_done demo_told, controls demo_told, length stop_work) = (5, 1, 8)%nat ∧
  (work_done demo_told + length stop_work ≤ 103 + 7 * controls demo_told)%nat.
Proof.
  split; [by vm_compute|]. exact (work_is_bounded 4096 demo_table demo_os demo_sv demo_tid demo_told demo_stopping stop_work
    demo_rest demo_told_exec stop_work_exec).
Defined.

Lemma demo_rest_settled : settled 4096 demo_table demo_rest.
Proof.
  assert (∃ m, hproc demo_rest = Some m ∧ m_pc m = MDone ∧ m_workers m = []) as (m & Hm & Hd & Hw)
    by (eexists; split; [vm_compute; reflexivity|split; reflexivity]).
  apply (over_settled _ _ _ m); try done; by vm_compute.
Qed.

(** The control has arrived, [run] has not accepted it yet. *)
Lemma stop_always_ends_witness :
  stop_event ∈ cbs demo_stopping ∧ pc demo_rest = RunDone.
Proof.
  assert (stop_event ∈ cbs demo_stopping) as Hin
    by (apply (list_elem_of_lookup_2 _ 0); by vm_compute).
  split; [exact Hin|].
  refine (stop_always_ends 4096 demo_table demo_os demo_sv demo_tid demo_stopping stop_event stop_work
            demo_rest _ Hin _ _ demo_rest_settled _).
  - exists demo_told. exact demo_told_exec.
  - right. by left.
  - apply (busy_exec _ _ _ _ _ stop_work_exec).
  - by vm_compute.
Defined.

Lemma service_comes_to_rest_witness :
  pc demo_rest = RunDone ∧
  let '(ls, s') := work_off 4096 demo_table (work_left demo_stopping) demo_stopping in
  exec (busy_step 4096 demo_table) demo_stopping ls s' ∧ (length ls ≤ work_left demo_stopping)%nat ∧
  at_rest s'.
Proof.
  split; [by vm_compute|].
  apply (service_comes_to_rest 4096 demo_table demo_os demo_sv demo_tid demo_stopping).
  exists demo_told. exact demo_told_exec.
Defined.
