(* ===== verification/Answers.v ===== *)
(** * Every control is answered

    What a client sees of the example service at rest: each control that Windows has
    passed on has been handed to the handler, and what Windows has been told is the
    greeting and then the answers to them, nothing else. This puts together the
    conversation of [Execute] (ExampleService), the statuses on their way
    (SvcProtocol) and the rest the service comes to (Settling). *)
From Stdlib Require Import ZArith Lia.
From stdpp Require Import base option list strings.
From S2P Require Import Prelude GoText Go WinConst Machine GoSyscall Script Winapi.
From S2P Require Import SvcEvent SvcService SvcAsm SvcSystem SvcProtocol ExampleService ExampleRuns.
From S2P Require Import Settling.

Local Open Scope Z_scope.

(** ** The handler: who sends what *)

Lemma workers_stay m a m' : hstep m a m' → m_workers m' = [] → m_workers m = [].
Proof.
  intros Hs. destruct (m_workers m) as [|w ws] eqn:E; [done|]. intros E'. exfalso.
  assert (leaving m) as Hl by (left; by rewrite E).
  enough (length (m_workers m) ≤ length (m_workers m'))%nat by (rewrite E, E' in *; simpl in *; lia).
  hstep_cases; rewrite ?length_insert; try done.
  - destruct (on_request_workers m cr) as (_ & _ & ->). rewrite length_app. lia.
  - match goal with H : main_send _ = Some _ |- _ => by rewrite (proj1 (main_send_pc _ _ _ H)) end.
  - match goal with H : worker_wakes _ _ = inl _ |- _ =>
      apply worker_wakes_cases in H as (_ & _ & [(_ & _ & _ & ->)|(_ & _ & ->)]) end;
      by rewrite length_insert.
Qed.

(** Without pre-shutdown goroutines all statuses are [Execute]'s own. *)
Lemma only_main_sends args acts m : hrun args acts m → m_workers m = [] → sends acts = sent_by 0 acts.
Proof.
  apply (exec_invariant hstep (λ acts m, m_workers m = [] → sends acts = sent_by 0 acts)); [done|].
  clear acts m. intros acts m a m' IH Hs Hw. pose proof (workers_stay _ _ _ Hs Hw) as Hw0.
  rewrite sends_app, sent_by_snoc, IH by done. f_equal.
  destruct a as [|[|[|i]] c| | |]; try done. unfold hstep in Hs. simpl in Hs. by rewrite Hw0 in Hs.
Qed.

(** ** The statuses and the controls on their way *)
Section Answers.
Context `{Win : Windows}.
Context (servicectlhandler : Z) (table : list SERVICE_TABLE_ENTRY).
Local Abbreviation stp := (step (Hand := MyHandler) servicectlhandler table).
Implicit Types s : sys (Hand := MyHandler).

(** The controls Windows has called the control handler with. *)
Definition called (ls : list label) : list Z :=
  omap (λ l, match l with LControl c _ _ _ => Some c | _ => None end) ls.

(** [run] has not left its loop. *)
Definition in_loop (p : run_pc) : Prop :=
  match p with RunWait | RunSelect _ | RunUpdate _ _ => True | _ => False end.

(** The controls passed on are accepted or waiting. *)
Definition on_the_way (ls : list label) s : Prop :=
  in_loop (pc s) → called ls ≡ₚ accepted (observations observe ls) ++ (cmd <$> cbs s).

Lemma accepted_app os os' : accepted (os ++ os') = accepted os ++ accepted os'.
Proof. apply omap_app. Qed.
Lemma called_snoc ls l : called (ls ++ [l]) = called ls ++ called [l].
Proof. apply omap_app. Qed.
Lemma loop_before s l s' : stp s l s' → in_loop (pc s') → in_loop (pc s).
Proof. intros Hs. inv Hs; by repeat match goal with E : pc _ = _ |- _ => rewrite E in * end. Qed.

Lemma calls_step s l s' :
  wf s → stp s l s' → in_loop (pc s') →
  called [l] ++ (cmd <$> cbs s)
  ≡ₚ accepted (observations observe [l]) ++ (cmd <$> cbs s').
Proof.
  unfold wf. intros Hw Hs.
  inv Hs; repeat match goal with E : pc _ = _ |- _ => rewrite E in * end; try done; cbn; try done.
  - match goal with E : ctlHandler _ _ _ _ _ _ = _ |- _ => apply ctlHandler_cmd in E as <- end.
    rewrite fmap_app. cbn. by rewrite (Permutation_app_comm _ [cmd e]).
  - match goal with E : case_inch _ _ = _ |- _ => destruct (case_inch_ok _ _ _ (proj1 Hw) E) as [_ ->] end.
    destruct (errno e =? 0); [|done]. intros _.
    match goal with E : cbs s !! _ = _ |- _ => rewrite (delete_Permutation _ _ _ E) at 1 end. done.
  - destruct r; done.
Qed.

Lemma on_the_way_step ls s l s' : wf s → on_the_way ls s → stp s l s' → on_the_way (ls ++ [l]) s'.
Proof.
  unfold on_the_way. intros Hw Hi Hs Hin. pose proof (Hi (loop_before _ _ _ Hs Hin)) as Hc.
  pose proof (calls_step _ _ _ Hw Hs Hin) as Hcall.
  rewrite called_snoc, observations_app, accepted_app.
  by rewrite Hc, <- !app_assoc, <- Hcall, (Permutation_app_comm _ (called [l])).
Qed.

Lemma on_the_way_exec o x t ls s : exec stp (sys_init o x t) ls s → on_the_way ls s.
Proof.
  intros Hex.
  apply (exec_invariant stp (λ ls s, wf s ∧ on_the_way ls s)) in Hex; [apply Hex|by split; [|intros _]|].
  intros ls1 s1 l s2 [Hw Hi] Hs. split; [by eapply step_wf|by eapply on_the_way_step].
Qed.

(** What the handler receives is what is delivered to it. *)
Lemma received_delivered ls : received (acts ls) = delivered (observations observe ls).
Proof.
  induction ls as [|l ls IH]; [done|].
  change (l :: ls) with ([l] ++ ls). unfold acts. rewrite omap_app.
  rewrite observations_app. unfold received, delivered in *. rewrite !omap_app.
  unfold acts in IH. rewrite IH. f_equal. destruct l as [| | | | | | |n e| | |c o| | | | | |]; try done; cbn; [by destruct (errno e =? 0)|by destruct o].
Qed.

(** C13: every control is answered: when the service has come to rest and is not over,
    every control that Windows has passed on has been handed to the handler, once,
    and with a status handle Windows has been told exactly the greeting
    ([StartPending], [Running]) and then the answers to the requests, in the order
    in which they were handed over. *)
Theorem controls_are_answered o x t ls s :
  exec stp (sys_init o x t) ls s → settled servicectlhandler table s →
  crash s = None → pc s ≠ RunDone → h (sv s) ≠ 0 →
  called ls ≡ₚ Cmd <$> delivered (observations observe ls) ∧
  reports (st_trace (os s)) = reports (st_trace o) ++
    (as_told <$> greeting ++ (delivered (observations observe ls) ≫= replies)).
Proof.
  intros Hex Hset Hc Hp Hh.
  assert (reachable stp (sys_init o x t) s) as Hre by by exists ls.
  destruct (settled_idle _ _ s (reachable_sound _ _ _ _ _ _ Hre) Hc Hset) as [|Hi]; [done|].
  destruct Hi as (l & m & Hpc & Hout & Hcb & _ & Hm & Hsel & Hwk & _).
  assert (in_loop (pc s)) as Hin by by rewrite Hpc.
  pose proof (on_the_way_exec _ _ _ _ _ Hex Hin) as Hcalled.
  destruct (ledger_exec _ _ _ _ _ _ _ Hex) as [[_ Hfin] Ht].
  pose proof (sys_handler _ _ _ _ _ _ _ Hex) as Hr. rewrite Hm in Hr. destruct Hr as (_ & args & Hr).
  destruct (history_spec _ _ _ _ _ _ _ Hex) as [_ Hsp].
  rewrite Hpc, Hcb in *. unfold end_told in Ht. rewrite Hfin in Ht. cbn in Hcalled, Ht. rewrite app_nil_r in *. split.
  - rewrite Hcalled. destruct (spec_fifo _ _ Hsp) as (k & Hk & _ & Hkp).
    unfold abs in Hkp. rewrite Hpc, Hout in Hkp. subst k. by rewrite Hk, app_nil_r.
  - destruct (told_ok_exec _ _ _ _ _ _ _ Hex) as [_ Htold]. rewrite Hpc in Htold.
    rewrite Htold, Ht by done. f_equal. rewrite (only_main_sends args _ m Hr Hwk).
    rewrite <- received_delivered, app_nil_r. f_equal. by apply (conversation_at_select args _ m).
Qed.
End Answers.

(** ** On the run of ExampleRuns

    The service is started, interrogated, and has answered. *)
#[local] Existing Instance DemoWindows.

Definition demo_answered : list label :=
  demo_start ++ control Interrogate running_status ++ says 0 running_status ++ [LTau 0]
  ++ says 0 running_status.
Definition demo_idle : sys := after demo_init demo_answered.

Lemma demo_answered_exec : exec demo_step demo_init demo_answered demo_idle.
Proof. apply after_exec. by vm_compute. Qed.

Lemma demo_idle_settled : settled 4096 demo_table demo_idle.
Proof.
  apply idle_settled. do 2 eexists. split; [vm_compute; reflexivity|].
  split; [reflexivity|]. split; [by vm_compute|]. split; [by vm_compute|].
  split; [vm_compute; reflexivity|]. by split_and!.
Qed.

Lemma controls_are_answered_witness :
  called demo_answered = [Interrogate] ∧
  called demo_answered ≡ₚ Cmd <$> delivered (observations observe demo_answered) ∧
  reports (st_trace (os demo_idle)) = reports (st_trace demo_os) ++
    (as_told <$> greeting ++ (delivered (observations observe demo_answered) ≫= replies)).
Proof.
  split; [by vm_compute|].
  refine (controls_are_answered 4096 demo_table demo_os demo_sv demo_tid demo_answered demo_idle
            demo_answered_exec demo_idle_settled _ _ _); by vm_compute.
Defined.
