(* ===== verification/Fairness.v ===== *)
(** * What happens in the end

    An infinite run of a step relation is a sequence of states, one for every moment;
    at a moment a step is taken or nothing happens. The theorems are about every run of
    the example service under [svc.Run] that does not leave the service alone for
    ever: when some goroutine can do something, one of them does, sooner or later.
    Nothing else is assumed of the Go scheduler, of the choices of [select] and of
    Windows, and no goroutine need be treated better than another. *)
From Stdlib Require Import ZArith Lia.
From stdpp Require Import base option list strings.
From S2P Require Import Prelude GoText Go WinConst Machine GoSyscall Script Winapi.
From S2P Require Import SvcEvent SvcService SvcAsm SvcSystem SvcProtocol ExampleService ExampleRuns ExampleEnd Settling Answers.

Local Open Scope Z_scope.

(** ** Infinite runs *)
Section Runs.
Context {S L : Type} (step : S → L → S → Prop).
Implicit Types (σ : nat → S) (λs : nat → option L).

Definition infinite_run σ λs : Prop :=
  ∀ n, match λs n with Some l => step (σ n) l (σ (Datatypes.S n)) | None => σ (Datatypes.S n) = σ n end.

(** From some moment on. *)
Definition eventually_always (P : S → Prop) σ : Prop := ∃ n, ∀ m, (n ≤ m)%nat → P (σ m).

(** The steps of [k] moments, from moment [n] on. *)
Definition between λs (n k : nat) : list L := omap λs (seq n k).

Lemma between_S λs n k :
  between λs n (Datatypes.S k) = between λs n k ++ option_list (λs (n + k)%nat).
Proof. unfold between. rewrite seq_S, omap_app. cbn. by destruct (λs (n + k)%nat). Qed.

Lemma between_elem λs n k l : l ∈ between λs n k → ∃ m, λs m = Some l.
Proof. unfold between. intros (m & _ & Hm)%list_elem_of_omap. by exists m. Qed.

Lemma between_list (ls : list L) k : between (λ n, ls !! n) 0 k = take k ls.
Proof.
  induction k as [|k IH]; [done|]. rewrite between_S, IH. simpl.
  destruct (ls !! k) as [l|] eqn:E; simpl.
  - by rewrite (take_S_r _ _ _ E).
  - apply lookup_ge_None in E. by rewrite app_nil_r, !take_ge by lia.
Qed.

Lemma infinite_exec σ λs n k :
  infinite_run σ λs → exec step (σ n) (between λs n k) (σ (n + k)%nat).
Proof.
  intros Hr. induction k as [|k IH]; [rewrite Nat.add_0_r; constructor|].
  rewrite between_S, Nat.add_succ_r. specialize (Hr (n + k)%nat).
  destruct (λs (n + k)%nat) as [l|].
  - by eapply exec_snoc.
  - cbn. by rewrite app_nil_r, Hr.
Qed.

Lemma infinite_reachable σ λs n : infinite_run σ λs → reachable step (σ 0%nat) (σ n).
Proof. intros Hr. exists (between λs 0 n). exact (infinite_exec σ λs 0 n Hr). Qed.

(** A property that the steps taken keep, once it holds, holds for ever. *)
Lemma for_ever (P : S → Prop) σ λs n :
  infinite_run σ λs → P (σ n) →
  (∀ m l, (n ≤ m)%nat → λs m = Some l → P (σ m) → step (σ m) l (σ (Datatypes.S m)) → P (σ (Datatypes.S m))) →
  ∀ m, (n ≤ m)%nat → P (σ m).
Proof.
  intros Hr Hn Hs m Hm. induction Hm as [|m Hm IH]; [done|].
  pose proof (Hr m) as H. destruct (λs m) as [l|] eqn:E; [by eapply Hs|by rewrite H].
Qed.

(** A measure that no step raises and that is lowered again and again, as long as there
    is something [undone], reaches a moment when there is nothing. *)
Lemma runs_out (measure : S → nat) (undone : S → Prop) σ n :
  (∀ s, undone s ∨ ¬ undone s) →
  (∀ m, (n ≤ m)%nat → (measure (σ (Datatypes.S m)) ≤ measure (σ m))%nat) →
  (∀ m, (n ≤ m)%nat → undone (σ m) →
     ∃ k, (m ≤ k)%nat ∧ (measure (σ (Datatypes.S k)) < measure (σ k))%nat) →
  ∃ m, (n ≤ m)%nat ∧ ¬ undone (σ m).
Proof.
  intros Hdec Hmono Hlower.
  assert (∀ m k, (n ≤ m)%nat → (m ≤ k)%nat → (measure (σ k) ≤ measure (σ m))%nat) as Hle.
  { intros m k Hm Hk. induction Hk as [|k Hk IH]; [done|]. pose proof (Hmono k). lia. }
  assert (∀ x m, measure (σ m) = x → (n ≤ m)%nat → ∃ k, (n ≤ k)%nat ∧ ¬ undone (σ k)) as H.
  { intros x. induction (lt_wf x) as [x _ IH]. intros m <- Hm.
    destruct (Hdec (σ m)) as [Hu|Hu]; [|eauto].
    destruct (Hlower m Hm Hu) as (k & Hk & Hlt). pose proof (Hle m k Hm Hk).
    eapply (IH (measure (σ (Datatypes.S k)))); [lia|done|lia]. }
  by apply (H (measure (σ n)) n).
Qed.

(** A schedule that can be run, and then nothing more. *)
Definition play (next : S → L → option S) (s : S) (ls : list L) (n : nat) : S :=
  default s (run_schedule next s (take n ls)).

Lemma run_schedule_app next (s : S) (ls ls' : list L) :
  run_schedule next s (ls ++ ls') = run_schedule next s ls ≫= λ s', run_schedule next s' ls'.
Proof. revert s. induction ls as [|l ls IH]; intros s; [done|]. simpl. destruct (next s l); [apply IH|done]. Qed.

Lemma play_step next (s : S) (ls : list L) n l :
  succeeds (run_schedule next s ls) = true → ls !! n = Some l →
  next (play next s ls n) l = Some (play next s ls (Datatypes.S n)).
Proof.
  intros Hok Hl. unfold play. rewrite (take_S_r _ _ _ Hl).
  rewrite <- (take_drop_middle _ _ _ Hl), run_schedule_app in Hok.
  rewrite run_schedule_app. destruct (run_schedule next s (take n ls)) as [s1|]; [|done].
  simpl in *. by destruct (next s1 l).
Qed.

Lemma play_over next (s : S) (ls : list L) n :
  (length ls ≤ n)%nat → play next s ls n = default s (run_schedule next s ls).
Proof. intros Hn. unfold play. by rewrite take_ge. Qed.

Lemma play_run next (s : S) (ls : list L) :
  (∀ s l s', next s l = Some s' → step s l s') → succeeds (run_schedule next s ls) = true →
  infinite_run (play next s ls) (λ n, ls !! n).
Proof.
  intros Hnext Hok n. destruct (ls !! n) as [l|] eqn:Hl.
  - by apply Hnext, play_step.
  - apply lookup_ge_None in Hl. by rewrite !play_over by lia.
Qed.

End Runs.

(** ** The service *)
Section Fair.
Context `{Win : Windows} (servicectlhandler : Z) (table : list SERVICE_TABLE_ENTRY).
Local Abbreviation sys := (sys (Win := Win) (Hand := MyHandler)).
Local Abbreviation stp := (step (Win := Win) (Hand := MyHandler) servicectlhandler table).
Local Abbreviation busy := (busy_step servicectlhandler table).
Implicit Types (σ : nat → sys) (λs : nat → option (label (Win := Win))).

(** When a goroutine of the service can do something, one of them sooner or later does. *)
Definition keeps_going σ λs : Prop :=
  ∀ n l s', busy (σ n) l s' →
  ∃ m l', (n ≤ m)%nat ∧ λs m = Some l' ∧ busy (σ m) l' (σ (S m)).

(** Windows passes on no control from moment [n] on. *)
Definition no_controls_from (n : nat) λs : Prop :=
  ∀ m l, (n ≤ m)%nat → λs m = Some l → is_control l = false.

Definition undone (s : sys) : Prop := crash s = None ∧ todo s ≠ None.

Lemma undone_dec s : undone s ∨ ¬ undone s.
Proof.
  unfold undone. destruct (crash s); [by right; intros []|]. destruct (todo s); [by left|].
  right. by intros [_ ?].
Qed.

Lemma undone_busy s : sound s → undone s → ∃ l s', busy s l s'.
Proof.
  intros Hs [Hc Ht]. destruct (todo s) as [l|] eqn:E; [|done].
  destruct (todo_busy servicectlhandler table _ _ Hs Hc E) as [s' Hb]. eauto.
Qed.

Lemma done_at_rest s : sound s → ¬ undone s → at_rest s.
Proof.
  intros Hs Hu. unfold at_rest. destruct (crash s) eqn:Hc; [by left|]. right.
  apply todo_none; [done|]. destruct (todo s) eqn:Ht; [|done].
  destruct Hu. split; [done|by rewrite Ht].
Qed.

(** Only a control ends the rest. *)
Lemma idle_step s l s' : idle s → stp s l s' → is_control l = false → idle s'.
Proof.
  intros Hi Hs Hl. destruct (internal l) eqn:Hin.
  - by rewrite (idle_stays servicectlhandler table s l s' Hi Hs Hin).
  - destruct Hi as (l0 & m & Hi). inv Hs; try done; by exists l0, m.
Qed.

Lemma rest_step s l s' : at_rest s → stp s l s' → is_control l = false → at_rest s'.
Proof.
  intros [Hr|[Hr|Hr]] Hs Hl.
  - left. inv Hs; done || congruence.
  - right; left. inv Hs; try done; congruence.
  - right; right. by eapply idle_step.
Qed.

(** From the last control on the service comes to rest, and stays there. *)
Lemma eventually_rests o x t σ λs n :
  σ 0%nat = sys_init o x t → infinite_run stp σ λs → keeps_going σ λs → no_controls_from n λs →
  ∃ m, (n ≤ m)%nat ∧ ∀ k, (m ≤ k)%nat → at_rest (σ k).
Proof.
  intros H0 Hr Hk Hn.
  assert (∀ m, reachable stp (sys_init o x t) (σ m)) as Hre
    by (intros m; rewrite <- H0; by eapply infinite_reachable).
  assert (∀ m, sound (σ m)) as Hso by (intros m; by eapply reachable_sound).
  destruct (runs_out work_left undone σ n undone_dec) as (m & Hm & Hu).
  - intros m Hm. pose proof (Hr m) as Hs. destruct (λs m) as [l|] eqn:E; [|by rewrite Hs].
    pose proof (step_work servicectlhandler table _ _ _ (proj1 (Hso m)) Hs) as Hw.
    rewrite (Hn m l Hm E) in Hw. lia.
  - intros m Hm Hu. destruct (undone_busy _ (Hso m) Hu) as (l & s' & Hb).
    destruct (Hk m l s' Hb) as (k & l' & Hmk & _ & Hb'). exists k. split; [done|].
    by eapply busy_step_work; [apply Hso|].
  - exists m. split; [done|]. apply (for_ever stp at_rest σ λs m Hr); [by apply done_at_rest|].
    intros k l Hmk Hl Hat Hs. eapply rest_step; [done..|]. eapply Hn; [|done]. lia.
Qed.

(** What [run] has told Windows last when it is done. *)
Lemma over_is_told o x t ls s :
  exec stp (sys_init o x t) ls s → pc s = RunDone → h (sv s) ≠ 0 →
  ∃ ec, last (reports (st_trace (os s))) = Some (service_status (status_of Stopped) ec).
Proof.
  intros Hex Hp Hh. destruct (told_ok_exec _ _ _ _ _ _ _ Hex) as [_ Ht].
  destruct (final_last_exec _ _ _ _ _ _ _ Hex) as [_ Hf]. rewrite Hp in *.
  destruct Hf as (ec & _ & Hl). exists ec. by rewrite (Ht Hh), last_app, Hl.
Qed.

(** What can end the process before its time: [run] panics on the arguments, or there
    is a second pre-shutdown request. *)
Lemma crash_cause o x t ls s :
  exec stp (sys_init o x t) ls s → crash s ≠ None →
  (∃ p, LStartPanic p ∈ ls) ∨ (2 ≤ preshutdowns (acts ls))%nat.
Proof.
  intros Hex. enough (exec stp (sys_init o x t) ls s ∧ (crash s ≠ None →
    (∃ p, LStartPanic p ∈ ls) ∨ (2 ≤ preshutdowns (acts ls))%nat)) as [_ H] by exact H.
  apply (exec_invariant stp (λ ls s, exec stp (sys_init o x t) ls s ∧ (crash s ≠ None →
    (∃ p, LStartPanic p ∈ ls) ∨ (2 ≤ preshutdowns (acts ls))%nat))) in Hex; [done|by split; [constructor|]|].
  clear ls s Hex. intros ls s l s' [Hex IH] Hs. split; [by eapply exec_snoc|]. intros Hc.
  pose proof (sys_handler _ _ _ _ _ _ _ Hex) as Hh.
  inv Hs; try (cbn in Hc; congruence).
  - left. exists p. rewrite elem_of_app, list_elem_of_singleton. by right.
  - right. match goal with E : hproc s = _ |- _ => rewrite E in Hh end. destruct Hh as (_ & args & Hr).
    match goal with E : hnext _ _ = Some ?h |- _ => pose proof (panic_takes_two args (acts ls) _ _ Hr (mk_is_Some _ _ E)) as H2 end.
    rewrite acts_snoc. change (acts [LPanic p]) with [HPanic p]. rewrite preshutdowns_snoc. lia.
Qed.

(** A service at rest is over or idle, or its process has ended before its time, by
    one of these two causes. *)
Lemma rest_cause o x t σ λs k :
  σ 0%nat = sys_init o x t → infinite_run stp σ λs → at_rest (σ k) →
  pc (σ k) = RunDone ∨ idle (σ k) ∨
  crash (σ k) ≠ None ∧ ((∃ j p, λs j = Some (LStartPanic p)) ∨
                        (2 ≤ preshutdowns (acts (between λs 0 k)))%nat).
Proof.
  intros H0 Hr [Hc|[Hd|Hi]]; [|by left|by right; left].
  pose proof (infinite_exec stp σ λs 0 k Hr) as Hex. rewrite H0 in Hex.
  right; right. split; [done|].
  destruct (crash_cause o x t _ _ Hex Hc) as [[p Hp]|H2]; [left|by right].
  apply between_elem in Hp as [j Hj]. by exists j, p.
Qed.

(** C16: the service comes to rest. Assume that it is not left alone for ever
    ([keeps_going]: when it could take a step of its own, some step of its own is taken
    later) and that from some moment on Windows passes on no more controls. Then, from
    some moment on, [run] is done, or the service is idle with nothing pending, or its
    process has ended in a panic; and the panic is that of [run] on the arguments it was
    started with, or the handler has been handed two pre-shutdowns. *)
Theorem service_settles_down o x t σ λs n :
  σ 0%nat = sys_init o x t → infinite_run stp σ λs → keeps_going σ λs → no_controls_from n λs →
  ∃ m, ∀ k, (m ≤ k)%nat →
    pc (σ k) = RunDone ∨ idle (σ k) ∨
    crash (σ k) ≠ None ∧ ((∃ j p, λs j = Some (LStartPanic p)) ∨
                          (2 ≤ preshutdowns (acts (between λs 0 k)))%nat).
Proof.
  intros H0 Hr Hk Hn. destruct (eventually_rests o x t σ λs n H0 Hr Hk Hn) as (m & _ & Hm).
  exists m. intros k Hmk. eapply rest_cause; eauto.
Qed.

(** C12: a service asked to stop is stopped in the end. Assume that the service is not
    left alone for ever ([keeps_going]: when it could take a step of its own, some step of
    its own is taken later), that from some moment on Windows passes on no more controls,
    that [run] does not panic on the arguments it was started with, and that the handler
    is handed at most one pre-shutdown. When the control handler has been called with a
    control that asks the service to end, or on the wrong thread, then from some moment
    on [run] is done and, if its status handle is not 0, the last that Windows has been
    told is that the service has stopped. *)
Theorem stop_is_final o x t σ λs n i e :
  σ 0%nat = sys_init o x t → infinite_run stp σ λs → keeps_going σ λs → no_controls_from n λs →
  e ∈ cbs (σ i) → fatal e →
  (∀ k p, λs k ≠ Some (LStartPanic p)) → (∀ k, (preshutdowns (acts (between λs 0 k)) ≤ 1)%nat) →
  eventually_always (λ s, pc s = RunDone ∧ (h (sv s) ≠ 0 →
    ∃ ec, last (reports (st_trace (os s))) = Some (service_status (status_of Stopped) ec))) σ.
Proof.
  intros H0 Hr Hk Hn Hin Hf Hargs Hpre.
  destruct (eventually_rests o x t σ λs (max n i) H0 Hr Hk) as (m & Hm & Hrest).
  { intros k l Hle. apply Hn. lia. }
  exists m. intros k Hmk.
  destruct (rest_cause o x t σ λs k H0 Hr (Hrest k Hmk)) as [Hd|[Hi|[_ [(j & p & Hj)|H2]]]].
  - split; [done|]. intros Hh. pose proof (infinite_exec stp σ λs 0 k Hr) as Hex.
    rewrite H0 in Hex. by eapply over_is_told.
  - exfalso. pose proof (infinite_exec stp σ λs i (k - i) Hr) as Hex'.
    replace (i + (k - i))%nat with k in Hex' by lia.
    eapply (coming_not_idle (σ k)); [|done].
    eapply (coming_exec servicectlhandler table (σ i)); [|by eapply fatal_coming|exact Hex'].
    eapply reachable_wf. rewrite <- H0. by eapply infinite_reachable.
  - by destruct (Hargs j p).
  - specialize (Hpre k). lia.
Qed.
End Fair.

(** ** On the run of ExampleRuns

    The service is started, is told to stop, and stops; then nothing happens any more. *)
#[local] Existing Instance DemoWindows.

Definition whole_life : list label := demo_told ++ stop_work.
Definition demo_life : nat → sys (Win := DemoWindows) (Hand := MyHandler) := play demo_next demo_init whole_life.

Lemma demo_life_runs : infinite_run (step 4096 demo_table) demo_life (λ n, whole_life !! n).
Proof. apply play_run; [intros ???; apply step_sound|]. by vm_compute. Qed.

Lemma demo_life_over n : (length whole_life ≤ n)%nat → demo_life n = demo_life (length whole_life).
Proof. intros Hn. unfold demo_life. by rewrite !play_over. Qed.

Lemma demo_life_rests : settled 4096 demo_table (demo_life (length whole_life)).
Proof.
  assert (∃ m, hproc (demo_life (length whole_life)) = Some m ∧ m_pc m = MDone ∧ m_workers m = [])
    as (m & Hm & Hd & Hw) by (eexists; split; [vm_compute; reflexivity|split; reflexivity]).
  apply (over_settled _ _ _ m); try done; by vm_compute.
Qed.

(** The last of its steps is the last that [run] takes. *)
Definition last_moment : nat := pred (length whole_life).
Lemma demo_life_last :
  busy_step 4096 demo_table (demo_life last_moment) LSet (demo_life (length whole_life)).
Proof.
  apply (busy_pc 4096 demo_table); [|done|].
  - apply step_sound, (play_step demo_next demo_init whole_life last_moment LSet); by vm_compute.
  - by vm_compute.
Qed.

Lemma demo_life_keeps_going : keeps_going 4096 demo_table demo_life (λ n, whole_life !! n).
Proof.
  intros n l s' Hb. destruct (decide (length whole_life ≤ n)%nat) as [Hn|Hn].
  - rewrite (demo_life_over n Hn) in Hb. by destruct (demo_life_rests l s').
  - exists last_moment, LSet. split_and!; [|by vm_compute|exact demo_life_last].
    unfold last_moment. lia.
Qed.

Lemma demo_life_quiet : no_controls_from (length whole_life) (λ n, whole_life !! n).
Proof. intros m l Hm Hl. apply lookup_lt_Some in Hl. lia. Qed.

Lemma demo_life_args k p : whole_life !! k ≠ Some (LStartPanic p).
Proof. intros Hk%list_elem_of_lookup_2. repeat (apply elem_of_cons in Hk as [Hk|Hk]; [done|]). by apply not_elem_of_nil in Hk. Qed.

Lemma demo_life_pre k : (preshutdowns (acts (between (λ n, whole_life !! n) 0 k)) ≤ 1)%nat.
Proof.
  rewrite between_list. do 19 (destruct k as [|k]; [by apply Nat.leb_le; vm_compute|]).
  assert (length whole_life = 19)%nat as Hl by by vm_compute. rewrite take_ge by lia. by apply Nat.leb_le; vm_compute.
Qed.

Lemma service_settles_down_witness :
  pc (demo_life (length whole_life)) = RunDone ∧
  ∃ m, ∀ k, (m ≤ k)%nat →
    pc (demo_life k) = RunDone ∨ idle (demo_life k) ∨
    crash (demo_life k) ≠ None ∧
      ((∃ j p, whole_life !! j = Some (LStartPanic p)) ∨
       (2 ≤ preshutdowns (acts (between (λ n, whole_life !! n) 0 k)))%nat).
Proof.
  split; [by vm_compute|].
  exact (service_settles_down 4096 demo_table demo_os demo_sv demo_tid demo_life (λ n, whole_life !! n)
           (length whole_life) eq_refl demo_life_runs demo_life_keeps_going demo_life_quiet).
Defined.

(** The control has arrived at moment 11, when [demo_told] is over. *)
Lemma stop_is_final_witness :
  stop_event ∈ cbs (demo_life (length demo_told)) ∧
  eventually_always (λ s : sys, pc s = RunDone ∧ (h (sv s) ≠ 0 →
    ∃ ec, last (reports (st_trace (os s))) = Some (service_status (status_of Stopped) ec))) demo_life.
Proof.
  assert (stop_event ∈ cbs (demo_life (length demo_told))) as Hin
    by (apply (list_elem_of_lookup_2 _ 0); by vm_compute).
  split; [exact Hin|].
  exact (stop_is_final 4096 demo_table demo_os demo_sv demo_tid demo_life (λ n, whole_life !! n)
           (length whole_life) (length demo_told) stop_event eq_refl demo_life_runs demo_life_keeps_going
           demo_life_quiet Hin (or_intror (or_introl eq_refl)) demo_life_args demo_life_pre).
Defined.
