(* ===== verification/MgrText.v ===== *)
(** * Package [mgr]: the text conversions of mgr.go and config.go

    [toPtr] and [toStringBlock] make the 16-bit strings that go to Windows,
    [toString] and [toStringSlice] read those that come back. The theorems are
    the round trips, with the exact limits of the readers. *)
From Stdlib Require Import ZArith Lia Ascii.
From stdpp Require Import base option list strings.
From S2P Require Import Prelude GoText Go WinConst Machine GoSyscall.

Local Open Scope Z_scope.
Local Open Scope go_scope.

Definition toPtr {S} (s : string) : go S ptr16 :=
  if (String.length s =? 0)%nat then ret None else StringToUTF16Ptr s.

(** ["\x00"] *)
Definition NUL : string := String zero EmptyString.

(** The loop [for _, s := range ss { if s != "" { t += s + "\x00" } }]. *)
Fixpoint block_loop (ss : list string) (t : string) : string :=
  match ss with
  | [] => t
  | s :: ss => block_loop ss (if bool_decide (s = "") then t else t +:+ (s +:+ NUL))
  end.

Definition toStringBlock (ss : list string) : ptr16 :=
  match ss with
  | [] => None
  | _ =>
    let t := block_loop ss "" in
    if bool_decide (t = "") then None
    else Some (utf16_encode (string_to_runes (t +:+ NUL)))
  end.

Definition toString (p : ptr16) : out string :=
  match p with
  | None => Ret ""
  | Some mem => UTF16ToString_at 4096 mem
  end.

(** [p[from:i]] *)
Definition subslice (p : list Z) (from i : Z) : list Z :=
  take (Z.to_nat (i - from)) (drop (Z.to_nat from) p).

(** The loop of [toStringSlice] from index [i] on, where [rest] is the memory
    there; the array has [1 << 24] elements. *)
Fixpoint slice_loop (p rest : list Z) (from i : Z) (r : list string) : out (list string) :=
  if Z.shiftl 1 24 <=? i then Panic index_out_of_range else
  match rest with
  | [] => Panic memory_fault
  | u :: rest =>
    if u =? 0 then
      if i <=? from then Ret r
      else slice_loop p rest (i + 1) (i + 1) (r ++ [units_to_string (subslice p from i)])
    else slice_loop p rest from (i + 1) r
  end.

(** A nil result and an empty one are told apart. *)
Definition toStringSlice (ps : ptr16) : out (option (list string)) :=
  match ps with
  | None => Ret None
  | Some p => match slice_loop p p 0 0 [] with
              | Ret r => Ret (Some r)
              | Err e => Err e
              | Panic q => Panic q
              end
  end.

(** ** What is written *)

(** The units of a block: each string and a NUL. *)
Definition block_units (ss : list string) : list Z := ss ≫= λ s, units_of s ++ [0].

Lemma units_of_app_nul s t : units_of (s +:+ NUL +:+ t) = units_of s ++ 0 :: units_of t.
Proof.
  unfold units_of, string_to_runes. rewrite !bytes_app. change (bytes NUL) with [0].
  change ([0] ++ bytes t) with (0 :: bytes t). rewrite to_runes_app_nul, utf16_encode_app. done.
Qed.

Lemma string_app_cons a (s t : string) : String a s +:+ t = String a (s +:+ t).
Proof. done. Qed.

Lemma string_app_assoc (s t u : string) : (s +:+ t) +:+ u = s +:+ t +:+ u.
Proof. induction s as [|a s IH]; [done|]. by rewrite !string_app_cons, IH. Qed.

Lemma string_app_nil (s : string) : s +:+ "" = s.
Proof. induction s as [|a s IH]; [done|]. by rewrite string_app_cons, IH. Qed.

Definition nonempty (ss : list string) : list string := filter (λ s, s ≠ "") ss.

Lemma block_loop_cat ss t :
  ∃ u, block_loop ss t = t +:+ u ∧ units_of (u +:+ NUL) = block_units (nonempty ss) ++ [0] ∧
    (u = "" ↔ nonempty ss = []).
Proof.
  revert t. induction ss as [|s ss IH]; intros t; cbn [block_loop].
  - exists "". by rewrite string_app_nil.
  - unfold nonempty. rewrite filter_cons. case_bool_decide as Hs.
    + subst. rewrite decide_False by auto. apply IH.
    + rewrite decide_True by done.
      destruct (IH (t +:+ (s +:+ NUL))) as (u & -> & Hu & _).
      exists (s +:+ NUL +:+ u). split; [by rewrite !string_app_assoc|]. split.
      * rewrite !string_app_assoc, units_of_app_nul, Hu. cbn. by rewrite <- !app_assoc.
      * split; [|done]. by destruct s.
Qed.

Lemma string_app_nil_inv (s t : string) : s +:+ t = "" → s = "" ∧ t = "".
Proof. by destruct s. Qed.

(** The block of a list of strings: the non-empty ones, each ended by a NUL, and
    one more NUL; nil when there are none. *)
Lemma toStringBlock_units ss :
  toStringBlock ss = match nonempty ss with
                     | [] => None
                     | ss' => Some (block_units ss' ++ [0])
                     end.
Proof.
  unfold toStringBlock. destruct (block_loop_cat ss "") as (u & E & Hu & Hn).
  destruct ss as [|s ss']; [done|]. rewrite E. change ("" +:+ u) with u.
  case_bool_decide as Hb.
  - by rewrite (proj1 Hn Hb).
  - destruct (nonempty (s :: ss')) as [|x xs] eqn:Hx; [by destruct Hb; apply Hn|].
    by rewrite <- Hu.
Qed.

(** ** What is read *)

(** One string of the block is read from [from] up to its NUL. *)
Lemma slice_loop_string p us k from i r done_ :
  Forall (λ u, (u =? 0) = false) us →
  p = done_ ++ us ++ 0 :: k → from <= i → i = Z.of_nat (length done_) →
  i + Z.of_nat (length us) < 2 ^ 24 →
  slice_loop p (us ++ 0 :: k) from i r =
    if i + Z.of_nat (length us) <=? from then Ret r
    else slice_loop p k (i + Z.of_nat (length us) + 1) (i + Z.of_nat (length us) + 1)
           (r ++ [units_to_string (subslice p from (i + Z.of_nat (length us)))]).
Proof.
  intros Hus. revert done_ i. induction Hus as [|u us Hu Hus IH]; intros done_ i Hp Hf Hi Hb.
  - simpl in Hb |- *. change (Z.shiftl 1 24) with (2 ^ 24).
    rewrite (proj2 (Z.leb_gt _ _)) by lia. by rewrite !Z.add_0_r.
  - cbn [app slice_loop length] in *. change (Z.shiftl 1 24) with (2 ^ 24).
    rewrite (proj2 (Z.leb_gt _ _)), Hu by lia.
    rewrite (IH (done_ ++ [u]) (i + 1)); try lia.
    + by replace (i + 1 + Z.of_nat (length us)) with (i + Z.of_nat (S (length us))) by lia.
    + by rewrite <- app_assoc.
    + rewrite length_app. simpl. lia.
Qed.

Lemma subslice_app a us k :
  subslice (a ++ us ++ k) (Z.of_nat (length a)) (Z.of_nat (length a) + Z.of_nat (length us)) = us.
Proof.
  unfold subslice. rewrite Nat2Z.id, drop_app_length.
  replace (Z.to_nat _) with (length us) by lia. by rewrite take_app_length.
Qed.

(** A sequence of non-empty strings without NULs, each ended by a NUL. *)
Definition blocks (uss : list (list Z)) : list Z := uss ≫= λ us, us ++ [0].
Definition piece (us : list Z) : Prop := us ≠ [] ∧ Forall (λ u, (u =? 0) = false) us.

Lemma slice_loop_blocks uss rest p done_ r :
  Forall piece uss →
  p = done_ ++ blocks uss ++ 0 :: rest →
  Z.of_nat (length done_) + Z.of_nat (length (blocks uss)) < 2 ^ 24 →
  let i := Z.of_nat (length done_) in
  slice_loop p (blocks uss ++ 0 :: rest) i i r = Ret (r ++ (units_to_string <$> uss)).
Proof.
  intros Huss. revert done_ r. induction Huss as [|us uss [Hne Hn] Huss IH]; intros done_ r Hp Hb i.
  - simpl. change (Z.shiftl 1 24) with (2 ^ 24). simpl in Hb.
    rewrite (proj2 (Z.leb_gt _ _)), (proj2 (Z.leb_le _ _)) by lia. by rewrite app_nil_r.
  - cbn [blocks mbind list_bind] in *. fold (blocks uss) in *.
    rewrite <- !app_assoc in *. cbn [app] in *. rewrite !length_app in Hb. simpl in Hb.
    rewrite (slice_loop_string p us _ i i r done_); auto with winsvc; try lia.
    assert (0 < Z.of_nat (length us)) by (destruct us; [done|simpl; lia]).
    rewrite (proj2 (Z.leb_gt _ _)) by lia.
    replace (subslice p i (i + Z.of_nat (length us))) with us
      by by rewrite Hp; unfold i; rewrite subslice_app.
    replace (i + Z.of_nat (length us) + 1) with (Z.of_nat (length (done_ ++ us ++ [0])))
      by (rewrite !length_app; simpl; lia).
    rewrite IH.
    + by rewrite <- app_assoc.
    + by rewrite Hp, <- !app_assoc.
    + rewrite !length_app. simpl. lia.
Qed.

Lemma toStringSlice_blocks uss rest :
  Forall piece uss → Z.of_nat (length (blocks uss)) < 2 ^ 24 →
  toStringSlice (Some (blocks uss ++ 0 :: rest)) = Ret (Some (units_to_string <$> uss)).
Proof.
  intros Huss Hl. unfold toStringSlice.
  pose proof (slice_loop_blocks uss rest _ [] [] Huss eq_refl Hl) as E.
  cbv zeta in E. change (Z.of_nat (length [])) with 0 in E. cbn [app] in E. by rewrite E.
Qed.

Lemma block_units_blocks ss : block_units ss = blocks (units_of <$> ss).
Proof. unfold block_units, blocks. induction ss as [|s ss IH]; [done|]. cbn. by rewrite IH. Qed.

Lemma nonempty_pieces ss :
  Forall (λ s, has_nul s = false) ss → Forall piece (units_of <$> nonempty ss).
Proof.
  induction 1 as [|s ss Hs Hss IH]; [constructor|]. unfold nonempty. rewrite filter_cons.
  case_decide; [|done]. constructor; [|done]. split; [by rewrite units_of_nil|].
  auto with winsvc.
Qed.

(** ** Properties *)

(** A list of strings survives the trip to Windows and back, whatever lies
    in memory behind it: the strings are read in order, without the empty ones;
    a list without non-empty strings is nil on both sides. *)
Theorem toStringSlice_toStringBlock ss rest :
  Forall (λ s, has_nul s = false) ss →
  Z.of_nat (length (block_units (nonempty ss))) < 2 ^ 24 →
  toStringSlice ((λ mem, mem ++ rest) <$> toStringBlock ss)
  = Ret (match nonempty ss with [] => None | ss' => Some (sanitize <$> ss') end).
Proof.
  intros Hn Hl. rewrite toStringBlock_units. apply nonempty_pieces in Hn.
  destruct (nonempty ss) as [|x xs]; [done|].
  cbn [fmap option_fmap option_map]. rewrite block_units_blocks in *.
  rewrite <- app_assoc. cbn [app]. rewrite (toStringSlice_blocks _ _ Hn Hl).
  rewrite <- list_fmap_compose. do 2 f_equal. apply list_fmap_ext. intros ? ? _.
  apply units_to_string_of.
Qed.

(** C40: a NUL inside a string of the list is not reported, unlike one in any
    other text: the string is silently taken for two. *)
Theorem toStringBlock_nul_splits ss a b ss' :
  a ≠ "" → b ≠ "" →
  toStringBlock (ss ++ (a +:+ NUL +:+ b) :: ss') = toStringBlock (ss ++ a :: b :: ss').
Proof.
  intros Ha Hb. rewrite !toStringBlock_units.
  assert (nonempty (ss ++ (a +:+ NUL +:+ b) :: ss')
          = nonempty ss ++ (a +:+ NUL +:+ b) :: nonempty ss') as ->.
  { unfold nonempty. rewrite filter_app, filter_cons, decide_True; [done|]. by destruct a. }
  assert (nonempty (ss ++ a :: b :: ss') = nonempty ss ++ a :: b :: nonempty ss') as ->.
  { unfold nonempty. rewrite filter_app, !filter_cons, !decide_True; done. }
  assert (block_units (nonempty ss ++ (a +:+ NUL +:+ b) :: nonempty ss')
          = block_units (nonempty ss ++ a :: b :: nonempty ss')) as Hu.
  { unfold block_units. rewrite !bind_app. f_equal. cbn. rewrite units_of_app_nul.
    by rewrite <- !app_assoc. }
  by destruct (nonempty ss); cbn [app] in *; rewrite Hu.
Qed.

(** [toString] reads a NUL-terminated string of fewer than 4096 units in
    full, and of a longer one silently only the first 4096 units. *)
Theorem toString_limit s rest :
  has_nul s = false →
  toString (Some (units_of s ++ 0 :: rest))
  = Ret (if Z.of_nat (length (units_of s)) <? 4096 then sanitize s
         else units_to_string (take 4096 (units_of s))).
Proof.
  intros Hn. unfold toString, UTF16ToString_at.
  destruct (Z.ltb_spec (Z.of_nat (length (units_of s))) 4096).
  - rewrite read_units_nul by auto with winsvc. by rewrite units_to_string_of.
  - by rewrite read_units_full by auto with winsvc lia.
Qed.

(** A multi-string whose end is not within the first [1 << 24] units makes
    [toStringSlice] panic instead of reading on. *)
Theorem toStringSlice_bound us rest :
  Forall (λ u, (u =? 0) = false) us → Z.of_nat (length us) = 2 ^ 24 →
  toStringSlice (Some (us ++ rest)) = Panic index_out_of_range.
Proof.
  intros Hus Hl. unfold toStringSlice.
  assert (∀ q i, i = 2 ^ 24 - Z.of_nat (length us) → slice_loop q (us ++ rest) 0 i []
                 = Panic index_out_of_range) as H.
  { clear Hl. induction Hus as [|u us Hu Hus IH]; intros q i Hi.
    - simpl in Hi. rewrite Hi. cbn [app]. by destruct rest.
    - cbn [app slice_loop]. change (Z.shiftl 1 24) with (2 ^ 24).
      destruct (Z.leb_spec (2 ^ 24) i); [done|]. rewrite Hu. apply IH. simpl in Hi. lia. }
  by rewrite H by lia.
Qed.

(** ** The theorems on concrete inputs *)
Definition deps : list string := ["LanmanServer"; ""; "W32Time"].

Lemma toStringSlice_toStringBlock_witness :
  toStringSlice ((λ mem, mem ++ [7]) <$> toStringBlock deps) = Ret (Some ["LanmanServer"; "W32Time"]).
Proof.
  refine (toStringSlice_toStringBlock deps [7] _ _); [repeat constructor|by vm_compute].
Defined.

Lemma toStringBlock_nul_splits_witness :
  toStringBlock (["x"] ++ ("a" +:+ NUL +:+ "b") :: []) = toStringBlock (["x"] ++ "a" :: "b" :: []).
Proof. by apply toStringBlock_nul_splits. Defined.

Lemma toString_limit_witness :
  toString (Some (units_of "svc" ++ 0 :: [65; 66])) = Ret "svc".
Proof. exact (toString_limit "svc" [65; 66] eq_refl). Defined.

Lemma toStringSlice_bound_witness :
  toStringSlice (Some (replicate (Z.to_nat (2 ^ 24)) 65 ++ [0; 0])) = Panic index_out_of_range.
Proof.
  apply toStringSlice_bound; [by apply Forall_replicate|].
  rewrite length_replicate. by rewrite Z2Nat.id.
Defined.
