(* ===== verification/Mgr.v ===== *)
(** * Package [mgr]: the client of the service control manager

    mgr/mgr.go, mgr/service.go and the operations of mgr/config.go. *)
From Stdlib Require Import ZArith Lia.
From stdpp Require Import base option list strings.
From S2P Require Import Prelude GoText Go WinConst Machine GoSyscall Script Winapi.
From S2P Require Import SvcService MgrText.

Local Open Scope Z_scope.
Local Open Scope go_scope.

Definition StartManual : Z := SERVICE_DEMAND_START.
Definition StartAutomatic : Z := SERVICE_AUTO_START.
Definition StartDisabled : Z := SERVICE_DISABLED.
Definition ErrorCritical : Z := SERVICE_ERROR_CRITICAL.
Definition ErrorIgnore : Z := SERVICE_ERROR_IGNORE.
Definition ErrorNormal : Z := SERVICE_ERROR_NORMAL.
Definition ErrorSevere : Z := SERVICE_ERROR_SEVERE.

(** [Dependencies] keeps a nil slice apart from an empty one. *)
Record Config := {
  ServiceType : Z;
  StartType : Z;
  ErrorControl : Z;
  BinaryPathName : string;
  LoadOrderGroup : string;
  TagId : Z;
  Dependencies : option (list string);
  ServiceStartName : string;
  DisplayName : string;
  Password : string;
  Description : string
}.

Record Mgr := { m_Handle : Z }.
Record Service := { Name : string; Handle : Z }.

(** The elements of a slice. *)
Definition elems (ss : option (list string)) : list string := default [] ss.

Section Mgr.
Context `{Windows}.

(** ** mgr.go *)
Definition ConnectRemote (host : string) : M Mgr :=
  let! s := (if bool_decide (host = "") then ret None else StringToUTF16Ptr host) in
  let! h := OpenSCManager s None SC_MANAGER_ALL_ACCESS in
  ret {| m_Handle := h |}.

Definition Connect : M Mgr := ConnectRemote "".

Definition Disconnect (m : Mgr) : M unit := CloseServiceHandle (m_Handle m).

(** ** config.go: updates *)
Definition updateDescription (handle : Z) (desc : string) : M unit :=
  let! p := toPtr desc in
  ChangeServiceConfig2 handle SERVICE_CONFIG_DESCRIPTION {| sd_Description := p |}.

Definition UpdateConfig (s : Service) (c : Config) : M unit :=
  let! binary := toPtr (BinaryPathName c) in
  let! group := toPtr (LoadOrderGroup c) in
  let! start := toPtr (ServiceStartName c) in
  let! password := toPtr (Password c) in
  let! display := toPtr (DisplayName c) in
  ChangeServiceConfig (Handle s) (ServiceType c) (StartType c) (ErrorControl c)
    binary group 0 (toStringBlock (elems (Dependencies c))) start password display ;;
  updateDescription (Handle s) (Description c).

(** [c.StartType] and [c.ErrorControl] when they are left 0; [c.BinaryPathName]. *)
Definition with_defaults (exepath : string) (c : Config) : Config :=
  {| ServiceType := ServiceType c;
     StartType := if StartType c =? 0 then StartManual else StartType c;
     ErrorControl := if ErrorControl c =? 0 then ErrorNormal else ErrorControl c;
     BinaryPathName := exepath;
     LoadOrderGroup := LoadOrderGroup c; TagId := TagId c; Dependencies := Dependencies c;
     ServiceStartName := ServiceStartName c; DisplayName := DisplayName c;
     Password := Password c; Description := Description c |}.

Definition Mgr_CreateService (m : Mgr) (name exepath : string) (c : Config) : M Service :=
  let c := with_defaults exepath c in
  let! pname := toPtr name in
  let! display := toPtr (DisplayName c) in
  let! path := toPtr exepath in
  let! group := toPtr (LoadOrderGroup c) in
  let! start := toPtr (ServiceStartName c) in
  let! password := toPtr (Password c) in
  let! h := CreateService (m_Handle m) pname display SERVICE_ALL_ACCESS
              SERVICE_WIN32_OWN_PROCESS (StartType c) (ErrorControl c) path group 0
              (toStringBlock (elems (Dependencies c))) start password in
  (if bool_decide (Description c = "") then ret tt else updateDescription h (Description c)) ;;
  ret {| Name := name; Handle := h |}.

Definition Mgr_OpenService (m : Mgr) (name : string) : M Service :=
  let! p := StringToUTF16Ptr name in
  let! h := OpenService (m_Handle m) p SERVICE_ALL_ACCESS in
  ret {| Name := name; Handle := h |}.

(** ** service.go *)
Definition Delete (s : Service) : M unit := DeleteService (Handle s).

Definition Service_Close (s : Service) : M unit := CloseServiceHandle (Handle s).

Fixpoint arg_ptrs (args : list string) : M (list ptr16) :=
  match args with
  | [] => ret []
  | a :: args =>
    let! p := StringToUTF16Ptr a in
    let! ps := arg_ptrs args in
    ret (p :: ps)
  end.

Definition Start (s : Service) (args : list string) : M unit :=
  let! p := (match args with
             | [] => ret None
             | _ => let! vs := arg_ptrs args in ret (Some vs)
             end) in
  StartService (Handle s) (wrap 32 (Z.of_nat (length args))) p.

(** The [svc.Status] made from what Windows reports. *)
Definition to_status (t : SERVICE_STATUS) : Status :=
  {| State := ss_CurrentState t; Accepts := ss_ControlsAccepted t; CheckPoint := 0;
     WaitHint := 0 |}.

Definition Control (s : Service) (c : Z) : M Status :=
  let! t := ControlService (Handle s) c in ret (to_status t).

Definition Query (s : Service) : M Status :=
  let! t := QueryServiceStatus (Handle s) in ret (to_status t).

(** ** config.go: reading *)

(** [err.(syscall.Errno) != syscall.ERROR_INSUFFICIENT_BUFFER] *)
Definition insufficient_buffer (e : error) : out bool :=
  match e with
  | Errno n => Ret (n =? ERROR_INSUFFICIENT_BUFFER)
  | _ => Panic bad_type_assertion
  end.

(** [&b[0]] of a buffer of [l] bytes *)
Definition first_byte (l : Z) : M unit := if l =? 0 then throw index_out_of_range else ret tt.

(** A query with a buffer of 1024 bytes, and again with one of the size asked for. *)
Definition query_twice {A} (query : Z → M (A * Z * option error)) : M A :=
  first_byte 1024 ;;
  let! r := query 1024 in
  let '(p, l, e) := r in
  match e with
  | None => ret p
  | Some e =>
    let! again := lift (insufficient_buffer e) in
    if negb again then err e
    else
      first_byte l ;;
      let! r := query l in
      let '(p, _, e) := r in
      match e with None => ret p | Some e => err e end
  end.

Definition Service_Config (s : Service) : M Config :=
  let! p := query_twice (QueryServiceConfig (Handle s)) in
  let! p2 := query_twice (QueryServiceConfig2 (Handle s) SERVICE_CONFIG_DESCRIPTION) in
  let! binary := lift (toString (qc_BinaryPathName p)) in
  let! group := lift (toString (qc_LoadOrderGroup p)) in
  let! deps := lift (toStringSlice (qc_Dependencies p)) in
  let! start := lift (toString (qc_ServiceStartName p)) in
  let! display := lift (toString (qc_DisplayName p)) in
  let! desc := lift (toString (sd_Description p2)) in
  ret {| ServiceType := qc_ServiceType p; StartType := qc_StartType p;
         ErrorControl := qc_ErrorControl p; BinaryPathName := binary;
         LoadOrderGroup := group; TagId := qc_TagId p; Dependencies := deps;
         ServiceStartName := start; DisplayName := display; Password := "";
         Description := desc |}.

End Mgr.

(** ** What the operations ask Windows for *)

(** The pointer [toPtr] makes of a text without NUL. *)
Definition ptr_of (s : string) : ptr16 :=
  if bool_decide (s = "") then None else Some (units_of s ++ [0]).

Section MgrTheorems.
Context `{Windows}.

Lemma wp_toPtr s (Q : out ptr16 → st → Prop) σ :
  (has_nul s = false → Q (Ret (ptr_of s)) σ) → (has_nul s = true → Q (Panic nul_panic) σ) →
  wp (toPtr s) Q σ.
Proof.
  intros H1 H2. unfold toPtr, ptr_of in *. destruct s as [|a s]; simpl.
  - wp_step. by apply H1.
  - apply wp_StringToUTF16Ptr; [|done]. by rewrite bool_decide_false in H1.
Qed.

(** One text argument after the other: a NUL stops everything before the call. *)
Ltac wp_texts :=
  repeat (apply wp_bind, wp_toPtr;
    [ intros ?
    | let Hn := fresh in
      intros Hn; exists []; split; [by apply makes_nil|]; cbn [existsb];
      rewrite Hn, ?orb_true_r; done ]).

Ltac config_cbn :=
  cbn [ServiceType StartType ErrorControl BinaryPathName LoadOrderGroup TagId Dependencies
       ServiceStartName DisplayName Password Description].

(** The remaining branch, where no text has a NUL. *)
Ltac no_nul := cbn [existsb]; repeat match goal with E : has_nul _ = false |- _ => rewrite E end.

Lemma wp_updateDescription hd desc (Q : out unit → st → Prop) s :
  (has_nul desc = true → Q (Panic nul_panic) s) →
  (has_nul desc = false → ∀ rep w',
     let p := ChangeServiceConfig2W hd SERVICE_CONFIG_DESCRIPTION {| sd_Description := ptr_of desc |} in
     call p (st_world s) = (rep, w') →
     let s' := St w' (st_trace s ++ [Entry p rep]) (st_vars s) in
     Q (if r_ret rep =? 0 then Err (errno_error (r_err rep)) else Ret tt) s') →
  wp (updateDescription hd desc) Q s.
Proof.
  intros H1 H2. unfold updateDescription. apply wp_bind, wp_toPtr; [intros Hn|exact H1].
  unfold ChangeServiceConfig2. apply wp_bind, wp_syscall; intros rep w' E. specialize (H2 Hn rep w' E).
  apply wp_check0; intros ?.
  - revert H2. by zeqb.
  - revert H2. by zeqb.
Qed.

(** C25: [CreateService] makes one call with the given configuration, in which a
    start type or an error control left 0 is replaced by "manual" and "normal"
    and an empty text is a nil pointer (so a service whose start errors are ignored
    cannot be created: [ErrorIgnore] is 0); a description, if there is one, is set
    by a second call. A NUL in any text panics before the call that needs it. *)
Theorem CreateService_spec m nm exepath c s :
  let start := if StartType c =? 0 then StartManual else StartType c in
  let control := if ErrorControl c =? 0 then ErrorNormal else ErrorControl c in
  let texts := [nm; DisplayName c; exepath; LoadOrderGroup c; ServiceStartName c; Password c] in
  control ≠ ErrorIgnore ∧
  wp (Mgr_CreateService m nm exepath c) (λ o s', ∃ tr, makes s s' tr ∧
    if existsb has_nul texts then o = Panic nul_panic ∧ tr = []
    else ∃ rep tr', tr = Entry (CreateServiceW (m_Handle m) (ptr_of nm) (ptr_of (DisplayName c))
        SERVICE_ALL_ACCESS SERVICE_WIN32_OWN_PROCESS start control
        (ptr_of exepath) (ptr_of (LoadOrderGroup c)) 0 (toStringBlock (elems (Dependencies c)))
        (ptr_of (ServiceStartName c)) (ptr_of (Password c))) rep :: tr' ∧
      if r_ret rep =? 0 then o = Err (errno_error (r_err rep)) ∧ tr' = []
      else if bool_decide (Description c = "") then
        o = Ret {| Name := nm; Handle := r_ret rep |} ∧ tr' = []
      else if has_nul (Description c) then o = Panic nul_panic ∧ tr' = []
      else ∃ rep', tr' = [Entry (ChangeServiceConfig2W (r_ret rep) SERVICE_CONFIG_DESCRIPTION
                                   {| sd_Description := ptr_of (Description c) |}) rep'] ∧
        o = if r_ret rep' =? 0 then Err (errno_error (r_err rep'))
            else Ret {| Name := nm; Handle := r_ret rep |}) s.
Proof.
  intros start control texts. split.
  { unfold control. by destruct (Z.eqb_spec (ErrorControl c) 0). }
  subst start control texts. unfold Mgr_CreateService, with_defaults. config_cbn. wp_texts.
  unfold CreateService. wp_sys.
  - case_bool_decide; wp_sys.
    + eexists. split; [done|]. no_nul. exists rep, []. by zeqb.
    + apply wp_updateDescription; intros Hd.
      * eexists. split; [done|]. no_nul. exists rep, []. zeqb. by rewrite Hd.
      * intros rep' w'' p _ s'. destruct (r_ret rep' =? 0) eqn:Hr; wp_sys;
          (eexists; split; [by unfold makes; cbn; rewrite <- app_assoc|]); no_nul;
          (exists rep; eexists; split; [done|]); zeqb; exists rep';
          by rewrite Hr.
  - eexists. split; [done|]. no_nul. exists rep, []. by zeqb.
Qed.

(** A query makes its call and answers with a [syscall.Errno], if with an error. *)
Definition queries {A} (query : Z → M (A * Z * option error)) (isq : api → bool) : Prop :=
  ∀ l s, wp (query l) (λ o s', ∃ en, makes s s' [en] ∧ isq (en_api en) = true ∧
    ∃ a l' e, o = Ret (a, l', e) ∧ match e with Some e => ∃ n, e = Errno n ∧ n ≠ 0 | None => True end) s.

Lemma query_twice_calls {A} (query : Z → M (A * Z * option error)) isq s :
  queries query isq →
  wp (query_twice query) (λ o s', ∃ tr, makes s s' tr ∧
    (1 ≤ length tr ≤ 2)%nat ∧ forallb isq (calls tr) = true ∧
    match o with
    | Ret _ => True
    | Err e => ∃ n, e = Errno n ∧ n ≠ 0
    | Panic p => p = index_out_of_range
    end) s.
Proof.
  intros Hq. unfold query_twice, first_byte. change (1024 =? 0) with false. wp_go.
  eapply wp_mono; [apply Hq|]. intros o s1 (en1 & Hm1 & Hi1 & a & l & e & -> & He).
  destruct e as [e|]; [|wp_go; exists [en1]; simpl; rewrite Hi1; split_and!; by try lia].
  destruct He as (n & -> & Hn). unfold insufficient_buffer. wp_go.
  destruct (n =? ERROR_INSUFFICIENT_BUFFER); simpl negb; cbv iota.
  2: { wp_go. exists [en1]. simpl. rewrite Hi1. split_and!; eauto; lia. }
  destruct (l =? 0); wp_go.
  { exists [en1]. simpl. rewrite Hi1. split_and!; eauto; lia. }
  eapply wp_mono; [apply Hq|]. intros o2 s2 (en2 & Hm2 & Hi2 & a2 & l2 & e2 & -> & He2).
  destruct e2 as [e2|]; wp_go; exists [en1; en2]; simpl; rewrite Hi1, Hi2;
    (split; [exact (makes_trans _ _ _ _ _ Hm1 Hm2)|]); split_and!; by try lia.
Qed.

Lemma QueryServiceConfig_queries hd :
  queries (QueryServiceConfig hd) (λ p, match p with QueryServiceConfigW _ _ => true | _ => false end).
Proof.
  intros l s. unfold QueryServiceConfig. wp_go. destruct (r_out rep) as [qc l'] eqn:Ho.
  eexists. split; [done|]. split; [done|]. eexists qc, l', _. split; [done|].
  destruct (r_ret rep =? 0); [|done]. eexists. split; [done|]. by eapply errno_error_nonzero.
Qed.

Lemma QueryServiceConfig2_queries hd lvl :
  queries (QueryServiceConfig2 hd lvl)
    (λ p, match p with QueryServiceConfig2W _ _ _ => true | _ => false end).
Proof.
  intros l s. unfold QueryServiceConfig2. wp_go. destruct (r_out rep) as [qc l'] eqn:Ho.
  eexists. split; [done|]. split; [done|]. eexists qc, l', _. split; [done|].
  destruct (r_ret rep =? 0); [|done]. eexists. split; [done|]. by eapply errno_error_nonzero.
Qed.

(** Reading a text never gives an error, only a text or a panic. *)
Definition reading_panic (p : panic) : Prop := p = index_out_of_range ∨ p = memory_fault.

Lemma toString_outcome p :
  match toString p with Ret _ => True | Err _ => False | Panic q => reading_panic q end.
Proof.
  destruct p as [mem|]; simpl; [|done]. unfold UTF16ToString_at.
  destruct (read_units _ _); [done|]. by right.
Qed.

Lemma slice_loop_outcome p rest from i r :
  match slice_loop p rest from i r with
  | Ret _ => True | Err _ => False | Panic q => reading_panic q
  end.
Proof.
  revert from i r. induction rest as [|u rest IH]; intros from i r; cbn [slice_loop];
    (destruct (_ <=? i); [by left|]); [by right|].
  destruct (u =? 0); [|apply IH]. destruct (i <=? from); [done|apply IH].
Qed.

Lemma toStringSlice_outcome p :
  match toStringSlice p with Ret _ => True | Err _ => False | Panic q => reading_panic q end.
Proof.
  destruct p as [p|]; [|done]. unfold toStringSlice.
  pose proof (slice_loop_outcome p p 0 0 []). by destruct (slice_loop p p 0 0 []).
Qed.

Definition is_config_query (p : api) : bool :=
  match p with QueryServiceConfigW _ _ | QueryServiceConfig2W _ _ _ => true | _ => false end.

Lemma is_config_query_1 ps :
  forallb (λ p, match p with QueryServiceConfigW _ _ => true | _ => false end) ps = true →
  forallb is_config_query ps = true.
Proof. induction ps as [|p ps IH]; [done|]. simpl. by destruct p. Qed.
Lemma is_config_query_2 ps :
  forallb (λ p, match p with QueryServiceConfig2W _ _ _ => true | _ => false end) ps = true →
  forallb is_config_query ps = true.
Proof. induction ps as [|p ps IH]; [done|]. simpl. by destruct p. Qed.

(** C26: [Config] only queries, at most four times, and whatever Windows answers
    it fails with a non-zero [syscall.Errno]: the type assertion on the error
    cannot panic. The only panics left are an empty buffer and a text that does
    not end. *)
Theorem Config_outcomes sv s :
  wp (Service_Config sv) (λ o s', ∃ tr, makes s s' tr ∧ (length tr ≤ 4)%nat ∧
    forallb is_config_query (calls tr) = true ∧
    match o with
    | Ret c => Password c = ""
    | Err e => ∃ n, e = Errno n ∧ n ≠ 0
    | Panic p => reading_panic p
    end) s.
Proof.
  unfold Service_Config. apply wp_bind.
  eapply wp_mono; [apply query_twice_calls, QueryServiceConfig_queries|].
  intros o s1 (tr1 & Hm1 & Hl1 & Hf1 & Ho1). apply is_config_query_1 in Hf1.
  destruct o as [p|e|q]; [|exists tr1; split_and!; by try lia|exists tr1; split_and!; try lia; by try left].
  apply wp_bind. eapply wp_mono; [apply query_twice_calls, QueryServiceConfig2_queries|].
  intros o s2 (tr2 & Hm2 & Hl2 & Hf2 & Ho2). apply is_config_query_2 in Hf2.
  assert (makes s s2 (tr1 ++ tr2) ∧ (length (tr1 ++ tr2) ≤ 4)%nat ∧
          forallb is_config_query (calls (tr1 ++ tr2)) = true) as (Hm & Hl & Hf).
  { split_and!; [eauto with winsvc|rewrite length_app; lia|].
    by rewrite calls_app, forallb_app, Hf1, Hf2. }
  destruct o as [p2|e|q]; [|exists (tr1 ++ tr2); by split_and!
                           |exists (tr1 ++ tr2); split_and!; try done; by left].
  repeat (apply wp_bind;
    lazymatch goal with
    | |- wp (lift (toString ?x)) _ _ => pose proof (toString_outcome x); destruct (toString x)
    | |- wp (lift (toStringSlice ?x)) _ _ =>
        pose proof (toStringSlice_outcome x); destruct (toStringSlice x)
    end; apply wp_lift; try done; try (by eexists; split_and!)).
Qed.

(** ** Arguments *)
Lemma arg_ptrs_run args s :
  arg_ptrs args s
  = (if existsb has_nul args then Panic nul_panic
     else Ret ((λ a, Some (units_of a ++ [0])) <$> args), s).
Proof.
  revert s. induction args as [|a args IH]; intros s; [done|]. cbn [arg_ptrs existsb].
  unfold bind, StringToUTF16Ptr, StringToUTF16. destruct (has_nul a); [done|]. cbn [ret].
  unfold ret. rewrite IH. by destruct (existsb has_nul args).
Qed.

(** The memory of the new process holds the name and the arguments. *)
Lemma read_started nm args vs mem t :
  vs = match args with
       | [] => None
       | _ => Some ((λ a, Some (units_of a ++ [0])) <$> args)
       end →
  existsb has_nul args = false → has_nul nm = false →
  Forall (λ a, Z.of_nat (length (units_of a)) < 2 ^ 20) (nm :: args) →
  Z.of_nat (length args) < 100 →
  sArgc (st_vars t) = wrap 32 (Z.of_nat (length args)) + 1 → sArgv (st_vars t) ≠ 0 →
  argv_at (st_world t) (sArgv (st_vars t))
    = Some ((units_of nm ++ [0]) :: (default [] <$> default [] vs) ++ mem) →
  run_args t = (Ret (sanitize <$> nm :: args), t).
Proof.
  intros -> Hn Hnm Hl Hc Hargc Hargv Hmem.
  rewrite wrap_small in Hargc by (unfold in_range; lia).
  assert (argv_at (st_world t) (sArgv (st_vars t))
          = Some (((λ a, units_of a ++ [0]) <$> nm :: args) ++ mem)) as Hmem'.
  { rewrite Hmem. destruct args as [|a args]; [done|]. cbn [from_option].
    unfold id. rewrite <- list_fmap_compose. done. }
  unfold run_args. rewrite Hmem', Hargc, (proj2 (Z.eqb_neq _ _) Hargv).
  rewrite (proj2 (Z.ltb_ge _ _)) by lia.
  rewrite length_app, length_fmap, (proj2 (Z.ltb_ge _ _)) by (cbn [length]; lia).
  rewrite take_app_length' by (rewrite length_fmap; cbn [length]; lia).
  rewrite args_of_strings; [done|]. clear -Hn Hnm Hl.
  apply Forall_and. split; [|done]. constructor; [done|].
  induction args as [|a args IH]; [constructor|]. simpl in Hn. apply orb_false_elim in Hn as [Ha Hn].
  constructor; [done|]. apply IH; [done|]. apply Forall_cons in Hl as [Hx Hl]. apply Forall_cons in Hl as [_ Hl].
  by constructor.
Qed.

(** C23: [Start] hands its arguments to Windows in one call, and a NUL in an argument
    panics before anything is asked for. Put into the memory of the new process behind
    the service's name, these are what the service's [run] reads as the arguments
    of [Execute], in order and with invalid UTF-8 replaced; provided that the name has no
    NUL, that the name and every argument are under [1 << 20] UTF-16 units, that there
    are fewer than 100 arguments, and that [servicemain] has saved the count and the
    address of the arguments whole (on amd64 it cuts off an address of 4 GB or more) and the
    address is not 0. Nothing is claimed beyond these limits. *)
Theorem Start_run_args sv nm args s :
  wp (Start sv args) (λ o s',
    if existsb has_nul args then o = Panic nul_panic ∧ makes s s' []
    else ∃ vs rep,
      makes s s' [Entry (StartServiceW (Handle sv) (wrap 32 (Z.of_nat (length args))) vs) rep] ∧
      (o = Ret tt ↔ r_ret rep ≠ 0) ∧
      ∀ t mem, has_nul nm = false →
        Forall (λ a, Z.of_nat (length (units_of a)) < 2 ^ 20) (nm :: args) →
        Z.of_nat (length args) < 100 →
        sArgc (st_vars t) = wrap 32 (Z.of_nat (length args)) + 1 → sArgv (st_vars t) ≠ 0 →
        argv_at (st_world t) (sArgv (st_vars t))
          = Some ((units_of nm ++ [0]) :: (default [] <$> default [] vs) ++ mem) →
        run_args t = (Ret (sanitize <$> nm :: args), t)) s.
Proof.
  unfold Start.
  assert (∀ s, (match args with
                | [] => ret None
                | _ :: _ => let! vs := arg_ptrs args in ret (Some vs)
                end) s
          = (if existsb has_nul args then Panic nul_panic
             else Ret (match args with
                       | [] => None
                       | _ => Some ((λ a, Some (units_of a ++ [0])) <$> args)
                       end), s)) as Hargs.
  { intros t. destruct args as [|a args']; [done|]. unfold bind. rewrite arg_ptrs_run.
    by destruct (existsb has_nul (a :: args')). }
  apply wp_bind, run_wp. intros o s1 E. rewrite Hargs in E.
  destruct (existsb has_nul args) eqn:Hn; simplify_eq; [by eauto with winsvc|].
  unfold StartService. apply wp_bind, wp_syscall. intros rep w' _. eexists _, rep.
  apply wp_check0; intros Hr; (split; [done|]); (split; [split; congruence|]);
    intros t mem; by apply read_started.
Qed.

(** [Query] asks once; when the status it is given is the one a service
    reported with [updateStatus], the client sees the service's state and those
    of the four known controls it accepts, but neither its check point nor its
    wait hint. *)
Theorem Query_sees_report sv s :
  wp (Query sv) (λ o s', ∃ rep, makes s s' [Entry (QueryServiceStatusP (Handle sv)) rep] ∧
    if r_ret rep =? 0 then o = Err (errno_error (r_err rep))
    else ∃ c, o = Ret c ∧
      ∀ status ec, r_out rep = service_status status ec →
        c = {| State := State status; Accepts := Z.land (Accepts status) known_accepts;
               CheckPoint := 0; WaitHint := 0 |}) s.
Proof.
  unfold Query, QueryServiceStatus. wp_sys; exists rep; (split; [done|]); zeqb; [|done].
  eexists. split; [done|]. intros status ec E. unfold to_status.
  change (out_of (QueryServiceStatusP (Handle sv))) with SERVICE_STATUS in E. rewrite E.
  rewrite service_status_accepts. unfold service_status.
  by destruct (if ec_errno ec =? 0 then _ else _).
Qed.

End MgrTheorems.

(** ** A half-created service *)
Definition bare_config (desc : string) : Config :=
  {| ServiceType := 0; StartType := 0; ErrorControl := 0; BinaryPathName := "";
     LoadOrderGroup := ""; TagId := 0; Dependencies := None; ServiceStartName := "";
     DisplayName := "demo"; Password := ""; Description := desc |}.

(** The handles of the services created and of those closed along a trace. *)
Definition created_service (en : entry) : option Z :=
  match en with
  | Entry (CreateServiceW _ _ _ _ _ _ _ _ _ _ _ _ _) rep =>
      if r_ret rep =? 0 then None else Some (r_ret rep)
  | _ => None
  end.
Definition closed_service (en : entry) : option Z :=
  match en with Entry (CloseServiceHandleP h) _ => Some h | _ => None end.

(** When the description cannot be set, [CreateService] reports an error,
    yet the service has been created, and its handle is left open. *)
Theorem CreateService_orphan :
  let r := Mgr_CreateService {| m_Handle := 3 |} "demo" "c:\demo.exe" (bare_config "a demo")
             (fresh (H := ScriptWindows plain) [(9, 0); (0, 5)]) in
  r.1 = Err (Errno 5) ∧ omap created_service (st_trace r.2) = [9] ∧
  omap closed_service (st_trace r.2) = [].
Proof. by vm_compute. Qed.
