(* ===== verification/MgrScm.v ===== *)
(** * Package [mgr] against a service control manager

    The class [Scm] states the documented behaviour of the four configuration
    procedures of Windows: a change stores what it is given and keeps what it is
    given as nil or [SERVICE_NO_CHANGE]; a query copies what is stored when the
    buffer is large enough, and otherwise says how large it must be. Over any
    such manager, [Config] reads what is stored and [UpdateConfig] followed by
    [Config] is a round trip. [ScmWindows] is a concrete manager that satisfies
    the class. *)
From Stdlib Require Import ZArith Lia.
From stdpp Require Import base option list strings.
From S2P Require Import Prelude GoText Go WinConst Machine GoSyscall Script Winapi.
From S2P Require Import SvcService MgrText Mgr.

Local Open Scope Z_scope.
Local Open Scope go_scope.

(** ** What is stored *)
Record stored := Stored {
  st_config : QUERY_SERVICE_CONFIG;
  st_description : SERVICE_DESCRIPTION
}.

Definition keep_num (new old : Z) : Z := if new =? SERVICE_NO_CHANGE then old else new.
Definition keep_ptr (new old : ptr16) : ptr16 := match new with None => old | Some _ => new end.

(** The effect of a change; the password is not part of what can be read. *)
Definition changed (c : QUERY_SERVICE_CONFIG) (srvType startType errCtl : Z)
    (path group deps start display : ptr16) : QUERY_SERVICE_CONFIG :=
  {| qc_ServiceType := keep_num srvType (qc_ServiceType c);
     qc_StartType := keep_num startType (qc_StartType c);
     qc_ErrorControl := keep_num errCtl (qc_ErrorControl c);
     qc_BinaryPathName := keep_ptr path (qc_BinaryPathName c);
     qc_LoadOrderGroup := keep_ptr group (qc_LoadOrderGroup c);
     qc_TagId := qc_TagId c;
     qc_Dependencies := keep_ptr deps (qc_Dependencies c);
     qc_ServiceStartName := keep_ptr start (qc_ServiceStartName c);
     qc_DisplayName := keep_ptr display (qc_DisplayName c) |}.

(** The configuration of a new service; [d] holds what Windows puts where it is given
    nil. *)
Definition made (d : QUERY_SERVICE_CONFIG) (srvType startType errCtl : Z)
    (path group deps start display : ptr16) : QUERY_SERVICE_CONFIG :=
  {| qc_ServiceType := srvType;
     qc_StartType := startType;
     qc_ErrorControl := errCtl;
     qc_BinaryPathName := keep_ptr path (qc_BinaryPathName d);
     qc_LoadOrderGroup := keep_ptr group (qc_LoadOrderGroup d);
     qc_TagId := qc_TagId d;
     qc_Dependencies := keep_ptr deps (qc_Dependencies d);
     qc_ServiceStartName := keep_ptr start (qc_ServiceStartName d);
     qc_DisplayName := keep_ptr display (qc_DisplayName d) |}.

(** A text in a query buffer: the stored text, with anything behind it. *)
Definition copies (p q : ptr16) : Prop :=
  match p, q with
  | None, None => True
  | Some mem, Some mem' => ∃ k, mem' = mem ++ k
  | _, _ => False
  end.

Definition config_copies (c c' : QUERY_SERVICE_CONFIG) : Prop :=
  qc_ServiceType c' = qc_ServiceType c ∧ qc_StartType c' = qc_StartType c ∧
  qc_ErrorControl c' = qc_ErrorControl c ∧ qc_TagId c' = qc_TagId c ∧
  copies (qc_BinaryPathName c) (qc_BinaryPathName c') ∧
  copies (qc_LoadOrderGroup c) (qc_LoadOrderGroup c') ∧
  copies (qc_Dependencies c) (qc_Dependencies c') ∧
  copies (qc_ServiceStartName c) (qc_ServiceStartName c') ∧
  copies (qc_DisplayName c) (qc_DisplayName c').

(** The answer to a query whose result [ok] takes [need] bytes. *)
Definition answers {A} (need len ret_ err_ : Z) (out_ : A * Z) (ok : A → Prop) : Prop :=
  if need <=? len then ret_ ≠ 0 ∧ ok out_.1
  else ret_ = 0 ∧ err_ = ERROR_INSUFFICIENT_BUFFER ∧ out_.2 = need.

(** ** The manager *)
Class Scm `{Win : Windows} := {
  scm_stored : world → Z → option stored;
  scm_need : world → Z → Z;
  scm_need2 : world → Z → Z;
  scm_need_range w hd : 0 < scm_need w hd < 2 ^ 32 ∧ 0 < scm_need2 w hd < 2 ^ 32;
  scm_change w hd ty sty ec path group tag deps start pw display rep w' c :
    call (ChangeServiceConfigW hd ty sty ec path group tag deps start pw display) w = (rep, w') →
    scm_stored w hd = Some c → r_ret rep ≠ 0 →
    scm_stored w' hd
      = Some (Stored (changed (st_config c) ty sty ec path group deps start display)
                (st_description c));
  scm_change2 w hd d rep w' c :
    call (ChangeServiceConfig2W hd SERVICE_CONFIG_DESCRIPTION d) w = (rep, w') →
    scm_stored w hd = Some c → r_ret rep ≠ 0 →
    scm_stored w' hd
      = Some (Stored (st_config c)
                {| sd_Description := keep_ptr (sd_Description d) (sd_Description (st_description c)) |});
  scm_query w hd len rep w' c :
    call (QueryServiceConfigW hd len) w = (rep, w') → scm_stored w hd = Some c →
    scm_stored w' hd = Some c ∧ scm_need w' hd = scm_need w hd ∧
    answers (scm_need w hd) len (r_ret rep) (r_err rep) (r_out rep) (config_copies (st_config c));
  scm_query2 w hd len rep w' c :
    call (QueryServiceConfig2W hd SERVICE_CONFIG_DESCRIPTION len) w = (rep, w') →
    scm_stored w hd = Some c →
    scm_stored w' hd = Some c ∧ scm_need2 w' hd = scm_need2 w hd ∧
    answers (scm_need2 w hd) len (r_ret rep) (r_err rep) (r_out rep)
      (λ d, copies (sd_Description (st_description c)) (sd_Description d))
}.

(** ** Reading does not see what lies behind a text *)
Lemma read_units_more n mem k us :
  read_units n mem = Some us → read_units n (mem ++ k) = Some us.
Proof.
  revert n us. induction mem as [|u mem IH]; intros n us.
  - simpl. destruct (n <=? 0) eqn:E; [|done]. intros [= <-]. destruct k; simpl; by rewrite E.
  - simpl. destruct (n <=? 0); [done|]. destruct (u =? 0); [done|].
    destruct (read_units (n - 1) mem) as [us'|] eqn:E; [|done]. by rewrite (IH _ _ E).
Qed.

Lemma toString_copies p q s : copies p q → toString p = Ret s → toString q = Ret s.
Proof.
  destruct p as [mem|], q as [mem'|]; simpl; try done. intros [k ->]. unfold UTF16ToString_at.
  destruct (read_units 4096 mem) as [us|] eqn:E; [|done]. by rewrite (read_units_more _ _ _ _ E).
Qed.

Lemma subslice_more p k from i :
  0 <= from → i <= Z.of_nat (length p) → subslice (p ++ k) from i = subslice p from i.
Proof.
  intros Hf0 Hi. unfold subslice.
  destruct (decide (Z.to_nat from ≤ length p)%nat) as [Hf|Hf].
  - rewrite drop_app_le by done. rewrite take_app_le; [done|]. rewrite length_drop. lia.
  - replace (Z.to_nat (i - from)) with 0%nat by lia. done.
Qed.

Lemma slice_loop_more p rest k from i r x :
  i = Z.of_nat (length p) - Z.of_nat (length rest) → 0 <= i → 0 <= from →
  slice_loop p rest from i r = Ret x → slice_loop (p ++ k) (rest ++ k) from i r = Ret x.
Proof.
  revert from i r. induction rest as [|u rest IH]; intros from i r Hi H0 Hf; cbn [slice_loop app].
  - by destruct (_ <=? i).
  - destruct (Z.shiftl 1 24 <=? i); [done|]. simpl in Hi. destruct (u =? 0).
    + destruct (i <=? from); [done|]. rewrite subslice_more by lia. apply IH; lia.
    + apply IH; lia.
Qed.

Lemma toStringSlice_copies p q r : copies p q → toStringSlice p = Ret r → toStringSlice q = Ret r.
Proof.
  destruct p as [mem|], q as [mem'|]; simpl; try done. intros [k ->].
  destruct (slice_loop mem mem 0 0 []) as [x| |] eqn:E; [|done|done]. intros [= <-].
  by rewrite (slice_loop_more _ _ _ _ _ _ x) by (first [done|lia]).
Qed.

(** ** What a stored configuration reads as *)
Definition reads (c : stored) (k : Config) : Prop :=
  ServiceType k = qc_ServiceType (st_config c) ∧ StartType k = qc_StartType (st_config c) ∧
  ErrorControl k = qc_ErrorControl (st_config c) ∧ TagId k = qc_TagId (st_config c) ∧
  Password k = "" ∧
  toString (qc_BinaryPathName (st_config c)) = Ret (BinaryPathName k) ∧
  toString (qc_LoadOrderGroup (st_config c)) = Ret (LoadOrderGroup k) ∧
  toStringSlice (qc_Dependencies (st_config c)) = Ret (Dependencies k) ∧
  toString (qc_ServiceStartName (st_config c)) = Ret (ServiceStartName k) ∧
  toString (qc_DisplayName (st_config c)) = Ret (DisplayName k) ∧
  toString (sd_Description (st_description c)) = Ret (Description k).

(** The texts of an update: a text that Windows is given, and one it reads back. *)
Definition short (s : string) : Prop := has_nul s = false ∧ Z.of_nat (length (units_of s)) < 4096.

Definition fits (c : Config) : Prop :=
  short (BinaryPathName c) ∧ short (LoadOrderGroup c) ∧ short (ServiceStartName c) ∧
  short (DisplayName c) ∧ short (Description c) ∧ has_nul (Password c) = false ∧
  Forall (λ s, has_nul s = false) (elems (Dependencies c)) ∧
  Z.of_nat (length (block_units (nonempty (elems (Dependencies c))))) < 2 ^ 24.

(** What an update leaves: an empty text and an empty list keep what was there. *)
Definition keep_text (new old : string) : string :=
  if bool_decide (new = "") then old else sanitize new.
Definition keep_deps (new old : option (list string)) : option (list string) :=
  match nonempty (elems new) with [] => old | ss => Some (sanitize <$> ss) end.

Definition updated (old c : Config) : Config :=
  {| ServiceType := keep_num (ServiceType c) (ServiceType old);
     StartType := keep_num (StartType c) (StartType old);
     ErrorControl := keep_num (ErrorControl c) (ErrorControl old);
     BinaryPathName := keep_text (BinaryPathName c) (BinaryPathName old);
     LoadOrderGroup := keep_text (LoadOrderGroup c) (LoadOrderGroup old);
     TagId := TagId old;
     Dependencies := keep_deps (Dependencies c) (Dependencies old);
     ServiceStartName := keep_text (ServiceStartName c) (ServiceStartName old);
     DisplayName := keep_text (DisplayName c) (DisplayName old);
     Password := "";
     Description := keep_text (Description c) (Description old) |}.

Lemma toString_keep s p old :
  short s → toString p = Ret old → toString (keep_ptr (ptr_of s) p) = Ret (keep_text s old).
Proof.
  intros [Hn Hl] Hp. unfold ptr_of, keep_text. case_bool_decide; [done|]. simpl.
  rewrite (UTF16ToString_StringToUTF16 _ s); [done|by apply StringToUTF16_ok|].
  rewrite length_app. simpl. lia.
Qed.

Lemma toStringSlice_keep ss p old :
  Forall (λ s, has_nul s = false) (elems ss) →
  Z.of_nat (length (block_units (nonempty (elems ss)))) < 2 ^ 24 →
  toStringSlice p = Ret old →
  toStringSlice (keep_ptr (toStringBlock (elems ss)) p) = Ret (keep_deps ss old).
Proof.
  intros Hn Hl Hp. unfold keep_deps. rewrite toStringBlock_units. apply nonempty_pieces in Hn.
  destruct (nonempty (elems ss)) as [|x xs]; [done|]. cbn [keep_ptr].
  rewrite block_units_blocks in *. rewrite (toStringSlice_blocks _ [] Hn Hl).
  rewrite <- list_fmap_compose. do 2 f_equal. apply list_fmap_ext. intros ? ? _.
  apply units_to_string_of.
Qed.

(** A change followed by a change of the description. *)
Definition after_update (c : stored) (k : Config) : stored :=
  Stored (changed (st_config c) (ServiceType k) (StartType k) (ErrorControl k)
            (ptr_of (BinaryPathName k)) (ptr_of (LoadOrderGroup k))
            (toStringBlock (elems (Dependencies k))) (ptr_of (ServiceStartName k))
            (ptr_of (DisplayName k)))
    {| sd_Description := keep_ptr (ptr_of (Description k)) (sd_Description (st_description c)) |}.

Lemma reads_after_update c old k : reads c old → fits k → reads (after_update c k) (updated old k).
Proof.
  unfold reads, updated, after_update, changed. simpl.
  intros (-> & -> & -> & -> & _ & H1 & H2 & H3 & H4 & H5 & H6) (F1 & F2 & F3 & F4 & F5 & _ & F6 & F7).
  split_and!; try done; try (by apply toString_keep). by apply toStringSlice_keep.
Qed.

Section Laws.
Context `{Win : Windows} `{HScm : !Scm}.

(** A query that follows the law returns its result after one or two calls. *)
Lemma query_twice_run {A} (query : Z → M (A * Z * option error)) (stays : st → Prop) need ok s :
  0 < need →
  (∀ len t, stays t → wp (query len) (λ o t', stays t' ∧ ∃ a l e, o = Ret (a, l, e) ∧
     if need <=? len then e = None ∧ ok a
     else e = Some (Errno ERROR_INSUFFICIENT_BUFFER) ∧ l = need) t) →
  stays s → wp (query_twice query) (λ o s', stays s' ∧ ∃ a, o = Ret a ∧ ok a) s.
Proof.
  intros Hneed Hq Hs. unfold query_twice, first_byte. change (1024 =? 0) with false. wp_go.
  eapply wp_mono; [by apply Hq|]. intros o s1 (Hs1 & a & l & e & -> & H1).
  destruct (need <=? 1024); destruct H1 as [-> H1]; [wp_go; eauto|].
  subst l. unfold insufficient_buffer. wp_go. rewrite Z.eqb_refl. simpl negb. cbv iota.
  rewrite (proj2 (Z.eqb_neq need 0)) by lia. wp_go.
  eapply wp_mono; [by apply Hq|]. intros o s2 (Hs2 & a2 & l & e & -> & H2).
  rewrite (proj2 (Z.leb_le need need)) in H2 by lia. destruct H2 as [-> H2]. wp_go. eauto.
Qed.

Lemma QueryServiceConfig_run hd c need len t :
  scm_stored (st_world t) hd = Some c ∧ scm_need (st_world t) hd = need →
  wp (QueryServiceConfig hd len) (λ o t',
    (scm_stored (st_world t') hd = Some c ∧ scm_need (st_world t') hd = need) ∧
    ∃ a l e, o = Ret (a, l, e) ∧
      if need <=? len then e = None ∧ config_copies (st_config c) a
      else e = Some (Errno ERROR_INSUFFICIENT_BUFFER) ∧ l = need) t.
Proof.
  intros [Hst Hneed]. unfold QueryServiceConfig. apply wp_bind, wp_syscall. intros rep w' E.
  destruct (scm_query _ _ _ _ _ _ E Hst) as (Hst' & Hn' & Ha). wp_go. rewrite Hn'.
  split; [done|]. unfold answers in Ha. rewrite Hneed in Ha. destruct (r_out rep) as [a l] eqn:Ho.
  eexists a, l, _. split; [done|]. destruct (need <=? len).
  - destruct Ha as [Hr Ha]. by zeqb.
  - destruct Ha as (Hr & He & Hl). rewrite He. by zeqb.
Qed.

Lemma QueryServiceConfig2_run hd c need len t :
  scm_stored (st_world t) hd = Some c ∧ scm_need2 (st_world t) hd = need →
  wp (QueryServiceConfig2 hd SERVICE_CONFIG_DESCRIPTION len) (λ o t',
    (scm_stored (st_world t') hd = Some c ∧ scm_need2 (st_world t') hd = need) ∧
    ∃ a l e, o = Ret (a, l, e) ∧
      if need <=? len
      then e = None ∧ copies (sd_Description (st_description c)) (sd_Description a)
      else e = Some (Errno ERROR_INSUFFICIENT_BUFFER) ∧ l = need) t.
Proof.
  intros [Hst Hneed]. unfold QueryServiceConfig2. apply wp_bind, wp_syscall. intros rep w' E.
  destruct (scm_query2 _ _ _ _ _ _ E Hst) as (Hst' & Hn' & Ha). wp_go. rewrite Hn'.
  split; [done|]. unfold answers in Ha. rewrite Hneed in Ha. destruct (r_out rep) as [a l] eqn:Ho.
  eexists a, l, _. split; [done|]. destruct (need <=? len).
  - destruct Ha as [Hr Ha]. by zeqb.
  - destruct Ha as (Hr & He & Hl). rewrite He. by zeqb.
Qed.

(** [Config] reads what is stored. *)
Lemma Config_run sv c k s :
  scm_stored (st_world s) (Handle sv) = Some c → reads c k →
  wp (Service_Config sv) (λ o s', o = Ret k ∧ scm_stored (st_world s') (Handle sv) = Some c) s.
Proof.
  intros Hst Hk. unfold Service_Config. apply wp_bind.
  eapply wp_mono; [eapply (query_twice_run _ _ _ _ _ (proj1 (proj1 (scm_need_range _ _))));
                   [intros; by apply QueryServiceConfig_run|done]|].
  intros o s1 ([Hst1 _] & p & -> & Hp). apply wp_bind.
  eapply wp_mono; [eapply (query_twice_run _ _ _ _ _ (proj1 (proj2 (scm_need_range _ _))));
                   [intros; by apply QueryServiceConfig2_run|done]|].
  intros o s2 ([Hst2 _] & d & -> & Hd).
  destruct Hp as (E1 & E2 & E3 & E4 & C1 & C2 & C3 & C4 & C5).
  destruct Hk as (K1 & K2 & K3 & K4 & K5 & T1 & T2 & T3 & T4 & T5 & T6).
  rewrite (toString_copies _ _ _ C1 T1), (toString_copies _ _ _ C2 T2), (toStringSlice_copies _ _ _ C3 T3),
    (toString_copies _ _ _ C4 T4), (toString_copies _ _ _ C5 T5), (toString_copies _ _ _ Hd T6).
  wp_go. split; [|done]. rewrite E1, E2, E3, E4, <- K1, <- K2, <- K3, <- K4, <- K5. by destruct k.
Qed.

(** A change that Windows has refused. *)
Definition refused (en : entry) : bool :=
  match en with
  | Entry (ChangeServiceConfigW _ _ _ _ _ _ _ _ _ _ _) rep
  | Entry (ChangeServiceConfig2W _ _ _) rep => r_ret rep =? 0
  | _ => false
  end.

(** [UpdateConfig] stores the configuration, or reports a refused change. *)
Lemma UpdateConfig_run sv c k s :
  scm_stored (st_world s) (Handle sv) = Some c → fits k →
  wp (UpdateConfig sv k) (λ o s', ∃ tr, makes s s' tr ∧
    if existsb refused tr then is_err o = true
    else o = Ret tt ∧ scm_stored (st_world s') (Handle sv) = Some (after_update c k)) s.
Proof.
  intros Hst ([N1 _] & [N2 _] & [N3 _] & [N4 _] & [N5 _] & N6 & _). unfold UpdateConfig.
  do 5 (apply wp_bind, wp_toPtr; [intros _|congruence]).
  unfold ChangeServiceConfig. apply wp_bind, wp_bind, wp_syscall. intros rep w' E.
  apply wp_check0; intros Hr.
  2: { eexists. split; [done|]. cbn [app existsb refused]. by zeqb. }
  pose proof (scm_change _ _ _ _ _ _ _ _ _ _ _ _ _ _ _ E Hst Hr) as Hst1.
  apply wp_updateDescription; [congruence|]. intros _ rep' w'' p E' s'. subst s' p.
  eexists. split; [by unfold makes; cbn; rewrite <- app_assoc|]. cbn [app existsb refused]. zeqb.
  destruct (Z.eqb_spec (r_ret rep') 0) as [Hr'|Hr']; [done|]. simpl.
  split; [done|]. by rewrite (scm_change2 _ _ _ _ _ _ E' Hst1 Hr').
Qed.

End Laws.

(** ** Properties *)
Section Properties.
Context `{Win : Windows} `{HScm : !Scm}.

(** C22: after [UpdateConfig], [Config] reads back the new configuration, unless
    Windows has refused a change, which [UpdateConfig] reports; provided that the new
    configuration fits (no NUL in any text, the password or a dependency; every text
    but the password under 4096 UTF-16 units; the block of dependencies under [1 << 24]
    units) and the configuration there before can be read by [Config]. Nothing is
    claimed beyond these limits. An empty text or list
    does not erase what was there, a text comes back with its invalid UTF-8 replaced, and
    neither the tag nor the password comes back. *)
Theorem UpdateConfig_Config sv c old k s :
  scm_stored (st_world s) (Handle sv) = Some c → reads c old → fits k →
  wp (attempt (UpdateConfig sv k)) (λ r s', ∃ tr, makes s s' tr ∧
    if existsb refused tr then ∃ e, r = Ret (inr e)
    else r = Ret (inl tt) ∧
      wp (Service_Config sv) (λ o _, o = Ret (updated old k)) s') s.
Proof.
  intros Hst Hold Hk. apply wp_attempt.
  eapply wp_mono; [by apply UpdateConfig_run|]. intros o s' (tr & Hm & H).
  destruct (existsb refused tr) eqn:Hr; destruct o as [[]|e|]; try done; try (by destruct H);
    (exists tr; split; [done|]); rewrite Hr; [by eexists|].
  destruct H as [_ Hst']. split; [done|].
  eapply wp_mono; [eapply Config_run; [exact Hst'|by apply reads_after_update]|].
  by intros ?? [-> _].
Qed.

End Properties.

(** ** A concrete manager

    It keeps one configuration, grants every change, and asks for 1400 bytes,
    more than the first buffer of [Config] has. *)
Definition new_config : QUERY_SERVICE_CONFIG :=
  {| qc_ServiceType := 0; qc_StartType := 0; qc_ErrorControl := 0; qc_BinaryPathName := None;
     qc_LoadOrderGroup := Some [0]; qc_TagId := 0; qc_Dependencies := Some [0];
     qc_ServiceStartName := Some (units_of "LocalSystem" ++ [0]);
     qc_DisplayName := Some (units_of "no name" ++ [0]) |}.

#[export] Instance ScmWindows : Windows := {|
  world := stored;
  call := λ p w,
    match p as p' return reply p' * stored with
    | ChangeServiceConfigW hd ty sty ec path group tag deps start pw display =>
        (Answer (p := ChangeServiceConfigW hd ty sty ec path group tag deps start pw display) 1 0 tt,
         Stored (changed (st_config w) ty sty ec path group deps start display) (st_description w))
    | ChangeServiceConfig2W hd lvl d =>
        (Answer (p := ChangeServiceConfig2W hd lvl d) 1 0 tt,
         Stored (st_config w)
           {| sd_Description := keep_ptr (sd_Description d) (sd_Description (st_description w)) |})
    | CreateServiceW mgr name display access ty sty ec path group tag deps start pw =>
        (Answer (p := CreateServiceW mgr name display access ty sty ec path group tag deps start pw) 9 0 tt,
         Stored (made new_config ty sty ec path group deps start display) {| sd_Description := None |})
    | QueryServiceConfigW hd len =>
        (if 1400 <=? len then Answer (p := QueryServiceConfigW hd len) 1 0 (st_config w, 1400)
         else Answer (p := QueryServiceConfigW hd len) 0 ERROR_INSUFFICIENT_BUFFER (no_config, 1400), w)
    | QueryServiceConfig2W hd lvl len =>
        (if 64 <=? len then Answer (p := QueryServiceConfig2W hd lvl len) 1 0 (st_description w, 64)
         else Answer (p := QueryServiceConfig2W hd lvl len) 0 ERROR_INSUFFICIENT_BUFFER
                ({| sd_Description := None |}, 64), w)
    | p' => (Answer 1 0 (zero_out p'), w)
    end;
  new_callback := λ w, (inl 4096, w);
  argv_at := λ _ _, None
|}.

Lemma copies_refl p : copies p p.
Proof. destruct p; [|done]. exists []. by rewrite app_nil_r. Qed.

#[export] Instance ScmWindows_Scm : Scm (Win := ScmWindows).
Proof.
  refine {| scm_stored := λ w _, Some w : option stored; scm_need := λ _ _, 1400;
            scm_need2 := λ _ _, 64 |}.
  - done.
  - intros * [= <- <-] [= <-] _. done.
  - intros * [= <- <-] [= <-] _. done.
  - intros * [= <- <-] [= <-]. unfold answers. repeat (split; [done|]).
    destruct (1400 <=? len); unfold config_copies; split_and!; try done; apply copies_refl.
  - intros * [= <- <-] [= <-]. unfold answers. repeat (split; [done|]).
    destruct (64 <=? len); split_and!; try done; apply copies_refl.
Defined.

(** A service as the installer leaves it. *)
Definition demo_stored : stored :=
  Stored {| qc_ServiceType := 16; qc_StartType := 4; qc_ErrorControl := 1;
            qc_BinaryPathName := Some (units_of "c:\demo.exe" ++ [0]);
            qc_LoadOrderGroup := Some [0]; qc_TagId := 0;
            qc_Dependencies := Some (block_units ["LanmanServer"; "W32Time"] ++ [0]);
            qc_ServiceStartName := Some (units_of "LocalSystem" ++ [0]);
            qc_DisplayName := Some (units_of "demo" ++ [0]) |}
    {| sd_Description := Some (units_of "just a test" ++ [0]) |}.
Definition demo_config : Config :=
  {| ServiceType := 16; StartType := 4; ErrorControl := 1; BinaryPathName := "c:\demo.exe";
     LoadOrderGroup := ""; TagId := 0; Dependencies := Some ["LanmanServer"; "W32Time"];
     ServiceStartName := "LocalSystem"; DisplayName := "demo"; Password := "";
     Description := "just a test" |}.
Definition demo_change : Config :=
  {| ServiceType := SERVICE_NO_CHANGE; StartType := 3; ErrorControl := 1; BinaryPathName := "";
     LoadOrderGroup := ""; TagId := 0; Dependencies := None; ServiceStartName := "";
     DisplayName := "demo service"; Password := "secret"; Description := "" |}.

Definition demo_sv : Service := {| Name := "demo"; Handle := 9 |}.
Definition demo_st : st := fresh (H := ScmWindows) demo_stored.

Lemma demo_reads : reads demo_stored demo_config.
Proof. unfold reads. split_and!; by vm_compute. Qed.
Lemma demo_fits : fits demo_change.
Proof. unfold fits, short. split_and!; by vm_compute. Qed.

Lemma UpdateConfig_Config_witness :
  updated demo_config demo_change
    = {| ServiceType := 16; StartType := 3; ErrorControl := 1; BinaryPathName := "c:\demo.exe";
         LoadOrderGroup := ""; TagId := 0; Dependencies := Some ["LanmanServer"; "W32Time"];
         ServiceStartName := "LocalSystem"; DisplayName := "demo service"; Password := "";
         Description := "just a test" |} ∧
  wp (attempt (UpdateConfig demo_sv demo_change)) (λ r s', ∃ tr, makes demo_st s' tr ∧
    if existsb refused tr then ∃ e, r = Ret (inr e)
    else r = Ret (inl tt) ∧
      wp (Service_Config demo_sv) (λ o _, o = Ret (updated demo_config demo_change)) s') demo_st.
Proof.
  split; [by vm_compute|].
  exact (UpdateConfig_Config demo_sv _ _ _ demo_st eq_refl demo_reads demo_fits).
Defined.
