(* ===== verification/MgrCreate.v ===== *)
(** * Package [mgr]: a new service reads back as it was created

    What Windows documents of CreateService, next to [Scm]: the class [ScmCreates];
    and the round trip from [CreateService] to [Config]. *)
From Stdlib Require Import ZArith Lia.
From stdpp Require Import base option list strings.
From S2P Require Import Prelude GoText Go WinConst Machine GoSyscall Script Winapi.
From S2P Require Import SvcService MgrText Mgr MgrScm.

Local Open Scope Z_scope.
Local Open Scope go_scope.

(** An empty text in memory, or none. *)
Definition blank (p : ptr16) : Prop := match p with None => True | Some mem => head mem = Some 0 end.

(** What a new service has where [CreateService] is given nil: no load order group, no
    dependencies, the account LocalSystem, some name to display, no description. *)
Definition defaults (c : stored) : Prop :=
  blank (qc_LoadOrderGroup (st_config c)) ∧ blank (qc_Dependencies (st_config c)) ∧
  qc_ServiceStartName (st_config c) = Some (units_of "LocalSystem" ++ [0]) ∧
  (∃ d, short d ∧ qc_DisplayName (st_config c) = Some (units_of d ++ [0])) ∧
  blank (sd_Description (st_description c)).

Class ScmCreates `{HScm : Scm} := {
  scm_create w m name display access ty sty ec path group deps start pw rep w' :
    call (CreateServiceW m name display access ty sty ec path group 0 deps start pw) w = (rep, w') →
    name ≠ None → path ≠ None → r_ret rep ≠ 0 →
    ∃ d, defaults d ∧
      scm_stored w' (r_ret rep)
        = Some (Stored (made (st_config d) ty sty ec path group deps start display)
                  (st_description d))
}.

Lemma toString_blank p : blank p → toString p = Ret "".
Proof. destruct p as [[|u mem]|]; simpl; [done| |done]. by intros [= ->]. Qed.

Lemma toStringSlice_blank p : blank p → ∃ ds, toStringSlice p = Ret ds ∧ elems ds = [].
Proof.
  destruct p as [[|u mem]|]; simpl; [done| |by exists None]. intros [= ->]. by exists (Some []).
Qed.

(** What [Config] finds in a service created with [c]: [deps], [display] and [tag] are
    what Windows has chosen. *)
Definition created (exepath : string) (c : Config) (deps : option (list string)) (display : string)
    (tag : Z) : Config :=
  {| ServiceType := SERVICE_WIN32_OWN_PROCESS;
     StartType := StartType (with_defaults exepath c);
     ErrorControl := ErrorControl (with_defaults exepath c);
     BinaryPathName := sanitize exepath;
     LoadOrderGroup := keep_text (LoadOrderGroup c) "";
     TagId := tag;
     Dependencies := keep_deps (Dependencies c) deps;
     ServiceStartName := keep_text (ServiceStartName c) "LocalSystem";
     DisplayName := keep_text (DisplayName c) display;
     Password := "";
     Description := keep_text (Description c) "" |}.

(** What is stored at the end. *)
Definition after_create (d : stored) (exepath : string) (c : Config) : stored :=
  Stored (made (st_config d) SERVICE_WIN32_OWN_PROCESS (StartType (with_defaults exepath c))
            (ErrorControl (with_defaults exepath c)) (ptr_of exepath) (ptr_of (LoadOrderGroup c))
            (toStringBlock (elems (Dependencies c))) (ptr_of (ServiceStartName c))
            (ptr_of (DisplayName c)))
    {| sd_Description := keep_ptr (ptr_of (Description c)) (sd_Description (st_description d)) |}.

Lemma ptr_of_some s : s ≠ "" → ptr_of s = Some (units_of s ++ [0]).
Proof. intros Hs. unfold ptr_of. by rewrite bool_decide_false. Qed.

Lemma toString_units d : short d → toString (Some (units_of d ++ [0])) = Ret (sanitize d).
Proof.
  intros [Hn Hl]. simpl. rewrite (UTF16ToString_StringToUTF16 _ d); [done|by apply StringToUTF16_ok|].
  rewrite length_app. simpl. lia.
Qed.

Lemma reads_after_create d exepath c :
  defaults d → exepath ≠ "" → fits (with_defaults exepath c) →
  ∃ deps display tag, elems deps = [] ∧ reads (after_create d exepath c) (created exepath c deps display tag).
Proof.
  intros (D1 & D2 & D3 & (dn & Hdn & D4) & D5) Hp (F1 & F2 & F3 & F4 & F5 & _ & F6 & F7). simpl in *.
  destruct (toStringSlice_blank _ D2) as (deps & Hdeps & He).
  exists deps, (sanitize dn), (qc_TagId (st_config d)). split; [done|].
  unfold reads, created, after_create, made. simpl. split_and!; try done.
  - rewrite ptr_of_some by done. by apply toString_units.
  - apply toString_keep; [done|by apply toString_blank].
  - by apply toStringSlice_keep.
  - apply toString_keep; [done|]. rewrite D3. by vm_compute.
  - apply toString_keep; [done|]. rewrite D4. by apply toString_units.
  - apply toString_keep; [done|by apply toString_blank].
Qed.

(** A call that Windows has refused. *)
Definition refused_creation (en : entry) : bool :=
  match en with
  | Entry (CreateServiceW _ _ _ _ _ _ _ _ _ _ _ _ _) rep => r_ret rep =? 0
  | _ => refused en
  end.

Section Properties.
Context `{Win : Windows} `{HScm : !Scm} `{!ScmCreates}.

Lemma CreateService_run m nm exepath c s :
  nm ≠ "" → exepath ≠ "" → has_nul nm = false → fits (with_defaults exepath c) →
  wp (Mgr_CreateService m nm exepath c) (λ o s', ∃ tr, makes s s' tr ∧
    if existsb refused_creation tr then is_err o = true
    else ∃ sv d, o = Ret sv ∧ Name sv = nm ∧ defaults d ∧
      scm_stored (st_world s') (Handle sv) = Some (after_create d exepath c)) s.
Proof.
  intros Hnm Hp N0 ([N1 _] & [N2 _] & [N3 _] & [N4 _] & [N5 _] & N6 & _). simpl in *.
  unfold Mgr_CreateService. do 6 (apply wp_bind, wp_toPtr; [intros _|simpl; congruence]).
  unfold CreateService. apply wp_bind, wp_bind, wp_syscall. intros rep w' E.
  apply wp_check0; intros Hr.
  2: { eexists. split; [done|]. cbn [app existsb refused_creation]. by zeqb. }
  destruct (scm_create _ _ _ _ _ _ _ _ _ _ _ _ _ _ _ E) as (d & Hd & Hst);
    [by rewrite ptr_of_some..|done|].
  pose proof (proj2 (Z.eqb_neq _ _) Hr) as Hr0. apply wp_bind. case_bool_decide as Hde; simpl in Hde.
  - wp_go. eexists. split; [done|]. cbn [app existsb refused_creation]. zeqb.
    exists {| Name := nm; Handle := r_ret rep |}, d. split_and!; [done..|].
    etrans; [exact Hst|]. unfold after_create. rewrite Hde. simpl. by destruct (st_description d).
  - apply wp_updateDescription; [simpl; congruence|]. intros _ rep' w'' p E' s'. subst s' p.
    destruct (r_ret rep' =? 0) eqn:Hr'; wp_go;
      (eexists; split; [by unfold makes; cbn; rewrite <- app_assoc|]);
      cbn [app existsb refused_creation refused];
      match goal with |- context [?x || (?y || false)] =>
        change x with (r_ret rep =? 0); change y with (r_ret rep' =? 0) end;
      rewrite Hr0, Hr'; [done|].
    apply Z.eqb_neq in Hr'.
    exists {| Name := nm; Handle := r_ret rep |}, d. split_and!; [done..|].
    exact (scm_change2 _ _ _ _ _ _ E' Hst Hr').
Qed.

(** C24: a service that [CreateService] has created reads back, with [Config], as it was
    created, provided that the name and the path are not empty, that the name has no
    NUL, and that the path and the configuration fit (no NUL in any text, the password or a
    dependency; every text but the password under 4096 UTF-16 units; the block of
    dependencies under [1 << 24] units). It has its own process, the start type and the
    error control with their defaults, the path given (not that of the configuration),
    every text with its invalid UTF-8 replaced, and what Windows chooses for a text or
    list left empty. Under these conditions [CreateService] fails when Windows has refused
    a call, and only then. *)
Theorem CreateService_Config m nm exepath c s :
  nm ≠ "" → exepath ≠ "" → has_nul nm = false → fits (with_defaults exepath c) →
  wp (attempt (Mgr_CreateService m nm exepath c)) (λ r s', ∃ tr, makes s s' tr ∧
    if existsb refused_creation tr then ∃ e, r = Ret (inr e)
    else ∃ sv deps display tag, r = Ret (inl sv) ∧ Name sv = nm ∧ elems deps = [] ∧
      wp (Service_Config sv) (λ o _, o = Ret (created exepath c deps display tag)) s') s.
Proof.
  intros Hnm Hp N0 Hf. apply wp_attempt.
  eapply wp_mono; [by apply CreateService_run|]. intros o s' (tr & Hm & Ho).
  destruct (existsb refused_creation tr) eqn:Hr.
  - destruct o as [?|e|p]; try done. exists tr. rewrite Hr. eauto.
  - destruct Ho as (sv & d & -> & Hsv & Hd & Hst).
    destruct (reads_after_create d exepath c Hd Hp Hf) as (deps & display & tag & He & Hrd).
    exists tr. split; [done|]. rewrite Hr. exists sv, deps, display, tag. split_and!; [done..|].
    eapply wp_mono; [by eapply Config_run|]. by intros ?? [-> _].
Qed.

End Properties.

(** ** On the concrete manager *)
#[export] Instance ScmWindows_ScmCreates : ScmCreates (HScm := ScmWindows_Scm).
Proof.
  refine {| scm_create := _ |}. intros * [= <- <-] _ _ _.
  exists (Stored new_config {| sd_Description := None |}). split; [|done].
  split_and!; [done..| |done]. exists "no name". split; [by split|done].
Defined.

(** The path of the configuration is not used, the start type left 0 is manual. *)
Definition demo_new : Config :=
  {| ServiceType := 0; StartType := 0; ErrorControl := 3; BinaryPathName := "c:\other.exe";
     LoadOrderGroup := ""; TagId := 0; Dependencies := Some ["W32Time"; ""; "Tcpip"];
     ServiceStartName := ""; DisplayName := "demo service"; Password := ""; Description := "a demo" |}.

Lemma CreateService_Config_witness :
  created "c:\demo.exe" demo_new None "" 0
    = {| ServiceType := 16; StartType := 3; ErrorControl := 3; BinaryPathName := "c:\demo.exe";
         LoadOrderGroup := ""; TagId := 0; Dependencies := Some ["W32Time"; "Tcpip"];
         ServiceStartName := "LocalSystem"; DisplayName := "demo service"; Password := "";
         Description := "a demo" |} ∧
  wp (attempt (Mgr_CreateService {| m_Handle := 3 |} "demo" "c:\demo.exe" demo_new))
    (λ r s', ∃ tr, makes demo_st s' tr ∧
      if existsb refused_creation tr then ∃ e, r = Ret (inr e)
      else ∃ sv deps display tag, r = Ret (inl sv) ∧ Name sv = "demo" ∧ elems deps = [] ∧
        wp (Service_Config sv) (λ o _, o = Ret (created "c:\demo.exe" demo_new deps display tag)) s') demo_st.
Proof.
  split; [by vm_compute|].
  apply (CreateService_Config {| m_Handle := 3 |} "demo" "c:\demo.exe" demo_new demo_st); [done..|].
  unfold fits, short. split_and!; try by vm_compute. by repeat constructor.
Defined.
