(* ===== verification/Resources.v ===== *)
(** * Acquired and released resources along a trace

    Several functions open handles and release them with [defer]. [balanced acq
    rel tr] says that along the calls [tr] every resource acquired is released
    exactly once, the last one first; a deferred release around a balanced
    computation is balanced, whether the computation returns, fails or panics. *)
From Stdlib Require Import ZArith Lia.
From stdpp Require Import base option list strings.
From S2P Require Import Prelude GoText Go WinConst Machine GoSyscall.

Section Balanced.
Context {R : Type} (acq rel : entry → option R).

Definition balanced (tr : list entry) : Prop := omap rel tr = rev (omap acq tr).

Lemma balanced_nil : balanced [].
Proof. done. Qed.

Lemma balanced_quiet tr : omap rel tr = [] → omap acq tr = [] → balanced tr.
Proof. unfold balanced. by intros -> ->. Qed.

Lemma balanced_wrap en tr en' r :
  acq en = Some r → rel en = None → acq en' = None → rel en' = Some r →
  balanced tr → balanced (en :: tr ++ [en']).
Proof.
  unfold balanced. intros Ha Hr Ha' Hr' Ht. cbn [omap list_omap].
  rewrite Ha, Hr, !omap_app, Ht. cbn [omap list_omap]. rewrite Ha', Hr'. cbn [rev].
  by rewrite app_nil_r.
Qed.

Context `{Windows}.

(** [balanced] with a property of the outcome and of what else was done. *)
Definition ends {A} (Q : out A → list entry → Prop) (s : st) (o : out A) (s' : st) : Prop :=
  ∃ tr, makes s s' tr ∧ balanced tr ∧ Q o tr.

Lemma ends_nil {A} (Q : out A → list entry → Prop) o s : Q o [] → ends Q s o s.
Proof. exists []. split; [apply makes_nil|]. by split; [apply balanced_nil|]. Qed.

(** The release [c] of what the call [en] has acquired, deferred around [m]. *)
Lemma wp_balanced {A} en r (c : go st unit) (m : go st A) Q s :
  acq en = Some r → rel en = None →
  (∀ Q' t, (∀ en' w, acq en' = None → rel en' = Some r →
      Q' (Ret tt) (St w (st_trace t ++ [en']) (st_vars t))) → wp c Q' t) →
  wp m (ends (λ o tr, ∀ en', acq en' = None → rel en' = Some r → Q o (en :: tr ++ [en'])) s) s →
  wp (defer c m) (λ o s', ∃ tr, makes s s' tr ∧ balanced (en :: tr) ∧ Q o (en :: tr)) s.
Proof.
  intros Ha Hr Hc Hm. apply wp_defer. eapply wp_mono; [exact Hm|].
  intros o s1 (tr & Hm1 & Hb & HQ). apply Hc. intros en' w Ha' Hr'.
  exists (tr ++ [en']). split; [|split].
  - unfold makes in *. cbn. by rewrite Hm1, app_assoc.
  - by eapply balanced_wrap.
  - by apply HQ.
Qed.

(** Past the acquiring call. *)
Lemma ends_cons {A} (Q : out A → list entry → Prop) en w v s o s' :
  (∃ tr, makes (St w (st_trace s ++ [en]) v) s' tr ∧ balanced (en :: tr) ∧ Q o (en :: tr)) →
  ends Q s o s'.
Proof.
  intros (tr & Hm & Hb & HQ). exists (en :: tr). split; [|done].
  unfold makes in *. rewrite Hm. cbn. by rewrite <- app_assoc.
Qed.

(** An acquiring call that succeeded, with its release deferred around [m]. *)
Lemma wp_acquire {A} en r (c : go st unit) (m : go st A) Q w v s :
  acq en = Some r → rel en = None →
  (∀ Q' t, (∀ en' w, acq en' = None → rel en' = Some r →
      Q' (Ret tt) (St w (st_trace t ++ [en']) (st_vars t))) → wp c Q' t) →
  (let s1 := St w (st_trace s ++ [en]) v in
   wp m (ends (λ o tr, ∀ en', acq en' = None → rel en' = Some r → Q o (en :: tr ++ [en'])) s1) s1) →
  wp (defer c m) (ends Q s) (St w (st_trace s ++ [en]) v).
Proof.
  intros Ha Hr Hc Hm. eapply wp_mono; [by apply (wp_balanced en r c m Q)|].
  intros o s'. apply ends_cons.
Qed.

(** One that failed. *)
Lemma ends_failed {A} (Q : out A → list entry → Prop) en w v s o :
  acq en = None → rel en = None → Q o [en] → ends Q s o (St w (st_trace s ++ [en]) v).
Proof.
  intros Ha Hr HQ. exists [en]. split; [done|]. split; [|done].
  apply balanced_quiet; cbn [omap list_omap]; by rewrite ?Ha, ?Hr.
Qed.

(** A weaker postcondition. *)
Lemma wp_ends_mono {A} (Q Q' : out A → list entry → Prop) (m : go st A) s :
  wp m (ends Q s) s → (∀ o tr, Q o tr → Q' o tr) → wp m (ends Q' s) s.
Proof.
  intros Hm HQ. eapply wp_mono; [exact Hm|]. intros o s' (tr & ? & ? & ?). exists tr. auto.
Qed.

End Balanced.

(** ** Calls of one kind

    [calls_only kind m] says that every call [m] makes, on whatever path, is of the
    kind. It is closed under the constructs of Go, so that [calls_of_kind] proves
    it by the shape of the program. *)
Section Kind.
Context `{Windows} (kind : api → bool).

Definition calls_only {A} (m : M A) : Prop :=
  ∀ s, wp m (λ _ s', ∃ tr, makes s s' tr ∧ forallb kind (calls tr) = true) s.

(** A computation that makes no call. *)
Lemma calls_none {A} (m : M A) : (∀ s, st_trace (m s).2 = st_trace s) → calls_only m.
Proof. intros Hm s. exists []. split; [|done]. unfold makes. by rewrite Hm, app_nil_r. Qed.

Lemma calls_ret {A} (a : A) : calls_only (ret a).
Proof. by apply calls_none. Qed.
Lemma calls_err {A} e : calls_only (err (A := A) e).
Proof. by apply calls_none. Qed.
Lemma calls_throw {A} p : calls_only (throw (A := A) p).
Proof. by apply calls_none. Qed.
Lemma calls_lift {A} (o : out A) : calls_only (lift o).
Proof. by apply calls_none. Qed.
Lemma calls_get : calls_only get.
Proof. by apply calls_none. Qed.

Lemma calls_syscall p : kind p = true → calls_only (syscall p).
Proof.
  intros Hp s. apply wp_syscall. intros rep w' _. exists [Entry p rep]. split; [done|].
  simpl. by rewrite Hp.
Qed.

(** Two parts one after the other. *)
Lemma makes_kind s s1 s2 :
  (∃ tr, makes s s1 tr ∧ forallb kind (calls tr) = true) →
  (∃ tr, makes s1 s2 tr ∧ forallb kind (calls tr) = true) →
  ∃ tr, makes s s2 tr ∧ forallb kind (calls tr) = true.
Proof.
  intros (tr & Hm & Hk) (tr' & Hm' & Hk'). exists (tr ++ tr'). split; [by eapply makes_trans|].
  by rewrite calls_app, forallb_app, Hk, Hk'.
Qed.

Lemma calls_bind {A B} (m : M A) (k : A → M B) :
  calls_only m → (∀ a, calls_only (k a)) → calls_only (bind m k).
Proof.
  intros Hm Hk s. apply wp_bind. eapply wp_mono; [apply Hm|]. intros [a|e|p] s1 H1; try done.
  eapply wp_mono; [apply Hk|]. intros o s2. by apply makes_kind.
Qed.
Lemma calls_attempt {A} (m : M A) : calls_only m → calls_only (attempt m).
Proof. intros Hm s. apply wp_attempt. eapply wp_mono; [apply Hm|]. intros [] s1 H1; exact H1. Qed.
Lemma calls_ignore {A} (m : M A) : calls_only m → calls_only (ignore m).
Proof. intros Hm s. apply wp_ignore. eapply wp_mono; [apply Hm|]. intros [] s1 H1; exact H1. Qed.
Lemma calls_defer {A} c (m : M A) : calls_only c → calls_only m → calls_only (defer c m).
Proof.
  intros Hc Hm s. apply wp_defer. eapply wp_mono; [apply Hm|]. intros o s1 H1.
  eapply wp_mono; [apply Hc|]. intros o' s2 H2. destruct o'; exact (makes_kind _ _ _ H1 H2).
Qed.
Lemma calls_forever {A B} n (body : A → M (A + B)) a :
  (∀ a, calls_only (body a)) → calls_only (forever n body a).
Proof.
  intros Hb. revert a. induction n as [|n IH]; intros a; [by apply calls_ret|].
  apply calls_bind; [apply Hb|]. intros [a'|b]; [apply IH|apply calls_ret].
Qed.

(** The kind, for a trace already known. *)
Lemma wp_calls_only {A} (m : M A) (Q : out A → st → Prop) s :
  calls_only m → wp m Q s →
  wp m (λ o s', Q o s' ∧ ∃ tr, makes s s' tr ∧ forallb kind (calls tr) = true) s.
Proof. intros Hm HQ. by apply wp_and, Hm. Qed.

End Kind.

Lemma calls_weaken `{Windows} (kind kind' : api → bool) {A} (m : M A) :
  calls_only kind m → (∀ p, kind p = true → kind' p = true) → calls_only kind' m.
Proof.
  intros Hm Hk s. eapply wp_mono; [apply Hm|]. intros o s' (tr & Hm' & Ht). exists tr.
  split; [done|]. rewrite forallb_forall in Ht |- *. auto.
Qed.

Create HintDb kind discriminated.
#[export] Hint Resolve calls_ret calls_err calls_throw calls_lift calls_get calls_attempt
  calls_ignore calls_defer : kind.

Ltac calls_of_kind :=
  repeat (intros; lazymatch goal with
    | |- calls_only _ (bind _ _) => apply calls_bind
    | |- calls_only _ (attempt _) => apply calls_attempt
    | |- calls_only _ (ignore _) => apply calls_ignore
    | |- calls_only _ (defer _ _) => apply calls_defer
    | |- calls_only _ (forever _ _ _) => apply calls_forever
    | |- calls_only _ (syscall _) => by apply calls_syscall
    | |- calls_only _ (match ?x with _ => _ end) => destruct x
    | |- calls_only _ _ => solve [eauto with kind]
    end).

(** Conversions of texts and of answers make no call. *)
Section Conversions.
Context `{Windows} (kind : api → bool).

Lemma calls_check0 {p A} (r : reply p) (v : A) : calls_only kind (check0 r v).
Proof. unfold check0. calls_of_kind. Qed.
Lemma calls_check_regerrno {p A} (r : reply p) (v : A) : calls_only kind (check_regerrno r v).
Proof. unfold check_regerrno. calls_of_kind. Qed.
Lemma calls_StringToUTF16Ptr s : calls_only kind (StringToUTF16Ptr s).
Proof. unfold StringToUTF16Ptr. calls_of_kind. Qed.
Lemma calls_set_vars f : calls_only kind (set_vars f).
Proof. by apply calls_none. Qed.

End Conversions.
#[export] Hint Resolve calls_check0 calls_check_regerrno calls_StringToUTF16Ptr calls_set_vars : kind.

(** ** The stack of resources held

    [unwind held tr] replays a trace: a resource acquired is pushed, a resource
    released must be the one on top. [stacked held m held'] is the triple of the
    discipline: from any state in which [held] are held, [m] ends, however it
    ends, with [held' o] held. *)
Section Stack.
Context {R : Type} `{EqDecision R} (acq rel : entry → option R).

Fixpoint unwind (held : list R) (tr : list entry) : option (list R) :=
  match tr with
  | [] => Some held
  | en :: tr =>
    match acq en, rel en, held with
    | Some r, _, _ => unwind (r :: held) tr
    | None, None, _ => unwind held tr
    | None, Some r, r' :: held => if decide (r = r') then unwind held tr else None
    | None, Some r, [] => None
    end
  end.

(** Everything acquired is released, the last one first. *)
Definition nested (tr : list entry) : Prop := ∀ held, unwind held tr = Some held.

Lemma unwind_app held tr tr' :
  unwind held (tr ++ tr') = held' ← unwind held tr; unwind held' tr'.
Proof.
  revert held. induction tr as [|en tr IH]; intros held; [done|]. cbn [app unwind].
  destruct (acq en), (rel en); [apply IH..| |apply IH]. destruct held; [done|].
  case_decide; [apply IH|done].
Qed.

(** What is acquired is what is released. *)
Lemma unwind_balance held tr held' :
  (∀ en, acq en ≠ None → rel en = None) →
  unwind held tr = Some held' → held ++ omap acq tr ≡ₚ held' ++ omap rel tr.
Proof.
  intros Hone. revert held. induction tr as [|en tr IH]; intros held; cbn [unwind omap list_omap].
  { by intros [= ->]. }
  destruct (acq en) as [r|] eqn:Ha.
  - rewrite (Hone en) by congruence. intros E%IH. rewrite <- E. symmetry. apply Permutation_middle.
  - destruct (rel en) as [r|]; [|apply IH]. destruct held as [|r' held]; [done|].
    case_decide; [subst r'|done]. intros E%IH. by rewrite <- Permutation_middle, <- E.
Qed.

Context `{Windows}.

Definition stacked {A} (held : list R) (m : M A) (held' : out A → list R) : Prop :=
  ∀ s, wp m (λ o s', ∃ tr, makes s s' tr ∧ unwind held tr = Some (held' o)) s.

(** [m] gives back whatever it takes. *)
Definition closes {A} (m : M A) : Prop := ∀ held, stacked held m (λ _, held).

(** [m] succeeds with the resource [f x] held, or without one, and fails with none. *)
Definition opens {X} (m : M X) (f : X → option R) : Prop :=
  ∀ held, stacked held m (λ o, match o with
                               | Ret x => match f x with Some r => r :: held | None => held end
                               | _ => held
                               end).

Definition gives_back {A} (c : M A) (r : R) : Prop := ∀ held, stacked (r :: held) c (λ _, held).

Lemma stacked_trans held held1 held2 s s1 s2 :
  (∃ tr, makes s s1 tr ∧ unwind held tr = Some held1) →
  (∃ tr, makes s1 s2 tr ∧ unwind held1 tr = Some held2) →
  ∃ tr, makes s s2 tr ∧ unwind held tr = Some held2.
Proof.
  intros (tr & Hm & Hu) (tr' & Hm' & Hu'). exists (tr ++ tr'). split; [by eapply makes_trans|].
  by rewrite unwind_app, Hu.
Qed.

Lemma closes_quiet {A} (m : M A) :
  (∀ s, wp m (λ _ s', ∃ tr, makes s s' tr ∧ omap acq tr = [] ∧ omap rel tr = []) s) → closes m.
Proof.
  intros Hm held s. eapply wp_mono; [apply Hm|]. intros o s' (tr & Hmk & Ha & Hr). exists tr.
  split; [done|]. clear Hmk. induction tr as [|en tr IH]; [done|]. cbn [omap list_omap unwind] in *.
  destruct (acq en), (rel en); try done. by apply IH.
Qed.

Lemma stacked_bind {A B} held held' (m : M A) (k : A → M B) (f : A → list R) :
  stacked held m (λ o, match o with Ret a => f a | _ => held' end) →
  (∀ a, stacked (f a) (k a) (λ _, held')) → stacked held (bind m k) (λ _, held').
Proof.
  intros Hm Hk s. apply wp_bind. eapply wp_mono; [apply Hm|]. intros [a|e|p] s1 H1; try done.
  eapply wp_mono; [apply Hk|]. intros o s2 H2. exact (stacked_trans _ _ _ _ _ _ H1 H2).
Qed.

Lemma closes_bind {A B} (m : M A) (k : A → M B) :
  closes m → (∀ a, closes (k a)) → closes (bind m k).
Proof.
  intros Hm Hk held. apply (stacked_bind _ _ _ _ (λ _, held)); [|intros a; apply Hk].
  intros s. eapply wp_mono; [apply (Hm held)|]. by intros [].
Qed.

(** A resource opened by [m] and given back by what follows. *)
Lemma closes_open {X B} (m : M X) (f : X → option R) (k : X → M B) :
  opens m f →
  (∀ x, match f x with Some r => gives_back (k x) r | None => closes (k x) end) →
  closes (bind m k).
Proof.
  intros Hm Hk held.
  apply (stacked_bind _ _ _ _ (λ x, match f x with Some r => r :: held | None => held end));
    [apply Hm|]. intros x. specialize (Hk x). destruct (f x); apply Hk.
Qed.

Lemma gives_back_defer {A} (c : go st unit) (m : M A) r :
  gives_back c r → closes m → gives_back (defer c m) r.
Proof.
  intros Hc Hm held s. apply wp_defer. eapply wp_mono; [apply (Hm (r :: held))|]. intros o s1 H1.
  eapply wp_mono; [apply Hc|]. intros o' s2 H2. destruct o'; exact (stacked_trans _ _ _ _ _ _ H1 H2).
Qed.

Lemma gives_back_bind {A B} (c : M A) (k : A → M B) r :
  gives_back c r → (∀ a, closes (k a)) → gives_back (bind c k) r.
Proof.
  intros Hc Hk held. apply (stacked_bind _ _ _ _ (λ _, held)); [|intros a; apply Hk].
  intros s. eapply wp_mono; [apply (Hc held)|]. by intros [].
Qed.

Lemma stacked_attempt {A} held (m : M A) held' (f : A + error → list R) p :
  stacked held m held' → (∀ a, held' (Ret a) = f (inl a)) → (∀ e, held' (Err e) = f (inr e)) →
  (∀ q, held' (Panic q) = p) →
  stacked held (attempt m) (λ o, match o with Ret x => f x | _ => p end).
Proof.
  intros Hm H1 H2 H3 s. apply wp_attempt. eapply wp_mono; [apply Hm|].
  intros [a|e|q] s' (tr & Hmk & Hu); exists tr; [rewrite <- H1|rewrite <- H2|rewrite <- (H3 q)]; done.
Qed.

Lemma opens_attempt {X} (m : M X) (f : X → option R) :
  opens m f → opens (attempt m) (λ x, match x with inl x => f x | inr _ => None end).
Proof.
  intros Hm held. apply (stacked_attempt _ _ _ (λ x, match match x with inl x => f x | inr _ => None end
    with Some r => r :: held | None => held end) held (Hm held)); done.
Qed.

Lemma closes_attempt {A} (m : M A) : closes m → closes (attempt m).
Proof.
  intros Hm held s. pose proof (stacked_attempt held m _ (λ _, held) held (Hm held)) as Ha.
  eapply wp_mono; [by apply Ha|]. by intros [].
Qed.

Lemma closes_ignore {A} (m : M A) : closes m → closes (ignore m).
Proof.
  intros Hm held s. apply wp_ignore. eapply wp_mono; [apply Hm|]. intros [] s1 H1; exact H1.
Qed.

Lemma gives_back_ignore {A} (c : M A) r : gives_back c r → gives_back (ignore c) r.
Proof.
  intros Hc held s. apply wp_ignore. eapply wp_mono; [apply Hc|]. intros [] s1 H1; exact H1.
Qed.

Lemma closes_forever {A B} n (body : A → M (A + B)) a :
  (∀ a, closes (body a)) → closes (forever n body a).
Proof.
  intros Hb. revert a. induction n as [|n IH]; intros a.
  - intros held s. exists []. by split; [apply makes_nil|].
  - apply closes_bind; [apply Hb|]. intros [a'|b]; [apply IH|].
    intros held s. exists []. by split; [apply makes_nil|].
Qed.

(** The call that opens, and what may stand around it. *)
Lemma opens_syscall {X} p (k : reply p → M X) f :
  (∀ rep s, ∃ o, k rep s = (o, s) ∧
     acq (Entry p rep) = match o with Ret x => f x | _ => None end ∧ rel (Entry p rep) = None) →
  opens (bind (syscall p) k) f.
Proof.
  intros Hk held s. apply wp_bind, wp_syscall. intros rep w' _.
  destruct (Hk rep (St w' (st_trace s ++ [Entry p rep]) (st_vars s))) as (o & E & Ha & Hr).
  unfold wp. rewrite E. exists [Entry p rep]. split; [done|]. cbn [unwind fst]. rewrite Ha.
  destruct o as [x|e|q]; simpl; [destruct (f x)| |]; by rewrite ?Hr.
Qed.

Lemma opens_bind {A X} (m : M A) (k : A → M X) f :
  closes m → (∀ a, opens (k a) f) → opens (bind m k) f.
Proof.
  intros Hm Hk held s. apply wp_bind. eapply wp_mono; [apply (Hm held)|]. intros [a|e|p] s1 H1; try done.
  eapply wp_mono; [apply (Hk a held)|]. intros o s2 H2. exact (stacked_trans _ _ _ _ _ _ H1 H2).
Qed.

Lemma opens_ret {X Y} (m : M X) f (g : X → Y) f' :
  opens m f → (∀ x, f x = f' (g x)) → opens (bind m (λ x, ret (g x))) f'.
Proof.
  intros Hm Hf held s. apply wp_bind. eapply wp_mono; [apply (Hm held)|]. intros [x|e|p] s1 H1; try done.
  apply wp_ret. by rewrite <- Hf.
Qed.

Lemma gives_back_syscall {A} p (k : reply p → M A) r :
  (∀ rep s, (k rep s).2 = s ∧ acq (Entry p rep) = None ∧ rel (Entry p rep) = Some r) →
  gives_back (bind (syscall p) k) r.
Proof.
  intros Hk held s. apply wp_bind, wp_syscall. intros rep w' _.
  destruct (Hk rep (St w' (st_trace s ++ [Entry p rep]) (st_vars s))) as (E & Ha & Hr).
  unfold wp. rewrite E. exists [Entry p rep]. split; [done|]. cbn [unwind]. rewrite Ha, Hr.
  by rewrite decide_True by done.
Qed.

End Stack.

Create HintDb closes discriminated.
#[export] Hint Resolve closes_bind closes_attempt closes_ignore closes_forever
  gives_back_defer gives_back_ignore : closes.
