(* ===== verification/SvcEntry.v ===== *)
(** * The entry point, and [Run] as its own thread sees it

    svc/go13.go and svc/go12.c: how [Run] finds the address of the assembly
    [servicemain]. Then [Run] as a whole: the set-up, and the call that hands the
    thread to Windows until the service has stopped; what the other threads do
    in the meantime is [SvcSystem]. *)
From Stdlib Require Import ZArith Lia.
From stdpp Require Import base option list strings.
From S2P Require Import Prelude GoText Go WinConst Machine GoSyscall Script Winapi.
From S2P Require Import SvcEvent SvcService SvcAsm Resources.

Local Open Scope Z_scope.
Local Open Scope go_scope.

(** ** go13.go *)

(** [^uintptr(0)] *)
Definition all_ones (a : arch) : Z := 2 ^ word_bits a - 1.

Definition ptrSize (a : arch) : Z := Z.shiftl 4 (Z.shiftr (all_ones a) 63).

Definition add (a : arch) (p x : Z) : Z := wrap (word_bits a) (p + x).

Section Memory.
(** The words of memory; [None] where nothing is mapped. *)
Context (a : arch) (load : Z → option Z).

Definition deref (p : Z) : out Z :=
  match load p with Some v => Ret v | None => Panic memory_fault end.

(** [f] is the address of the argument, an interface value. *)
Definition funcPC (f : Z) : out Z :=
  match deref (add a f (ptrSize a)) with
  | Ret p => deref p
  | o => o
  end.

(** [f] is where the conversion of [servicemain] to an interface puts it. *)
Definition getServiceMain (f : Z) : out Z := funcPC f.

(** The layout the Go runtime (from 1.3 on) gives a function in an interface: the
    type, then the function value, which points at the entry point. *)
Record func_in_interface (f entry : Z) := {
  fi_type : Z;
  fi_func : Z;
  fi_aligned : f mod ptrSize a = 0 ∧ in_range (word_bits a) f;
  fi_type_at : load f = Some fi_type;
  fi_func_at : load (f + ptrSize a) = Some fi_func;
  fi_entry_at : load fi_func = Some entry
}.

(** The size of a word in bytes, on both architectures. *)
Lemma ptrSize_word : 8 * ptrSize a = word_bits a.
Proof. by destruct a. Qed.

(** The second word of an aligned pair never wraps around, unless the pair is the
    last word of the address space. *)
Lemma add_second_word f :
  f mod ptrSize a = 0 → in_range (word_bits a) f → f + ptrSize a ≠ 2 ^ word_bits a →
  add a f (ptrSize a) = f + ptrSize a.
Proof.
  intros Hal Hf Hend. unfold add. apply wrap_small. unfold in_range in *.
  apply Z.mod_divide in Hal as [k ->]; [|by destruct a].
  destruct a; [change (ptrSize AMD64) with 8 in *; change (word_bits AMD64) with 64 in *
              |change (ptrSize I386) with 4 in *; change (word_bits I386) with 32 in *]; lia.
Qed.

(** [funcPC] returns the entry point of the function it is given: the word
    behind the type is the function value, whose first word is the address of the
    code. *)
Theorem funcPC_entry f entry :
  func_in_interface f entry → f + ptrSize a ≠ 2 ^ word_bits a → getServiceMain f = Ret entry.
Proof.
  intros [ty fn [Hal Hf] _ Hfn He] Hend. unfold getServiceMain, funcPC, deref.
  by rewrite add_second_word, Hfn, He.
Qed.

End Memory.

(** ** go12.c, for the versions of Go before 1.3 *)
Definition go12_getServiceMain (a : arch) (servicemain : Z) : Z := wrap (word_bits a) servicemain.

(** ** service.go: [Run] *)
Section Run.
Context `{Windows}.

Definition Run (svcmain : Z) (name : string) : M unit :=
  let! (tid, s, t) := Run_prepare svcmain name in
  Run_dispatch t.

End Run.

(** The dispatch tables handed to Windows, and whether it accepted them. *)
Definition dispatch (en : entry) : option (list SERVICE_TABLE_ENTRY * bool) :=
  match en with
  | Entry (StartServiceCtrlDispatcherW t) rep => Some (t, negb (r_ret rep =? 0))
  | _ => None
  end.

(** The calls of the set-up. *)
Definition setup_call (p : api) : bool :=
  match p with CreateEventW _ _ _ _ | CloseHandleP _ | GetCurrentThreadIdP => true | _ => false end.

Lemma setup_no_dispatch tr : forallb setup_call (calls tr) = true → omap dispatch tr = [].
Proof.
  induction tr as [|[p rep] tr IH]; [done|]. intros [Hp Ht]%andb_true_iff.
  cbn. rewrite IH by done. by destruct p.
Qed.

(** The table for the service [nm]. *)
Definition dispatch_table (svcmain : Z) (nm : string) : list SERVICE_TABLE_ENTRY :=
  [{| te_ServiceName := Some (units_of nm ++ [0]); te_ServiceProc := svcmain |};
   {| te_ServiceName := None; te_ServiceProc := 0 |}].

#[local] Opaque units_of.

Section RunTheorems.
Context `{Windows}.

Lemma newService_calls nm : calls_only setup_call (newService nm).
Proof.
  unfold newService, newEvent, Close, CreateEvent, CloseHandle. calls_of_kind.
Qed.

Lemma newCallback_calls kind : calls_only kind newCallback.
Proof.
  apply calls_none. intros s. unfold newCallback, recovering, NewCallback.
  by destruct (new_callback (st_world s)) as [[cb|[v|v|]] w'].
Qed.

Lemma Run_prepare_calls svcmain nm : calls_only setup_call (Run_prepare svcmain nm).
Proof.
  pose proof newCallback_calls. pose proof newService_calls.
  unfold Run_prepare, GetCurrentThreadId. calls_of_kind.
Qed.

(** The two events of the service are open, and the variables the assembly code
    reads hold them, the name and the callback. *)
Definition prepared (nm : string) (v : pkgvars) (tr : list entry) : Prop :=
  created_events tr = [cWaitsH v; goWaitsH v] ∧ closed_handles tr = [] ∧
  sName v = Some (units_of nm ++ [0]) ∧ ∃ w, (new_callback w).1 = inl (ctlHandlerProc v).

(** C10: [Run] on its own thread: it succeeds exactly when Windows accepts the
    dispatch table, which it is given at most once, and which names the service
    and its entry point, when everything is prepared; the two events then stay open,
    whether Windows accepts it or not. Without a table [Run] does not succeed: it
    panics on a name with a NUL, and it fails with every event closed again, unless
    it was [NewCallback] that failed: then both events stay open. *)
Theorem Run_outcomes svcmain nm s :
  wp (Run svcmain nm) (λ o s', ∃ tr, makes s s' tr ∧
    match omap dispatch tr with
    | [] => match o with
            | Ret _ => False
            | Err _ => closed_handles tr = created_events tr ∨
                (∃ w p, (new_callback w).1 = inr p) ∧ length (created_events tr) = 2%nat ∧
                closed_handles tr = []
            | Panic _ => has_nul nm = true
            end
    | [(t, accepted)] =>
        t = dispatch_table svcmain nm ∧ is_panic o = false ∧ is_ret o = accepted ∧
        prepared nm (st_vars s') tr
    | _ => False
    end) s.
Proof.
  unfold Run. apply wp_bind.
  eapply wp_mono; [apply (wp_calls_only setup_call), Run_prepare_spec; apply Run_prepare_calls|].
  intros o s1 [(tr & Hm & Ho) (tr' & Hm' & Hk)]. rewrite (makes_inj _ _ _ _ Hm' Hm) in Hk.
  apply setup_no_dispatch in Hk. destruct o as [[[tid sv] t]|e|p].
  2-3: exists tr; by rewrite Hk.
  destruct Ho as (_ & _ & _ & -> & Hg & Hw & Hn & Hcb & Hc & Hcl).
  unfold Run_dispatch, StartServiceCtrlDispatcher. wp_sys;
    (eexists; split; [unfold makes; cbn; rewrite Hm, <- app_assoc; reflexivity|]);
    rewrite omap_app, Hk; cbn; unfold prepared, created_events, closed_handles in *; cbn;
    rewrite !omap_app, Hc, Hcl, Hg, Hw; cbn; split_and!; try done; by zeqb.
Qed.

End RunTheorems.

#[local] Transparent units_of.

(** ** The theorem on a concrete memory *)

(** The interface at 256, the function value at 4096, the code at 8192. *)
Definition small_memory (p : Z) : option Z :=
  if p =? 256 then Some 77 else if p =? 264 then Some 4096 else if p =? 4096 then Some 8192 else None.

Lemma small_function : func_in_interface AMD64 small_memory 256 8192.
Proof. by refine {| fi_type := 77; fi_func := 4096 |}. Defined.

Lemma funcPC_entry_witness : getServiceMain AMD64 small_memory 256 = Ret 8192.
Proof. refine (funcPC_entry AMD64 small_memory 256 8192 small_function _). by vm_compute. Defined.
