(* ===== verification/Registry.v ===== *)
(** * Package [registry]: keys and values

    registry/registry.go. The values written are bytes in memory, from the
    address given to Windows on; the theorems say that what is written is the
    value, whole. *)
From Stdlib Require Import ZArith Lia.
From stdpp Require Import base option list strings.
From S2P Require Import Prelude GoText Go WinConst Machine GoSyscall Script Winapi.

Local Open Scope Z_scope.
Local Open Scope go_scope.

(** The memory of little-endian machine integers. *)
Fixpoint le_bytes (n : nat) (v : Z) : list Z :=
  match n with O => [] | S n => v mod 256 :: le_bytes n (v / 256) end.
Definition le16 (us : list Z) : list Z := us ≫= le_bytes 2.

Record Key := { k_Handle : Z }.

Section Registry.
Context `{Windows}.

Definition OpenKey (parent : Z) (path : string) : M Key :=
  let! p := StringToUTF16Ptr path in
  let! h := RegOpenKeyEx parent p 0 KEY_ALL_ACCESS in
  ret {| k_Handle := h |}.

Definition Key_Close (k : Key) : M unit := RegCloseKey (k_Handle k).

Definition CreateSubKey (k : Key) (name : string) : M (Key * bool) :=
  let! p := StringToUTF16Ptr name in
  let! (h, d) := RegCreateKeyEx (k_Handle k) p 0 None REG_OPTION_NON_VOLATILE KEY_ALL_ACCESS 0 in
  ret ({| k_Handle := h |}, d =? REG_OPENED_EXISTING_KEY).

Definition DeleteSubKey (k : Key) (name : string) : M unit :=
  let! p := StringToUTF16Ptr name in
  RegDeleteKey (k_Handle k) p.

Definition SetUInt32 (k : Key) (name : string) (value : Z) : M unit :=
  let! p := StringToUTF16Ptr name in
  RegSetValueEx (k_Handle k) p 0 REG_DWORD (le_bytes 4 value) 4.

Definition setString (k : Key) (name value : string) (valtype : Z) : M unit :=
  let! buf := lift (StringToUTF16 value) in
  let! p := StringToUTF16Ptr name in
  RegSetValueEx (k_Handle k) p 0 valtype (le16 buf) (wrap 32 (Z.of_nat (length buf) * 2)).

Definition SetString (k : Key) (name value : string) : M unit := setString k name value REG_SZ.

Definition SetStringExpand (k : Key) (name value : string) : M unit :=
  setString k name value REG_EXPAND_SZ.

End Registry.

(** ** Little-endian memory *)
Fixpoint of_le (bs : list Z) : Z :=
  match bs with [] => 0 | b :: bs => b + 256 * of_le bs end.

(** The 16-bit units a reader finds in the bytes. *)
Fixpoint units_at (bs : list Z) : list Z :=
  match bs with b0 :: b1 :: bs => of_le [b0; b1] :: units_at bs | _ => [] end.

Lemma length_le_bytes n v : length (le_bytes n v) = n.
Proof. revert v. induction n as [|n IH]; intros v; simpl; [done|]. by rewrite IH. Qed.

Lemma of_le_bytes n v : in_range (8 * Z.of_nat n) v → of_le (le_bytes n v) = v.
Proof.
  revert v. induction n as [|n IH]; intros v Hv.
  - unfold in_range in Hv. simpl in *. lia.
  - cbn [le_bytes of_le]. rewrite IH.
    + pose proof (Z.div_mod v 256). lia.
    + unfold in_range in *. replace (8 * Z.of_nat (S n)) with (8 + 8 * Z.of_nat n) in Hv by lia.
      rewrite Z.pow_add_r in Hv by lia. change (2 ^ 8) with 256 in Hv.
      split; [apply Z.div_pos; lia|]. apply Z.div_lt_upper_bound; lia.
Qed.

Lemma length_le16 us : length (le16 us) = (2 * length us)%nat.
Proof.
  induction us as [|u us IH]; [done|]. change (le16 (u :: us)) with (le_bytes 2 u ++ le16 us).
  rewrite length_app, IH, length_le_bytes. simpl. lia.
Qed.

Lemma units_at_le16 us : Forall u16 us → units_at (le16 us) = us.
Proof.
  induction 1 as [|u us Hu Hus IH]; [done|]. change (le16 (u :: us)) with (le_bytes 2 u ++ le16 us).
  pose proof (of_le_bytes 2 u Hu) as E. cbn [le_bytes app units_at] in *. by rewrite E, IH.
Qed.

(** ** What is written *)
Section RegistryTheorems.
Context `{Windows}.

Lemma wp_RegSetValueEx k vn vt buf n (Q : out unit → st → Prop) s :
  (∀ rep w', let s' := St w' (st_trace s ++ [Entry (RegSetValueExW k vn 0 vt buf n) rep]) (st_vars s) in
     Q (if r_ret rep =? 0 then Ret tt else Err (Errno (r_ret rep))) s') →
  wp (RegSetValueEx k vn 0 vt buf n) Q s.
Proof.
  intros HQ. unfold RegSetValueEx. apply wp_bind, wp_syscall. intros rep w' _.
  specialize (HQ rep w'). unfold check_regerrno. by destruct (r_ret rep =? 0).
Qed.

Lemma wp_SetUInt32 k nm v (Q : out unit → st → Prop) s :
  has_nul nm = false →
  (∀ rep w', let s' := St w' (st_trace s ++ [Entry (RegSetValueExW (k_Handle k)
       (Some (units_of nm ++ [0])) 0 REG_DWORD (le_bytes 4 v) 4) rep]) (st_vars s) in
     Q (if r_ret rep =? 0 then Ret tt else Err (Errno (r_ret rep))) s') →
  wp (SetUInt32 k nm v) Q s.
Proof.
  intros Hn HQ. unfold SetUInt32. apply wp_bind, wp_StringToUTF16Ptr; [intros _|congruence].
  by apply wp_RegSetValueEx.
Qed.

Lemma wp_setString k nm v vt (Q : out unit → st → Prop) s :
  has_nul nm = false →
  (has_nul v = true → Q (Panic nul_panic) s) →
  (has_nul v = false → ∀ rep w', let buf := units_of v ++ [0] in
     let s' := St w' (st_trace s ++ [Entry (RegSetValueExW (k_Handle k)
       (Some (units_of nm ++ [0])) 0 vt (le16 buf) (wrap 32 (Z.of_nat (length buf) * 2))) rep])
       (st_vars s) in
     Q (if r_ret rep =? 0 then Ret tt else Err (Errno (r_ret rep))) s') →
  wp (setString k nm v vt) Q s.
Proof.
  intros Hn H1 H2. unfold setString, StringToUTF16. apply wp_bind, wp_lift.
  destruct (has_nul v); [by apply H1|].
  apply wp_bind, wp_StringToUTF16Ptr; [intros _|congruence].
  apply wp_RegSetValueEx. by apply H2.
Qed.

(** C30: a string value is stored whole: the size given to Windows is that of the
    memory given, the terminating NUL included, and the units found there are
    those of the string, for every string whose bytes can be counted in 32 bits. *)
Theorem setString_writes_all k nm v vt s :
  has_nul nm = false → has_nul v = false → Z.of_nat (length (units_of v)) < 2 ^ 31 - 1 →
  wp (setString k nm v vt) (λ o s', ∃ buf n rep,
    makes s s' [Entry (RegSetValueExW (k_Handle k) (Some (units_of nm ++ [0])) 0 vt buf n) rep] ∧
    n = Z.of_nat (length buf) ∧ units_at buf = units_of v ++ [0] ∧
    o = if r_ret rep =? 0 then Ret tt else Err (Errno (r_ret rep))) s.
Proof.
  intros Hn Hv Hl. apply wp_setString; [done|congruence|]. intros _ rep w' buf s'.
  exists (le16 buf), (wrap 32 (Z.of_nat (length buf) * 2)), rep. split; [done|].
  split; [|split; [|done]].
  - unfold buf. rewrite length_le16, length_app, wrap_small; simpl; [lia|]. unfold in_range. lia.
  - apply units_at_le16. apply Forall_app. split; [apply units_of_u16|]. by repeat constructor.
Qed.

(** An integer value is stored in four bytes that read back as it. *)
Lemma SetUInt32_writes_value k nm v s :
  has_nul nm = false → u32 v →
  wp (SetUInt32 k nm v) (λ o s', ∃ buf rep,
    makes s s' [Entry (RegSetValueExW (k_Handle k) (Some (units_of nm ++ [0])) 0 REG_DWORD buf 4) rep] ∧
    length buf = 4%nat ∧ of_le buf = v ∧
    o = if r_ret rep =? 0 then Ret tt else Err (Errno (r_ret rep))) s.
Proof.
  intros Hn Hv. apply wp_SetUInt32; [done|]. intros rep w' s'.
  exists (le_bytes 4 v), rep. split; [done|]. split; [apply length_le_bytes|].
  split; [by apply of_le_bytes|done].
Qed.

End RegistryTheorems.

(** ** The theorems on concrete inputs *)
Definition demo_key : Key := {| k_Handle := 5 |}.
Definition demo_registry : st := fresh (H := ScriptWindows plain) [].

Lemma setString_writes_all_witness :
  wp (setString demo_key "EventMessageFile" "x.exe" REG_SZ) (λ o s', ∃ buf n rep,
    makes demo_registry s'
      [Entry (RegSetValueExW 5 (Some (units_of "EventMessageFile" ++ [0])) 0 REG_SZ buf n) rep] ∧
    n = Z.of_nat (length buf) ∧ units_at buf = units_of "x.exe" ++ [0] ∧
    o = if r_ret rep =? 0 then Ret tt else Err (Errno (r_ret rep))) demo_registry.
Proof.
  exact (setString_writes_all demo_key "EventMessageFile" "x.exe" REG_SZ demo_registry
           eq_refl eq_refl eq_refl).
Defined.

Lemma SetUInt32_writes_value_witness :
  wp (SetUInt32 demo_key "TypesSupported" 7) (λ o s', ∃ buf rep,
    makes demo_registry s'
      [Entry (RegSetValueExW 5 (Some (units_of "TypesSupported" ++ [0])) 0 REG_DWORD buf 4) rep] ∧
    length buf = 4%nat ∧ of_le buf = 7 ∧
    o = if r_ret rep =? 0 then Ret tt else Err (Errno (r_ret rep))) demo_registry.
Proof.
  refine (SetUInt32_writes_value demo_key "TypesSupported" 7 demo_registry eq_refl _).
  by unfold in_range.
Defined.
