(* ===== verification/EventLog.v ===== *)
(** * Package [eventlog]: installing event sources, writing events

    eventlog/install.go and eventlog/log.go. *)
From Stdlib Require Import ZArith Lia.
From stdpp Require Import base option list strings.
From S2P Require Import Prelude GoText Go WinConst Machine GoSyscall Script Winapi Registry Resources.

Local Open Scope Z_scope.
Local Open Scope go_scope.

Definition Info : Z := EVENTLOG_INFORMATION_TYPE.
Definition Warning : Z := EVENTLOG_WARNING_TYPE.
Definition Error : Z := EVENTLOG_ERROR_TYPE.

Definition addKeyName : string := "SYSTEM\CurrentControlSet\Services\EventLog\Application".

Record Log := { l_Handle : Z }.

Section EventLog.
Context `{Windows}.

(** ** install.go *)
Definition Install (src msgFile : string) (useExpandKey : bool) (eventsSupported : Z) : M unit :=
  let! appkey := OpenKey HKEY_LOCAL_MACHINE addKeyName in
  defer (ignore (Key_Close appkey))
   (let! (sk, alreadyExist) := CreateSubKey appkey src in
    defer (ignore (Key_Close sk))
     (if alreadyExist then
        err (ErrorString (addKeyName +:+ "\" +:+ src +:+ " registry key already exists"))
      else
        SetUInt32 sk "CustomSource" 1 ;;
        (if useExpandKey then SetStringExpand sk "EventMessageFile" msgFile
         else SetString sk "EventMessageFile" msgFile) ;;
        SetUInt32 sk "TypesSupported" eventsSupported ;;
        ret tt)).

Definition InstallAsEventCreate (src : string) (eventsSupported : Z) : M unit :=
  Install src "%SystemRoot%\System32\EventCreate.exe" true eventsSupported.

Definition Remove (src : string) : M unit :=
  let! appkey := OpenKey HKEY_LOCAL_MACHINE addKeyName in
  defer (ignore (Key_Close appkey)) (DeleteSubKey appkey src).

(** ** log.go *)
Definition OpenRemote (host source : string) : M Log :=
  if bool_decide (source = "") then err (ErrorString "Specify event log source")
  else
    let! s := (if bool_decide (host = "") then ret None else StringToUTF16Ptr host) in
    let! p := StringToUTF16Ptr source in
    let! h := RegisterEventSource s p in
    ret {| l_Handle := h |}.

Definition Open (source : string) : M Log := OpenRemote "" source.

Definition Log_Close (l : Log) : M unit := DeregisterEventSource (l_Handle l).

Definition report (l : Log) (etype eid : Z) (msg : string) : M unit :=
  let! p := StringToUTF16Ptr msg in
  ReportEvent (l_Handle l) etype 0 eid 0 1 0 (Some [p]) 0.

Definition Log_Info (l : Log) (eid : Z) (msg : string) : M unit :=
  report l EVENTLOG_INFORMATION_TYPE eid msg.
Definition Log_Warning (l : Log) (eid : Z) (msg : string) : M unit :=
  report l EVENTLOG_WARNING_TYPE eid msg.
Definition Log_Error (l : Log) (eid : Z) (msg : string) : M unit :=
  report l EVENTLOG_ERROR_TYPE eid msg.

End EventLog.

(** ** Keys along a trace *)

(** The keys opened, those closed, and the values set in a key. *)
Definition opened_key (en : entry) : option Z :=
  match en with
  | Entry (RegOpenKeyExW _ _ _ _) rep => if r_ret rep =? 0 then Some (r_out rep) else None
  | Entry (RegCreateKeyExW _ _ _ _ _ _ _) rep => if r_ret rep =? 0 then Some (r_out rep).1 else None
  | _ => None
  end.
Definition closed_key (en : entry) : option Z :=
  match en with Entry (RegCloseKeyP k) _ => Some k | _ => None end.
Definition written (en : entry) : option (Z * ptr16 * Z * list Z) :=
  match en with Entry (RegSetValueExW k vn _ vt buf _) _ => Some (k, vn, vt, buf) | _ => None end.

(** Every key that is opened is closed, the last one first. *)
Definition keys_closed : list entry → Prop := balanced opened_key closed_key.

(** All the calls but those that close a key. *)
Definition kept (tr : list entry) : list entry :=
  List.filter (λ en, negb (succeeds (closed_key en))) tr.

(** *** The calls of an installation *)

(** The key of the event sources is opened, and the source's own key made in it. *)
Definition open_app : api :=
  RegOpenKeyExW HKEY_LOCAL_MACHINE (Some (units_of addKeyName ++ [0])) 0 KEY_ALL_ACCESS.
Definition create_source (k : Z) (src : string) : api :=
  RegCreateKeyExW k (Some (units_of src ++ [0])) 0 None REG_OPTION_NON_VOLATILE KEY_ALL_ACCESS 0.

(** The three values of an event source are set in the key [k]. *)
Definition source_calls (k : Z) (msgFile : string) (useExpandKey : bool) (events : Z) : list api :=
  [RegSetValueExW k (Some (units_of "CustomSource" ++ [0])) 0 REG_DWORD (le_bytes 4 1) 4;
   RegSetValueExW k (Some (units_of "EventMessageFile" ++ [0])) 0
     (if useExpandKey then REG_EXPAND_SZ else REG_SZ) (le16 (units_of msgFile ++ [0]))
     (wrap 32 (Z.of_nat (length (units_of msgFile ++ [0])) * 2));
   RegSetValueExW k (Some (units_of "TypesSupported" ++ [0])) 0 REG_DWORD (le_bytes 4 events) 4].

(** What the registry answers to a call: 0, or an error number. *)
Definition answer (en : entry) : Z := let 'Entry _ rep := en in r_ret rep.
Definition granted (en : entry) : bool := answer en =? 0.

(** Setting the values in the key [k]: all three, or those up to a refusal, or the first
    of them when the text of the second has a NUL. *)
Definition values_run (k : Z) (msgFile : string) (useExpandKey : bool) (events : Z) (o : out unit)
    (ws : list entry) : Prop :=
  let all := source_calls k msgFile useExpandKey events in
  match o with
  | Ret _ => calls ws = all ∧ forallb granted ws = true
  | Err e => ∃ ws' w, ws = ws' ++ [w] ∧ calls ws `prefix_of` all ∧ forallb granted ws' = true ∧
                      granted w = false ∧ e = Errno (answer w)
  | Panic p => p = nul_panic ∧ has_nul msgFile = true ∧ calls ws = take 1 all ∧
               forallb granted ws = true
  end.

(** How an installation ends, and its calls but those that close a key. *)
Inductive install_run (src msgFile : string) (useExpandKey : bool) (events : Z) :
    out unit → list entry → Prop :=
| not_opened (r0 : reply open_app) :
    r_ret r0 ≠ 0 →
    install_run src msgFile useExpandKey events (Err (Errno (r_ret r0))) [Entry open_app r0]
| source_nul (r0 : reply open_app) :
    r_ret r0 = 0 → has_nul src = true →
    install_run src msgFile useExpandKey events (Panic nul_panic) [Entry open_app r0]
| not_created (r0 : reply open_app) (r1 : reply (create_source (r_out r0) src)) :
    r_ret r0 = 0 → r_ret r1 ≠ 0 →
    install_run src msgFile useExpandKey events (Err (Errno (r_ret r1)))
      [Entry open_app r0; Entry (create_source (r_out r0) src) r1]
| already_there (r0 : reply open_app) (r1 : reply (create_source (r_out r0) src)) :
    r_ret r0 = 0 → r_ret r1 = 0 → (r_out r1).2 = REG_OPENED_EXISTING_KEY →
    install_run src msgFile useExpandKey events
      (Err (ErrorString (addKeyName +:+ "\" +:+ src +:+ " registry key already exists")))
      [Entry open_app r0; Entry (create_source (r_out r0) src) r1]
| values_set (r0 : reply open_app) (r1 : reply (create_source (r_out r0) src)) o ws :
    r_ret r0 = 0 → r_ret r1 = 0 → (r_out r1).2 ≠ REG_OPENED_EXISTING_KEY →
    values_run (r_out r1).1 msgFile useExpandKey events o ws →
    install_run src msgFile useExpandKey events o
      (Entry open_app r0 :: Entry (create_source (r_out r0) src) r1 :: ws).

(** Texts are compared, not computed. *)
#[local] Opaque units_of le16 le_bytes.

Section EventLogTheorems.
Context `{Windows}.

Lemma wp_Key_Close k (Q : out unit → st → Prop) s :
  (∀ en w, opened_key en = None → closed_key en = Some (k_Handle k) →
     Q (Ret tt) (St w (st_trace s ++ [en]) (st_vars s))) →
  wp (ignore (Key_Close k)) Q s.
Proof.
  intros HQ. unfold Key_Close, RegCloseKey. wp_go. unfold check_regerrno.
  destruct (r_ret rep =? 0); by apply HQ.
Qed.

(** The values of an event source are written in this order, up to the first failure. *)
Definition write_values (sk : Key) (msgFile : string) (useExpandKey : bool) (events : Z) : M unit :=
  SetUInt32 sk "CustomSource" 1 ;;
  (if useExpandKey then SetStringExpand sk "EventMessageFile" msgFile
   else SetString sk "EventMessageFile" msgFile) ;;
  SetUInt32 sk "TypesSupported" events ;;
  ret tt.

Ltac all_granted :=
  unfold values_run; split_and?; try done; repeat (apply andb_true_intro; split); done.

Lemma write_values_run sk msgFile useExpandKey events s :
  wp (write_values sk msgFile useExpandKey events) (λ o s', ∃ ws, makes s s' ws ∧
    omap closed_key ws = [] ∧ omap opened_key ws = [] ∧
    values_run (k_Handle sk) msgFile useExpandKey events o ws) s.
Proof.
  unfold write_values. apply wp_bind, wp_SetUInt32; [done|]. intros rep w' s1. subst s1.
  destruct (r_ret rep =? 0) eqn:R1.
  2: { eexists. split; [done|]. split_and!; try done. eexists [], _. split_and!; try done. by eexists. }
  assert (∀ Q t, (has_nul msgFile = true → Q (Panic nul_panic) t) →
    (has_nul msgFile = false → ∀ rep w', let buf := units_of msgFile ++ [0] in
     let s' := St w' (st_trace t ++ [Entry (RegSetValueExW (k_Handle sk)
       (Some (units_of "EventMessageFile" ++ [0])) 0 (if useExpandKey then REG_EXPAND_SZ else REG_SZ)
       (le16 buf) (wrap 32 (Z.of_nat (length buf) * 2))) rep]) (st_vars t) in
     Q (if r_ret rep =? 0 then Ret tt else Err (Errno (r_ret rep))) s') →
    wp (if useExpandKey then SetStringExpand sk "EventMessageFile" msgFile
        else SetString sk "EventMessageFile" msgFile) Q t) as Hmsg.
  { intros Q t H1 H2. destruct useExpandKey; by apply wp_setString. }
  apply wp_bind, Hmsg; [intros Hn|intros Hn rep2 w2 buf s2; subst s2].
  { eexists. split; [done|]. split_and!; try done. all_granted. }
  destruct (r_ret rep2 =? 0) eqn:R2.
  2: { eexists. split; [by unfold makes; cbn; rewrite <- app_assoc|]. split_and!; try done.
       eexists [_], _. split_and!; try done; [by eexists|]. all_granted. }
  apply wp_bind, wp_SetUInt32; [done|]. intros rep3 w3 s3. subst s3.
  destruct (r_ret rep3 =? 0) eqn:R3; wp_go;
    (eexists; split; [by unfold makes; cbn; rewrite <- !app_assoc|]); split_and!; try done.
  - all_granted.
  - eexists [_; _], _. split_and!; try done. all_granted.
Qed.

(** *** Around the keys *)
Lemma kept_quiet tr : omap closed_key tr = [] → kept tr = tr.
Proof.
  induction tr as [|en tr IH]; [done|]. unfold kept. cbn [omap list_omap List.filter].
  destruct (closed_key en); [done|]. intros Ht. cbn [succeeds negb]. f_equal. by apply IH.
Qed.

Lemma kept_wrap en tr en' k :
  closed_key en = None → closed_key en' = Some k → kept (en :: tr ++ [en']) = en :: kept tr.
Proof.
  intros Hc Hc'. unfold kept. cbn [List.filter]. rewrite Hc, List.filter_app. cbn [List.filter].
  rewrite Hc'. cbn [succeeds negb]. by rewrite app_nil_r.
Qed.

Definition keeps {A} (Q : out A → list entry → Prop) (o : out A) (tr : list entry) : Prop :=
  Q o (kept tr).

Lemma keeps_wrap {A} (Q : out A → list entry → Prop) en k o tr :
  closed_key en = None → keeps (λ o ks, Q o (en :: ks)) o tr →
  ∀ en', opened_key en' = None → closed_key en' = Some k → keeps Q o (en :: tr ++ [en']).
Proof. unfold keeps. intros Hc HQ en' _ Hc'. by erewrite kept_wrap. Qed.

(** What [Install] does with the new key. *)
Definition install_body (src msgFile : string) (useExpandKey : bool) (events : Z) (sk : Key)
    (alreadyExist : bool) : M unit :=
  if alreadyExist then
    err (ErrorString (addKeyName +:+ "\" +:+ src +:+ " registry key already exists"))
  else write_values sk msgFile useExpandKey events.

(** [OpenKey] and [CreateSubKey] around a continuation that closes the key. *)
Lemma wp_OpenKey {A} (k : Key → M A) (Q : out A → list entry → Prop) s :
  (∀ r0, r_ret r0 ≠ 0 → Q (Err (Errno (r_ret r0))) [Entry open_app r0]) →
  (∀ (r0 : reply open_app) s', r_ret r0 = 0 → wp (k {| k_Handle := r_out r0 |})
     (ends opened_key closed_key (keeps (λ o ks, Q o (Entry open_app r0 :: ks))) s') s') →
  wp (bind (OpenKey HKEY_LOCAL_MACHINE addKeyName) (λ key, defer (ignore (Key_Close key)) (k key)))
    (ends opened_key closed_key (keeps Q) s) s.
Proof.
  intros He Hk. unfold OpenKey, RegOpenKeyEx.
  apply wp_bind, wp_bind, wp_StringToUTF16Ptr; [intros _|done].
  apply wp_bind, wp_bind, wp_syscall. intros rep w _. apply wp_check_regerrno; intros Hr.
  2: { apply ends_failed; [simpl; by zeqb|done|by apply He]. }
  eapply wp_acquire; [simpl; by zeqb|done|intros; by apply wp_Key_Close|intros s1].
  eapply wp_ends_mono; [by apply (Hk rep)|]. intros o tr. by apply keeps_wrap.
Qed.

Lemma wp_CreateSubKey {A} key src (k : Key → bool → M A) (Q : out A → list entry → Prop) s :
  (has_nul src = true → Q (Panic nul_panic) []) →
  (∀ r1, r_ret r1 ≠ 0 → Q (Err (Errno (r_ret r1))) [Entry (create_source (k_Handle key) src) r1]) →
  (∀ w r1 w' s', call (create_source (k_Handle key) src) w = (r1, w') → r_ret r1 = 0 →
     wp (k {| k_Handle := (r_out r1).1 |} ((r_out r1).2 =? REG_OPENED_EXISTING_KEY))
       (ends opened_key closed_key
          (keeps (λ o ks, Q o (Entry (create_source (k_Handle key) src) r1 :: ks))) s') s') →
  wp (let! (sk, ex) := CreateSubKey key src in defer (ignore (Key_Close sk)) (k sk ex))
    (ends opened_key closed_key (keeps Q) s) s.
Proof.
  intros Hnul He Hk. unfold CreateSubKey, RegCreateKeyEx.
  apply wp_bind, wp_bind, wp_StringToUTF16Ptr; [intros _|intros Hn; apply ends_nil; by apply Hnul].
  change (RegCreateKeyExW (k_Handle key) (Some (units_of src ++ [0])) 0 None REG_OPTION_NON_VOLATILE
            KEY_ALL_ACCESS 0) with (create_source (k_Handle key) src).
  apply wp_bind, wp_bind, wp_syscall. intros rep w E. apply wp_check_regerrno; intros Hr.
  2: { apply ends_failed; [|done|by apply He]. simpl. destruct (_ =? _) eqn:Eq; [|done].
       by apply Z.eqb_eq in Eq. }
  specialize (Hk _ rep _ (St w (st_trace s ++ [Entry _ rep]) (st_vars s)) E Hr).
  assert (opened_key (Entry (create_source (k_Handle key) src) rep) = Some (r_out rep).1) as Ha.
  { simpl. match goal with |- (if ?b then _ else _) = _ => destruct b eqn:Eq end; [done|].
    by apply Z.eqb_neq in Eq. }
  revert Ha Hk. change (out_of (create_source (k_Handle key) src)) with (Z * Z)%type.
  destruct (r_out rep) as [h d]. cbn [fst snd]. intros Ha Hk. wp_step.
  eapply wp_acquire; [exact Ha|done|intros; by apply wp_Key_Close|intros s1].
  eapply wp_ends_mono; [exact Hk|]. intros o tr. by apply keeps_wrap.
Qed.

(** [Install] opens and closes two keys around its body. *)
Lemma Install_by src msgFile useExpandKey events (Q : out unit → list entry → Prop) s :
  (∀ r0, r_ret r0 ≠ 0 → Q (Err (Errno (r_ret r0))) [Entry open_app r0]) →
  (∀ r0 : reply open_app, r_ret r0 = 0 → has_nul src = true → Q (Panic nul_panic) [Entry open_app r0]) →
  (∀ (r0 : reply open_app) r1, r_ret r0 = 0 → r_ret r1 ≠ 0 →
     Q (Err (Errno (r_ret r1))) [Entry open_app r0; Entry (create_source (r_out r0) src) r1]) →
  (∀ (r0 : reply open_app) w r1 w' s', call (create_source (r_out r0) src) w = (r1, w') →
     r_ret r0 = 0 → r_ret r1 = 0 →
     wp (install_body src msgFile useExpandKey events {| k_Handle := (r_out r1).1 |}
           ((r_out r1).2 =? REG_OPENED_EXISTING_KEY))
       (ends opened_key closed_key
          (keeps (λ o ks, Q o (Entry open_app r0 :: Entry (create_source (r_out r0) src) r1 :: ks))) s') s') →
  wp (Install src msgFile useExpandKey events) (ends opened_key closed_key (keeps Q) s) s.
Proof.
  intros He Hnul Hc Hbody. apply wp_OpenKey; [done|]. intros r0 s1 Hr0.
  apply (wp_CreateSubKey _ src (install_body src msgFile useExpandKey events)
           (λ o ks, Q o (Entry open_app r0 :: ks))); [by apply Hnul|by intros r1; apply Hc|].
  intros w r1 w' s' E Hr1. by eapply Hbody.
Qed.

(** C28: [Install] opens the key of the application event sources, makes the key of its own
    source in it, and sets the three values of the source, in order, in the key it has
    made; it calls nothing else but the closing of these keys, which it closes on
    every path, the last one first. It returns when every call is granted and Windows says
    that the key is new. It fails at the first call refused, with the number Windows
    answered: then the values before it are set, those after it are not tried, and the
    key made is left behind. A key that was there already is an error, and no value is set.
    It panics only for a NUL in a text: in [src] before the key is made, in [msgFile]
    when the key is made and the first value set. *)
Theorem Install_outcomes src msgFile useExpandKey events s :
  wp (Install src msgFile useExpandKey events) (λ o s', ∃ tr,
    makes s s' tr ∧ keys_closed tr ∧ install_run src msgFile useExpandKey events o (kept tr)) s.
Proof.
  apply (Install_by _ _ _ _ (install_run src msgFile useExpandKey events)); [by constructor..|].
  intros r0 w r1 w' s' _ H0 H1. unfold install_body.
  destruct (Z.eqb_spec (r_out r1).2 REG_OPENED_EXISTING_KEY) as [Hx|Hx].
  { wp_step. apply ends_nil. by apply already_there. }
  eapply wp_mono; [apply write_values_run|]. intros o s2 (ws & Hm & Hc & Ho & Hv).
  exists ws. split; [done|]. split; [by apply balanced_quiet|].
  unfold keeps. rewrite (kept_quiet ws Hc). by apply values_set.
Qed.

(** An event source that exists is not touched: when Windows answers that the
    key was there, [Install] sets no value and fails. With [Install_outcomes], an
    [Install] that failed half-way cannot be repeated: the key it left is there. *)
Theorem Install_existing src msgFile useExpandKey events s :
  (∀ k w rep w', call (create_source k src) w = (rep, w') → r_ret rep = 0 →
     (r_out rep).2 = REG_OPENED_EXISTING_KEY) →
  wp (Install src msgFile useExpandKey events) (λ o s', ∃ tr,
    makes s s' tr ∧ keys_closed tr ∧ is_ret o = false ∧ omap written (kept tr) = []) s.
Proof.
  intros Hex. apply (Install_by _ _ _ _ (λ o ks, is_ret o = false ∧ omap written ks = [])); try done.
  intros r0 w r1 w' s' E _ Hr. rewrite (Hex _ _ _ _ E Hr). unfold install_body. rewrite Z.eqb_refl. wp_step.
  by apply ends_nil.
Qed.

(** [Remove] deletes the source's key and closes the one it opened; what
    happens to the key decides the result. *)
Lemma Remove_outcomes src s :
  has_nul src = false →
  wp (Remove src) (λ o s', ∃ tr, makes s s' tr ∧ keys_closed tr ∧ omap written tr = [] ∧
    (o = Ret tt → ∃ k rep, Entry (RegDeleteKeyW k (Some (units_of src ++ [0]))) rep ∈ tr ∧
                           r_ret rep = 0)) s.
Proof.
  intros Hn. unfold Remove, OpenKey, RegOpenKeyEx.
  change (wp ?m _ s) with (wp m (ends opened_key closed_key (λ o tr, omap written tr = [] ∧
    (o = Ret tt → ∃ k rep, Entry (RegDeleteKeyW k (Some (units_of src ++ [0]))) rep ∈ tr ∧
                           r_ret rep = 0)) s) s).
  apply wp_bind, wp_bind, wp_StringToUTF16Ptr; [intros _|done].
  apply wp_bind, wp_bind, wp_syscall. intros rep w _. apply wp_check_regerrno; intros Hr.
  2: { apply ends_failed; [simpl; by zeqb|done|by split]. }
  eapply wp_acquire; [simpl; by zeqb|done|intros; by apply wp_Key_Close|intros s1].
  unfold DeleteSubKey, RegDeleteKey. apply wp_bind, wp_StringToUTF16Ptr; [intros _|congruence].
  apply wp_bind, wp_syscall. intros rep2 w2 _.
  apply wp_check_regerrno; intros Hr2; (eexists; split; [done|]; split; [done|]);
    intros en' _ Hc; (split; [by destruct en' as [[] ?]|]); [|done].
  intros _. eexists _, rep2. split; [|done]. by right; left.
Qed.

(** An event is reported with its message and the type of the method, and
    nothing else; a NUL in the message panics before the report. *)
Lemma report_one_event l etype eid msg s :
  wp (report l etype eid msg) (λ o s',
    if has_nul msg then o = Panic nul_panic ∧ makes s s' []
    else ∃ rep, makes s s' [Entry (ReportEventW (l_Handle l) etype 0 eid 0 1 0
                              (Some [Some (units_of msg ++ [0])]) 0) rep] ∧
         (o = Ret tt ↔ r_ret rep ≠ 0)) s.
Proof.
  unfold report. apply wp_bind, wp_StringToUTF16Ptr; intros ->; [|by split; [|apply makes_nil]].
  unfold ReportEvent. apply wp_bind, wp_syscall. intros rep w' _.
  apply wp_check0; intros Hr; exists rep; (split; [done|]); split; congruence.
Qed.

End EventLogTheorems.

#[local] Transparent units_of le16 le_bytes.

(** ** The theorems on concrete inputs *)

(** A registry in which the key is always there already. *)
Definition existing_script : script :=
  {| sc_outs := λ p, match p with
                     | RegCreateKeyExW _ _ _ _ _ _ _ => (6, REG_OPENED_EXISTING_KEY)
                     | p' => zero_out p'
                     end;
     sc_callback := inl 4096; sc_argv := λ _, None |}.
Definition existing_registry : st :=
  fresh (H := ScriptWindows existing_script) [(0, 0); (0, 0); (0, 0); (0, 0)].

Lemma Install_existing_witness :
  wp (Install "demo" "x.exe" false 7) (λ o s', ∃ tr,
    makes existing_registry s' tr ∧ keys_closed tr ∧ is_ret o = false ∧
    omap written (kept tr) = []) existing_registry.
Proof.
  apply (Install_existing "demo" "x.exe" false 7 existing_registry).
  intros k w rep w' E _. destruct w as [|[]]; injection E as <- _; done.
Defined.

Lemma Remove_outcomes_witness :
  wp (Remove "demo") (λ o s', ∃ tr, makes existing_registry s' tr ∧ keys_closed tr ∧
    omap written tr = [] ∧
    (o = Ret tt → ∃ k rep, Entry (RegDeleteKeyW k (Some (units_of "demo" ++ [0]))) rep ∈ tr ∧
                           r_ret rep = 0)) existing_registry.
Proof. exact (Remove_outcomes "demo" existing_registry eq_refl). Defined.
