(* ===== verification/Security.v ===== *)
(** * svc/security.go: is the process running interactively?

    [IsAnInteractiveSession] looks for two well-known groups in the process's
    token. What the theorems say of the answer is relative to what Windows
    answers to [EqualSid]; that the SIDs and the token are released holds on every
    path, panics included. *)
From Stdlib Require Import ZArith Lia.
From stdpp Require Import base option list strings.
From S2P Require Import Prelude GoText Go WinConst Machine GoSyscall Script Winapi Resources.

Local Open Scope Z_scope.
Local Open Scope go_scope.

Section Security.
Context `{Windows}.

(** [&b[0]] of a buffer of [n] bytes. *)
Definition first_elem (n : Z) : M unit := if n =? 0 then throw index_out_of_range else ret tt.

Definition getInfo (t class initSize : Z) : M Tokengroups :=
  first_elem initSize ;;
  let! r := GetTokenInformation t class (wrap 32 initSize) in
  let '(b, n, e) := r in
  match e with
  | None => ret b
  | Some e =>
    if bool_decide (e ≠ Errno ERROR_INSUFFICIENT_BUFFER) then err e
    else
      first_elem n ;;
      let! r := GetTokenInformation t class n in
      let '(b, _, e) := r in
      match e with None => ret b | Some e => err e end
  end.

Definition getTokenGroups (t : Z) : M Tokengroups := getInfo t TokenGroups 50.

Definition allocSid (subAuth0 : Z) : M Z :=
  AllocateAndInitializeSid SECURITY_NT_AUTHORITY 1 subAuth0 0 0 0 0 0 0 0.

(** [for _, g := range groups], of which [n] are left, [gs] in memory. *)
Fixpoint group_loop (interSid serviceSid : Z) (n : nat) (gs : list SIDAndAttributes) : M bool :=
  match n, gs with
  | O, _ => ret false
  | S n, [] => throw memory_fault
  | S n, g :: gs =>
    let! b := EqualSid (sa_Sid g) interSid in
    if b : bool then ret true
    else
      let! b := EqualSid (sa_Sid g) serviceSid in
      if b : bool then ret false else group_loop interSid serviceSid n gs
  end.

Definition IsAnInteractiveSession : M bool :=
  let! interSid := allocSid SECURITY_INTERACTIVE_RID in
  defer (ignore (FreeSid interSid))
   (let! serviceSid := allocSid SECURITY_SERVICE_RID in
    defer (ignore (FreeSid serviceSid))
     (let! t := OpenCurrentProcessToken in
      defer (ignore (Token_Close t))
       (let! gs := getTokenGroups t in
        if Z.shiftl 2 20 <? tg_GroupCount gs then throw slice_out_of_range
        else group_loop interSid serviceSid (Z.to_nat (tg_GroupCount gs)) (tg_Groups gs)))).

Definition IsAnIinteractiveSession : M bool := IsAnInteractiveSession.

End Security.

(** ** What is acquired and released *)
Inductive resource := RSid (a : Z) | RToken (a : Z).

Definition acquired (en : entry) : option resource :=
  match en with
  | Entry (AllocateAndInitializeSidP _ _ _ _ _ _ _ _ _ _) rep =>
      if r_ret rep =? 0 then None else Some (RSid (r_out rep))
  | Entry OpenCurrentProcessTokenP rep => if r_ret rep =? 0 then None else Some (RToken (r_out rep))
  | _ => None
  end.
Definition released (en : entry) : option resource :=
  match en with
  | Entry (FreeSidP a) _ => Some (RSid a)
  | Entry (CloseTokenP a) _ => Some (RToken a)
  | _ => None
  end.

Section SecurityTheorems.
Context `{Windows}.

Lemma wp_FreeSid a (Q : out unit → st → Prop) s :
  (∀ en w, acquired en = None → released en = Some (RSid a) →
     Q (Ret tt) (St w (st_trace s ++ [en]) (st_vars s))) →
  wp (ignore (FreeSid a)) Q s.
Proof.
  intros HQ. unfold FreeSid. apply wp_ignore, wp_bind, wp_syscall. intros rep w' _.
  destruct (r_ret rep =? 0); by apply HQ.
Qed.

Lemma wp_Token_Close t (Q : out unit → st → Prop) s :
  (∀ en w, acquired en = None → released en = Some (RToken t) →
     Q (Ret tt) (St w (st_trace s ++ [en]) (st_vars s))) →
  wp (ignore (Token_Close t)) Q s.
Proof.
  intros HQ. unfold Token_Close. apply wp_ignore, wp_bind, wp_syscall. intros rep w' _.
  apply wp_check0; intros _; by apply HQ.
Qed.

(** What a trace says of the run: the SIDs made, each with the authority, the number
    and the list of the sub-authorities asked for; the tokens opened; what has been
    received about which token, of which class; and whether the answers to [EqualSid]
    are those of a relation. *)
Definition made_sid (en : entry) : option (list Z * Z * list Z * Z) :=
  match en with
  | Entry (AllocateAndInitializeSidP auth n a0 a1 a2 a3 a4 a5 a6 a7) rep =>
      if r_ret rep =? 0 then None else Some (auth, n, [a0; a1; a2; a3; a4; a5; a6; a7], r_out rep)
  | _ => None
  end.
Definition opened_token (en : entry) : option Z :=
  match en with
  | Entry OpenCurrentProcessTokenP rep => if r_ret rep =? 0 then None else Some (r_out rep)
  | _ => None
  end.
Definition token_info (en : entry) : option (Z * Z * Tokengroups) :=
  match en with
  | Entry (GetTokenInformationP t class _) rep =>
      if r_ret rep =? 0 then None else Some (t, class, (r_out rep).1)
  | _ => None
  end.

(** The SID [S-1-5-rid] of a well-known group, at an address. *)
Definition well_known (rid a : Z) : list Z * Z * list Z * Z :=
  (SECURITY_NT_AUTHORITY, 1, [rid; 0; 0; 0; 0; 0; 0; 0], a).
Definition answers_as (eq : Z → Z → bool) (en : entry) : Prop :=
  match en with Entry (EqualSidP a b) rep => negb (r_ret rep =? 0) = eq a b | _ => True end.

(** The first of the groups that is one of the two is the interactive one. *)
Definition first_is_interactive (eq : Z → Z → bool) (interSid serviceSid : Z) (sids : list Z) : Prop :=
  ∃ l a k, sids = l ++ a :: k ∧ eq a interSid = true ∧
    Forall (λ a, eq a interSid = false ∧ eq a serviceSid = false) l.

Definition security_panic (p : panic) : Prop :=
  p = index_out_of_range ∨ p = slice_out_of_range ∨ p = memory_fault.

Definition session_ok (o : out bool) (tr : list entry) : Prop :=
  match o with
  | Ret b => ∃ i v t gs,
      omap made_sid tr = [well_known SECURITY_INTERACTIVE_RID i; well_known SECURITY_SERVICE_RID v] ∧
      omap opened_token tr = [t] ∧ last (omap token_info tr) = Some (t, TokenGroups, gs) ∧
      ∀ eq, Forall (answers_as eq) tr →
        b = true ↔ first_is_interactive eq i v
          (sa_Sid <$> take (Z.to_nat (tg_GroupCount gs)) (tg_Groups gs))
  | Err e => ∃ n, e = Errno n ∧ n ≠ 0
  | Panic p => security_panic p
  end.

(** *** The loop *)
Lemma first_nil eq i v : ¬ first_is_interactive eq i v [].
Proof. intros (l & a & k & E & _). by destruct l. Qed.

Lemma first_cons eq i v a sids :
  first_is_interactive eq i v (a :: sids) ↔
  eq a i = true ∨ (eq a i = false ∧ eq a v = false ∧ first_is_interactive eq i v sids).
Proof.
  unfold first_is_interactive. split.
  - intros (l & b & k & E & Hb & Hl). destruct l as [|c l]; simplify_eq/=; [by left|].
    inv Hl. right. destruct_and!. eauto 10.
  - intros [Ha|(Ha & Hv & l & b & k & -> & Hb & Hl)]; [by exists [], a, sids|].
    exists (a :: l), b, k. split_and!; [done|done|by constructor].
Qed.

Lemma group_loop_run i v n gs s :
  wp (group_loop i v n gs) (λ o s', ∃ tr, makes s s' tr ∧
    omap made_sid tr = [] ∧ omap opened_token tr = [] ∧ omap token_info tr = [] ∧
    omap acquired tr = [] ∧ omap released tr = [] ∧
    match o with
    | Ret b => ∀ eq, Forall (answers_as eq) tr →
        b = true ↔ first_is_interactive eq i v (sa_Sid <$> take n gs)
    | Err _ => False
    | Panic p => p = memory_fault
    end) s.
Proof.
  revert gs s. induction n as [|n IH]; intros gs s; cbn [group_loop].
  { wp_step. exists []. split; [apply makes_nil|]. split_and!; try done. intros eq _. split; [done|].
    by intros ?%first_nil. }
  destruct gs as [|g gs]; [wp_step; exists []; split; [apply makes_nil|done]|].
  unfold EqualSid at 1. wp_go. cbn [take fmap list_fmap].
  destruct (r_ret rep =? 0) eqn:E1; cbn [negb]; wp_go.
  2: { eexists. split; [done|]. split_and!; try done. intros eq Heq.
       apply Forall_cons in Heq as [Ha _]. simpl in Ha. rewrite E1 in Ha.
       rewrite first_cons. split; [|done]. by left. }
  unfold EqualSid at 1. wp_go.
  destruct (r_ret rep0 =? 0) eqn:E2; cbn [negb]; wp_go.
  2: { eexists. split; [by unfold makes; cbn; rewrite <- app_assoc|]. split_and!; try done.
       intros eq Heq. apply Forall_cons in Heq as [Ha Heq]. apply Forall_cons in Heq as [Hb _].
       simpl in Ha, Hb. rewrite E1 in Ha. rewrite E2 in Hb. rewrite first_cons.
       simpl in Ha, Hb. rewrite <- Ha, <- Hb. intuition congruence. }
  eapply wp_mono; [apply IH|]. intros o s' (tr & Hm & T1 & T2 & T3 & T4 & T5 & Ho).
  eexists (_ :: _ :: tr). split; [unfold makes in *; rewrite Hm; cbn; by rewrite <- !app_assoc|].
  split_and!; try done. destruct o as [b|e|p]; try done.
  intros eq Heq. apply Forall_cons in Heq as [Ha Heq]. apply Forall_cons in Heq as [Hb Heq].
  simpl in Ha, Hb. rewrite E1 in Ha. rewrite E2 in Hb. rewrite first_cons, (Ho _ Heq).
  simpl in Ha, Hb. rewrite <- Ha, <- Hb. intuition congruence.
Qed.

(** *** The queries before it *)
Lemma getTokenGroups_run t s :
  wp (getTokenGroups t) (λ o s', ∃ tr, makes s s' tr ∧
    omap made_sid tr = [] ∧ omap opened_token tr = [] ∧ omap acquired tr = [] ∧ omap released tr = [] ∧
    (∀ eq, Forall (answers_as eq) tr) ∧
    match o with
    | Ret gs => last (omap token_info tr) = Some (t, TokenGroups, gs)
    | Err e => ∃ n, e = Errno n ∧ n ≠ 0
    | Panic p => p = index_out_of_range
    end) s.
Proof.
  unfold getTokenGroups, getInfo, first_elem. change (50 =? 0) with false. wp_go.
  unfold GetTokenInformation. wp_go. destruct (r_out rep) as [b n] eqn:Ho.
  destruct (r_ret rep =? 0) eqn:Hr.
  2: { wp_go. eexists. split; [done|]. split_and!; try done; [by repeat constructor|].
       cbn [omap list_omap token_info]. rewrite Hr. cbn. by rewrite Ho. }
  case_bool_decide.
  { wp_go. eexists. split; [done|]. split_and!; try done; [by repeat constructor|].
    eexists. split; [done|]. by eapply errno_error_nonzero. }
  destruct (n =? 0); wp_go.
  { eexists. split; [done|]. split_and!; try done. by repeat constructor. }
  destruct (r_out rep0) as [b2 n2] eqn:Ho2.
  destruct (r_ret rep0 =? 0) eqn:Hr2; wp_go;
    (eexists; split; [by unfold makes; cbn; rewrite <- app_assoc|]); split_and!; try done;
    try (by repeat constructor).
  - eexists. split; [done|]. by eapply errno_error_nonzero.
  - cbn [app omap list_omap token_info]. rewrite Hr, Hr2. cbn. by rewrite Ho2.
Qed.

(** What holds of the calls between the acquisitions and the releases. *)
Definition session_inner (i v t : Z) (o : out bool) (tr : list entry) : Prop :=
  match o with
  | Ret b => omap made_sid tr = [] ∧ omap opened_token tr = [] ∧
      ∃ gs, last (omap token_info tr) = Some (t, TokenGroups, gs) ∧
      ∀ eq, Forall (answers_as eq) tr →
        b = true ↔ first_is_interactive eq i v
          (sa_Sid <$> take (Z.to_nat (tg_GroupCount gs)) (tg_Groups gs))
  | Err e => ∃ n, e = Errno n ∧ n ≠ 0
  | Panic p => security_panic p
  end.

Lemma released_quiet en r :
  released en = Some r → made_sid en = None ∧ opened_token en = None ∧ token_info en = None.
Proof. by destruct en as [[] ?]. Qed.

Lemma made_quiet en x : made_sid en = Some x → opened_token en = None ∧ token_info en = None.
Proof. by destruct en as [[] ?]. Qed.

Lemma opened_quiet en t : opened_token en = Some t → made_sid en = None ∧ token_info en = None.
Proof. by destruct en as [[] ?]. Qed.

Lemma session_assemble i v t e1 e2 e3 r1 r2 r3 x1 x2 x3 o tr :
  made_sid e1 = Some (well_known SECURITY_INTERACTIVE_RID i) →
  made_sid e2 = Some (well_known SECURITY_SERVICE_RID v) → opened_token e3 = Some t →
  released r1 = Some x1 → released r2 = Some x2 → released r3 = Some x3 →
  session_inner i v t o tr →
  session_ok o (e1 :: (e2 :: (e3 :: tr ++ [r3]) ++ [r2]) ++ [r1]).
Proof.
  intros M1 M2 M3. destruct (made_quiet _ _ M1) as [A1 B1], (made_quiet _ _ M2) as [A2 B2],
    (opened_quiet _ _ M3) as [A3 B3].
  intros (N1 & O1 & P1)%released_quiet (N2 & O2 & P2)%released_quiet (N3 & O3 & P3)%released_quiet Hi.
  destruct o as [b| |]; [|done..]. destruct Hi as (Hm & Ht & gs & Hg & Hd). exists i, v, t, gs.
  replace (e1 :: (e2 :: (e3 :: tr ++ [r3]) ++ [r2]) ++ [r1]) with ([e1; e2; e3] ++ tr ++ [r3; r2; r1])
    by (cbn [app]; by rewrite <- !app_assoc).
  rewrite !omap_app. cbn [omap list_omap].
  rewrite M1, M2, M3, A1, A2, A3, B1, B2, B3, N1, N2, N3, O1, O2, O3, P1, P2, P3, Hm, Ht.
  cbn [app]. rewrite app_nil_r. split_and!; [done..|].
  intros eq Heq. apply Hd. do 3 apply Forall_cons in Heq as [_ Heq].
  by apply Forall_app in Heq as [Heq _].
Qed.

(** The part of [IsAnInteractiveSession] that holds the token. *)
Lemma session_body i v t s :
  wp (let! gs := getTokenGroups t in
      if Z.shiftl 2 20 <? tg_GroupCount gs then throw slice_out_of_range
      else group_loop i v (Z.to_nat (tg_GroupCount gs)) (tg_Groups gs))
    (ends acquired released (session_inner i v t) s) s.
Proof.
  apply wp_bind. eapply wp_mono; [apply getTokenGroups_run|].
  intros o s1 (tr & Hm & T1 & T5 & T2 & T3 & T4 & Ho).
  assert (balanced acquired released tr) as Hb by by apply balanced_quiet.
  destruct o as [gs|e|p]; [|by exists tr|exists tr; split_and!; try done; by left].
  destruct (Z.shiftl 2 20 <? tg_GroupCount gs).
  { wp_step. exists tr. split_and!; try done. by right; left. }
  eapply wp_mono; [apply group_loop_run|]. intros o s2 (tr2 & Hm2 & U1 & U5 & U2 & U3 & U4 & Hd).
  exists (tr ++ tr2). split; [eauto with winsvc|]. split.
  { apply balanced_quiet; rewrite omap_app; by rewrite ?T3, ?T2, ?U4, ?U3. }
  destruct o as [b|e|p]; [|done|subst; by right; right].
  split; [by rewrite omap_app, T1, U1|]. split; [by rewrite omap_app, T5, U5|]. exists gs. rewrite omap_app, U2, app_nil_r.
  split; [done|]. intros eq Heq. apply Hd. by apply Forall_app in Heq as [_ Heq].
Qed.

(** C27: [IsAnInteractiveSession] makes the SID of the interactive group (S-1-5-4) and
    that of the service group (S-1-5-6), opens the token of the process and gets that
    token's groups. It answers true exactly when the first of the groups that is equal
    to one of the two SIDs is equal to the interactive one, for whatever relation the
    answers to [EqualSid] are. On every path, errors and panics included, the SIDs and the
    token acquired are released, the last one first; and it fails only with a non-zero
    [syscall.Errno]. *)
Theorem IsAnInteractiveSession_ok s :
  wp IsAnInteractiveSession (λ o s', ∃ tr,
    makes s s' tr ∧ balanced acquired released tr ∧ session_ok o tr) s.
Proof.
  change (wp IsAnInteractiveSession (ends acquired released session_ok s) s).
  unfold IsAnInteractiveSession, allocSid, AllocateAndInitializeSid, OpenCurrentProcessToken.
  apply wp_bind, wp_bind, wp_syscall. intros rep1 w1 _. apply wp_check0; intros H1.
  2: { apply ends_failed; [simpl; by zeqb|done|]. eexists. split; [done|]. by eapply errno_error_nonzero. }
  eapply wp_acquire; [simpl; by zeqb|done|intros; by apply wp_FreeSid|intros s1].
  apply wp_bind, wp_bind, wp_syscall. intros rep2 w2 _. apply wp_check0; intros H2.
  2: { apply ends_failed; [simpl; by zeqb|done|]. intros en' _ _. eexists. split; [done|].
       by eapply errno_error_nonzero. }
  eapply wp_acquire; [simpl; by zeqb|done|intros; by apply wp_FreeSid|intros s2].
  apply wp_bind, wp_bind, wp_syscall. intros rep3 w3 _. apply wp_check0; intros H3.
  2: { apply ends_failed; [simpl; by zeqb|done|]. intros en' _ _ en'' _ _. eexists. split; [done|].
       by eapply errno_error_nonzero. }
  eapply wp_acquire; [simpl; by zeqb|done|intros; by apply wp_Token_Close|intros s3].
  eapply wp_ends_mono; [apply session_body|].
  intros o tr Hi r3 _ Hr3 r2 _ Hr2 r1 _ Hr1.
  eapply session_assemble; try done; simpl; by zeqb.
Qed.

End SecurityTheorems.

(** ** A concrete token

    Three groups, and the answers to the comparisons given by the script. *)
Definition token_script (groups : list Z) : script :=
  {| sc_outs := λ p, match p with
                     | GetTokenInformationP _ _ _ =>
                         ({| tg_GroupCount := Z.of_nat (length groups);
                             tg_Groups := (λ a, {| sa_Sid := a; sa_Attributes := 0 |}) <$> groups |}, 0)
                     | p' => zero_out p'
                     end;
     sc_callback := inl 4096; sc_argv := λ _, None |}.

(** The answers in order: two SIDs, the token, a buffer that is too small, the
    groups, then the comparisons: group 1 with both SIDs, group 2 with the first. *)
Example interactive_session :
  let r := IsAnInteractiveSession (fresh (H := ScriptWindows (token_script [1; 2; 3]))
             [(1, 0); (1, 0); (1, 0); (1, 0); (0, 0); (0, 0); (1, 0)]) in
  r.1 = Ret true ∧ balanced acquired released (st_trace r.2).
Proof. by vm_compute. Qed.

Example service_session :
  (IsAnInteractiveSession (fresh (H := ScriptWindows (token_script [1; 2; 3]))
     [(1, 0); (1, 0); (1, 0); (1, 0); (0, 0); (1, 0)])).1 = Ret false.
Proof. by vm_compute. Qed.
