(* ===== verification/Handles.v ===== *)
(** * The handles a program holds

    Every kind of handle the packages take from Windows and give back: those of
    the service control manager, registry keys, event logs, SIDs and tokens (the
    events of a running service are not among them: [svc.Run] never closes them,
    which [Run_prepare_spec] says). For each function that takes or gives back a
    handle, the rule of the stack discipline of [Resources]; a function that only
    makes [quiet] calls leaves the stack alone. *)
From Stdlib Require Import ZArith Lia.
From stdpp Require Import base option list strings.
From S2P Require Import Prelude GoText Go WinConst Machine GoSyscall Winapi.
From S2P Require Import SvcService MgrText Mgr Resources Registry EventLog Security.

Local Open Scope Z_scope.
Local Open Scope go_scope.

Inductive handle := HService (h : Z) | HKey (k : Z) | HLog (h : Z) | HSid (a : Z) | HToken (t : Z).

#[export] Instance handle_eq_dec : EqDecision handle.
Proof. solve_decision. Defined.

(** What a call takes, and what it gives back. *)
Definition unless0 (n : Z) (h : handle) : option handle := if n =? 0 then None else Some h.

Definition taken (en : entry) : option handle :=
  match en with
  | Entry (OpenSCManagerW _ _ _) rep | Entry (OpenServiceW _ _ _) rep
  | Entry (CreateServiceW _ _ _ _ _ _ _ _ _ _ _ _ _) rep =>
      unless0 (r_ret rep) (HService (r_ret rep))
  | Entry (RegOpenKeyExW _ _ _ _) rep => if r_ret rep =? 0 then Some (HKey (r_out rep)) else None
  | Entry (RegCreateKeyExW _ _ _ _ _ _ _) rep =>
      if r_ret rep =? 0 then Some (HKey (r_out rep).1) else None
  | Entry (RegisterEventSourceW _ _) rep => unless0 (r_ret rep) (HLog (r_ret rep))
  | Entry (AllocateAndInitializeSidP _ _ _ _ _ _ _ _ _ _) rep =>
      unless0 (r_ret rep) (HSid (r_out rep))
  | Entry OpenCurrentProcessTokenP rep => unless0 (r_ret rep) (HToken (r_out rep))
  | _ => None
  end.

Definition given (en : entry) : option handle :=
  match en with
  | Entry (CloseServiceHandleP h) _ => Some (HService h)
  | Entry (RegCloseKeyP k) _ => Some (HKey k)
  | Entry (DeregisterEventSourceP h) _ => Some (HLog h)
  | Entry (FreeSidP a) _ => Some (HSid a)
  | Entry (CloseTokenP t) _ => Some (HToken t)
  | _ => None
  end.

(** The calls that do neither. *)
Definition quiet (p : api) : bool :=
  match p with
  | OpenSCManagerW _ _ _ | OpenServiceW _ _ _ | CreateServiceW _ _ _ _ _ _ _ _ _ _ _ _ _
  | RegOpenKeyExW _ _ _ _ | RegCreateKeyExW _ _ _ _ _ _ _ | RegisterEventSourceW _ _
  | AllocateAndInitializeSidP _ _ _ _ _ _ _ _ _ _ | OpenCurrentProcessTokenP
  | CloseServiceHandleP _ | RegCloseKeyP _ | DeregisterEventSourceP _ | FreeSidP _
  | CloseTokenP _ => false
  | _ => true
  end.

Lemma quiet_taken en : quiet (en_api en) = true → taken en = None ∧ given en = None.
Proof. destruct en as [p rep]. by destruct p. Qed.

Lemma taken_given en : taken en ≠ None → given en = None.
Proof. destruct en as [p rep]. by destruct p. Qed.

Abbreviation keeps_handles := (closes taken given).

Section Handles.
Context `{Windows}.

Lemma closes_calls {A} (m : M A) : calls_only quiet m → keeps_handles m.
Proof.
  intros Hm. apply closes_quiet. intros s. eapply wp_mono; [apply Hm|].
  intros o s' (tr & Hmk & Hq). exists tr. split; [done|]. clear Hmk.
  induction tr as [|en tr IH]; [done|]. simpl in Hq. apply andb_true_iff in Hq as [Hen Htr].
  apply quiet_taken in Hen as [Ht Hg]. cbn [omap list_omap]. rewrite Ht, Hg. by apply IH.
Qed.

(** ** Conversions make no call *)
Lemma calls_toPtr kind s : calls_only kind (toPtr s).
Proof. unfold toPtr. destruct s; [by apply calls_ret|apply calls_StringToUTF16Ptr]. Qed.
Lemma calls_arg_ptrs kind args : calls_only kind (arg_ptrs args).
Proof.
  induction args as [|a args IH]; cbn [arg_ptrs]; [by apply calls_ret|].
  apply calls_bind; [apply calls_StringToUTF16Ptr|]. intros p. apply calls_bind; [done|].
  intros ps. apply calls_ret.
Qed.

#[local] Hint Resolve calls_toPtr calls_arg_ptrs : kind.

(** ** The functions that open a handle *)
Ltac opens_call :=
  apply opens_syscall; intros rep s; unfold check0, check_regerrno; cbn [taken given unless0];
  unfold unless0; destruct (r_ret rep =? 0) eqn:?; eexists; (split; [reflexivity|]);
  (split; [|done]); by cbn [fst].

Ltac texts :=
  repeat (apply opens_bind; [apply closes_calls; solve [calls_of_kind]|intros ?]).

Lemma OpenService_opens h p a : opens taken given (OpenService h p a) (λ x, Some (HService x)).
Proof. unfold OpenService. opens_call. Qed.

Lemma Connect_opens : opens taken given Connect (λ m, Some (HService (m_Handle m))).
Proof.
  unfold Connect, ConnectRemote. texts. apply (opens_ret _ _ _ (λ x, Some (HService x))); [|done].
  unfold OpenSCManager. opens_call.
Qed.

Lemma Mgr_OpenService_opens m nm :
  opens taken given (Mgr_OpenService m nm) (λ s, Some (HService (Handle s))).
Proof.
  unfold Mgr_OpenService. texts. apply (opens_ret _ _ _ (λ x, Some (HService x))); [|done].
  apply OpenService_opens.
Qed.

(** A service created without a description; see [CreateService_orphan]. *)
Lemma Mgr_CreateService_opens m nm exe c :
  Description c = "" →
  opens taken given (Mgr_CreateService m nm exe c) (λ s, Some (HService (Handle s))).
Proof.
  intros Hd. unfold Mgr_CreateService. cbv zeta. texts. unfold with_defaults. cbn [Description].
  rewrite Hd, bool_decide_true by done.
  apply (opens_ret _ _ (CreateService _ _ _ _ _ _ _ _ _ _ _ _ _) (λ x, Some (HService x))
           (λ h, {| Name := nm; Handle := h |})); [|done].
  unfold CreateService. opens_call.
Qed.

Lemma OpenKey_opens k path : opens taken given (OpenKey k path) (λ k, Some (HKey (k_Handle k))).
Proof.
  unfold OpenKey. texts. apply (opens_ret _ _ _ (λ x, Some (HKey x))); [|done].
  unfold RegOpenKeyEx. opens_call.
Qed.

Lemma Open_opens source : opens taken given (Open source) (λ l, Some (HLog (l_Handle l))).
Proof.
  unfold Open, OpenRemote. case_bool_decide.
  { intros held s. exists []. by split; [apply makes_nil|]. }
  texts. apply (opens_ret _ _ _ (λ x, Some (HLog x))); [|done].
  unfold RegisterEventSource. opens_call.
Qed.

Lemma CreateSubKey_opens k nm :
  opens taken given (CreateSubKey k nm) (λ x, Some (HKey (k_Handle x.1))).
Proof.
  unfold CreateSubKey, RegCreateKeyEx. texts. intros held s.
  apply wp_bind, wp_bind, wp_syscall. intros rep w' _. eapply wp_mono.
  { apply (wp_check_regerrno rep (r_out rep) (λ o s', makes s s' [Entry _ rep] ∧
      o = if r_ret rep =? 0 then Ret (r_out rep) else Err (Errno (r_ret rep))));
      intros Hr; (split; [done|]); by zeqb. }
  intros o s' [Hm ->]. destruct (r_ret rep =? 0) eqn:Hr.
  - cbn [out_of] in *. destruct (r_out rep) as [h d] eqn:Ho. apply wp_ret.
    eexists. split; [done|]. cbn [unwind taken]. rewrite Hr. cbn [out_of] in *. by rewrite Ho.
  - eexists. split; [done|]. cbn [unwind taken given]. by rewrite Hr.
Qed.

Lemma allocSid_opens a : opens taken given (allocSid a) (λ x, Some (HSid x)).
Proof. unfold allocSid, AllocateAndInitializeSid. opens_call. Qed.

Lemma OpenCurrentProcessToken_opens :
  opens taken given OpenCurrentProcessToken (λ x, Some (HToken x)).
Proof. unfold OpenCurrentProcessToken. opens_call. Qed.

(** ** Those that give one back *)
Ltac gives_call :=
  apply gives_back_ignore, gives_back_syscall; intros rep ?; unfold check0, check_regerrno;
  by destruct (r_ret rep =? 0).

Lemma Disconnect_gives m : gives_back taken given (ignore (Disconnect m)) (HService (m_Handle m)).
Proof. gives_call. Qed.
Lemma Service_Close_gives s : gives_back taken given (ignore (Service_Close s)) (HService (Handle s)).
Proof. gives_call. Qed.
Lemma Key_Close_gives k : gives_back taken given (ignore (Key_Close k)) (HKey (k_Handle k)).
Proof. gives_call. Qed.
Lemma Log_Close_gives l : gives_back taken given (ignore (Log_Close l)) (HLog (l_Handle l)).
Proof. gives_call. Qed.
Lemma FreeSid_gives a : gives_back taken given (ignore (FreeSid a)) (HSid a).
Proof. gives_call. Qed.
Lemma Token_Close_gives t : gives_back taken given (ignore (Token_Close t)) (HToken t).
Proof. gives_call. Qed.

(** ** The functions that keep none *)
Lemma closes_ret {A} (a : A) : keeps_handles (ret a).
Proof. apply closes_calls, calls_ret. Qed.
Lemma closes_err {A} e : keeps_handles (err (A := A) e).
Proof. apply closes_calls, calls_err. Qed.

Ltac closes_quietly := apply closes_calls; solve [calls_of_kind].

Lemma Delete_closes s : keeps_handles (Delete s).
Proof. unfold Delete, DeleteService. closes_quietly. Qed.
Lemma Start_closes s args : keeps_handles (Start s args).
Proof. unfold Start, StartService. closes_quietly. Qed.
Lemma Control_closes s c : keeps_handles (Control s c).
Proof. unfold Control, ControlService. closes_quietly. Qed.
Lemma Query_closes s : keeps_handles (Query s).
Proof. unfold Query, QueryServiceStatus. closes_quietly. Qed.
Lemma SetUInt32_closes k nm v : keeps_handles (SetUInt32 k nm v).
Proof. unfold SetUInt32, RegSetValueEx. closes_quietly. Qed.
Lemma setString_closes k nm v vt : keeps_handles (setString k nm v vt).
Proof. unfold setString, RegSetValueEx. closes_quietly. Qed.
Lemma DeleteSubKey_closes k nm : keeps_handles (DeleteSubKey k nm).
Proof. unfold DeleteSubKey, RegDeleteKey. closes_quietly. Qed.
Lemma report_closes l etype eid msg : keeps_handles (report l etype eid msg).
Proof. unfold report, ReportEvent. closes_quietly. Qed.

#[local] Hint Resolve closes_ret closes_err SetUInt32_closes setString_closes DeleteSubKey_closes : closes.

Lemma Install_closes src msgFile useExpandKey events :
  keeps_handles (Install src msgFile useExpandKey events).
Proof.
  unfold Install. eapply closes_open; [apply OpenKey_opens|]. intros key. cbn beta iota.
  apply gives_back_defer; [apply Key_Close_gives|].
  eapply closes_open; [apply CreateSubKey_opens|]. intros [sk ex]. cbn beta iota.
  apply (gives_back_defer _ _ _ _ (HKey (k_Handle sk))); [apply Key_Close_gives|].
  destruct ex; [apply closes_err|]. unfold SetString, SetStringExpand.
  apply closes_bind; [auto with closes|intros _].
  apply closes_bind; [destruct useExpandKey; auto with closes|intros _]. auto with closes.
Qed.

Lemma Remove_closes src : keeps_handles (Remove src).
Proof.
  unfold Remove. eapply closes_open; [apply OpenKey_opens|]. intros key. cbn beta iota.
  apply gives_back_defer; [apply Key_Close_gives|]. auto with closes.
Qed.

Lemma getTokenGroups_calls t : calls_only quiet (getTokenGroups t).
Proof.
  unfold getTokenGroups, getInfo, first_elem, GetTokenInformation. calls_of_kind.
Qed.

Lemma group_loop_calls i v n gs : calls_only quiet (group_loop i v n gs).
Proof.
  revert gs. induction n as [|n IH]; intros [|g gs]; cbn [group_loop]; unfold EqualSid; calls_of_kind.
Qed.

Lemma IsAnInteractiveSession_closes : keeps_handles IsAnInteractiveSession.
Proof.
  unfold IsAnInteractiveSession.
  eapply closes_open; [apply allocSid_opens|]. intros i. cbn beta iota.
  apply gives_back_defer; [apply FreeSid_gives|].
  eapply closes_open; [apply allocSid_opens|]. intros v. cbn beta iota.
  apply gives_back_defer; [apply FreeSid_gives|].
  eapply closes_open; [apply OpenCurrentProcessToken_opens|]. intros t. cbn beta iota.
  apply gives_back_defer; [apply Token_Close_gives|].
  apply closes_calls, calls_bind; [apply getTokenGroups_calls|]. intros gs.
  destruct (_ <? _); [apply calls_throw|apply group_loop_calls].
Qed.

End Handles.

#[export] Hint Resolve closes_ret closes_err Delete_closes Start_closes Control_closes
  Query_closes report_closes Install_closes Remove_closes IsAnInteractiveSession_closes : closes.
