(* ===== verification/Rules.v ===== *)
(** * The operations of [mgr] and [registry] that make one call

    [one_call p f m] says that [m] makes the call [p], nothing else, and that [f]
    makes its result of the answer. It is the rule a client uses to follow an
    operation through the state of Windows. *)
From Stdlib Require Import ZArith Lia.
From stdpp Require Import base option list strings.
From S2P Require Import Prelude GoText Go WinConst Machine GoSyscall Winapi.
From S2P Require Import SvcService MgrText Mgr Registry EventLog.

Local Open Scope Z_scope.
Local Open Scope go_scope.

Section OneCall.
Context `{Windows}.

Definition one_call {A} (p : api) (f : reply p → out A) (m : M A) : Prop :=
  ∀ s rep w', call p (st_world s) = (rep, w') →
    m s = (f rep, St w' (st_trace s ++ [Entry p rep]) (st_vars s)).

Lemma wp_one_call {A} p f (m : M A) (Q : out A → st → Prop) s :
  one_call p f m →
  (∀ rep w', call p (st_world s) = (rep, w') →
     Q (f rep) (St w' (st_trace s ++ [Entry p rep]) (st_vars s))) → wp m Q s.
Proof.
  intros Hm HQ. unfold wp. destruct (call p (st_world s)) as [rep w'] eqn:E.
  rewrite (Hm _ _ _ E). by apply HQ.
Qed.

(** The results: the word returned is a handle, a success or an error code. *)
Definition word_result {p} (r : reply p) : out Z :=
  if r_ret r =? 0 then Err (errno_error (r_err r)) else Ret (r_ret r).
Definition success {p} (r : reply p) : out unit :=
  if r_ret r =? 0 then Err (errno_error (r_err r)) else Ret tt.
Definition reg_success {p} (r : reply p) : out unit :=
  if r_ret r =? 0 then Ret tt else Err (Errno (r_ret r)).
(** A value made of the answer, unless the call has failed. *)
Definition unless_failed {p A} (r : reply p) (v : A) : out A :=
  if r_ret r =? 0 then Err (errno_error (r_err r)) else Ret v.

(** Unfolds the operation down to the call, with the answer known. *)
Ltac solve_one_call :=
  let s := fresh "s" in let rep := fresh "rep" in let w' := fresh "w'" in let E := fresh "E" in
  intros s rep w' E;
  unfold bind, syscall, StringToUTF16Ptr, StringToUTF16, lift, check0, check_regerrno,
    success, reg_success, unless_failed, ret, err;
  repeat match goal with N : has_nul _ = false |- _ => rewrite N end;
  rewrite E; by destruct (r_ret rep =? 0).

(** ** mgr *)
Lemma Connect_one_call :
  one_call (OpenSCManagerW None None SC_MANAGER_ALL_ACCESS)
    (λ r, unless_failed r {| m_Handle := r_ret r |}) Connect.
Proof. unfold Connect, ConnectRemote, OpenSCManager. rewrite bool_decide_true by done. solve_one_call. Qed.

Lemma OpenService_one_call m nm :
  has_nul nm = false →
  one_call (OpenServiceW (m_Handle m) (Some (units_of nm ++ [0])) SERVICE_ALL_ACCESS)
    (λ r, unless_failed r {| Name := nm; Handle := r_ret r |}) (Mgr_OpenService m nm).
Proof. intros N. unfold Mgr_OpenService, OpenService. solve_one_call. Qed.

Lemma toPtr_run s (σ : st) : has_nul s = false → toPtr s σ = (Ret (ptr_of s), σ).
Proof.
  intros N. unfold toPtr, ptr_of. destruct s as [|a s]; [done|]. cbn [String.length Nat.eqb].
  by rewrite StringToUTF16Ptr_run, bool_decide_false.
Qed.

(** [CreateService] without a description. *)
Lemma CreateService_one_call m nm exe c :
  existsb has_nul [nm; DisplayName c; exe; LoadOrderGroup c; ServiceStartName c; Password c] = false →
  Description c = "" →
  let start := if StartType c =? 0 then StartManual else StartType c in
  let control := if ErrorControl c =? 0 then ErrorNormal else ErrorControl c in
  one_call (CreateServiceW (m_Handle m) (ptr_of nm) (ptr_of (DisplayName c))
      SERVICE_ALL_ACCESS SERVICE_WIN32_OWN_PROCESS start control
      (ptr_of exe) (ptr_of (LoadOrderGroup c)) 0 (toStringBlock (elems (Dependencies c)))
      (ptr_of (ServiceStartName c)) (ptr_of (Password c)))
    (λ r, unless_failed r {| Name := nm; Handle := r_ret r |}) (Mgr_CreateService m nm exe c).
Proof.
  intros Hn Hd start control s rep w' E. subst start control. cbn [existsb] in Hn.
  repeat match goal with Hn : _ || _ = false |- _ => apply orb_false_elim in Hn as [? Hn] end.
  unfold Mgr_CreateService, with_defaults.
  cbn [StartType ErrorControl DisplayName LoadOrderGroup ServiceStartName Password Dependencies Description].
  unfold bind. rewrite !toPtr_run by done. unfold CreateService, bind, syscall, check0, unless_failed, ret, err.
  rewrite E.
  rewrite Hd, bool_decide_true by done. by destruct (r_ret rep =? 0).
Qed.

Lemma Delete_one_call s : one_call (DeleteServiceP (Handle s)) success (Delete s).
Proof. unfold Delete, DeleteService. solve_one_call. Qed.
Lemma Service_Close_one_call s : one_call (CloseServiceHandleP (Handle s)) success (Service_Close s).
Proof. unfold Service_Close, CloseServiceHandle. solve_one_call. Qed.
Lemma Disconnect_one_call m : one_call (CloseServiceHandleP (m_Handle m)) success (Disconnect m).
Proof. unfold Disconnect, CloseServiceHandle. solve_one_call. Qed.
Lemma Control_one_call s c :
  one_call (ControlServiceP (Handle s) c) (λ r, unless_failed r (to_status (r_out r))) (Control s c).
Proof. unfold Control, ControlService. solve_one_call. Qed.
Lemma Query_one_call s :
  one_call (QueryServiceStatusP (Handle s)) (λ r, unless_failed r (to_status (r_out r))) (Query s).
Proof. unfold Query, QueryServiceStatus. solve_one_call. Qed.

(** ** registry *)
Lemma OpenKey_one_call k path :
  has_nul path = false →
  one_call (RegOpenKeyExW k (Some (units_of path ++ [0])) 0 KEY_ALL_ACCESS)
    (λ r, if r_ret r =? 0 then Ret {| k_Handle := r_out r |} else Err (Errno (r_ret r)))
    (OpenKey k path).
Proof. intros N. unfold OpenKey, RegOpenKeyEx. solve_one_call. Qed.
Lemma CreateSubKey_one_call k nm :
  has_nul nm = false →
  one_call (RegCreateKeyExW (k_Handle k) (Some (units_of nm ++ [0])) 0 None REG_OPTION_NON_VOLATILE
              KEY_ALL_ACCESS 0)
    (λ r, if r_ret r =? 0
          then Ret ({| k_Handle := (r_out r).1 |}, (r_out r).2 =? REG_OPENED_EXISTING_KEY)
          else Err (Errno (r_ret r)))
    (CreateSubKey k nm).
Proof.
  intros N s rep w' E. unfold CreateSubKey, RegCreateKeyEx, bind.
  rewrite (StringToUTF16Ptr_run _ _ N). unfold syscall. rewrite E. unfold check_regerrno.
  destruct (r_ret rep =? 0); [|done]. cbn [out_of] in *. by destruct (r_out rep).
Qed.
Lemma DeleteSubKey_one_call k nm :
  has_nul nm = false →
  one_call (RegDeleteKeyW (k_Handle k) (Some (units_of nm ++ [0]))) reg_success (DeleteSubKey k nm).
Proof. intros N. unfold DeleteSubKey, RegDeleteKey. solve_one_call. Qed.
Lemma SetUInt32_one_call k nm v :
  has_nul nm = false →
  one_call (RegSetValueExW (k_Handle k) (Some (units_of nm ++ [0])) 0 REG_DWORD (le_bytes 4 v) 4)
    reg_success (SetUInt32 k nm v).
Proof. intros N. unfold SetUInt32, RegSetValueEx. solve_one_call. Qed.
Lemma setString_one_call k nm v vt :
  has_nul nm = false → has_nul v = false →
  one_call (RegSetValueExW (k_Handle k) (Some (units_of nm ++ [0])) 0 vt (le16 (units_of v ++ [0]))
              (wrap 32 (Z.of_nat (length (units_of v ++ [0])) * 2)))
    reg_success (setString k nm v vt).
Proof. intros N N'. unfold setString, RegSetValueEx. solve_one_call. Qed.
Lemma Key_Close_one_call k : one_call (RegCloseKeyP (k_Handle k)) reg_success (Key_Close k).
Proof. unfold Key_Close, RegCloseKey. solve_one_call. Qed.

(** ** eventlog *)
Lemma Open_one_call src :
  src ≠ "" → has_nul src = false →
  one_call (RegisterEventSourceW None (Some (units_of src ++ [0])))
    (λ r, unless_failed r {| l_Handle := r_ret r |}) (Open src).
Proof.
  intros Hs N. unfold Open, OpenRemote. rewrite (bool_decide_false (src = "")), bool_decide_true by done.
  unfold RegisterEventSource. solve_one_call.
Qed.
Lemma report_one_call l etype eid msg :
  has_nul msg = false →
  one_call (ReportEventW (l_Handle l) etype 0 eid 0 1 0 (Some [Some (units_of msg ++ [0])]) 0)
    success (report l etype eid msg).
Proof. intros N. unfold report, ReportEvent. solve_one_call. Qed.
Lemma Log_Close_one_call l : one_call (DeregisterEventSourceP (l_Handle l)) success (Log_Close l).
Proof. unfold Log_Close, DeregisterEventSource. solve_one_call. Qed.

End OneCall.

(** Follows an operation: [E] says what Windows has answered. *)
Tactic Notation "wp_call" uconstr(L) "as" simple_intropattern(rep) simple_intropattern(w)
    simple_intropattern(E) :=
  eapply wp_one_call; [eapply L|intros rep w E].
