(* ===== verification/CatalogRules.v ===== *)
(** * Following a program through the catalog

    [cat m Q c r d]: from every state of a catalogued Windows whose catalog is [c],
    [m] ends with [Q] of its outcome and the catalog it leaves. [r] counts the
    calls refused so far, other than openings of a service, and [d] the deletions
    of a service refused. The rules follow the constructs of Go and the
    operations of [mgr] and [registry]. *)
From Stdlib Require Import ZArith Lia.
From stdpp Require Import base option list strings gmap.
From S2P Require Import Prelude GoText Go WinConst Machine GoSyscall Script GoOs Catalog Winapi.
From S2P Require Import SvcService MgrText Mgr Registry EventLog Rules.

Local Open Scope Z_scope.
Local Open Scope go_scope.

(** Texts are compared, not computed. *)
#[local] Opaque units_of le16 le_bytes.

Definition failed {p} (rep : reply p) : bool :=
  if returns_error p then negb (r_ret rep =? 0) else r_ret rep =? 0.

Definition refused (en : entry) : bool :=
  match en with
  | Entry (OpenServiceW _ _ _) _ => false
  | Entry p rep => catalog_call p && failed rep
  end.
Definition undeleted (en : entry) : bool :=
  match en with Entry (DeleteServiceP _) rep => r_ret rep =? 0 | _ => false end.

Definition bump (n : nat) (b : bool) : nat := if b then S n else n.

Section Rules.
Context `{Win : Windows} `{HCat : !Catalogued}.

Definition here (s : st) : catalog := view (st_world s).
Definition count (b : entry → bool) (s : st) : nat := length (List.filter b (st_trace s)).

Lemma count_snoc b w tr en v : count b (St w (tr ++ [en]) v) = bump (length (List.filter b tr)) (b en).
Proof.
  unfold count. cbn. rewrite List.filter_app, length_app. cbn. destruct (b en); simpl; lia.
Qed.

Definition cat {A} (m : M A) (Q : out A → catalog → nat → nat → Prop) (c : catalog) (r d : nat) : Prop :=
  ∀ s, here s = c → count refused s = r → count undeleted s = d →
    wp m (λ o s', Q o (here s') (count refused s') (count undeleted s')) s.

Implicit Types (c : catalog) (r d : nat).

Lemma cat_ret {A} (a : A) Q c r d : Q (Ret a) c r d → cat (ret a) Q c r d.
Proof. intros HQ s <- <- <-. by apply wp_ret. Qed.
Lemma cat_err {A} e (Q : out A → catalog → nat → nat → Prop) c r d : Q (Err e) c r d → cat (err e) Q c r d.
Proof. intros HQ s <- <- <-. by apply wp_err. Qed.

Lemma cat_mono {A} (m : M A) (Q Q' : out A → catalog → nat → nat → Prop) c r d :
  cat m Q c r d → (∀ o c' r' d', Q o c' r' d' → Q' o c' r' d') → cat m Q' c r d.
Proof. intros Hm HQ s Hc Hr Hd. eapply wp_mono; [by apply Hm|]. intros o s'. apply HQ. Qed.

Lemma cat_bind {A B} (m : M A) (k : A → M B) Q c r d :
  cat m (λ o c' r' d', match o with
                       | Ret a => cat (k a) Q c' r' d'
                       | Err e => Q (Err e) c' r' d'
                       | Panic p => Q (Panic p) c' r' d'
                       end) c r d → cat (bind m k) Q c r d.
Proof.
  intros Hm s Hc Hr Hd. apply wp_bind. eapply wp_mono; [by apply Hm|]. intros [a|e|p] s' H'; try done.
  by apply H'.
Qed.

Lemma cat_attempt {A} (m : M A) Q c r d :
  cat m (λ o, match o with
              | Ret a => Q (Ret (inl a))
              | Err e => Q (Ret (inr e))
              | Panic p => Q (Panic p)
              end) c r d → cat (attempt m) Q c r d.
Proof. intros Hm s Hc Hr Hd. apply wp_attempt. eapply wp_mono; [by apply Hm|]. by intros []. Qed.

Lemma cat_ignore {A} (m : M A) Q c r d :
  cat m (λ o, match o with Panic p => Q (Panic p) | _ => Q (Ret tt) end) c r d → cat (ignore m) Q c r d.
Proof.
  intros Hm s Hc Hr Hd. apply wp_ignore. eapply wp_mono; [by apply Hm|]. intros [] s' H'; exact H'.
Qed.

Lemma cat_defer {A} cl (m : M A) Q c r d :
  cat m (λ o, cat cl (λ o', match o' with Panic p => Q (Panic p) | _ => Q o end)) c r d →
  cat (defer cl m) Q c r d.
Proof.
  intros Hm s Hc Hr Hd. apply wp_defer. eapply wp_mono; [by apply Hm|]. intros o s1 H1.
  eapply wp_mono; [by apply H1|]. intros o' s2 H2. by destruct o'.
Qed.

(** A call with a documented effect. *)
Lemma cat_call {A} p f (m : M A) Q c r d :
  one_call p f m → catalog_call p = true →
  (∀ rep c', effect fold (Entry p rep) c = Some c' →
     Q (f rep) c' (bump r (refused (Entry p rep))) (bump d (undeleted (Entry p rep)))) →
  cat m Q c r d.
Proof.
  intros Hm Hp HQ s <- <- <-. eapply wp_one_call; [exact Hm|]. intros rep w' E.
  rewrite !count_snoc. apply HQ. by apply (view_call p (st_world s)).
Qed.

(** ** Names *)
Lemma cstr_text s : has_nul s = false → cstr (Some (units_of s ++ [0])) = units_of s.
Proof. intros Hn. apply prefix_until_app; [by apply units_of_no_nul|done]. Qed.

Lemma cstr_ptr_of s : has_nul s = false → cstr (ptr_of s) = units_of s.
Proof.
  intros Hn. unfold ptr_of. case_bool_decide as Hs; [|by apply cstr_text].
  symmetry. by apply units_of_nil.
Qed.

(** The name a text stands for. *)
Definition named (s : string) : wname := fold (units_of s).

(** ** The registry *)
Lemma with_keys_again c ks ks' : with_keys (with_keys c ks) ks' = with_keys c ks'.
Proof. done. Qed.
Lemma with_keys_same c : with_keys c (keys c) = c.
Proof. by destruct c. Qed.
Lemma with_handles_same c : with_handles c (handles c) = c.
Proof. by destruct c. Qed.
Lemma with_registry_same c : with_registry c (registry c) = c.
Proof. by destruct c. Qed.

(** A catalog with one more key open. *)
Definition keyed c (k : Z) (path : wname) : catalog := with_keys c (<[k:=path]> (keys c)).
Definition fresh_key c (k : Z) : Prop := keys c !! k = None ∧ k ≠ HKEY_LOCAL_MACHINE.

Lemma new_key_some c k path c' : new_key c k path = Some c' → c' = keyed c k path ∧ fresh_key c k.
Proof.
  unfold new_key, fresh_key. case_decide as Hk; [done|]. intros [= <-]. split; [done|].
  split; [|by intros ->; apply Hk; left]. apply eq_None_not_Some. intros ?. apply Hk. by right.
Qed.

Lemma key_path_keyed c k path : fresh_key c k → key_path (keyed c k path) k = Some path.
Proof.
  intros [_ Hk]. unfold key_path, keyed. rewrite (proj2 (Z.eqb_neq _ _) Hk). simpl.
  by rewrite lookup_insert_eq.
Qed.

Lemma cat_OpenKey path Q c r d :
  has_nul path = false →
  (is_Some (registry c !! named path) → ∀ k, fresh_key c k →
     Q (Ret {| k_Handle := k |}) (keyed c k (named path)) r d) →
  (∀ e, Q (Err e) c (S r) d) →
  cat (OpenKey HKEY_LOCAL_MACHINE path) Q c r d.
Proof.
  intros Hn H1 H2. eapply cat_call; [by apply OpenKey_one_call|done|]. intros rep c'.
  cbn [effect refused undeleted bump]. unfold failed. cbn [returns_error catalog_call andb].
  rewrite cstr_text by done. unfold key_path. rewrite Z.eqb_refl. cbn [join].
  destruct (r_ret rep =? 0); cbn [negb bump].
  - case_decide; [|done]. intros [-> Hk]%new_key_some. by apply H1.
  - intros [= <-]. apply H2.
Qed.

Lemma cat_CreateSubKey key base nm Q c r d :
  has_nul nm = false → key_path c (k_Handle key) = Some base →
  let path := join base (named nm) in
  (registry c !! path = None → ∀ k', fresh_key c k' →
     Q (Ret ({| k_Handle := k' |}, false))
       (keyed (with_registry c (<[path:=∅]> (registry c))) k' path) r d) →
  (is_Some (registry c !! path) → ∀ k', fresh_key c k' →
     Q (Ret ({| k_Handle := k' |}, true)) (keyed c k' path) r d) →
  (∀ e, Q (Err e) c (S r) d) →
  cat (CreateSubKey key nm) Q c r d.
Proof.
  intros Hn Hk path H1 H2 H3. eapply cat_call; [by apply CreateSubKey_one_call|done|]. intros rep c'.
  cbn [effect refused undeleted bump]. unfold failed. cbn [returns_error catalog_call andb].
  rewrite cstr_text by done. rewrite Hk. change (join base (fold (units_of nm))) with path. cbv zeta.
  destruct (r_ret rep =? 0); cbn [negb bump].
  - destruct (registry c !! path) eqn:Hreg; destruct (_ =? REG_OPENED_EXISTING_KEY); try done;
      intros [-> Hf]%new_key_some; [apply H2|apply H1]; done.
  - intros [= <-]. apply H3.
Qed.

Lemma cat_RegSetValue key path vs nm vt buf n (m : M unit) Q c r d :
  has_nul nm = false → keys c !! k_Handle key = Some path → registry c !! path = Some vs →
  one_call (RegSetValueExW (k_Handle key) (Some (units_of nm ++ [0])) 0 vt buf n) reg_success m →
  Q (Ret tt) (with_registry c (<[path:=<[named nm:=(vt, take (Z.to_nat n) buf)]> vs]> (registry c))) r d →
  (∀ e, Q (Err e) c (S r) d) →
  cat m Q c r d.
Proof.
  intros Hn Hk Hp Hm H1 H2. eapply cat_call; [exact Hm|done|]. intros rep c'.
  cbn [effect refused undeleted bump]. unfold failed, reg_success. cbn [returns_error catalog_call andb].
  rewrite cstr_text, Hk by done. destruct (r_ret rep =? 0) eqn:Hr; cbn [negb bump]; intros [= <-].
  - by rewrite (alter_alt_Some _ _ _ _ Hp).
  - apply H2.
Qed.

Lemma cat_SetUInt32 key path vs nm v Q c r d :
  has_nul nm = false → keys c !! k_Handle key = Some path → registry c !! path = Some vs →
  Q (Ret tt) (with_registry c (<[path:=<[named nm:=(REG_DWORD, le_bytes 4 v)]> vs]> (registry c))) r d →
  (∀ e, Q (Err e) c (S r) d) →
  cat (SetUInt32 key nm v) Q c r d.
Proof.
  intros Hn Hk Hp H1 H2. eapply cat_RegSetValue; [exact Hn|done|done|by apply SetUInt32_one_call| |done].
  rewrite take_ge; [done|]. by rewrite length_le_bytes.
Qed.

Lemma cat_setString key path vs nm v vt Q c r d :
  has_nul nm = false → has_nul v = false → Z.of_nat (length (units_of v)) < 2 ^ 31 - 1 →
  keys c !! k_Handle key = Some path → registry c !! path = Some vs →
  Q (Ret tt) (with_registry c (<[path:=<[named nm:=(vt, le16 (units_of v ++ [0]))]> vs]> (registry c))) r d →
  (∀ e, Q (Err e) c (S r) d) →
  cat (setString key nm v vt) Q c r d.
Proof.
  intros Hn Hv Hl Hk Hp H1 H2.
  eapply cat_RegSetValue; [exact Hn|done|done|by apply setString_one_call| |done].
  rewrite take_ge; [done|]. rewrite length_le16, length_app in *. rewrite wrap_small; simpl; [lia|].
  unfold in_range. lia.
Qed.

Lemma cat_DeleteSubKey key base nm Q c r d :
  has_nul nm = false → key_path c (k_Handle key) = Some base →
  (is_Some (registry c !! join base (named nm)) →
     Q (Ret tt) (with_registry c (delete (join base (named nm)) (registry c))) r d) →
  (∀ e, Q (Err e) c (S r) d) →
  cat (DeleteSubKey key nm) Q c r d.
Proof.
  intros Hn Hk H1 H2. eapply cat_call; [by apply DeleteSubKey_one_call|done|]. intros rep c'.
  cbn [effect refused undeleted bump]. unfold failed, reg_success. cbn [returns_error catalog_call andb].
  rewrite cstr_text, Hk by done. destruct (r_ret rep =? 0); cbn [negb bump].
  - case_decide; [|done]. intros [= <-]. by apply H1.
  - intros [= <-]. apply H2.
Qed.

(** Closing the key opened last leaves the catalog as it was before. *)
Lemma cat_Key_Close key path (Q : out unit → catalog → nat → nat → Prop) c r d :
  fresh_key c (k_Handle key) → Q (Ret tt) c r d →
  cat (ignore (Key_Close key)) Q (keyed c (k_Handle key) path) r d.
Proof.
  intros [Hk _] HQ. apply cat_ignore. eapply cat_call; [apply Key_Close_one_call|done|]. intros rep c'.
  cbn [effect refused undeleted bump]. unfold failed, reg_success, keyed.
  cbn [returns_error catalog_call andb with_keys Catalog.keys]. rewrite lookup_insert_eq.
  destruct (r_ret rep =? 0); [|done]. intros [= <-]. cbn [negb bump].
  rewrite delete_insert_id by done. destruct c. exact HQ.
Qed.

(** A function that runs with the key open, and is not told which it is. *)
Lemma cat_with_key {A} key path (m : M A) Q c r d :
  let k := k_Handle key in
  cat m (λ o c' r' d', ∃ c1, c' = keyed c1 k path ∧ fresh_key c1 k ∧ Q o c1 r' d') (keyed c k path) r d →
  cat (defer (ignore (Key_Close key)) m) Q (keyed c k path) r d.
Proof.
  intros k Hm. apply cat_defer. eapply cat_mono; [exact Hm|]. intros o c' r' d' (c1 & -> & Hk1 & HQ).
  by apply cat_Key_Close.
Qed.

(** ** The service control manager *)

(** A catalog with one more handle open. *)
Definition held c (h : Z) (t : option wname) : catalog := with_handles c (<[h:=t]> (handles c)).

Lemma new_handle_some c h t c' : new_handle c h t = Some c' → c' = held c h t ∧ handles c !! h = None.
Proof. unfold new_handle. destruct (handles c !! h); [done|]. by intros [= <-]. Qed.

Lemma cat_Connect Q c r d :
  (∀ h, handles c !! h = None → Q (Ret {| m_Handle := h |}) (held c h None) r d) →
  (∀ e, Q (Err e) c (S r) d) → cat Connect Q c r d.
Proof.
  intros H1 H2. eapply cat_call; [apply Connect_one_call|done|]. intros rep c'.
  cbn [effect refused undeleted bump]. unfold failed, unless_failed.
  cbn [returns_error catalog_call andb]. destruct (r_ret rep =? 0); cbn [bump].
  - intros [= <-]. apply H2.
  - intros [-> Hh]%new_handle_some. by apply H1.
Qed.

Lemma cat_OpenService m nm Q c r d :
  has_nul nm = false →
  (is_Some (services c !! named nm) → ∀ h, handles c !! h = None →
     Q (Ret {| Name := nm; Handle := h |}) (held c h (Some (named nm))) r d) →
  (∀ e, Q (Err e) c r d) → cat (Mgr_OpenService m nm) Q c r d.
Proof.
  intros Hn H1 H2. eapply cat_call; [by apply OpenService_one_call|done|]. intros rep c'.
  cbn [effect refused undeleted bump]. unfold unless_failed. rewrite cstr_text by done.
  change (fold (units_of nm)) with (named nm). destruct (r_ret rep =? 0).
  - intros [= <-]. apply H2.
  - destruct (services c !! named nm) eqn:Hs; [|done]. intros [-> Hh]%new_handle_some. by apply H1.
Qed.

Lemma cat_CreateService m nm exe cf Q c r d :
  existsb has_nul [nm; DisplayName cf; exe; LoadOrderGroup cf; ServiceStartName cf; Password cf] = false →
  Description cf = "" →
  (services c !! named nm = None → ∀ h, handles c !! h = None →
     Q (Ret {| Name := nm; Handle := h |})
       (held (with_services c (<[named nm:=false]> (services c))) h (Some (named nm))) r d) →
  (∀ e, Q (Err e) c (S r) d) → cat (Mgr_CreateService m nm exe cf) Q c r d.
Proof.
  intros Hn Hd H1 H2. eapply cat_call; [by apply CreateService_one_call|done|]. intros rep c'.
  cbn [existsb] in Hn. apply orb_false_elim in Hn as [Hn _].
  cbn [effect refused undeleted bump]. unfold failed, unless_failed.
  cbn [returns_error catalog_call andb]. rewrite cstr_ptr_of by done.
  change (fold (units_of nm)) with (named nm). destruct (r_ret rep =? 0); cbn [bump].
  - intros [= <-]. apply H2.
  - destruct (services c !! named nm) eqn:Hs; [done|]. intros [-> Hh]%new_handle_some. by apply H1.
Qed.

Lemma cat_Delete s n Q c r d :
  handles c !! Handle s = Some (Some n) →
  Q (Ret tt) (with_services c (<[n:=true]> (services c))) r d →
  (∀ e, Q (Err e) c (S r) (S d)) → cat (Delete s) Q c r d.
Proof.
  intros Hh H1 H2. eapply cat_call; [apply Delete_one_call|done|]. intros rep c'.
  cbn [effect refused undeleted bump]. unfold failed, success. rewrite Hh.
  cbn [returns_error catalog_call andb]. destruct (r_ret rep =? 0); cbn [bump]; intros [= <-];
    [apply H2|exact H1].
Qed.

(** Closing the handle opened last: a service marked for deletion may go. *)
Lemma cat_close_handle h t (cl : M unit) (Q : out unit → catalog → nat → nat → Prop) c r d :
  one_call (CloseServiceHandleP h) success cl → handles c !! h = None →
  Q (Ret tt) (with_services c (swept c (handles c) t)) r d →
  cat (ignore cl) Q (held c h t) r d.
Proof.
  intros Hcl Hh HQ. apply cat_ignore. eapply cat_call; [exact Hcl|done|]. intros rep c'.
  cbn [effect refused undeleted bump]. unfold failed, success, held.
  cbn [returns_error catalog_call andb handles with_handles]. rewrite lookup_insert_eq.
  destruct (r_ret rep =? 0); [done|]. intros [= <-]. cbn [bump].
  rewrite delete_insert_id by done. destruct c. exact HQ.
Qed.

(** A function that runs with the handle open. *)
Lemma cat_with_handle {A} h t (cl : M unit) (m : M A) Q c r d :
  one_call (CloseServiceHandleP h) success cl → handles c !! h = None →
  cat m (λ o c' r' d', ∃ c1, c' = held c1 h t ∧ handles c1 !! h = None ∧
           Q o (with_services c1 (swept c1 (handles c1) t)) r' d') (held c h t) r d →
  cat (defer (ignore cl) m) Q (held c h t) r d.
Proof.
  intros Hcl Hh Hm. apply cat_defer. eapply cat_mono; [exact Hm|].
  intros o c' r' d' (c1 & -> & Hh1 & HQ). by apply cat_close_handle.
Qed.

Lemma cat_with_manager {A} hm (m : M A) Q c r d :
  handles c !! hm = None →
  cat m (λ o c' r' d', ∃ c1, c' = held c1 hm None ∧ handles c1 !! hm = None ∧ Q o c1 r' d')
    (held c hm None) r d →
  cat (defer (ignore (Disconnect {| m_Handle := hm |})) m) Q (held c hm None) r d.
Proof.
  intros Hh Hm. apply cat_with_handle; [exact (Disconnect_one_call {| m_Handle := hm |})|done|].
  eapply cat_mono; [exact Hm|]. intros o c' r' d' (c1 & -> & Hh1 & HQ).
  exists c1. split; [done|]. split; [done|]. by destruct c1.
Qed.

Lemma cat_with_service {A} nm h t (m : M A) Q c r d :
  handles c !! h = None →
  cat m (λ o c' r' d', ∃ c1, c' = held c1 h t ∧ handles c1 !! h = None ∧
           Q o (with_services c1 (swept c1 (handles c1) t)) r' d') (held c h t) r d →
  cat (defer (ignore (Service_Close {| Name := nm; Handle := h |})) m) Q (held c h t) r d.
Proof.
  intros Hh Hm. apply cat_with_handle; [|done|exact Hm].
  exact (Service_Close_one_call {| Name := nm; Handle := h |}).
Qed.

End Rules.
