(* ===== verification/Debug.v ===== *)
(** * Package [debug]: a service on the console

    debug/log.go: the interface [Log] and its implementation on the console
    (package [eventlog] is the other one). debug/service.go: [Run], which runs the
    handler on the calling goroutine and answers it from another one, as a step
    relation. [os.Stdout.Write] is a parameter. *)
From Stdlib Require Import ZArith Lia.
From stdpp Require Import base option list strings pretty.
From S2P Require Import Prelude GoText Go WinConst Machine GoSyscall Script Winapi.
From S2P Require Import SvcEvent SvcService SvcAsm SvcSystem EventLog ExampleService.

Local Open Scope Z_scope.
Local Open Scope go_scope.

(** ** log.go *)
Class Log `{Windows} (L : Type) := {
  Close : L → M unit;
  Info : L → Z → string → M unit;
  Warning : L → Z → string → M unit;
  Error : L → Z → string → M unit
}.

(** [*eventlog.Log] has the methods of the interface. *)
#[export] Instance EventLog_Log `{Windows} : Log EventLog.Log :=
  {| Close := Log_Close; Info := Log_Info; Warning := Log_Warning; Error := Log_Error |}.

Record ConsoleLog := { cl_Name : string }.

Definition New (source : string) : ConsoleLog := {| cl_Name := source |}.

(** ["\n"] *)
Definition newline : string := String (Ascii.ascii_of_nat 10) EmptyString.

(** The line, [strconv.Itoa(int(eid))] depending on the width of [int]. *)
Definition console_line (a : arch) (l : ConsoleLog) (kind : string) (eid : Z) (msg : string) : string :=
  cl_Name l +:+ "." +:+ kind +:+ "(" +:+ pretty (signed (word_bits a) eid) +:+ "): " +:+ msg +:+ newline.

Section Console.
Context `{Windows} (a : arch) (Stdout_Write : string → M unit).

Definition Console_report (l : ConsoleLog) (kind : string) (eid : Z) (msg : string) : M unit :=
  Stdout_Write (console_line a l kind eid msg).

Definition Console_Close (l : ConsoleLog) : M unit := ret tt.
Definition Console_Info (l : ConsoleLog) : Z → string → M unit := Console_report l "info".
Definition Console_Warning (l : ConsoleLog) : Z → string → M unit := Console_report l "warn".
Definition Console_Error (l : ConsoleLog) : Z → string → M unit := Console_report l "error".

Definition ConsoleLog_Log : Log ConsoleLog :=
  {| Close := Console_Close; Info := Console_Info; Warning := Console_Warning;
     Error := Console_Error |}.

End Console.

(** ** service.go

    The channels are unbuffered; [signal.Notify] does not wait for a receiver, so
    a signal counts only while the answering goroutine is at its [select]. *)
Section DebugRun.
Context `{Hand : Handler}.

Record dsys := DSys {
  d_status : Status;
  d_sending : option ChangeRequest;   (* at [cmds <- ...]; [None]: at the [select] *)
  d_handler : hstate;
  d_ret : option (bool * Z);          (* [Execute] has returned *)
  d_crash : option panic
}.

Definition dinit (name : string) : dsys :=
  DSys (status_of Stopped) None (Execute [name]) None None.

(** [Run] returns what [Execute] gave. *)
Definition Run_result (r : bool * Z) : out unit :=
  let '(_, errno) := r in if errno =? 0 then Ret tt else Err (Errno errno).

Inductive dlabel :=
| DSignal                        (* case [<-sig] *)
| DDeliver (cr : ChangeRequest)  (* its [cmds <- ...] *)
| DChange (g : nat) (c : Status) (* case [status = <-changes] *)
| DReturn (ssec : bool) (ec : Z)
| DTau (g : nat)
| DPanic (p : panic).

Inductive dstep (s : dsys) : dlabel → dsys → Prop :=
| dstep_signal :
    d_crash s = None → d_sending s = None →
    dstep s DSignal (DSys (d_status s) (Some {| Cmd := Stop; CurrentStatus := d_status s |})
                       (d_handler s) (d_ret s) None)
| dstep_deliver cr h' :
    d_crash s = None → d_sending s = Some cr → hnext (d_handler s) (HRecv cr) = Some h' →
    dstep s (DDeliver cr) (DSys (d_status s) None h' (d_ret s) None)
| dstep_change g c h' :
    d_crash s = None → d_sending s = None → hnext (d_handler s) (HSend g c) = Some h' →
    dstep s (DChange g c) (DSys c None h' (d_ret s) None)
| dstep_return ssec ec h' :
    d_crash s = None → d_ret s = None → hnext (d_handler s) (HReturn ssec ec) = Some h' →
    dstep s (DReturn ssec ec) (DSys (d_status s) (d_sending s) h' (Some (ssec, ec)) None)
| dstep_tau g h' :
    d_crash s = None → hnext (d_handler s) (HTau g) = Some h' →
    dstep s (DTau g) (DSys (d_status s) (d_sending s) h' (d_ret s) None)
| dstep_panic p h' :
    d_crash s = None → hnext (d_handler s) (HPanic p) = Some h' →
    dstep s (DPanic p) (DSys (d_status s) (d_sending s) h' (d_ret s) (Some p)).

(** The executor. *)
Definition dnext (s : dsys) (l : dlabel) : option dsys :=
  match d_crash s with Some _ => None | None =>
  match l with
  | DSignal =>
      match d_sending s with
      | None => Some (DSys (d_status s) (Some {| Cmd := Stop; CurrentStatus := d_status s |})
                        (d_handler s) (d_ret s) None)
      | Some _ => None
      end
  | DDeliver cr =>
      if decide (d_sending s = Some cr) then
        (λ h', DSys (d_status s) None h' (d_ret s) None) <$> hnext (d_handler s) (HRecv cr)
      else None
  | DChange g c =>
      match d_sending s with
      | None => (λ h', DSys c None h' (d_ret s) None) <$> hnext (d_handler s) (HSend g c)
      | Some _ => None
      end
  | DReturn ssec ec =>
      match d_ret s with
      | None => (λ h', DSys (d_status s) (d_sending s) h' (Some (ssec, ec)) None)
                <$> hnext (d_handler s) (HReturn ssec ec)
      | Some _ => None
      end
  | DTau g =>
      (λ h', DSys (d_status s) (d_sending s) h' (d_ret s) None) <$> hnext (d_handler s) (HTau g)
  | DPanic p =>
      (λ h', DSys (d_status s) (d_sending s) h' (d_ret s) (Some p)) <$> hnext (d_handler s) (HPanic p)
  end end.

Lemma dnext_sound s l s' : dnext s l = Some s' → dstep s l s'.
Proof.
  unfold dnext. destruct (d_crash s) eqn:Hc; [done|]. intros Hn.
  destruct l; cases_hyp; simplify_option_eq; eauto using dstep.
Qed.

(** The statuses received, and what the handler has been asked. *)
Definition d_received (ls : list dlabel) : list Status :=
  omap (λ l, match l with DChange _ c => Some c | _ => None end) ls.
Definition d_asked (ls : list dlabel) : list ChangeRequest :=
  omap (λ l, match l with DDeliver cr => Some cr | _ => None end) ls.
Definition d_signals (ls : list dlabel) : nat :=
  length (omap (λ l, match l with DSignal => Some tt | _ => None end) ls).
Definition d_returns (ls : list dlabel) : list (bool * Z) :=
  omap (λ l, match l with DReturn s e => Some (s, e) | _ => None end) ls.

Definition last_status (ls : list dlabel) : Status :=
  default (status_of Stopped) (last (d_received ls)).

Definition d_inv (ls : list dlabel) (s : dsys) : Prop :=
  d_status s = last_status ls ∧
  (∀ cr, d_sending s = Some cr → cr = {| Cmd := Stop; CurrentStatus := last_status ls |}) ∧
  d_signals ls = (length (d_asked ls) + length (option_list (d_sending s)))%nat ∧
  Forall (λ cr, Cmd cr = Stop) (d_asked ls) ∧
  d_returns ls = option_list (d_ret s).

Lemma last_status_snoc ls l :
  last_status (ls ++ [l]) = match l with DChange _ c => c | _ => last_status ls end.
Proof.
  unfold last_status, d_received. rewrite omap_app.
  destruct l; cbn; rewrite ?app_nil_r; try done. by rewrite last_snoc.
Qed.

Lemma d_inv_step ls s l s' : d_inv ls s → dstep s l s' → d_inv (ls ++ [l]) s'.
Proof.
  unfold d_inv. intros (Hs & Hc & Hn & Ha & Hr) Hst. rewrite last_status_snoc.
  unfold d_signals, d_asked, d_returns in *. rewrite !omap_app, !length_app, Hn, Hr.
  inv Hst; simpl;
    repeat match goal with E : d_sending _ = _ |- _ => rewrite E in *
                         | E : d_ret _ = _ |- _ => rewrite E in * end;
    rewrite ?app_nil_r; split_and!; try done; try lia; try (by destruct (d_sending s); lia).
  - intros ? [= <-]. by rewrite Hs.
  - apply Forall_app. split; [done|]. constructor; [|done]. by rewrite (Hc _ eq_refl).
Qed.

Lemma d_inv_exec name ls s : exec dstep (dinit name) ls s → d_inv ls s.
Proof. apply exec_invariant; [by split_and!|apply d_inv_step]. Qed.

(** The console run asks the handler for one thing only: every request is a
    [Stop] that carries the last status received, and there is exactly one for
    each signal taken, the last of which may still be on its way. *)
Theorem debug_requests name ls s cr s' :
  exec dstep (dinit name) ls s → dstep s (DDeliver cr) s' →
  cr = {| Cmd := Stop; CurrentStatus := last_status ls |} ∧
  d_signals ls = S (length (d_asked ls)) ∧ Forall (λ cr, Cmd cr = Stop) (d_asked ls).
Proof.
  intros Hex Hst. destruct (d_inv_exec _ _ _ Hex) as (_ & Hc & Hn & Ha & _). inv Hst.
  match goal with E : d_sending s = _ |- _ => rewrite E in * end.
  split; [by apply Hc|]. split; [simpl in Hn; lia|done].
Qed.

(** [Run] returns when [Execute] has returned, with the error number as the
    error, and nil for 0; whether the number is service-specific is dropped. *)
Theorem debug_result name ls s r :
  exec dstep (dinit name) ls s → d_ret s = Some r →
  d_returns ls = [r] ∧ (Run_result r = Ret tt ↔ r.2 = 0) ∧
  (r.2 ≠ 0 → Run_result r = Err (Errno r.2)).
Proof.
  intros Hex Hr. destruct (d_inv_exec _ _ _ Hex) as (_ & _ & _ & _ & Hrs). rewrite Hr in Hrs.
  split; [done|]. destruct r as [b n]. simpl. destruct (Z.eqb_spec n 0); (split; [|done]); done.
Qed.

(** Nothing can happen any more. *)
Definition stuck (s : dsys) : Prop := ∀ l s', ¬ dstep s l s'.

End DebugRun.

(** ** The example service on the console *)
Definition console_runs (ls : list dlabel) : option (dsys (Hand := MyHandler)) :=
  run_schedule (dnext (Hand := MyHandler)) (dinit "demo") ls.

Lemma console_exec ls s : console_runs ls = Some s → exec (dstep (Hand := MyHandler)) (dinit "demo") ls s.
Proof. apply run_schedule_exec. intros ???. apply dnext_sound. Qed.

(** A handler that can only send, while the answering goroutine sends. *)
Lemma sending_stuck (s : dsys (Hand := MyHandler)) cr c m' :
  d_sending s = Some cr → m_workers (d_handler s) = [] → main_send (d_handler s) = Some (c, m') →
  stuck s.
Proof.
  intros Hc Hw Hm l s' Hst. unfold main_send in Hm.
  inv Hst; simplify_eq; simpl in *; unfold my_next in *; rewrite ?Hw in *; simpl in *;
    destruct (m_pc (d_handler s)); try done; by destruct g as [|[|g]].
Qed.

(** C38: unlike the loop of [svc.Run], the console run can stop for good: a signal
    that comes before the handler's first status, or a second one between a
    [Stop] and the status that answers it, leaves the handler waiting to send its
    status and the answering goroutine waiting to send a request, and nothing can
    happen any more although [Execute] has not returned. *)
Theorem console_deadlock :
  (∃ s, exec (dstep (Hand := MyHandler)) (dinit "demo") [DSignal] s ∧ stuck s ∧ d_ret s = None) ∧
  (∃ ls s, exec (dstep (Hand := MyHandler)) (dinit "demo") ls s ∧ stuck s ∧ d_ret s = None ∧
     d_asked ls = [{| Cmd := Stop; CurrentStatus := running_status |}] ∧ d_signals ls = 2%nat).
Proof.
  split.
  - eexists. split; [apply console_exec; reflexivity|]. split; [|done].
    by eapply sending_stuck.
  - exists [DChange 0 (status_of StartPending); DChange 0 running_status; DSignal;
            DDeliver {| Cmd := Stop; CurrentStatus := running_status |}; DSignal].
    eexists. split; [apply console_exec; reflexivity|]. split; [|done].
    by eapply sending_stuck.
Qed.

(** Ctrl+C once, when the service is running, ends it. *)
Definition console_stop : list dlabel :=
  [DChange 0 (status_of StartPending); DChange 0 running_status; DSignal;
   DDeliver {| Cmd := Stop; CurrentStatus := running_status |}; DChange 0 (stopping_status 1);
   DReturn false 0].
Definition console_end : dsys (Hand := MyHandler) := default (dinit "demo") (console_runs console_stop).

Lemma console_stop_exec : exec (dstep (Hand := MyHandler)) (dinit "demo") console_stop console_end.
Proof. apply console_exec. reflexivity. Qed.

Lemma debug_result_witness :
  d_returns console_stop = [(false, 0)] ∧ (Run_result (false, 0) = Ret tt ↔ 0 = 0) ∧
  (0 ≠ 0 → Run_result (false, 0) = Err (Errno 0)).
Proof. exact (debug_result "demo" console_stop console_end (false, 0) console_stop_exec eq_refl). Defined.

Definition console_ask : list dlabel := take 3 console_stop.
Definition console_asking : dsys (Hand := MyHandler) :=
  default (dinit "demo") (console_runs console_ask).

Lemma console_ask_exec : exec (dstep (Hand := MyHandler)) (dinit "demo") console_ask console_asking.
Proof. apply console_exec. reflexivity. Qed.
Lemma console_deliver : ∃ s, dstep console_asking (DDeliver {| Cmd := Stop; CurrentStatus := running_status |}) s.
Proof. eexists. apply dnext_sound. reflexivity. Qed.

Lemma debug_requests_witness :
  {| Cmd := Stop; CurrentStatus := running_status |}
    = {| Cmd := Stop; CurrentStatus := last_status console_ask |} ∧
  d_signals console_ask = S (length (d_asked console_ask)) ∧
  Forall (λ cr, Cmd cr = Stop) (d_asked console_ask).
Proof.
  destruct console_deliver as [s Hs].
  exact (debug_requests "demo" console_ask console_asking _ s console_ask_exec Hs).
Defined.

(** ** The console log *)

(** A message goes to the console as one write of the name, the kind, the
    event id and the message. The id is printed as it was given, except that a
    32-bit program prints the ids from [2^31] on as negative numbers. *)
Theorem Console_report_line `{Windows} a (write : string → M unit) l kind eid msg s :
  u32 eid →
  Console_report a write l kind eid msg s
  = write (cl_Name l +:+ "." +:+ kind +:+ "(" +:+
           pretty (if bool_decide (a = I386 ∧ 2 ^ 31 <= eid) then eid - 2 ^ 32 else eid)
           +:+ "): " +:+ msg +:+ newline) s.
Proof.
  intros He. unfold Console_report, console_line.
  replace (signed (word_bits a) eid)
    with (if bool_decide (a = I386 ∧ 2 ^ 31 <= eid) then eid - 2 ^ 32 else eid); [done|].
  unfold in_range in He. destruct a; cbn [word_bits].
  - rewrite bool_decide_false by (by intros [? _]). rewrite signed_small; lia.
  - unfold signed. rewrite wrap_small by done. case_bool_decide as Hb.
    + destruct (Z.ltb_spec eid (2 ^ (32 - 1))); [lia|done].
    + destruct (Z.ltb_spec eid (2 ^ (32 - 1))); [done|]. destruct Hb. split; [done|lia].
Qed.

Lemma Console_report_line_witness :
  Console_report I386 (λ l, err (ErrorString l)) (New "demo") "info" (2 ^ 32 - 1) "x"
    (fresh (H := ScriptWindows plain) [])
  = (Err (ErrorString ("demo.info(-1): x" +:+ newline)), fresh (H := ScriptWindows plain) []).
Proof.
  refine (Console_report_line I386 (λ l, err (ErrorString l)) (New "demo") "info" (2 ^ 32 - 1) "x"
    (fresh (H := ScriptWindows plain) []) _). by unfold in_range.
Defined.
