(* ===== verification/ExampleInstall.v ===== *)
(** * example/install.go: installing and removing the service

    [exePath], [installService] and [removeService] as functions, what they hold
    open, and what they undo when they fail half-way. What they do to the
    machine as a whole is in [Catalog]. *)
From Stdlib Require Import ZArith Lia.
From stdpp Require Import base option list strings.
From S2P Require Import Prelude GoText Go WinConst Machine GoSyscall Script GoOs Winapi.
From S2P Require Import SvcService MgrText Mgr Resources Registry EventLog Security Handles.

Local Open Scope Z_scope.
Local Open Scope go_scope.

Section Install.
Context `{Os}.

(** [os.Args[0]] *)
Definition program : M string :=
  match Args with a :: _ => ret a | [] => throw index_out_of_range end.

Definition is_directory (p : string) : error := ErrorString (p +:+ " is directory").

(** The second half of [exePath], with the error of the first. *)
Definition exePath_ext (p : string) (e : error) : M string :=
  if bool_decide (Ext p = "") then
    let p := p +:+ ".exe" in
    let! r := attempt (Stat p) in
    match r with
    | inl fi => if negb (fi_IsDir fi) then ret p else err e
    | inr _ => err e
    end
  else err e.

Definition exePath : M string :=
  let! prog := program in
  let! p := Abs prog in
  let! r := attempt (Stat p) in
  match r with
  | inl fi => if negb (fi_IsDir fi) then ret p else exePath_ext p (is_directory p)
  | inr e => exePath_ext p e
  end.

(** [mgr.Config{DisplayName: desc}] *)
Definition display_config (desc : string) : Config :=
  {| ServiceType := 0; StartType := 0; ErrorControl := 0; BinaryPathName := "";
     LoadOrderGroup := ""; TagId := 0; Dependencies := None; ServiceStartName := "";
     DisplayName := desc; Password := ""; Description := "" |}.

Definition all_events : Z := (Error ||| Warning ||| Info)%winsvc.

(** The part that holds the new service. *)
Definition install_source (name : string) (s : Service) : M unit :=
  let! r := attempt (InstallAsEventCreate name all_events) in
  match r with
  | inl _ => ret tt
  | inr e =>
    ignore (Delete s) ;;
    err (ErrorString ("SetupEventLogSource() failed: " +:+ error_text e))
  end.

Definition installService (name desc : string) : M unit :=
  let! exepath := exePath in
  let! m := Connect in
  defer (ignore (Disconnect m))
   (let! r := attempt (Mgr_OpenService m name) in
    match r with
    | inl s =>
      ignore (Service_Close s) ;;
      err (ErrorString ("service " +:+ name +:+ " already exists"))
    | inr _ =>
      let! s := Mgr_CreateService m name exepath (display_config desc) in
      defer (ignore (Service_Close s)) (install_source name s)
    end).

(** The part that holds the service to be removed. *)
Definition delete_all (name : string) (s : Service) : M unit :=
  Delete s ;;
  let! r := attempt (Remove name) in
  match r with
  | inl _ => ret tt
  | inr e => err (ErrorString ("RemoveEventLogSource() failed: " +:+ error_text e))
  end.

Definition removeService (name : string) : M unit :=
  let! m := Connect in
  defer (ignore (Disconnect m))
   (let! r := attempt (Mgr_OpenService m name) in
    match r with
    | inr _ => err (ErrorString ("service " +:+ name +:+ " is not installed"))
    | inl s => defer (ignore (Service_Close s)) (delete_all name s)
    end).

End Install.

(** ** Which file is installed *)

(** The paths [exePath] looks at, in order. *)
Definition candidates (p : string) : list string :=
  if bool_decide (Ext p = "") then [p; p +:+ ".exe"] else [p].

Section InstallTheorems.
Context `{Os}.

Definition is_file (w : world) (p : string) : bool :=
  match file_stat w p with inl fi => negb (fi_IsDir fi) | inr _ => false end.

(** [exePath] finds the program: the first of the program's absolute path and,
    if that has no extension, the same with [.exe], that is a file and not a
    directory. It fails exactly when there is none, and then the error is about
    the path without [.exe]; it touches nothing. *)
Theorem exePath_finds prog args p s :
  Args = prog :: args → abs_path (st_world s) prog = inl p →
  wp exePath (λ o s', s' = s ∧
    match List.find (is_file (st_world s)) (candidates p) with
    | Some q => o = Ret q
    | None => o = Err (match file_stat (st_world s) p with
                       | inl _ => is_directory p
                       | inr e => e
                       end)
    end) s.
Proof.
  intros Ha Hp. unfold exePath, program. rewrite Ha. apply wp_bind, wp_ret, wp_bind, wp_Abs.
  rewrite Hp. apply wp_bind, wp_attempt, wp_Stat. unfold candidates, exePath_ext, is_file.
  case_bool_decide; cbn [List.find];
    destruct (file_stat (st_world s) p) as [[[]]|e]; cbn [negb fi_IsDir];
    try (apply wp_bind, wp_attempt, wp_Stat);
    try (destruct (file_stat (st_world s) (p +:+ ".exe")) as [[[]]|e2]; cbn [negb fi_IsDir]);
    by wp_step.
Qed.

(** ** Nothing is left open *)
Lemma calls_Stat kind p : calls_only kind (Stat p).
Proof. by apply calls_none. Qed.
Lemma calls_Abs kind p : calls_only kind (Abs p).
Proof. by apply calls_none. Qed.
#[local] Hint Resolve calls_Stat calls_Abs : kind.

Lemma exePath_calls kind : calls_only kind exePath.
Proof. unfold exePath, exePath_ext, program. calls_of_kind. Qed.

#[local] Hint Resolve closes_ret closes_err : closes.

Lemma install_source_closes nm s : keeps_handles (install_source nm s).
Proof.
  unfold install_source, InstallAsEventCreate.
  apply closes_bind; [auto with closes|intros [?|?]; [auto with closes|]].
  apply closes_bind; auto with closes.
Qed.

Lemma delete_all_closes nm s : keeps_handles (delete_all nm s).
Proof.
  unfold delete_all. apply closes_bind; [auto with closes|intros _].
  apply closes_bind; [auto with closes|intros [?|?]; auto with closes].
Qed.

Lemma installService_closes nm desc : keeps_handles (installService nm desc).
Proof.
  unfold installService. apply closes_bind; [apply closes_calls, exePath_calls|intros exepath].
  eapply closes_open; [apply Connect_opens|]. intros m. cbn beta iota.
  apply gives_back_defer; [apply Disconnect_gives|].
  eapply closes_open; [apply opens_attempt, Mgr_OpenService_opens|]. intros [sv|e]; cbn beta iota.
  - apply gives_back_bind; [apply Service_Close_gives|]. auto with closes.
  - eapply closes_open; [by apply Mgr_CreateService_opens|]. intros sv. cbn beta iota.
    apply gives_back_defer; [apply Service_Close_gives|]. apply install_source_closes.
Qed.

Lemma removeService_closes nm : keeps_handles (removeService nm).
Proof.
  unfold removeService. eapply closes_open; [apply Connect_opens|]. intros m. cbn beta iota.
  apply gives_back_defer; [apply Disconnect_gives|].
  eapply closes_open; [apply opens_attempt, Mgr_OpenService_opens|]. intros [sv|e]; cbn beta iota.
  - apply gives_back_defer; [apply Service_Close_gives|]. apply delete_all_closes.
  - auto with closes.
Qed.

End InstallTheorems.
#[export] Hint Resolve installService_closes removeService_closes : closes.

(** ** A concrete file system

    A program started without its extension, next to a directory of that name. *)
Definition tool_files : env :=
  {| env_args := ["tool"]; env_files := [("c:\tool", true); ("c:\tool.exe", false)] |}.
Definition tool_windows : Windows := ScriptWindows plain.
Definition tool_os : Os (H := tool_windows) := env_os tool_windows tool_files (λ _, 0) (λ _ w, w).
Definition tool_start : st (H := tool_windows) := fresh (H := tool_windows) [].

Lemma exePath_finds_witness :
  (exePath (H0 := tool_os) tool_start).1 = Ret "c:\tool.exe" ∧
  wp (exePath (H0 := tool_os)) (λ o s', s' = tool_start ∧
    match List.find (is_file (H0 := tool_os) (st_world tool_start)) (candidates "c:\tool") with
    | Some q => o = Ret q
    | None => o = Err (match file_stat (Os := tool_os) (st_world tool_start) "c:\tool" with
                       | inl _ => is_directory "c:\tool"
                       | inr e => e
                       end)
    end) tool_start.
Proof.
  split; [by vm_compute|].
  exact (exePath_finds (H0 := tool_os) "tool" [] "c:\tool" tool_start eq_refl eq_refl).
Defined.
