(* ===== verification/ExampleManage.v ===== *)
(** * example/manage.go: starting and controlling the service

    [controlService] polls the service until it is in the state asked for or ten
    seconds have passed. The loop has no bound of its own: it takes one as [fuel],
    and [controlService_terminates] shows that 35 rounds are enough whenever the
    clock does what the documentation of package [time] says, and
    [stopped_clock] that no number of rounds is enough when it does not. *)
From Stdlib Require Import ZArith Lia.
From stdpp Require Import base option list strings pretty.
From S2P Require Import Prelude GoText Go WinConst Machine GoSyscall Script GoOs Winapi.
From S2P Require Import SvcService MgrText Mgr Resources Handles Rules.

Local Open Scope Z_scope.
Local Open Scope go_scope.

Section Manage.
Context `{Os}.

Definition startService (name : string) : M unit :=
  let! m := Connect in
  defer (ignore (Disconnect m))
   (let! r := attempt (Mgr_OpenService m name) in
    match r with
    | inr e => err (ErrorString ("could not access service: " +:+ error_text e))
    | inl s =>
      defer (ignore (Service_Close s))
       (let! r := attempt (Start s ["p1"; "p2"; "p3"]) in
        match r with
        | inl _ => ret tt
        | inr e => err (ErrorString ("could not start service: " +:+ error_text e))
        end)
    end).

Definition timeout_error (to : Z) : error :=
  ErrorString ("timeout waiting for service to go to state=" +:+ pretty to).

(** One round of the loop [for status.State != to]. *)
Definition poll (s : Service) (to timeout : Z) (status : Status) : M (Status + unit) :=
  if State status =? to then ret (inr tt)
  else
    let! t := Now in
    if timeout <? t then err (timeout_error to)
    else
      Sleep (300 * Millisecond) ;;
      let! r := attempt (Query s) in
      match r with
      | inl status => ret (inl status)
      | inr e => err (ErrorString ("could not retrieve service status: " +:+ error_text e))
      end.

Definition controlService (fuel : nat) (name : string) (c to : Z) : M (option unit) :=
  let! m := Connect in
  defer (ignore (Disconnect m))
   (let! r := attempt (Mgr_OpenService m name) in
    match r with
    | inr e => err (ErrorString ("could not access service: " +:+ error_text e))
    | inl s =>
      defer (ignore (Service_Close s))
       (let! r := attempt (Control s c) in
        match r with
        | inr e =>
          err (ErrorString ("could not send control=" +:+ pretty c +:+ ": " +:+ error_text e))
        | inl status =>
          let! t := Now in
          forever fuel (poll s to (t + 10 * Second)) status
        end)
    end).

End Manage.

(** ** What a trace says of a client *)

(** The statuses Windows has reported, the status queries, the controls sent. *)
Definition reported_status (en : entry) : option SERVICE_STATUS :=
  match en with
  | Entry (QueryServiceStatusP _) rep => if r_ret rep =? 0 then None else Some (r_out rep)
  | Entry (ControlServiceP _ _) rep => if r_ret rep =? 0 then None else Some (r_out rep)
  | _ => None
  end.
Definition reported : list entry → list SERVICE_STATUS := omap reported_status.

Definition status_query (en : entry) : option unit :=
  match en with Entry (QueryServiceStatusP _) _ => Some tt | _ => None end.
Definition queries_made (tr : list entry) : Z := Z.of_nat (length (omap status_query tr)).

Definition control_sent (en : entry) : option Z :=
  match en with Entry (ControlServiceP _ c) _ => Some c | _ => None end.

Lemma queries_made_snoc tr en :
  queries_made (tr ++ [en]) = queries_made tr + match status_query en with Some _ => 1 | None => 0 end.
Proof.
  unfold queries_made. rewrite omap_app, length_app. cbn [omap list_omap].
  destruct (status_query en); simpl; lia.
Qed.

Section ManageTheorems.
Context `{Os}.

(** A postcondition the closing of a handle does not disturb. *)
Lemma wp_closing {A} h (c : M unit) (m : M A) (Q : out A → st → Prop) s :
  one_call (CloseServiceHandleP h) success c →
  (∀ o s1 rep w', Q o s1 → call (CloseServiceHandleP h) (st_world s1) = (rep, w') →
     Q o (St w' (st_trace s1 ++ [Entry _ rep]) (st_vars s1))) →
  wp m Q s → wp (defer (ignore c) m) Q s.
Proof.
  intros Hc HQ Hm. apply wp_defer. eapply wp_mono; [exact Hm|]. intros o s1 Ho.
  apply wp_ignore. eapply wp_one_call; [exact Hc|]. intros rep w' E. unfold success.
  destruct (r_ret rep =? 0); by apply HQ.
Qed.

(** Appending one more entry to what has been done. *)
Lemma makes_snoc s s1 tr en w v :
  makes s s1 tr → makes s (St w (st_trace s1 ++ [en]) v) (tr ++ [en]).
Proof. unfold makes. cbn. intros ->. by rewrite app_assoc. Qed.

Context `{HC : !Clock}.

Definition other_state (to : Z) (t : SERVICE_STATUS) : Prop := ss_CurrentState t ≠ to.

(** What a run of [controlService] has done, and when. *)
Definition controlled (nm : string) (to : Z) (s : st) (o : out (option unit)) (s' : st) : Prop :=
  ∃ tr, makes s s' tr ∧ (length (omap control_sent tr) ≤ 1)%nat ∧ queries_made tr <= 34 ∧
    clock (st_world s) <= clock (st_world s') ∧
    match o with
    | Ret (Some _) => ∃ l t, reported tr = l ++ [t] ∧ ss_CurrentState t = to ∧ Forall (other_state to) l
    | Ret None => False
    | Err e => Forall (other_state to) (reported tr) ∧
        (e = timeout_error to → clock (st_world s) + 10 * Second < clock (st_world s'))
    | Panic _ => has_nul nm = true
    end.

Lemma call_clock_le p w rep w' : call p w = (rep, w') → clock w <= clock w'.
Proof. intros E. pose proof (call_clock p w) as Hc. by rewrite E in Hc. Qed.

Lemma controlled_close nm to s o s1 h rep w' :
  controlled nm to s o s1 → call (CloseServiceHandleP h) (st_world s1) = (rep, w') →
  controlled nm to s o (St w' (st_trace s1 ++ [Entry (CloseServiceHandleP h) rep]) (st_vars s1)).
Proof.
  intros (tr & Hm & Hc & Hq & Hk & Ho) E%call_clock_le. exists (tr ++ [Entry _ rep]).
  split; [by apply makes_snoc|]. unfold reported in *. rewrite queries_made_snoc, !omap_app, !app_nil_r.
  cbn [st_world status_query]. split_and!; [done|lia|lia|]. destruct o as [[]|e|]; try done.
  destruct Ho as [Hf Ht]. split; [done|]. intros He. specialize (Ht He). lia.
Qed.

(** The state of the loop: [j] queries have been made, so at least [j] sleeps of
    300 milliseconds are behind it. *)
Definition polling (to : Z) (s : st) (t0 : Z) (k : nat) (status : Status) (s1 : st) : Prop :=
  ∃ tr l x, makes s s1 tr ∧ (length (omap control_sent tr) ≤ 1)%nat ∧
    queries_made tr + Z.of_nat k = 34 ∧ clock (st_world s) <= t0 ∧
    t0 + 300 * Millisecond * queries_made tr <= clock (st_world s1) ∧
    reported tr = l ++ [x] ∧ State status = ss_CurrentState x ∧ Forall (other_state to) l ∧
    0 <= queries_made tr.

Lemma poll_round nm to s t0 sv k status s1 :
  polling to s t0 k status s1 →
  wp (poll sv to (t0 + 10 * Second) status) (λ o s2, match o with
    | Ret (inl status') => ∃ k', (k' < k)%nat ∧ polling to s t0 k' status' s2
    | Ret (inr b) => controlled nm to s (Ret (Some b)) s2
    | Err e => controlled nm to s (Err e) s2
    | Panic p => controlled nm to s (Panic p) s2
    end) s1.
Proof.
  intros (tr & l & x & Hm & Hc & Hq & Ht0 & Ht & Hr & Hs & Hf & Hpos). unfold poll.
  change (10 * Second) with 10000000000 in *. change (300 * Millisecond) with 300000000 in *.
  destruct (Z.eqb_spec (State status) to) as [Hto|Hto].
  { wp_go. exists tr. split_and!; [done|done|lia|lia|]. exists l, x. split_and!; [done|congruence|done]. }
  assert (Forall (other_state to) (reported tr)) as Hall.
  { rewrite Hr, Forall_app. split; [done|]. constructor; [|done]. unfold other_state. congruence. }
  apply wp_bind, wp_Now. intros t w E. pose proof (now_clock (st_world s1)) as Hn. rewrite E in Hn. simpl in Hn.
  destruct (Z.ltb_spec (t0 + 10000000000) t) as [Hlt|Hge].
  { wp_go. exists tr. cbn [st_world]. change (10 * Second) with 10000000000.
    split_and!; [done|done|lia|lia|done|]. intros _. lia. }
  apply wp_bind, wp_Sleep. cbn [st_world st_trace st_vars].
  pose proof (asleep_clock (300000000) w) as Hsl.
  apply wp_bind, wp_attempt. wp_call (Query_one_call sv) as rep w' E'. apply call_clock_le in E'.
  cbn [st_world st_trace st_vars] in *. change (300 * Millisecond) with 300000000 in *.
  set (en := Entry (QueryServiceStatusP (Handle sv)) rep).
  assert (makes s (St w' (st_trace s1 ++ [en]) (st_vars s1)) (tr ++ [en])) as Hm' by by apply makes_snoc.
  assert (reported (tr ++ [en]) = reported tr ++ (if r_ret rep =? 0 then [] else [r_out rep])) as Hr'.
  { unfold reported. rewrite omap_app. f_equal. cbn. by destruct (r_ret rep =? 0). }
  unfold unless_failed. destruct (r_ret rep =? 0); wp_go.
  - exists (tr ++ [en]). rewrite queries_made_snoc, omap_app, app_nil_r, Hr', app_nil_r.
    cbn [st_world status_query en]. split_and!; [done|done|lia|lia|done|]. done.
  - exists (k - 1)%nat. split; [lia|]. exists (tr ++ [en]), (reported tr), (r_out rep).
    rewrite queries_made_snoc, omap_app, app_nil_r, Hr'. cbn [st_world status_query en].
    change (300 * Millisecond) with 300000000. split_and!; try done; lia.
Qed.

(** [controlService] ends: whatever Windows answers, with a clock that
    advances as documented, at most 35 rounds of its loop and 34 status queries
    after at most one control. It succeeds exactly when the last status reported is
    the one asked for and none before it was, and it gives up for the time only
    when more than ten seconds have passed. *)
Lemma controlService_terminates fuel nm c to s :
  (35 ≤ fuel)%nat →
  wp (controlService fuel nm c to) (controlled nm to s) s.
Proof.
  intros Hfuel. unfold controlService.
  assert (∀ o s1 tr, makes s s1 tr → omap control_sent tr = [] → omap status_query tr = [] →
    reported tr = [] → clock (st_world s) <= clock (st_world s1) →
    match o with Ret _ => False | Err e => e ≠ timeout_error to | Panic _ => has_nul nm = true end →
    controlled nm to s o s1) as Hearly.
  { intros o s1 tr Hm H1 H2 H3 H4 H5. exists tr. unfold queries_made. rewrite H1, H2, H3.
    split_and!; [done|simpl; lia|simpl; lia|done|]. by destruct o. }
  apply wp_bind. wp_call Connect_one_call as rep1 w1 E1. apply call_clock_le in E1.
  unfold unless_failed at 1. destruct (r_ret rep1 =? 0).
  { eapply Hearly; [done|done|done|done|done|]. by intros [=]. }
  apply (wp_closing _ _ _ _ _ (Disconnect_one_call _)); [intros; by apply controlled_close|].
  apply wp_bind, wp_attempt. destruct (has_nul nm) eqn:Hn.
  { unfold Mgr_OpenService. apply wp_bind, wp_StringToUTF16Ptr; [congruence|intros _].
    eapply Hearly; [done|done|done|done|done|]. done. }
  wp_call (OpenService_one_call _ _ Hn) as rep2 w2 E2. apply call_clock_le in E2.
  cbn [st_world st_trace st_vars] in *.
  unfold unless_failed at 1. destruct (r_ret rep2 =? 0).
  { wp_go. eapply (Hearly _ _ [_; _]); [by unfold makes; cbn; rewrite <- app_assoc|done|done|done|cbn; lia|].
    by intros [=]. }
  apply (wp_closing _ _ _ _ _ (Service_Close_one_call _)); [intros; by apply controlled_close|].
  cbn [Handle]. apply wp_bind, wp_attempt. wp_call Control_one_call as rep3 w3 E3.
  apply call_clock_le in E3. cbn [st_world st_trace st_vars Handle] in *.
  match goal with |- context [Entry (ControlServiceP ?h ?c) rep3] =>
    set (tr := [Entry _ rep1; Entry _ rep2; Entry (ControlServiceP h c) rep3]) end.
  unfold unless_failed. destruct (r_ret rep3 =? 0) eqn:Hr; wp_go.
  { exists tr. split; [by unfold makes; cbn; rewrite <- !app_assoc|].
    split; [done|]. split; [done|]. split; [cbn; lia|]. unfold reported, tr. cbn [omap list_omap reported_status]. rewrite Hr.
    split; [done|]. by intros [=]. }
  apply wp_Now. intros t w4 E4. cbn [st_world] in E4. pose proof (now_clock w3) as H4. rewrite E4 in H4. simpl in H4.
  cbn [st_world st_trace st_vars].
  apply (wp_forever (polling to s t) _ _ _ 34).
  - intros k status s1. apply poll_round.
  - exists tr, [], (r_out rep3). split; [by unfold makes; cbn; rewrite <- !app_assoc|].
    cbn [st_world]. change (queries_made tr) with 0. unfold reported, tr.
    cbn [omap list_omap reported_status]. rewrite Hr. split_and!; try done; try lia.
  - lia.
Qed.
End ManageTheorems.

(** ** Nothing is left open *)
Section ManageHandles.
Context `{Os}.

Lemma calls_Now kind : calls_only kind Now.
Proof. apply calls_none. intros ?. unfold Now. by destruct (now _). Qed.
Lemma calls_Sleep kind d : calls_only kind (Sleep d).
Proof. by apply calls_none. Qed.

#[local] Hint Resolve closes_ret closes_err : closes.

Lemma poll_closes s to timeout status : keeps_handles (poll s to timeout status).
Proof.
  unfold poll. destruct (_ =? _); [auto with closes|].
  apply closes_bind; [by apply closes_calls, calls_Now|intros t].
  destruct (_ <? _); [auto with closes|].
  apply closes_bind; [by apply closes_calls, calls_Sleep|intros _].
  apply closes_bind; [auto with closes|intros [?|?]; auto with closes].
Qed.

Lemma controlService_closes fuel nm c to : keeps_handles (controlService fuel nm c to).
Proof.
  unfold controlService. eapply closes_open; [apply Connect_opens|]. intros m. cbn beta iota.
  apply gives_back_defer; [apply Disconnect_gives|].
  eapply closes_open; [apply opens_attempt, Mgr_OpenService_opens|].
  intros [sv|e]; cbn beta iota; [|auto with closes].
  apply gives_back_defer; [apply Service_Close_gives|].
  apply closes_bind; [auto with closes|intros [status|e]; [|auto with closes]].
  apply closes_bind; [by apply closes_calls, calls_Now|intros t].
  apply closes_forever. intros ?. apply poll_closes.
Qed.

Lemma startService_closes nm : keeps_handles (startService nm).
Proof.
  unfold startService. eapply closes_open; [apply Connect_opens|]. intros m. cbn beta iota.
  apply gives_back_defer; [apply Disconnect_gives|].
  eapply closes_open; [apply opens_attempt, Mgr_OpenService_opens|].
  intros [sv|e]; cbn beta iota; [|auto with closes].
  apply gives_back_defer; [apply Service_Close_gives|].
  apply closes_bind; [auto with closes|intros [?|e]; auto with closes].
Qed.

End ManageHandles.
#[export] Hint Resolve calls_Now calls_Sleep : kind.
#[export] Hint Resolve controlService_closes startService_closes : closes.

(** ** Concrete runs *)
Definition no_files : env := {| env_args := []; env_files := [] |}.
Definition timed : Windows := TimedWindows 0 (ScriptWindows plain).
Definition timed_os (frozen : bool) : Os (H := timed) := TimedOs 0 (ScriptWindows plain) no_files frozen.

(** A service that never leaves the state 0. *)
Definition idle_world : @world timed := (0, []).
Definition idle_start : st (H := timed) := fresh (H := timed) idle_world.

(** It is given up in the 34th round. *)
Example idle_run :
  let run := controlService (H0 := timed_os false) 35 "myservice" Stop Stopped idle_start in
  run.1 = Err (timeout_error Stopped) ∧ queries_made (st_trace run.2) = 34.
Proof. by vm_compute. Qed.

(** When the clock stands still, no number of rounds is enough. *)
Lemma stopped_clock fuel :
  (controlService (H0 := timed_os true) fuel "myservice" Stop Stopped idle_start).1 = Ret None.
Proof.
  assert (∀ sv (s : st (H := timed)) status, st_world s = idle_world → State status = 0 →
    (forever fuel (poll (H0 := timed_os true) sv Stopped (10 * Second)) status s).1 = Ret None) as Hloop.
  { intros sv s status Hs Hstatus.
    apply (forever_stuck (λ status (s : st (H := timed)), st_world s = idle_world ∧ State status = 0));
      [|done].
    intros a [w tr v] [Hw Ha]. simpl in Hw. subst w. unfold wp, poll. rewrite Ha. cbn.
    eexists. split; [done|]. by split. }
  change (wp (controlService (H0 := timed_os true) fuel "myservice" Stop Stopped)
    (λ o _, o = Ret None) idle_start).
  unfold controlService.
  apply wp_bind. wp_call Connect_one_call as rep1 w1 E1. injection E1 as <- <-. simpl.
  apply wp_defer, wp_bind, wp_attempt.
  wp_call (OpenService_one_call _ "myservice" eq_refl) as rep2 w2 E2. injection E2 as <- <-. simpl.
  apply wp_defer, wp_bind, wp_attempt.
  wp_call Control_one_call as rep3 w3 E3. injection E3 as <- <-. simpl.
  apply wp_bind, wp_Now. intros t w4 E4. injection E4 as <- <-.
  eapply (wp_mono _ (λ o _, o = Ret None)); [by refine (Hloop _ _ _ _ _)|]. intros o s1 ->.
  apply wp_ignore. wp_call Service_Close_one_call as rep4 w4 E4. unfold success.
  destruct (r_ret rep4 =? 0); apply wp_ignore; wp_call Disconnect_one_call as rep5 w5 E5;
    unfold success; by destruct (r_ret rep5 =? 0).
Qed.
