(* ===== verification/ExampleMain.v ===== *)
(** * example/main.go and [runService]: the program as a whole

    [main] finds out whether it is run by the service control manager or by a
    user, and in the second case which command it was given; [runService] runs the
    service and writes to the log how that went. What [main] prints and the status
    the process ends with are the result, an [ending]. *)
From Stdlib Require Import ZArith Lia.
From stdpp Require Import base option list strings pretty sets.
From S2P Require Import Prelude GoText Go WinConst Machine GoSyscall Script GoOs Winapi.
From S2P Require Import SvcEvent SvcService SvcAsm SvcSystem SvcEntry MgrText Mgr Resources Registry.
From S2P Require Import EventLog Security Handles Rules ExampleService Debug ExampleInstall ExampleManage.

Local Open Scope Z_scope.
Local Open Scope go_scope.

(** How the process ends. [log.Fatalf] puts the date in front of its message and a
    newline behind it. *)
Inductive ending :=
| Returned                                (* from [main]: status 0 *)
| Exited (code : Z) (stderr : string)     (* [os.Exit] *)
| Fatal (msg : string).                   (* [log.Fatalf]: status 1 *)

Definition exit_status (e : ending) : Z :=
  match e with Returned => 0 | Exited code _ => code | Fatal _ => 1 end.

Definition usage_text (errmsg prog : string) : string :=
  errmsg +:+ newline +:+ newline +:+
  "usage: " +:+ prog +:+ " <command>" +:+ newline +:+
  "       where <command> is one of" +:+ newline +:+
  "       install, remove, debug, start, stop, pause or continue." +:+ newline.

Definition svcName : string := "myservice".

Section Main.
Context `{Os} (a : arch).
(** [os.Stdout.Write]; what [debug.Run] does with the handler, which is
    [Debug.dstep]; the address of [servicemain]. *)
Context (Stdout_Write : string → M unit) (debug_Run : string → M unit) (svcmain : Z).

(** ** service.go: [runService] *)

(** From the point where [elog] is set. *)
Definition serve `{!Log L} (elog : L) (run : string → M unit) (name : string) : M unit :=
  defer (ignore (Close elog))
   (ignore (Debug.Info elog 1 ("starting " +:+ name +:+ " service")) ;;
    let! r := attempt (run name) in
    match r with
    | inr e => ignore (Debug.Error elog 1 (name +:+ " service failed: " +:+ error_text e))
    | inl _ => ignore (Debug.Info elog 1 (name +:+ " service stopped"))
    end).

Definition runService (name : string) (isDebug : bool) : M unit :=
  if isDebug then
    serve (Log0 := ConsoleLog_Log a Stdout_Write) (New name) debug_Run name
  else
    let! r := attempt (Open name) in
    match r with
    | inr _ => ret tt
    | inl elog => serve elog (Run svcmain) name
    end.

(** ** main.go *)
Definition usage (errmsg : string) : M (option ending) :=
  let! prog := program in
  ret (Some (Exited 2 (usage_text errmsg prog))).

(** The cases of the [switch] that set [err]. *)
Definition command (fuel : nat) (cmd : string) : option (M (option unit)) :=
  if bool_decide (cmd = "install") then Some (installService svcName "my service" ;; ret (Some tt))
  else if bool_decide (cmd = "remove") then Some (removeService svcName ;; ret (Some tt))
  else if bool_decide (cmd = "start") then Some (startService svcName ;; ret (Some tt))
  else if bool_decide (cmd = "stop") then Some (controlService fuel svcName Stop Stopped)
  else if bool_decide (cmd = "pause") then Some (controlService fuel svcName Pause Paused)
  else if bool_decide (cmd = "continue") then Some (controlService fuel svcName Continue Running)
  else None.

Definition failed_to (cmd : string) (e : error) : ending :=
  Fatal ("failed to " +:+ cmd +:+ " " +:+ svcName +:+ ": " +:+ error_text e).

(** The end of [main], with the error of the command. *)
Definition finish (cmd : string) (m : M (option unit)) : M (option ending) :=
  let! r := attempt m in
  match r with
  | inr e => ret (Some (failed_to cmd e))
  | inl (Some _) => ret (Some Returned)
  | inl None => ret None
  end.

Definition session_failed (e : error) : ending :=
  Fatal ("failed to determine if we are running in an interactive session: " +:+ error_text e).

Definition main (fuel : nat) : M (option ending) :=
  let! r := attempt IsAnInteractiveSession in
  match r with
  | inr e => ret (Some (session_failed e))
  | inl false => runService svcName false ;; ret (Some Returned)
  | inl true =>
    match Args with
    | _ :: arg :: _ =>
      let cmd := ToLower arg in
      if bool_decide (cmd = "debug") then runService svcName true ;; ret (Some Returned)
      else match command fuel cmd with
           | Some m => finish cmd m
           | None => usage ("invalid command " +:+ cmd)
           end
    | _ => usage "no command specified"
    end
  end.

End Main.

(** ** Nothing is left open *)
Section MainHandles.
Context `{Os} (a : arch) (Stdout_Write : string → M unit) (debug_Run : string → M unit) (svcmain : Z).

#[local] Hint Resolve closes_ret closes_err : closes.

Lemma Run_closes nm : keeps_handles (Run svcmain nm).
Proof.
  apply closes_calls, calls_bind.
  - eapply calls_weaken; [apply Run_prepare_calls|]. by intros [].
  - intros [[tid sv] t]. unfold Run_dispatch, StartServiceCtrlDispatcher. calls_of_kind.
Qed.

Lemma serve_body_closes `{!Log L} (elog : L) (run : string → M unit) nm :
  (∀ eid msg, keeps_handles (Debug.Info elog eid msg)) →
  (∀ eid msg, keeps_handles (Debug.Error elog eid msg)) → keeps_handles (run nm) →
  keeps_handles (
    ignore (Debug.Info elog 1 ("starting " +:+ nm +:+ " service")) ;;
    let! r := attempt (run nm) in
    match r with
    | inr e => ignore (Debug.Error elog 1 (nm +:+ " service failed: " +:+ error_text e))
    | inl _ => ignore (Debug.Info elog 1 (nm +:+ " service stopped"))
    end).
Proof.
  intros Hi He Hr. apply closes_bind; [by apply closes_ignore|intros _].
  apply closes_bind; [by apply closes_attempt|intros [?|?]; by apply closes_ignore].
Qed.

Context (HStdout : ∀ line, keeps_handles (Stdout_Write line)).
Context (Hdebug : ∀ nm, keeps_handles (debug_Run nm)).

Lemma runService_closes nm isDebug : keeps_handles (runService a Stdout_Write debug_Run svcmain nm isDebug).
Proof.
  unfold runService, serve. destruct isDebug.
  - intros held s. apply wp_defer. eapply wp_mono.
    { apply (serve_body_closes (Log0 := ConsoleLog_Log a Stdout_Write)); [intros; exact (HStdout _)..|apply Hdebug]. }
    intros o s1 H1. exact H1.
  - eapply closes_open; [apply opens_attempt, Open_opens|]. intros [l|e]; cbn beta iota; [|auto with closes].
    apply gives_back_defer; [apply Log_Close_gives|].
    apply serve_body_closes; [intros; apply report_closes..|apply Run_closes].
Qed.

Lemma finish_closes cmd m : keeps_handles m → keeps_handles (finish cmd m).
Proof.
  intros Hm. unfold finish. apply closes_bind; [by apply closes_attempt|].
  intros [[[]|]|e]; auto with closes.
Qed.

Lemma command_closes fuel cmd m : command fuel cmd = Some m → keeps_handles m.
Proof.
  unfold command. intros Hm. repeat case_bool_decide; simplify_eq; try (by auto with closes);
    apply closes_bind; auto with closes.
Qed.

Lemma usage_closes msg : keeps_handles (usage msg).
Proof. apply closes_calls. unfold usage, program. calls_of_kind. Qed.

(** C21: the program gives back what it takes: whatever it is asked to do and
    whatever Windows answers, along the calls of a whole run every handle of the
    service control manager, registry key, event log, SID and token is released
    exactly once, the last one taken first. *)
Theorem tool_keeps_handles fuel s :
  wp (main a Stdout_Write debug_Run svcmain fuel) (λ _ s', ∃ tr, makes s s' tr ∧
    unwind taken given [] tr = Some [] ∧ omap taken tr ≡ₚ omap given tr) s.
Proof.
  assert (keeps_handles (main a Stdout_Write debug_Run svcmain fuel)) as Hmain.
  { unfold main. apply closes_bind; [apply closes_attempt, IsAnInteractiveSession_closes|].
    intros [[]|e]; [destruct Args as [|? [|arg ?]]; [apply usage_closes..|]| |auto with closes].
    - case_bool_decide; [apply closes_bind; [apply runService_closes|auto with closes]|].
      destruct (command fuel (ToLower arg)) eqn:Hc; [|apply usage_closes].
      by apply finish_closes, (command_closes fuel (ToLower arg)).
    - apply closes_bind; [apply runService_closes|auto with closes]. }
  eapply wp_mono; [apply (Hmain [])|]. intros o s' (tr & Hm & Hu). exists tr. split; [done|].
  split; [done|]. exact (unwind_balance taken given [] tr [] taken_given Hu).
Qed.

End MainHandles.

(** ** The commands *)
Definition commands : list string :=
  ["install"; "remove"; "debug"; "start"; "stop"; "pause"; "continue"].

(** Those that send a control, with the state they wait for. *)
Definition control_commands : list (string * (Z * Z)) :=
  [("stop", (Stop, Stopped)); ("pause", (Pause, Paused)); ("continue", (Continue, Running))].

(** The environment with other arguments. *)
Definition with_args `{O : Os} (args : list string) : Os :=
  Build_Os _ args abs_path file_stat now asleep Errno_text runtime_text unicode_lower.

(** The same letters, in whatever case. *)
Definition same_word (x y : string) : Prop := lower_byte <$> bytes x = lower_byte <$> bytes y.

Section MainTheorems.
Context `{O : Os} (a : arch).
Context (Stdout_Write : string → M unit) (debug_Run : string → M unit) (svcmain : Z).

Abbreviation main' fuel := (main a Stdout_Write debug_Run svcmain fuel).

(** [main] on a console. *)
Definition on_console (fuel : nat) : M (option ending) :=
  match Args with
  | _ :: arg :: _ =>
    let cmd := ToLower arg in
    if bool_decide (cmd = "debug") then
      runService a Stdout_Write debug_Run svcmain svcName true ;; ret (Some Returned)
    else match command fuel cmd with
         | Some m => finish cmd m
         | None => usage ("invalid command " +:+ cmd)
         end
  | _ => usage "no command specified"
  end.

Lemma wp_main_on_console fuel s s1 Q :
  IsAnInteractiveSession s = (Ret true, s1) → wp (on_console fuel) Q s1 → wp (main' fuel) Q s.
Proof. intros Hs HQ. unfold wp, main, bind, attempt. by rewrite Hs. Qed.

Lemma command_None fuel cmd : cmd ≠ "debug" → command fuel cmd = None ↔ cmd ∉ commands.
Proof.
  intros Hd. unfold command, commands.
  repeat (case_bool_decide; [subst; split; [done|]; set_solver|]). split; [intros _|done].
  rewrite !not_elem_of_cons. split_and!; try done. apply not_elem_of_nil.
Qed.

Lemma wp_finish cmd m (Q : out (option ending) → st → Prop) s :
  wp m (λ o s', match o with
    | Ret (Some _) => Q (Ret (Some Returned)) s'
    | Ret None => Q (Ret None) s'
    | Err e => Q (Ret (Some (failed_to cmd e))) s'
    | Panic p => Q (Panic p) s'
    end) s → wp (finish cmd m) Q s.
Proof.
  intros Hm. unfold finish. apply wp_bind, wp_attempt. eapply wp_mono; [exact Hm|].
  intros [[[]|]|e|p] s' HQ; done.
Qed.

(** The arguments name a command. *)
Definition is_command (args : list string) : bool :=
  match args with arg :: _ => bool_decide (ToLower arg ∈ commands) | [] => false end.

(** The program exits with status 2, and says how it is used, exactly when a
    user gives it no command or one it does not know; and then it has done
    nothing but look at its own token. A command ends with status 0 or 1. *)
Theorem wrong_usage_is_harmless fuel prog args s s1 :
  IsAnInteractiveSession s = (Ret true, s1) → Args = prog :: args →
  wp (main' fuel) (λ o s',
    if is_command args then ∀ e, o = Ret (Some e) → exit_status e = 0 ∨ exit_status e = 1
    else s' = s1 ∧ ∃ msg, o = Ret (Some (Exited 2 (usage_text msg prog)))) s.
Proof.
  intros Hs Ha. apply (wp_main_on_console _ _ _ _ Hs).
  unfold on_console, usage, program. rewrite Ha.
  destruct args as [|arg rest]; [unfold wp; simpl; eauto|]. cbn [is_command].
  case_bool_decide as Hd.
  - rewrite Hd. apply wp_bind, run_wp. intros [u|e|p] s2 _; [apply wp_ret|..];
      (rewrite bool_decide_true by (unfold commands; set_solver));
      intros e'; intros [= <-]; by left.
  - destruct (command fuel (ToLower arg)) as [m|] eqn:Hc.
    + rewrite bool_decide_true; [|apply dec_stable; rewrite <- (command_None fuel) by done; congruence].
      apply wp_finish, run_wp. intros [[u|]|e|p] s2 _ e'; intros [= <-]; [by left|by right].
    + rewrite bool_decide_false by by apply (command_None fuel).
      unfold wp. simpl. eauto.
Qed.

Lemma control_command fuel word c to :
  (word, (c, to)) ∈ control_commands →
  word ≠ "debug" ∧ command fuel word = Some (controlService fuel svcName c to).
Proof.
  unfold control_commands. rewrite !elem_of_cons.
  intros [[= -> -> ->]|[[= -> -> ->]|[[= -> -> ->]|[]%not_elem_of_nil]]]; done.
Qed.

(** C20: the commands [stop], [pause] and [continue] end, with a clock that advances,
    after at most one control and 34 status queries, and their exit status can be
    relied on. Status 0: the last status Windows has reported is the state asked
    for. Status 1: no status reported was, and if it is the timeout that is
    printed, then more than ten seconds have passed. *)
Theorem control_exit_status `{HC : !Clock} fuel prog arg rest c to s s1 :
  (35 ≤ fuel)%nat → IsAnInteractiveSession s = (Ret true, s1) → Args = prog :: arg :: rest →
  (ToLower arg, (c, to)) ∈ control_commands →
  wp (main' fuel) (λ o s', ∃ tr e, makes s1 s' tr ∧ o = Ret (Some e) ∧
    (length (omap control_sent tr) ≤ 1)%nat ∧ queries_made tr <= 34 ∧
    match e with
    | Returned => ∃ l t, reported tr = l ++ [t] ∧ ss_CurrentState t = to
    | Fatal msg => Forall (other_state to) (reported tr) ∧ ∃ er, e = failed_to (ToLower arg) er ∧
        (er = timeout_error to → clock (st_world s1) + 10 * Second < clock (st_world s'))
    | Exited _ _ => False
    end) s.
Proof.
  intros Hf Hs Ha Hin. apply (wp_main_on_console _ _ _ _ Hs). unfold on_console. rewrite Ha.
  destruct (control_command fuel _ _ _ Hin) as [Hd ->]. rewrite bool_decide_false by done.
  apply wp_finish. eapply wp_mono; [by apply controlService_terminates|].
  intros [[u|]|er|p] s2 (tr & Hm & Hc & Hq & _ & Ho); try done.
  - destruct Ho as (l & t & ? & ? & _). eexists tr, Returned. split_and!; try done. by exists l, t.
  - destruct Ho as [Ho Ht]. exists tr, (failed_to (ToLower arg) er).
    do 5 (split; [done|]). by exists er.
Qed.

(** *** The case of the command *)

(** The same letters are the same command. *)
Lemma ToLower_same_word args args' x y :
  ascii_text x → ascii_text y → same_word x y →
  ToLower (H0 := with_args args) x = ToLower (H0 := with_args args') y.
Proof. intros Hx Hy E. rewrite !ToLower_ascii by done. by rewrite E. Qed.

(** Commands may be written in any case, and what follows the command does not
    matter: the program does the same, call for call, and ends the same way. *)
Theorem main_ignores_case fuel prog x y rest rest' s :
  ascii_text x → ascii_text y → same_word x y →
  main (H0 := with_args (prog :: x :: rest)) a Stdout_Write debug_Run svcmain fuel s
  = main (H0 := with_args (prog :: y :: rest')) a Stdout_Write debug_Run svcmain fuel s.
Proof.
  intros Hx Hy E. unfold main. cbn [Args with_args].
  rewrite (ToLower_same_word (prog :: x :: rest) (prog :: y :: rest') x y Hx Hy E).
  reflexivity.
Qed.

End MainTheorems.

(** ** The log of the service *)
Section LogTheorems.
Context `{Os} (a : arch) (Stdout_Write : string → M unit) (debug_Run : string → M unit) (svcmain : Z).

(** The report of one message with the id 1. *)
Definition event (l : Z) (etype : Z) (msg : string) : api :=
  ReportEventW l etype 0 1 0 1 0 (Some [Some (units_of msg ++ [0])]) 0.

(** What follows in the log when [run] has ended with [o], and the end of
    [runService]. *)
Definition log_end (l : Z) (nm : string) (o : out unit) : list api * out unit :=
  match o with
  | Ret _ => ([event l EVENTLOG_INFORMATION_TYPE (nm +:+ " service stopped")], Ret tt)
  | Err e =>
      if has_nul (error_text e) then ([], Panic nul_panic)
      else ([event l EVENTLOG_ERROR_TYPE (nm +:+ " service failed: " +:+ error_text e)], Ret tt)
  | Panic p => ([], Panic p)
  end.

#[local] Opaque units_of.

Lemma wp_report l etype msg (Q : out unit → st → Prop) s :
  has_nul msg = false →
  (∀ rep w, Q (Ret tt) (St w (st_trace s ++ [Entry (event (l_Handle l) etype msg) rep]) (st_vars s))) →
  wp (ignore (report l etype 1 msg)) Q s.
Proof.
  intros Hn HQ. apply wp_ignore. wp_call (report_one_call l etype 1 msg Hn) as rep w E.
  unfold success. destruct (r_ret rep =? 0); apply HQ.
Qed.

Lemma wp_Log_Close l (Q : out unit → st → Prop) s :
  (∀ rep w, Q (Ret tt) (St w (st_trace s ++ [Entry (DeregisterEventSourceP (l_Handle l)) rep]) (st_vars s))) →
  wp (ignore (Log_Close l)) Q s.
Proof.
  intros HQ. apply wp_ignore. wp_call (Log_Close_one_call l) as rep w E.
  unfold success. destruct (r_ret rep =? 0); apply HQ.
Qed.

(** [serve] with an event log, for whatever [run] does. *)
Lemma serve_reports l (run : string → M unit) nm s :
  has_nul nm = false →
  wp (serve l run nm) (λ o s', ∃ rep s1 tr,
    makes s s1 [Entry (event (l_Handle l) EVENTLOG_INFORMATION_TYPE ("starting " +:+ nm +:+ " service")) rep] ∧
    let '(o1, s2) := run nm s1 in
    makes s2 s' tr ∧ o = (log_end (l_Handle l) nm o1).2 ∧
    calls tr = (log_end (l_Handle l) nm o1).1 ++ [DeregisterEventSourceP (l_Handle l)]) s.
Proof.
  intros Hn. unfold serve. apply wp_defer, wp_bind.
  apply wp_report; [by rewrite !has_nul_app, Hn|]. intros rep w.
  set (s1 := St w _ _). apply wp_bind, wp_attempt, run_wp. intros o1 s2 Hrun.
  assert (∀ o s', (∃ tr, makes s2 s' tr ∧ o = (log_end (l_Handle l) nm o1).2 ∧
      calls tr = (log_end (l_Handle l) nm o1).1 ++ [DeregisterEventSourceP (l_Handle l)]) →
    ∃ rep s1 tr, makes s s1 [Entry (event (l_Handle l) EVENTLOG_INFORMATION_TYPE
        ("starting " +:+ nm +:+ " service")) rep] ∧
      let '(o1, s2) := run nm s1 in
      makes s2 s' tr ∧ o = (log_end (l_Handle l) nm o1).2 ∧
      calls tr = (log_end (l_Handle l) nm o1).1 ++ [DeregisterEventSourceP (l_Handle l)]) as Hend.
  { intros o s' (tr & ?). exists rep, s1, tr. by rewrite Hrun. }
  clearbody s1. unfold log_end in Hend. destruct o1 as [u|e|p].
  - apply wp_report; [by rewrite has_nul_app, Hn|]. intros rep2 w2. apply wp_Log_Close. intros rep3 w3.
    apply Hend. eexists [_; _]. split; [by unfold makes; cbn; rewrite <- app_assoc|done].
  - cbn [Debug.Error EventLog_Log]. unfold Log_Error. destruct (has_nul (error_text e)) eqn:He.
    + unfold report. apply wp_ignore, wp_bind, wp_StringToUTF16Ptr; rewrite !has_nul_app, Hn, He; [done|intros _].
      apply wp_Log_Close. intros rep3 w3. apply Hend. by eexists [_].
    + apply wp_report; [by rewrite !has_nul_app, Hn, He|]. intros rep2 w2. apply wp_Log_Close. intros rep3 w3.
      apply Hend. eexists [_; _]. split; [by unfold makes; cbn; rewrite <- app_assoc|done].
  - apply wp_Log_Close. intros rep3 w3. apply Hend. by eexists [_].
Qed.

(** C29: the life of the service in the event log: the log is opened, the start is
    reported, [svc.Run] runs, then its end is reported as an event of the right
    kind, with the error as the text if it failed; and the log is closed last,
    even when [Run] or the report panics. When the log cannot be opened, the
    service does not run at all. *)
Theorem runService_reports nm s :
  nm ≠ "" → has_nul nm = false →
  wp (runService a Stdout_Write debug_Run svcmain nm false) (λ o s', ∃ rep0,
    let l := r_ret rep0 in
    let opened := Entry (RegisterEventSourceW None (Some (units_of nm ++ [0]))) rep0 in
    if l =? 0 then o = Ret tt ∧ makes s s' [opened]
    else ∃ rep s1 tr,
      makes s s1 [opened; Entry (event l EVENTLOG_INFORMATION_TYPE ("starting " +:+ nm +:+ " service")) rep] ∧
      let '(o1, s2) := Run svcmain nm s1 in
      makes s2 s' tr ∧ o = (log_end l nm o1).2 ∧
      calls tr = (log_end l nm o1).1 ++ [DeregisterEventSourceP l]) s.
Proof.
  intros Hne Hn. unfold runService. apply wp_bind, wp_attempt.
  wp_call (Open_one_call nm Hne Hn) as rep0 w0 E0. unfold unless_failed.
  destruct (r_ret rep0 =? 0) eqn:Hl; [apply wp_ret; exists rep0; by rewrite Hl|].
  eapply wp_mono; [by apply serve_reports|]. intros o s' (rep & s1 & tr & Hm & Hrun).
  exists rep0. cbn zeta. rewrite Hl. exists rep, s1, tr. split; [|exact Hrun].
  unfold makes in *. cbn [st_trace] in Hm. by rewrite Hm, <- app_assoc.
Qed.

#[local] Transparent units_of.

(** *** On the console *)

(** The example handler returns no error. *)
Lemma my_result nm ls sys r :
  exec (dstep (Hand := MyHandler)) (dinit nm) ls sys → d_ret sys = Some r → r = (false, 0).
Proof.
  intros Hex. revert r. change ((λ _ sys, ∀ r, d_ret sys = Some r → r = (false, 0)) ls sys).
  revert Hex. apply exec_invariant; [done|]. intros ls' s l s' IH Hst. inv Hst; cbn [d_ret]; try done.
  match goal with E : hnext _ _ = Some _ |- _ => simpl in E; cases_hyp end.
  match goal with E : _ ∧ _ |- _ => destruct E as [-> ->] end. by intros r [= <-].
Qed.

Definition console_text (nm text : string) : string := nm +:+ ".info(1): " +:+ text +:+ newline.

Lemma console_line_text nm text : console_line a (New nm) "info" 1 text = console_text nm text.
Proof. by destruct a. Qed.

(** C39: a session on the console that comes to its end, with whatever signals and
    however the goroutines are scheduled, has told the user that the service was
    started and that it has stopped, and has not failed. *)
Theorem console_session nm ls sys r :
  exec (dstep (Hand := MyHandler)) (dinit nm) ls sys → d_ret sys = Some r →
  go_eq (runService a Stdout_Write (λ _, lift (Run_result r)) svcmain nm true)
    (ignore (Stdout_Write (console_text nm ("starting " +:+ nm +:+ " service"))) ;;
     ignore (Stdout_Write (console_text nm (nm +:+ " service stopped")))).
Proof.
  intros Hex Hr. rewrite (my_result _ _ _ _ Hex Hr). rewrite <- !console_line_text. intros s.
  unfold runService, serve, defer, bind, ignore, attempt, lift. cbn.
  unfold Console_Info, Console_report.
  destruct (Stdout_Write _ s) as [[] s1]; try done; by destruct (Stdout_Write _ s1) as [[] s2].
Qed.

End LogTheorems.

(** ** The theorems on a concrete machine

    A user's console, where every call succeeds and the service reports that it has
    stopped. *)
Definition stopped_status : SERVICE_STATUS :=
  {| ss_ServiceType := 16; ss_CurrentState := Stopped; ss_ControlsAccepted := 0;
     ss_Win32ExitCode := 0; ss_ServiceSpecificExitCode := 0; ss_CheckPoint := 0;
     ss_WaitHint := 0 |}.
Definition user_script : script :=
  {| sc_outs := λ p, match p with
       | GetTokenInformationP _ _ _ =>
           ({| tg_GroupCount := 1; tg_Groups := [{| sa_Sid := 5; sa_Attributes := 7 |}] |}, 0)
       | ControlServiceP _ _ => stopped_status
       | p' => zero_out p'
       end;
     sc_callback := inl 4096; sc_argv := λ _, None |}.

#[local] Instance UserWindows : Windows := TimedWindows 0 (ScriptWindows user_script).
#[local] Instance UserOs : Os :=
  TimedOs 0 (ScriptWindows user_script) {| env_args := ["tool"; "Stop"; "now"]; env_files := [] |} false.
#[local] Instance UserClock : Clock := TimedClock (ScriptWindows user_script) _.

Definition user_start : st := fresh (0, []).
(** After the look at the token. *)
Definition user_checked : st := (IsAnInteractiveSession user_start).2.

Lemma user_is_interactive : IsAnInteractiveSession user_start = (Ret true, user_checked).
Proof. by vm_compute. Qed.

Definition no_console (line : string) : M unit := ret tt.
Definition no_service (nm : string) : M unit := ret tt.
Abbreviation user_main := (main AMD64 no_console no_service 8192 35).

Lemma tool_keeps_handles_witness :
  length (omap taken (st_trace (user_main user_start).2)) = 5%nat ∧
  wp user_main (λ _ s', ∃ tr, makes user_start s' tr ∧
    unwind taken given [] tr = Some [] ∧ omap taken tr ≡ₚ omap given tr) user_start.
Proof.
  split; [by vm_compute|].
  apply (tool_keeps_handles AMD64 no_console no_service 8192); intros; apply closes_ret.
Defined.

Lemma wrong_usage_is_harmless_witness :
  wp user_main (λ o s',
    if is_command ["Stop"; "now"] then ∀ e, o = Ret (Some e) → exit_status e = 0 ∨ exit_status e = 1
    else s' = user_checked ∧ ∃ msg, o = Ret (Some (Exited 2 (usage_text msg "tool")))) user_start.
Proof.
  exact (wrong_usage_is_harmless (O := UserOs) AMD64 no_console no_service 8192 35 "tool" ["Stop"; "now"]
    user_start user_checked user_is_interactive eq_refl).
Defined.

Lemma control_exit_status_witness :
  (user_main user_start).1 = Ret (Some Returned) ∧
  wp user_main (λ o s', ∃ tr e, makes user_checked s' tr ∧ o = Ret (Some e) ∧
    (length (omap control_sent tr) ≤ 1)%nat ∧ queries_made tr <= 34 ∧
    match e with
    | Returned => ∃ l t, reported tr = l ++ [t] ∧ ss_CurrentState t = Stopped
    | Fatal msg => Forall (other_state Stopped) (reported tr) ∧ ∃ er, e = failed_to "stop" er ∧
        (er = timeout_error Stopped →
         clock (Clock := UserClock) (st_world user_checked) + 10 * Second
         < clock (Clock := UserClock) (st_world s'))
    | Exited _ _ => False
    end) user_start.
Proof.
  split; [by vm_compute|].
  apply (control_exit_status (O := UserOs) (HC := UserClock) AMD64 no_console no_service 8192 35
    "tool" "Stop" ["now"] Stop Stopped user_start user_checked (le_n 35) user_is_interactive eq_refl).
  by vm_compute; left.
Defined.

Lemma main_ignores_case_witness :
  main (H0 := with_args ["tool"; "Stop"; "now"]) AMD64 no_console no_service 8192 35 user_start
  = main (H0 := with_args ["tool"; "sTOP"]) AMD64 no_console no_service 8192 35 user_start.
Proof.
  apply (main_ignores_case (O := UserOs) AMD64 no_console no_service 8192 35 "tool" "Stop" "sTOP" ["now"] [] user_start);
    first [by vm_compute | apply (bool_decide_unpack _); by vm_compute].
Defined.

Lemma runService_reports_witness :
  wp (runService AMD64 no_console no_service 8192 "demo" false) (λ o s', ∃ rep0,
    let l := r_ret rep0 in
    let opened := Entry (RegisterEventSourceW None (Some (units_of "demo" ++ [0]))) rep0 in
    if l =? 0 then o = Ret tt ∧ makes user_start s' [opened]
    else ∃ rep s1 tr,
      makes user_start s1
        [opened; Entry (event l EVENTLOG_INFORMATION_TYPE ("starting " +:+ "demo" +:+ " service")) rep] ∧
      let '(o1, s2) := Run 8192 "demo" s1 in
      makes s2 s' tr ∧ o = (log_end l "demo" o1).2 ∧
      calls tr = (log_end l "demo" o1).1 ++ [DeregisterEventSourceP l]) user_start.
Proof.
  apply (runService_reports AMD64 no_console no_service 8192 "demo" user_start); [done|by vm_compute].
Defined.

Lemma console_session_witness :
  go_eq (runService AMD64 no_console (λ _, lift (Run_result (false, 0))) 8192 "demo" true)
    (ignore (no_console (console_text "demo" ("starting " +:+ "demo" +:+ " service"))) ;;
     ignore (no_console (console_text "demo" ("demo" +:+ " service stopped")))).
Proof.
  exact (console_session AMD64 no_console 8192 "demo" console_stop console_end (false, 0)
    console_stop_exec eq_refl).
Defined.
