(* ===== verification/CatalogInstall.v ===== *)
(** * What installing and removing the service does to the machine

    [eventlog.Install], [installService] and [removeService] on a catalogued
    Windows: what they leave, that a removal undoes an installation, and that an
    installation that failed half-way cannot be undone or repeated by the tool. *)
From Stdlib Require Import ZArith Lia.
From stdpp Require Import base option list strings gmap.
From S2P Require Import Prelude GoText Go WinConst Machine GoSyscall Script GoOs Catalog Winapi.
From S2P Require Import SvcService MgrText Mgr Resources Registry EventLog Security Handles Rules.
From S2P Require Import CatalogRules ExampleInstall ExampleManage.

Local Open Scope Z_scope.
Local Open Scope go_scope.

#[local] Opaque units_of le16 le_bytes.

Section CatalogInstall.
Context `{Win : Windows} `{HCat : !Catalogued}.
Implicit Types (c : catalog) (r d : nat) (rg : gmap wname (gmap wname (Z * list Z))).

(** The key of the application event sources, and that of one of them. *)
Definition app_path : wname := named addKeyName.
Definition source_path (src : string) : wname := join app_path (named src).

(** The values of an event source. *)
Definition source_map (msgFile : string) (useExpandKey : bool) (events : Z) : gmap wname (Z * list Z) :=
  <[named "TypesSupported" := (REG_DWORD, le_bytes 4 events)]>
  (<[named "EventMessageFile" :=
       (if useExpandKey then REG_EXPAND_SZ else REG_SZ, le16 (units_of msgFile ++ [0]))]>
  (<[named "CustomSource" := (REG_DWORD, le_bytes 4 1)]> ∅)).

(** *** The values *)
Lemma write_values_cat c rg k path msgFile useExpandKey events r d :
  has_nul msgFile = false → Z.of_nat (length (units_of msgFile)) < 2 ^ 31 - 1 →
  cat (write_values {| k_Handle := k |} msgFile useExpandKey events)
    (λ o c' r' d', d' = d ∧ ∃ vs, c' = keyed (with_registry c (<[path:=vs]> rg)) k path ∧
       match o with
       | Ret _ => vs = source_map msgFile useExpandKey events ∧ r' = r
       | Err _ => (r < r')%nat
       | Panic _ => False
       end)
    (keyed (with_registry c (<[path:=∅]> rg)) k path) r d.
Proof.
  intros Hn Hl. unfold write_values.
  assert (∀ vs, keys (keyed (with_registry c (<[path:=vs]> rg)) k path) !! k = Some path) as Hk
    by (intros; apply lookup_insert_eq).
  assert (∀ vs, registry (keyed (with_registry c (<[path:=vs]> rg)) k path) !! path = Some vs) as Hp
    by (intros; apply lookup_insert_eq).
  assert (∀ vs vs', with_registry (keyed (with_registry c (<[path:=vs]> rg)) k path)
      (<[path:=vs']> (registry (keyed (with_registry c (<[path:=vs]> rg)) k path)))
    = keyed (with_registry c (<[path:=vs']> rg)) k path) as Hset.
  { intros. unfold keyed, with_registry, with_keys. simpl. by rewrite insert_insert_eq. }
  assert (∀ vs r0, (r < r0)%nat → d = d ∧ ∃ vs', keyed (with_registry c (<[path:=vs]> rg)) k path
      = keyed (with_registry c (<[path:=vs']> rg)) k path ∧ (r < r0)%nat) as Herr
    by (intros; split; [done|]; by eexists).
  apply cat_bind. eapply cat_SetUInt32; [done|apply Hk|apply Hp| |intros e; apply Herr; lia].
  rewrite Hset. apply cat_bind.
  destruct useExpandKey; (eapply cat_setString; [done|exact Hn|exact Hl|apply Hk|apply Hp| |intros e; apply Herr; lia]);
    rewrite Hset; apply cat_bind;
    (eapply cat_SetUInt32; [done|apply Hk|apply Hp| |intros e; apply Herr; lia]);
    rewrite Hset; apply cat_ret; (split; [done|]); eexists; by split.
Qed.

(** *** The event source *)
Definition source_left c rg (src msgFile : string) (useExpandKey : bool) (events : Z)
    (o : out unit) (r r' : nat) : Prop :=
  let P := source_path src in
  match o with
  | Ret _ => registry c !! P = None ∧ r' = r ∧
             rg = <[P:=source_map msgFile useExpandKey events]> (registry c)
  | Err _ => (rg = registry c ∨ registry c !! P = None ∧ ∃ vs, rg = <[P:=vs]> (registry c)) ∧
             ((r < r')%nat ∨ is_Some (registry c !! P)) ∧
             (is_Some (registry c !! P) → rg = registry c)
  | Panic _ => False
  end.

Lemma Install_cat c src msgFile useExpandKey events r d :
  has_nul src = false → has_nul msgFile = false →
  Z.of_nat (length (units_of msgFile)) < 2 ^ 31 - 1 →
  cat (Install src msgFile useExpandKey events)
    (λ o c' r' d', d' = d ∧ ∃ rg, c' = with_registry c rg ∧
       source_left c rg src msgFile useExpandKey events o r r') c r d.
Proof.
  intros Hs Hn Hl. unfold Install, source_left.
  assert (∀ r0, (r < r0)%nat → d = d ∧ ∃ rg, c = with_registry c rg ∧
    ((rg = registry c ∨ registry c !! source_path src = None ∧
        ∃ vs, rg = <[source_path src:=vs]> (registry c)) ∧
     ((r < r0)%nat ∨ is_Some (registry c !! source_path src)) ∧
     (is_Some (registry c !! source_path src) → rg = registry c))) as Herr.
  { intros r0 Hr. split; [done|]. exists (registry c). split; [by destruct c|]. eauto. }
  apply cat_bind, cat_OpenKey; [done| |intros e; apply Herr; lia]. intros _ k Hk.
  apply cat_with_key. apply cat_bind.
  apply (cat_CreateSubKey _ app_path); [done|by apply key_path_keyed| | |].
  - cbn [registry keyed with_keys]. intros HP k' Hk'. change (registry (keyed c k app_path)) with (registry c).
    apply cat_with_key. cbn [k_Handle].
    change (cat (write_values {| k_Handle := k' |} msgFile useExpandKey events) ?Q ?c1)
      with (cat (write_values {| k_Handle := k' |} msgFile useExpandKey events) Q
              (keyed (with_registry (keyed c k app_path) (<[source_path src:=∅]> (registry c))) k'
                 (source_path src))).
    eapply cat_mono; [by apply write_values_cat|]. intros o c' r' d' [-> (vs & -> & Ho)].
    eexists. split; [done|]. split; [exact Hk'|].
    exists (with_registry c (<[source_path src:=vs]> (registry c))). split; [done|]. split; [exact Hk|].
    split; [done|]. eexists. split; [done|]. destruct o; [destruct Ho as [-> ->]; done| |done].
    split; [right; eauto|]. split; [by left|]. intros [? HP']. unfold source_path in HP'. congruence.
  - cbn [registry keyed with_keys]. intros HP k' Hk'. apply cat_with_key, cat_err. cbn [k_Handle].
    exists (keyed c k app_path). split; [done|]. split; [exact Hk'|]. exists c. split; [done|]. split; [exact Hk|].
    split; [done|]. exists (registry c). split; [by destruct c|]. eauto.
  - intros e. exists c. split; [done|]. split; [exact Hk|]. apply Herr. lia.
Qed.

Lemma Remove_cat c src r d :
  has_nul src = false →
  cat (Remove src)
    (λ o c' r' d', d' = d ∧ match o with
       | Ret _ => is_Some (registry c !! source_path src) ∧ r' = r ∧
                  c' = with_registry c (delete (source_path src) (registry c))
       | Err _ => (r < r')%nat ∧ c' = c
       | Panic _ => False
       end) c r d.
Proof.
  intros Hs. unfold Remove.
  apply cat_bind, cat_OpenKey; [done| |intros e; split; [done|]; split; [lia|done]]. intros _ k Hk.
  apply cat_with_key. apply (cat_DeleteSubKey _ app_path); [done|by apply key_path_keyed| |].
  - intros HP. exists (with_registry c (delete (source_path src) (registry c))).
    split; [done|]. split; [exact Hk|]. by split.
  - intros e. exists c. split; [done|]. split; [exact Hk|]. split; [done|]. split; [lia|done].
Qed.

(** *** Services that are closed *)
Lemma swept_unmarked c hs n : services c !! n = Some false → swept c hs (Some n) = services c.
Proof. intros Hn. simpl. rewrite decide_False; [done|]. intros [? _]. congruence. Qed.

Lemma swept_marked c hs n :
  services c !! n = Some true → unused hs n → n ∉ busy c → swept c hs (Some n) = delete n (services c).
Proof. intros. simpl. by rewrite decide_True. Qed.

Lemma unused_insert hs h n : unused hs n → unused (<[h:=None]> hs) n.
Proof. intros Hu. by apply map_Forall_insert_2. Qed.

(** A catalog that differs in its services and its registry only. *)
Definition changed_to c (ss : gmap wname bool) rg : catalog := with_registry (with_services c ss) rg.

Lemma changed_to_same c : changed_to c (services c) (registry c) = c.
Proof. by destruct c. Qed.

(** What [s.Delete] and the closing of [s] leave. *)
Definition deleted c (n : wname) : gmap wname bool :=
  if decide (unused (handles c) n ∧ n ∉ busy c) then delete n (services c)
  else <[n:=true]> (services c).

End CatalogInstall.

(** ** The tool, run from a file that exists *)
Section Tool.
Context `{Win : Windows} `{HCat : !Catalogued} `{HOs : !Os}.
Context (exe : string) (exe_found : ∀ s, exePath s = (Ret exe, s)) (exe_text : has_nul exe = false).
Implicit Types (c : catalog) (r d : nat).

Lemma cat_exePath Q c r d : Q (Ret exe) c r d → cat exePath Q c r d.
Proof. intros HQ s <- <- <-. unfold wp. by rewrite exe_found. Qed.

Definition eventcreate : string := "%SystemRoot%\System32\EventCreate.exe".
Definition tool_source : gmap wname (Z * list Z) := source_map eventcreate true all_events.

(** What [installService] leaves of a machine without the service. *)
Definition install_left c (nm : string) (o : out unit) (c' : catalog) (r r' d d' : nat) : Prop :=
  let n := named nm in let P := source_path nm in
  ∃ ss rg, c' = changed_to c ss rg ∧
    match o with
    | Ret _ => registry c !! P = None ∧ r' = r ∧ d' = d ∧
               ss = <[n:=false]> (services c) ∧ rg = <[P:=tool_source]> (registry c)
    | Err _ => (d' = d ∧ ss = services c ∨ d' = S d ∧ ss = <[n:=false]> (services c)) ∧
               (rg = registry c ∨ registry c !! P = None ∧ ∃ vs, rg = <[P:=vs]> (registry c)) ∧
               ((r < r')%nat ∨ is_Some (registry c !! P)) ∧ (is_Some (registry c !! P) → rg = registry c)
    | Panic _ => False
    end.

Lemma install_source_cat c n nm h r d :
  has_nul nm = false → services c !! n = Some false → handles c !! h = None →
  cat (install_source nm {| Name := nm; Handle := h |})
    (λ o c' r' d', ∃ b rg, c' = held (changed_to c (if b : bool then <[n:=true]> (services c) else services c) rg) h (Some n) ∧
       match o with
       | Ret _ => b = false ∧ registry c !! source_path nm = None ∧ r' = r ∧ d' = d ∧
                  rg = <[source_path nm:=tool_source]> (registry c)
       | Err _ => (d' = d ∧ b = true ∨ d' = S d ∧ b = false) ∧
           (rg = registry c ∨ registry c !! source_path nm = None ∧
              ∃ vs, rg = <[source_path nm:=vs]> (registry c)) ∧
           ((r < r')%nat ∨ is_Some (registry c !! source_path nm)) ∧
           (is_Some (registry c !! source_path nm) → rg = registry c)
       | Panic _ => False
       end)
    (held c h (Some n)) r d.
Proof.
  intros Hnm Hs Hh. unfold install_source, InstallAsEventCreate.
  apply cat_bind, cat_attempt. eapply cat_mono; [by apply Install_cat|].
  intros o c' r' d' [-> (rg & -> & Ho)]. unfold source_left in Ho.
  cbn [registry held with_handles] in Ho. destruct o as [[]|e|]; [|clear Hs|done].
  - destruct Ho as (HP & -> & ->). apply cat_ret. exists false. eexists. split; [by destruct c|]. by split_and!.
  - apply cat_bind, cat_ignore. destruct Ho as (Hrg & Hr & Hsame).
    apply (cat_Delete _ n); [cbn; apply lookup_insert_eq| |intros e'].
    + apply cat_err. exists true, rg. split; [by destruct c|]. split_and!; auto.
    + apply cat_err. exists false, rg. split; [by destruct c|]. split; [by right|].
      split; [done|]. split; [destruct Hr; [left; lia|by right]|done].
Qed.

Lemma installService_cat c nm desc r d :
  has_nul nm = false → has_nul desc = false → wf c → services c !! named nm = None →
  cat (installService nm desc) (λ o c' r' d', install_left c nm o c' r r' d d') c r d.
Proof.
  intros Hnm Hdesc Hwf Hn. destruct (wf_unused _ _ Hwf Hn) as [Hun Hbusy]. unfold installService, install_left.
  assert (∀ e, ∃ ss rg, c = changed_to c ss rg ∧ match (Err e : out unit) with
     Ret _ => False | Err _ => (d = d ∧ ss = services c ∨ d = S d ∧ ss = <[named nm:=false]> (services c)) ∧
       (rg = registry c ∨ registry c !! source_path nm = None ∧ ∃ vs, rg = <[source_path nm:=vs]> (registry c)) ∧
       ((r < S r)%nat ∨ is_Some (registry c !! source_path nm)) ∧
       (is_Some (registry c !! source_path nm) → rg = registry c) | Panic _ => False end) as Herr.
  { intros _. exists (services c), (registry c). split; [by destruct c|]. split; [by left|]. split; [by left|].
    split; [left; lia|done]. }
  apply cat_bind, cat_exePath, cat_bind, cat_Connect; [intros hm Hhm|exact Herr].
  apply cat_with_manager; [done|].
  apply cat_bind, cat_attempt, cat_OpenService; [done| |intros eo].
  { cbn. rewrite Hn. by intros []. }
  apply cat_bind, cat_CreateService; [by cbn [existsb DisplayName display_config LoadOrderGroup ServiceStartName Password]; rewrite Hnm, Hdesc, exe_text|done| |intros e].
  2: { exists c. split; [done|]. split; [done|]. exact (Herr e). }
  intros _ h Hh. apply cat_with_service; [done|].
  set (c1 := with_services (held c hm None) _).
  eapply cat_mono; [apply (install_source_cat c1 (named nm) nm h); [done|apply lookup_insert_eq|done]|].
  intros o c' r' d' (b & rg & -> & Ho). exists (changed_to c1 (if b then <[named nm:=true]> (services c1) else services c1) rg).
  split; [done|]. split; [done|].
  assert (swept (changed_to c1 (if b then <[named nm:=true]> (services c1) else services c1) rg)
      (handles c1) (Some (named nm)) = if b then services c else <[named nm:=false]> (services c)) as Hsw.
  { destruct b.
    - rewrite swept_marked; [|cbn; by rewrite insert_insert_eq, lookup_insert_eq|by apply unused_insert|done].
      cbn. rewrite insert_insert_eq. by rewrite delete_insert_id.
    - apply swept_unmarked. cbn. apply lookup_insert_eq. }
  exists (changed_to c (if b then services c else <[named nm:=false]> (services c)) rg).
  split. { change (handles (changed_to c1 _ rg)) with (handles c1). rewrite Hsw. by destruct c. }
  split; [done|]. eexists _, rg. split; [done|]. change (registry c1) with (registry c) in Ho.
  destruct o as [|e|]; [destruct Ho as (-> & HP & -> & -> & ->); by split_and!| |done].
  destruct Ho as ([[-> ->]|[-> ->]] & Ho); (split; [|done]); [by left|by right].
Qed.

(** A service that exists is not touched. *)
Lemma installService_exists c nm desc r d :
  has_nul nm = false → has_nul desc = false → services c !! named nm = Some false →
  cat (installService nm desc) (λ o c' r' d', c' = c ∧ d' = d ∧ is_err o = true) c r d.
Proof.
  intros Hnm Hdesc Hn. unfold installService.
  apply cat_bind, cat_exePath, cat_bind, cat_Connect; [intros hm Hhm|by intros e].
  apply cat_with_manager; [done|]. apply cat_bind, cat_attempt, cat_OpenService; [done| |intros eo].
  - intros _ h Hh. apply cat_bind.
    apply (cat_close_handle h _ _ _ _ _ _ (Service_Close_one_call {| Name := nm; Handle := h |}) Hh).
    apply cat_err. exists c. split; [|by split_and!].
    rewrite swept_unmarked by exact Hn. by destruct c.
  - apply cat_bind, cat_CreateService;
      [by cbn [existsb DisplayName display_config LoadOrderGroup ServiceStartName Password];
          rewrite Hnm, Hdesc, exe_text|done| |intros e; exists c; by split_and!].
    cbn. rewrite Hn. done.
Qed.

(** *** Removal *)
Lemma delete_all_cat c n nm h r d :
  has_nul nm = false → services c !! n = Some false → handles c !! h = None →
  cat (delete_all nm {| Name := nm; Handle := h |})
    (λ o c' r' d', ∃ b rg, c' = held (changed_to c (if b : bool then <[n:=true]> (services c) else services c) rg) h (Some n) ∧
       match o with
       | Ret _ => b = true ∧ d' = d ∧ is_Some (registry c !! source_path nm) ∧
                  rg = delete (source_path nm) (registry c)
       | Err _ => (d' = d ∧ b = true ∨ d' = S d ∧ b = false) ∧ rg = registry c
       | Panic _ => False
       end)
    (held c h (Some n)) r d.
Proof.
  intros Hnm Hs Hh. unfold delete_all. apply cat_bind.
  apply (cat_Delete _ n); [cbn; apply lookup_insert_eq| |intros e].
  2: { exists false, (registry c). split; [by destruct c|]. split; [by right|done]. }
  apply cat_bind, cat_attempt. eapply cat_mono; [by apply Remove_cat|].
  intros o c' r' d' [-> Ho]. cbn [registry held with_handles with_services] in Ho.
  destruct o as [[]|e|]; [|clear Hs|done].
  - destruct Ho as (HP & -> & ->). apply cat_ret. exists true. eexists. split; [by destruct c|]. by split_and!.
  - destruct Ho as (_ & ->). apply cat_err. exists true, (registry c). split; [by destruct c|].
    split; [by left|done].
Qed.

Lemma unused_insert_iff hs h n : hs !! h = None → unused (<[h:=None]> hs) n ↔ unused hs n.
Proof.
  intros Hh. split; [|apply unused_insert]. intros Hu h' t Ht. apply (Hu h').
  rewrite lookup_insert_ne; [done|]. intros ->. congruence.
Qed.

(** What [removeService] leaves of a machine with the service. *)
Definition remove_left c (nm : string) (o : out unit) (c' : catalog) (d d' : nat) : Prop :=
  let n := named nm in let P := source_path nm in
  match o with
  | Ret _ => d' = d ∧ is_Some (registry c !! P) ∧ c' = changed_to c (deleted c n) (delete P (registry c))
  | Err _ => c' = c ∨ d' = d ∧ c' = changed_to c (deleted c n) (registry c)
  | Panic _ => False
  end.

Lemma removeService_cat c nm r d :
  has_nul nm = false → services c !! named nm = Some false →
  cat (removeService nm) (λ o c' r' d', remove_left c nm o c' d d') c r d.
Proof.
  intros Hnm Hn. unfold removeService, remove_left.
  apply cat_bind, cat_Connect; [intros hm Hhm|intros e; by left].
  apply cat_with_manager; [done|]. apply cat_bind, cat_attempt, cat_OpenService; [done| |intros eo].
  2: { apply cat_err. exists c. split; [done|]. split; [done|]. by left. }
  intros _ h Hh. apply cat_with_service; [done|].
  eapply cat_mono; [by apply (delete_all_cat (held c hm None) (named nm) nm h)|].
  intros o c' r' d' (b & rg & -> & Ho). set (c1 := held c hm None) in *.
  exists (changed_to c1 (if b then <[named nm:=true]> (services c1) else services c1) rg).
  split; [done|]. split; [done|].
  assert (swept (changed_to c1 (if b then <[named nm:=true]> (services c1) else services c1) rg)
      (handles c1) (Some (named nm)) = if b then deleted c (named nm) else services c) as Hsw.
  { destruct b; [|by rewrite swept_unmarked]. unfold deleted. case_decide as Hd.
    - destruct Hd as [Hu Hb]. rewrite swept_marked; [|cbn; apply lookup_insert_eq|by apply unused_insert|done].
      cbn. by rewrite delete_insert_eq.
    - cbn. rewrite decide_False; [done|]. intros (_ & Hu & Hb). apply Hd.
      by rewrite unused_insert_iff in Hu by done. }
  exists (changed_to c (if b then deleted c (named nm) else services c) rg).
  split. { change (handles (changed_to c1 _ rg)) with (handles c1). rewrite Hsw. by destruct c. }
  split; [done|]. change (registry c1) with (registry c) in Ho.
  destruct o as [|e|]; [destruct Ho as (-> & -> & HP & ->); by split_and!| |done].
  destruct Ho as ([[-> ->]|[-> ->]] & ->); [by right|left; by destruct c].
Qed.

(** A service that is not there cannot be opened. *)
Lemma removeService_absent c nm r d :
  has_nul nm = false → services c !! named nm = None →
  cat (removeService nm) (λ o c' r' d', c' = c ∧ d' = d ∧ is_err o = true) c r d.
Proof.
  intros Hnm Hn. unfold removeService. apply cat_bind, cat_Connect; [intros hm Hhm|by intros e].
  apply cat_with_manager; [done|]. apply cat_bind, cat_attempt, cat_OpenService; [done| |intros eo].
  - cbn. rewrite Hn. by intros [].
  - apply cat_err. exists c. by split_and!.
Qed.

Lemma startService_absent c nm r d :
  has_nul nm = false → services c !! named nm = None →
  cat (startService nm) (λ o c' r' d', c' = c ∧ d' = d ∧ is_err o = true) c r d.
Proof.
  intros Hnm Hn. unfold startService. apply cat_bind, cat_Connect; [intros hm Hhm|by intros e].
  apply cat_with_manager; [done|]. apply cat_bind, cat_attempt, cat_OpenService; [done| |intros eo].
  - cbn. rewrite Hn. by intros [].
  - apply cat_err. exists c. by split_and!.
Qed.

Lemma controlService_absent c fuel nm ctl to r d :
  has_nul nm = false → services c !! named nm = None →
  cat (controlService fuel nm ctl to) (λ o c' r' d', c' = c ∧ d' = d ∧ is_err o = true) c r d.
Proof.
  intros Hnm Hn. unfold controlService. apply cat_bind, cat_Connect; [intros hm Hhm|by intros e].
  apply cat_with_manager; [done|]. apply cat_bind, cat_attempt, cat_OpenService; [done| |intros eo].
  - cbn. rewrite Hn. by intros [].
  - apply cat_err. exists c. by split_and!.
Qed.

(** ** The theorems *)

(** C18: what [installService] does to a machine: where the service is not
    installed, success leaves exactly one new service and the three values of its
    event source, and nothing else; a failure leaves the services as they were,
    unless Windows has refused the deletion of the new one, but it may leave a
    part of the event source behind. It fails only when Windows has refused
    something or the event source was there. A service that is installed is not
    touched. The handles and keys that were open are those that are open. *)
Theorem installService_leaves nm desc s :
  has_nul nm = false → has_nul desc = false → wf (here s) →
  let c := here s in let P := source_path nm in
  services c !! named nm ≠ Some true →             (* it is not being deleted *)
  wp (installService nm desc) (λ o s', ∃ ss rg, here s' = changed_to c ss rg ∧
    match services c !! named nm, o with
    | Some _, _ => is_err o = true ∧ here s' = c
    | None, Ret _ => registry c !! P = None ∧ ss = <[named nm:=false]> (services c) ∧
                     rg = <[P:=tool_source]> (registry c)
    | None, Err _ =>
        (count undeleted s' = count undeleted s → ss = services c) ∧
        (rg = registry c ∨ registry c !! P = None ∧ ∃ vs, rg = <[P:=vs]> (registry c)) ∧
        ((count refused s < count refused s')%nat ∨ is_Some (registry c !! P))
    | None, Panic _ => False
    end) s.
Proof.
  intros Hnm Hdesc Hwf c P Hdel. destruct (services c !! named nm) as [[]|] eqn:Hn; [done| |].
  - eapply wp_mono; [exact (installService_exists c nm desc _ _ Hnm Hdesc Hn s eq_refl eq_refl eq_refl)|].
    intros o s' (Hc & _ & He). exists (services c), (registry c). by rewrite changed_to_same.
  - eapply wp_mono; [exact (installService_cat c nm desc _ _ Hnm Hdesc Hwf Hn s eq_refl eq_refl eq_refl)|].
    intros o s' (ss & rg & Hc & Ho). exists ss, rg. split; [done|]. destruct o as [|e|]; [|clear Hc|done].
    + destruct Ho as (HP & _ & _ & Hss & Hrg). by split_and!.
    + destruct Ho as (Hd & Hrg & Hr & _). split_and!; [|done..]. intros E.
      destruct Hd as [[_ ?]|[Hd _]]; [done|]. rewrite Hd in E. lia.
Qed.

(** C17: a removal undoes an installation: installing the service and then removing
    it, when both succeed, leaves the machine exactly as it was before: the
    services, the registry, and the handles and keys that are open. *)
Theorem install_remove_roundtrip nm desc s :
  has_nul nm = false → has_nul desc = false → wf (here s) →
  services (here s) !! named nm = None →
  wp (installService nm desc ;; removeService nm) (λ o s', o = Ret tt → here s' = here s) s.
Proof.
  intros Hnm Hdesc Hwf Hn. destruct (wf_unused _ _ Hwf Hn) as [Hun Hbusy]. apply wp_bind.
  eapply wp_mono; [exact (installService_cat _ nm desc _ _ Hnm Hdesc Hwf Hn s eq_refl eq_refl eq_refl)|].
  intros o s1 (ss & rg & Hc & Ho). destruct o as [|e|]; [|done|done].
  destruct Ho as (HP & _ & _ & -> & ->).
  assert (services (here s1) !! named nm = Some false) as Hn1 by (rewrite Hc; apply lookup_insert_eq).
  eapply wp_mono; [exact (removeService_cat _ nm _ _ Hnm Hn1 s1 eq_refl eq_refl eq_refl)|].
  intros o s2 Hr ->. destruct Hr as (_ & _ & ->). rewrite Hc. unfold deleted.
  rewrite decide_True by done. cbn. rewrite !delete_insert_id by done. by destruct (here s).
Qed.

(** *** What a failure half-way means *)

(** The service is not there, but its event source is. *)
Definition stuck (nm : string) c : Prop :=
  wf c ∧ services c !! named nm = None ∧ is_Some (registry c !! source_path nm).

Inductive command :=
| CmdInstall (desc : string)
| CmdRemove
| CmdStart
| CmdControl (fuel : nat) (c to : Z).

Definition run_command (nm : string) (cmd : command) : M unit :=
  match cmd with
  | CmdInstall desc => installService nm desc
  | CmdRemove => removeService nm
  | CmdStart => startService nm
  | CmdControl fuel c to => controlService fuel nm c to ;; ret tt
  end.

(** A command run to its end, while Windows refuses no deletion of a service. *)
Inductive tool_step (nm : string) (s : st) : command * out unit → st → Prop :=
| tool_runs cmd o s' :
    (∀ desc, cmd = CmdInstall desc → has_nul desc = false) →
    run_command nm cmd s = (o, s') → count undeleted s' = count undeleted s →
    tool_step nm s (cmd, o) s'.

Lemma run_command_stuck nm cmd c r d :
  has_nul nm = false → (∀ desc, cmd = CmdInstall desc → has_nul desc = false) → stuck nm c →
  cat (run_command nm cmd) (λ o c' r' d', d' = d → is_err o = true ∧ c' = c) c r d.
Proof.
  intros Hnm Hdesc (Hwf & Hn & HP). destruct cmd as [desc| | |fuel ctl to]; cbn [run_command].
  - eapply cat_mono; [apply (installService_cat c nm desc); [done|by apply Hdesc|done|done]|].
    intros o c' r' d' (ss & rg & -> & Ho) ->. destruct o as [|e|]; [|clear Hn|done].
    + destruct Ho as (HP' & _). rewrite HP' in HP. by destruct HP.
    + destruct Ho as ([[_ ->]|[? _]] & _ & _ & Hrg); [|lia]. split; [done|].
      rewrite (Hrg HP). apply changed_to_same.
  - eapply cat_mono; [by apply removeService_absent|]. by intros o c' r' d' (-> & _ & ->).
  - eapply cat_mono; [by apply startService_absent|]. by intros o c' r' d' (-> & _ & ->).
  - apply cat_bind. eapply cat_mono; [by apply controlService_absent|].
    intros o c' r' d' (-> & _ & He). by destruct o.
Qed.

(** C19: an installation or a removal that failed half-way is final: when the service is
    gone but its event source is there, no sequence of the commands install, remove,
    start, stop, pause and continue succeeds any more or changes the services, the
    registry or the open handles, provided that Windows refuses no deletion of a
    service, that the program finds its own path, and that the name and the descriptions have
    no NUL. Windows may refuse anything else. (A refused deletion in the rollback of install leaves
    the service behind, and a removal can then repair the machine.) *)
Theorem stuck_forever nm s ls s' :
  has_nul nm = false → stuck nm (here s) → exec (tool_step nm) s ls s' →
  here s' = here s ∧ Forall (λ l, is_err l.2 = true) ls.
Proof.
  intros Hnm Hstuck. apply (exec_invariant (tool_step nm)
    (λ ls s', here s' = here s ∧ Forall (λ l, is_err l.2 = true) ls)); [done|].
  clear ls s'. intros ls s1 l s2 [Hc Hls] Hst. rewrite Forall_app, Forall_singleton.
  inv Hst as [cmd o ? Hd E Hu]. cbn [snd]. rewrite <- Hc in Hstuck.
  destruct (run_command_stuck nm cmd (here s1) (count refused s1) (count undeleted s1) Hnm Hd Hstuck
    s1 eq_refl eq_refl eq_refl) as [He Hs]; rewrite E in *; [exact Hu|]. simpl in He, Hs. by rewrite Hs.
Qed.

(** C34: and this is where a failure half-way leads, on a machine whose handles are on
    services that exist and where only those run, for a program that finds its own path, and a
    name and a description without NUL. An installation of a service that is not there,
    when it fails, has changed the registry, and Windows has refused no deletion of a
    service, leaves a stuck machine: no service, but its event source. So does a removal,
    of a service that is stopped, in nobody's use and has its event source, when it
    fails after the services have changed. *)
Theorem half_way_is_stuck nm desc s :
  has_nul nm = false → has_nul desc = false → wf (here s) →
  (services (here s) !! named nm = None →
   wp (installService nm desc) (λ o s', is_err o = true →
     count undeleted s' = count undeleted s → registry (here s') ≠ registry (here s) →
     stuck nm (here s')) s) ∧
  (services (here s) !! named nm = Some false → unused (handles (here s)) (named nm) →
   named nm ∉ busy (here s) → is_Some (registry (here s) !! source_path nm) →
   wp (removeService nm) (λ o s', is_err o = true → services (here s') ≠ services (here s) →
     stuck nm (here s')) s).
Proof.
  intros Hnm Hdesc Hwf. split.
  - intros Hn.
    eapply wp_mono; [exact (installService_cat _ nm desc _ _ Hnm Hdesc Hwf Hn s eq_refl eq_refl eq_refl)|].
    intros o s1 (ss & rg & Hc & Ho) He Hu Hne. destruct o as [|e|]; [done| |done].
    destruct Ho as ([[_ ->]|[? _]] & Hrg & _); [|lia]. rewrite Hc in Hne |- *. cbn in Hne.
    destruct Hrg as [->|[_ [vs ->]]]; [done|]. split; [done|]. split; [done|].
    cbn. by rewrite lookup_insert_eq.
  - intros Hn Hun Hbusy HP.
    eapply wp_mono; [exact (removeService_cat _ nm _ _ Hnm Hn s eq_refl eq_refl eq_refl)|].
    intros o s1 Ho He Hne. destruct o as [|e|]; [done| |done].
    destruct Ho as [Hc|[_ Hc]]; rewrite Hc in Hne |- *; [done|]. unfold deleted.
    rewrite decide_True by done. split; [|split; [apply lookup_delete_eq|done]].
    destruct Hwf as [Hh Hb]. split.
    + intros h [m|] Hm; [|done]. cbn in *. specialize (Hh _ _ Hm). simpl in Hh.
      rewrite lookup_delete_ne; [done|]. intros <-. by apply (Hun _ _ Hm).
    + intros m Hm. cbn in *. specialize (Hb _ Hm). simpl in Hb.
      rewrite lookup_delete_ne; [done|]. by intros <-.
Qed.

End Tool.

#[local] Transparent units_of le16 le_bytes.

(** ** The theorems on a concrete machine *)
Definition demo_env : env :=
  {| env_args := ["example"]; env_files := [("c:\example.exe", false)] |}.
Definition demo_os : Os (H := CatalogWindows) := env_os CatalogWindows demo_env (λ _, 0) (λ _ w, w).
Definition demo_machine (faults : list bool) : @world CatalogWindows :=
  Machine (demo_catalog [ascii_fold (units_of "other")] [] (ascii_fold (units_of addKeyName))) 1 faults.
Definition demo_start (faults : list bool) : st (H := CatalogWindows) :=
  fresh (H := CatalogWindows) (demo_machine faults).

#[local] Existing Instance CatalogWindows.
#[local] Existing Instance CatalogWindows_Catalogued.
#[local] Existing Instance demo_os.

Lemma demo_exe (s : st (H := CatalogWindows)) : exePath s = (Ret "c:\example.exe", s).
Proof. by destruct s. Qed.

Lemma demo_wf faults : wf (here (demo_start faults)).
Proof. split; [apply map_Forall_empty|apply set_Forall_empty]. Qed.

Lemma installService_leaves_witness :
  (installService "myservice" "my service" (demo_start [])).1 = Ret tt ∧
  let s := demo_start [] in let c := here s in
  let nm := "myservice" in let P := source_path nm in
  wp (installService nm "my service") (λ o s', ∃ ss rg, here s' = changed_to c ss rg ∧
    match services c !! named nm, o with
    | Some _, _ => is_err o = true ∧ here s' = c
    | None, Ret _ => registry c !! P = None ∧ ss = <[named nm:=false]> (services c) ∧
                     rg = <[P:=tool_source]> (registry c)
    | None, Err _ =>
        (count undeleted s' = count undeleted s → ss = services c) ∧
        (rg = registry c ∨ registry c !! P = None ∧ ∃ vs, rg = <[P:=vs]> (registry c)) ∧
        ((count refused s < count refused s')%nat ∨ is_Some (registry c !! P))
    | None, Panic _ => False
    end) s.
Proof.
  split; [by vm_compute|].
  apply (installService_leaves _ demo_exe eq_refl "myservice" "my service" (demo_start []) eq_refl eq_refl).
  - apply demo_wf.
  - by vm_compute.
Defined.

Lemma install_remove_roundtrip_witness :
  ((installService "myservice" "my service" ;; removeService "myservice")
     (demo_start [])).1 = Ret tt ∧
  wp (installService "myservice" "my service" ;; removeService "myservice")
    (λ o s', o = Ret tt → here s' = here (demo_start [])) (demo_start []).
Proof.
  split; [by vm_compute|].
  apply (install_remove_roundtrip _ demo_exe eq_refl "myservice" "my service" (demo_start []) eq_refl eq_refl).
  - apply demo_wf.
  - by vm_compute.
Defined.

(** The second value of the event source cannot be set: the installation fails
    half-way, and the service is rolled back but not the source. *)
Definition half_way : list bool := [false; false; false; false; false; false; true].
Definition after (nm : string) (cmd : command) (s : st (H := CatalogWindows)) := (run_command nm cmd s).2.
Definition half_installed : st (H := CatalogWindows) :=
  after "myservice" (CmdInstall "my service") (demo_start half_way).

Lemma half_installed_stuck : stuck "myservice" (here half_installed).
Proof.
  assert (handles (here half_installed) = ∅ ∧ busy (here half_installed) = ∅) as [Hh Hb] by by vm_compute.
  split; [|split; [by vm_compute|]].
  - unfold wf. rewrite Hh, Hb. split; [apply map_Forall_empty|apply set_Forall_empty].
  - apply (bool_decide_unpack _). by vm_compute.
Qed.

(** Then nothing helps. *)
Definition attempts : list command :=
  [CmdRemove; CmdInstall "my service"; CmdStart; CmdControl 35 Stop Stopped].

Definition command_text (cmd : command) : bool :=
  match cmd with CmdInstall desc => negb (has_nul desc) | _ => true end.

(** The commands one after the other, with their outcomes. *)
Fixpoint runs (nm : string) (cmds : list command) (s : st (H := CatalogWindows)) :
    option (list (command * out unit) * st (H := CatalogWindows)) :=
  match cmds with
  | [] => Some ([], s)
  | cmd :: cmds =>
    let '(o, s1) := run_command nm cmd s in
    if command_text cmd && (count undeleted s1 =? count undeleted s)%nat then
      (λ r, ((cmd, o) :: r.1, r.2)) <$> runs nm cmds s1
    else None
  end.

Lemma runs_sound nm cmds s r : runs nm cmds s = Some r → exec (tool_step nm) s r.1 r.2.
Proof.
  revert s r. induction cmds as [|cmd cmds IH]; intros s r; cbn [runs]; [intros [= <-]; constructor|].
  destruct (run_command nm cmd s) as [o s1] eqn:E.
  destruct (command_text cmd) eqn:Ht; [|done]. destruct (Nat.eqb_spec (count undeleted s1) (count undeleted s)); [|done].
  destruct (runs nm cmds s1) as [r1|] eqn:E1; [|done]. intros [= <-]. simpl.
  eapply exec_cons; [|by apply IH]. constructor; [|done|done].
  intros desc ->. simpl in Ht. by destruct (has_nul desc).
Qed.

Definition outcome := default ([], half_installed) (runs "myservice" attempts half_installed).

Lemma stuck_forever_witness :
  (installService "myservice" "my service" (demo_start half_way)).1
    = Err (ErrorString "SetupEventLogSource() failed: errno 5") ∧
  (is_err <$> outcome.1.*2) = [true; true; true; true] ∧
  here outcome.2 = here half_installed ∧ Forall (λ l, is_err l.2 = true) outcome.1.
Proof.
  split; [by vm_compute|]. split; [by vm_compute|].
  apply (stuck_forever _ demo_exe eq_refl "myservice" half_installed outcome.1 outcome.2 eq_refl half_installed_stuck).
  apply (runs_sound "myservice" attempts), succeeds_default. by vm_compute.
Defined.

(** A machine on which the service has been installed, and will be removed while Windows
    refuses to delete the key of its event source. *)
Definition half_gone : list bool := repeat false 16 ++ [true].
Definition installed_machine : st (H := CatalogWindows) :=
  after "myservice" (CmdInstall "my service") (demo_start half_gone).

Lemma installed_machine_wf : wf (here installed_machine).
Proof.
  assert (handles (here installed_machine) = ∅ ∧ busy (here installed_machine) = ∅) as [Hh Hb] by by vm_compute.
  unfold wf. rewrite Hh, Hb. split; [apply map_Forall_empty|apply set_Forall_empty].
Qed.

(** The installation that fails half-way, and the removal that does. *)
Ltac by_deciding := apply (bool_decide_unpack _); by vm_compute.

Lemma half_way_is_stuck_witness :
  stuck "myservice" (here half_installed) ∧
  (removeService "myservice" installed_machine).1
    = Err (ErrorString "RemoveEventLogSource() failed: errno 5") ∧
  stuck "myservice" (here (after "myservice" CmdRemove installed_machine)).
Proof.
  split; [|split; [by vm_compute|]].
  - destruct (half_way_is_stuck _ demo_exe eq_refl "myservice" "my service" (demo_start half_way)
      eq_refl eq_refl (demo_wf _)) as [Hin _].
    apply Hin; [by vm_compute..|by_deciding].
  - destruct (half_way_is_stuck _ demo_exe eq_refl "myservice" "my service" installed_machine
      eq_refl eq_refl installed_machine_wf) as [_ Hre].
    apply Hre; [by vm_compute|by_deciding..|by vm_compute|by_deciding].
Defined.
