(* ===== verification/EndToEnd.v ===== *)
(** * The tool and the service it controls

    Two programs of the repository meet in Windows: the command line tool asks the
    service control manager to stop the service and polls its status; the service
    is the process of SvcSystem with the example's handler. What the tool's exit
    status says about the other process follows from what the manager documents:
    the status it reports is one the service has told it. *)
From Stdlib Require Import ZArith Lia.
From stdpp Require Import base option list strings.
From S2P Require Import Prelude GoText Go WinConst Machine GoSyscall Script GoOs Winapi.
From S2P Require Import SvcEvent SvcService SvcAsm SvcSystem SvcProtocol ExampleService ExampleRuns.
From S2P Require Import ExampleEnd Settling MgrText Mgr Security Handles Rules ExampleManage ExampleMain.

Local Open Scope Z_scope.
Local Open Scope go_scope.

(** ** The tool

    What a client needs to know of the world: [gone] is final, and a status that
    says [Stopped] is not a lie. *)
Class Observed `{O : Os} (gone : world → Prop) := {
  call_keeps p w : gone w → gone (call p w).2;
  now_keeps w : gone w → gone (now w).2;
  sleep_keeps d w : gone w → gone (asleep d w);
  told_truth p w t :
    reported_status (Entry p (call p w).1) = Some t → ss_CurrentState t = Stopped →
    gone (call p w).2
}.

Section Client.
Context `{O : Os} (gone : world → Prop) `{!Observed gone}.

(** Every status of the trace that said [Stopped] was true, and still is. *)
Definition truthful (s : st) : Prop :=
  ∀ t, t ∈ ExampleManage.reported (st_trace s) → ss_CurrentState t = Stopped → gone (st_world s).

Lemma truthful_syscall p : preserves truthful (syscall p).
Proof.
  intros s Hs. apply wp_syscall. intros rep w' E t Ht Hst. cbn [st_world st_trace] in *.
  pose proof (call_keeps p (st_world s)) as Hk. pose proof (told_truth p (st_world s) t) as Ht'.
  rewrite E in Hk, Ht'. cbn [fst snd] in *.
  unfold ExampleManage.reported in Ht. rewrite omap_app in Ht.
  apply elem_of_app in Ht as [Ht|Ht]; [by apply Hk, (Hs t)|].
  apply Ht'; [|done]. cbn [omap list_omap] in Ht.
  destruct (reported_status (Entry p rep)); [|by apply not_elem_of_nil in Ht].
  by apply list_elem_of_singleton in Ht as ->.
Qed.

Lemma truthful_Now : preserves truthful Now.
Proof.
  intros s Hs. apply wp_Now. intros t w E t' Ht Hst. cbn [st_world st_trace] in *.
  pose proof (now_keeps (st_world s)) as Hk. rewrite E in Hk. by apply Hk, (Hs t').
Qed.
Lemma truthful_Sleep d : preserves truthful (Sleep d).
Proof. intros s Hs. apply wp_Sleep. intros t' Ht Hst. by apply sleep_keeps, (Hs t'). Qed.

#[local] Hint Resolve truthful_syscall truthful_Now truthful_Sleep : preserves.

Lemma truthful_check0 {p A} (r : reply p) (v : A) : preserves truthful (check0 r v).
Proof. unfold check0. preserving. Qed.
Lemma truthful_StringToUTF16Ptr x : preserves truthful (StringToUTF16Ptr x).
Proof. unfold StringToUTF16Ptr. preserving. Qed.
#[local] Hint Resolve truthful_check0 truthful_StringToUTF16Ptr : preserves.

Lemma truthful_controlService fuel nm c to : preserves truthful (controlService fuel nm c to).
Proof.
  unfold controlService, poll, Connect, ConnectRemote, OpenSCManager, Mgr_OpenService, OpenService,
    Control, ControlService, Query, QueryServiceStatus, Service_Close, Disconnect, CloseServiceHandle.
  preserving.
Qed.

Lemma truthful_group_loop i v n gs : preserves truthful (group_loop i v n gs).
Proof.
  revert gs. induction n as [|n IH]; intros [|g gs]; cbn [group_loop]; unfold EqualSid; preserving.
Qed.
#[local] Hint Resolve truthful_group_loop : preserves.

Lemma truthful_session : preserves truthful IsAnInteractiveSession.
Proof.
  unfold IsAnInteractiveSession, allocSid, AllocateAndInitializeSid, FreeSid,
    OpenCurrentProcessToken, Token_Close, getTokenGroups, getInfo, first_elem, GetTokenInformation.
  preserving.
Qed.

Lemma fresh_truthful w : truthful (fresh w).
Proof. by intros t Ht%not_elem_of_nil. Qed.

(** When it has seen the service stop, it has stopped. *)
Lemma controlService_stop `{HC : !Clock} fuel nm s :
  (35 ≤ fuel)%nat → truthful s →
  wp (controlService fuel nm Stop Stopped) (λ o s', is_ret o = true → gone (st_world s')) s.
Proof.
  intros Hf Hs. eapply wp_mono.
  { apply wp_and; [by apply (controlService_terminates fuel nm Stop Stopped)|by apply truthful_controlService]. }
  intros [[u|]|e|p] s' [(tr & Hm & _ & _ & _ & Ho) Ht]; try done. intros _.
  destruct Ho as (l & t & Hr & Hst & _). apply (Ht t); [|done].
  rewrite Hm. unfold ExampleManage.reported. rewrite omap_app. apply elem_of_app. right.
  change (t ∈ ExampleManage.reported tr). rewrite Hr. apply elem_of_app. right.
  by apply list_elem_of_singleton.
Qed.

End Client.

(** ** The service on the other side

    A world that contains the process of the example service: the process only moves
    by its own steps, and a status the service control manager reports is its
    initial [StartPending], one the service has set, or that of a process that has
    died. *)
Section Host.
Context `{O : Os} {Server : Windows} (servicectlhandler : Z) (table : list SERVICE_TABLE_ENTRY).

Abbreviation process := (sys (Win := Server) (Hand := MyHandler)).
Abbreviation moves := (step (Win := Server) (Hand := MyHandler) servicectlhandler table).

(** It is a process [Run] has started, before any status was set. *)
Definition is_service (s : process) : Prop :=
  ∃ o x t ls, reports (st_trace o) = [] ∧ exec moves (sys_init o x t) ls s.

Definition dead (s : process) : Prop := crash s ≠ None.

Class Hosts (service_at : @world H → process) := {
  hosts_service w : is_service (service_at w);
  call_moves p w : ∃ ls, exec moves (service_at w) ls (service_at (call p w).2);
  now_moves w : ∃ ls, exec moves (service_at w) ls (service_at (now w).2);
  sleep_moves d w : ∃ ls, exec moves (service_at w) ls (service_at (asleep d w));
  told_status p w t :
    reported_status (Entry p (call p w).1) = Some t →
    let s := service_at (call p w).2 in
    dead s ∨ ss_CurrentState t = StartPending ∨
    ∃ t', t' ∈ reports (st_trace (os s)) ∧ ss_CurrentState t' = ss_CurrentState t
}.

(** The service is over: it has reported its end, or the process has died. *)
Definition over_or_dead (s : process) : Prop := ended s ∨ dead s.

Lemma over_or_dead_exec s ls s' : over_or_dead s → exec moves s ls s' → over_or_dead s'.
Proof.
  intros [He|Hd] Hex; [left; by eapply ended_exec|right].
  revert Hex. apply (exec_invariant moves (λ _ s', dead s')); [done|].
  intros _ s1 l s2 Hd1 Hs. exfalso. apply Hd1. by inv Hs.
Qed.

#[export] Instance Hosts_Observed service_at `{!Hosts service_at} :
  Observed (λ w, over_or_dead (service_at w)).
Proof.
  split.
  - intros p w Hw. destruct (call_moves p w) as [ls Hls]. by eapply over_or_dead_exec.
  - intros w Hw. destruct (now_moves w) as [ls Hls]. by eapply over_or_dead_exec.
  - intros d w Hw. destruct (sleep_moves d w) as [ls Hls]. by eapply over_or_dead_exec.
  - intros p w t Ht Hst. destruct (told_status p w t Ht) as [Hd|[Hp|(t' & Hin & Ht')]];
      [by right|by rewrite Hp in Hst|].
    destruct (hosts_service (call p w).2) as (o & x & ti & ls & Ho & Hex).
    destruct (stopped_is_over _ _ _ _ _ _ _ Ho Hex) as (_ & _ & He). left. apply He.
    unfold told_stopped. rewrite Exists_exists. exists t'. split; [done|congruence].
Qed.

(** C11: what status 0 of [stop] means: the command line tool, run against a
    machine on which the example service runs, ends with status 0 only when the
    service is over: [Execute] is left, and [run] has reported the end to the
    service control manager; or the process has died. *)
Theorem stop_means_stopped service_at `{!Hosts service_at} `{HC : !Clock}
    a Stdout_Write debug_Run svcmain fuel prog arg rest s s1 :
  (35 ≤ fuel)%nat → st_trace s = [] → IsAnInteractiveSession s = (Ret true, s1) →
  Args = prog :: arg :: rest → ToLower arg = "stop" →
  wp (main a Stdout_Write debug_Run svcmain fuel) (λ o s',
    o = Ret (Some Returned) → over_or_dead (service_at (st_world s'))) s.
Proof.
  intros Hf Htr Hs Ha Hl. apply (wp_main_on_console _ _ _ _ _ _ _ _ Hs).
  unfold on_console. rewrite Ha. cbv zeta. rewrite Hl.
  destruct (control_command fuel "stop" Stop Stopped) as [_ Hc]; [by left|].
  rewrite bool_decide_false, Hc by done. apply wp_finish.
  assert (truthful (λ w, over_or_dead (service_at w)) s1) as Ht1.
  { pose proof (truthful_session (λ w, over_or_dead (service_at w)) s) as Ht. unfold wp in Ht.
    rewrite Hs in Ht. apply Ht. intros t. rewrite Htr. by intros Hin%not_elem_of_nil. }
  eapply wp_mono; [by apply (controlService_stop (λ w, over_or_dead (service_at w)))|].
  intros [[u|]|e|p] s2 Hg; try done. intros _. by apply Hg.
Qed.

End Host.

(** ** The two programs together

    A concrete machine: the example service of ExampleRuns on one side, which does
    what it has to do whenever the tool sleeps ([work_off]), and a manager that passes
    on controls and reports the last status set, or refuses controls and reports
    [Stopped] when the process has died. Its world is the time and the schedule of the
    service since it is running; labels that are not possible are skipped. *)

#[local] Existing Instance DemoWindows.
Abbreviation demo_process := (sys (Win := DemoWindows) (Hand := MyHandler)).
Abbreviation joint_world := (N * list (label (Win := DemoWindows)))%type.

Definition try_step (s : demo_process) (l : label) : demo_process := default s (demo_next s l).
Definition try_steps (s : demo_process) (ls : list label) : demo_process := fold_left try_step ls s.
Definition process_at (w : joint_world) : demo_process := try_steps demo_running w.2.

Definition goes_on (w : joint_world) (ls : list label) : joint_world := (w.1, w.2 ++ ls).

(** The status the manager knows. *)
Definition known_status (s : demo_process) : SERVICE_STATUS :=
  match crash s with
  | Some _ => service_status (status_of Stopped) no_error
  | None => default (service_status (status_of StartPending) no_error) (last (reports (st_trace (os s))))
  end.

Definition joint_reply (p : api) (w : joint_world) : reply p :=
  match p as q return reply q with
  | ControlServiceP h c =>
      @Answer (ControlServiceP h c) (if crash (process_at w) is Some _ then 0 else 1) 1062 (known_status (process_at w))
  | QueryServiceStatusP h => @Answer (QueryServiceStatusP h) 1 0 (known_status (process_at w))
  | p' => Answer 1 0 (sc_outs user_script p')
  end.

Definition joint_after (p : api) (w : joint_world) : joint_world :=
  match p with ControlServiceP _ c => goes_on w [LControl c 0 0 0] | _ => w end.

Definition JointWindows : Windows := {|
  world := joint_world;
  call := λ p w, (joint_reply p (joint_after p w), joint_after p w);
  new_callback := λ w, (inl 4096, w);
  argv_at := λ _ _, None
|}.

(** What the service does while the tool sleeps. *)
Definition rest_of (s : demo_process) : list label := (work_off 4096 demo_table (work_left s) s).1.
Definition joint_nap (d : Z) (w : joint_world) : joint_world :=
  let w' := goes_on w (rest_of (process_at w)) in ((w'.1 + Z.to_N d)%N, w'.2).

Definition JointOs : Os (H := JointWindows) :=
  env_os JointWindows {| env_args := ["tool"; "STOP"]; env_files := [] |} (λ w, Z.of_N w.1) joint_nap.

Lemma try_steps_exec s ls : ∃ ls', exec demo_step s ls' (try_steps s ls).
Proof.
  revert s. induction ls as [|l ls IH]; intros s; [exists []; constructor|].
  cbn [try_steps fold_left]. destruct (IH (try_step s l)) as [ls' Hls]. unfold try_step in *.
  destruct (demo_next s l) as [s1|] eqn:E; [|by exists ls'].
  exists (l :: ls'). eapply exec_cons; [by apply step_sound|exact Hls].
Qed.

Lemma try_steps_app s ls ls' : try_steps s (ls ++ ls') = try_steps (try_steps s ls) ls'.
Proof. apply fold_left_app. Qed.

Lemma goes_on_moves w ls :
  ∃ ls', exec demo_step (process_at w) ls' (process_at (goes_on w ls)).
Proof. unfold process_at, goes_on. cbn [snd]. rewrite try_steps_app. apply try_steps_exec. Qed.

Lemma joint_after_moves p w :
  ∃ ls', exec demo_step (process_at w) ls' (process_at (joint_after p w)).
Proof. destruct p; try (exists []; constructor). apply goes_on_moves. Qed.

Lemma joint_told p w t :
  reported_status (Entry p (joint_reply p w)) = Some t → t = known_status (process_at w).
Proof.
  destruct p; try done; cbn -[known_status process_at]; [|destruct (crash (process_at w))]; intros [= <-]; done.
Qed.

Definition JointHosts :
  Hosts (O := JointOs) (Server := DemoWindows) 4096 demo_table process_at.
Proof.
  split.
  - intros w. destruct (try_steps_exec demo_running w.2) as [ls Hls].
    exists demo_os, demo_sv, demo_tid, (ExampleRuns.demo_start ++ ls). split; [by vm_compute|].
    eapply exec_app; [exact demo_running_exec|exact Hls].
  - intros p w. apply joint_after_moves.
  - intros w. exists []. constructor.
  - intros d w. apply goes_on_moves.
  - intros p w t ->%joint_told. cbv zeta. change (@call JointWindows p w).2 with (joint_after p w).
    unfold dead, known_status. destruct (crash _) eqn:Hc; [by left|right].
    destruct (last _) as [t'|] eqn:E; [|by left]. right. exists t'. split; [|done]. by apply last_Some_elem_of.
Defined.

Definition JointClock : Clock (H0 := JointOs).
Proof.
  refine {| clock := λ w : @world JointWindows, Z.of_N w.1 |}.
  - intros w. simpl. lia.
  - intros d w Hd. simpl. lia.
  - intros p w. destruct p; simpl; lia.
Defined.

Definition joint_start : st (H := JointWindows) := fresh (H := JointWindows) (0%N, []).
Definition joint_checked : st (H := JointWindows) :=
  (IsAnInteractiveSession (H := JointWindows) joint_start).2.
Definition silent (text : string) : go (st (H := JointWindows)) unit := ret tt.
Definition joint_main := main (H0 := JointOs) AMD64 silent silent 8192 35.

Lemma joint_is_interactive :
  IsAnInteractiveSession (H := JointWindows) joint_start = (Ret true, joint_checked).
Proof.
  unfold joint_checked. rewrite (surjective_pairing (IsAnInteractiveSession joint_start)) at 1.
  apply (f_equal (λ o, (o, joint_checked))). by vm_compute.
Qed.

(** The tool succeeds, and the service is over. *)
Lemma stop_means_stopped_witness :
  (joint_main joint_start).1 = Ret (Some Returned) ∧
  pc (process_at (st_world (joint_main joint_start).2)) = RunDone ∧
  wp joint_main (λ o s', o = Ret (Some Returned) →
    over_or_dead (Server := DemoWindows) (process_at (st_world s'))) joint_start.
Proof.
  split; [by vm_compute|]. split; [by vm_compute|].
  apply (stop_means_stopped (O := JointOs) (Server := DemoWindows) 4096 demo_table process_at
    (Hosts0 := JointHosts) (HC := JointClock) AMD64 silent silent 8192 35 "tool" "STOP" [] joint_start joint_checked).
  - lia.
  - done.
  - apply joint_is_interactive.
  - done.
  - by vm_compute.
Defined.
