(* ===== verification/Responsive.v ===== *)
(** * The command [stop] succeeds

    EndToEnd says what status 0 of the command [stop] means; here it is shown that the
    command ends with it. The service does its part by itself (Settling): told to end,
    it comes to rest only when it is over. What the machine owes the two programs is
    the class [Responsive]: a control that is not refused reaches the service, the
    service gets to take its steps in time, its status can be queried. *)
From Stdlib Require Import ZArith Lia.
From stdpp Require Import base option list strings.
From S2P Require Import Prelude GoText Go WinConst Machine GoSyscall Script GoOs Winapi.
From S2P Require Import SvcEvent SvcService SvcAsm SvcSystem SvcProtocol ExampleService ExampleRuns.
From S2P Require Import ExampleEnd Settling MgrText Mgr Resources Security Handles Rules ExampleManage ExampleMain.
From S2P Require Import EndToEnd.

Local Open Scope Z_scope.
Local Open Scope go_scope.

(** ** The service *)
Section Doomed.
Context {Server : Windows} (servicectlhandler : Z) (table : list SERVICE_TABLE_ENTRY).
Abbreviation process := (sys (Win := Server) (Hand := MyHandler)).
Abbreviation moves := (step (Win := Server) (Hand := MyHandler) servicectlhandler table).
Implicit Types s : process.

(** It will be over, or has died. *)
Definition doomed s : Prop := coming s ∨ dead s.

Lemma dead_exec s ls s' : dead s → exec moves s ls s' → s' = s.
Proof.
  intros Hd. apply (exec_invariant moves (λ _ s', s' = s)); [done|].
  intros _ s1 l s2 -> Hs. exfalso. apply Hd. by inv Hs.
Qed.

Lemma doomed_exec s ls s' : wf s → doomed s → exec moves s ls s' → doomed s'.
Proof.
  intros Hw [Hc|Hd] Hex; [left; by eapply coming_exec|right]. by rewrite (dead_exec _ _ _ Hd Hex).
Qed.

Lemma service_sound s : is_service servicectlhandler table s → sound s.
Proof.
  intros (o & x & t & ls & _ & Hex). apply (reachable_sound servicectlhandler table o x t). by exists ls.
Qed.

(** The control has arrived somewhere on the way. *)
Lemma arrives_doomed s ls s' c ev data x :
  wf s → exec moves s ls s' → LControl c ev data x ∈ ls → ends_service c → doomed s'.
Proof.
  intros Hw Hex Hin Hc. left. revert Hin.
  apply (exec_invariant moves (λ ls s', wf s' ∧ (LControl c ev data x ∈ ls → coming s'))) in Hex;
    [apply Hex|split; [done|by intros ?%not_elem_of_nil]|].
  intros ls1 s1 l s2 [Hw1 Hi] Hs. split; [by eapply step_wf|]. intros [Hin|Hl]%elem_of_app.
  - eapply coming_step; [done|by apply Hi|done].
  - apply list_elem_of_singleton in Hl as <-. inv Hs.
    match goal with E : ctlHandler _ _ _ _ _ _ = (Ret ?e, _) |- _ =>
      apply (fatal_coming _ e); [apply elem_of_app; right; by apply list_elem_of_singleton|];
      right; by rewrite (ctlHandler_cmd _ _ _ _ _ _ _ _ E) end.
Qed.

(** Where the state [Stopped] can be read. *)
Definition stopped_visibly s : Prop :=
  dead s ∨ ∃ t, last (reports (st_trace (os s))) = Some t ∧ ss_CurrentState t = Stopped.

Lemma doomed_rest s :
  is_service servicectlhandler table s → doomed s → at_rest s → (pc s ≠ RunWait → h (sv s) ≠ 0) →
  stopped_visibly s.
Proof.
  intros Hsv [Hc|Hd]; [|by left]. intros [Hr|[Hr|Hr]] Hh; [by left| |by destruct (coming_not_idle s)].
  right. destruct Hsv as (o & x & t & ls & Ho & Hex).
  destruct (told_ok_exec _ _ _ _ _ _ _ Hex) as [_ Ht].
  destruct (final_last_exec _ _ _ _ _ _ _ Hex) as [_ Hf]. rewrite Hr in *.
  destruct Hf as (ec & _ & Hl). rewrite Ht, last_app, Hl by by apply Hh.
  eexists. split; [done|]. unfold service_status. by destruct (if ec_errno ec =? 0 then _ else _).
Qed.
End Doomed.

(** ** The machine *)
Section Responsive.
Context {Server : Windows} `{O : Os} (servicectlhandler : Z) (table : list SERVICE_TABLE_ENTRY).
Context (service_at : @world H → sys (Win := Server) (Hand := MyHandler)).
Local Abbreviation moves := (step (Win := Server) (Hand := MyHandler) servicectlhandler table).

(** [due w] is a time by which the service will have come to rest, when it is left
    to itself. *)
Class Responsive `{!Hosts servicectlhandler table service_at} `{!Clock} := {
  due : @world H → Z;
  passes_control hd c (w : @world H) :
    r_ret (call (ControlServiceP hd c) w).1 ≠ 0 →
    ∃ ls ev data x, LControl c ev data x ∈ ls ∧
      exec moves (service_at w) ls (service_at (call (ControlServiceP hd c) w).2);
  control_due hd c (w : @world H) :
    due (call (ControlServiceP hd c) w).2 <= clock (call (ControlServiceP hd c) w).2 + 9 * Second;
  call_due p (w : @world H) : control_sent (Entry p (call p w).1) = None → due (call p w).2 <= due w;
  now_due (w : @world H) : due (now w).2 <= due w;
  sleep_due d (w : @world H) : due (asleep d w) <= due w;
  due_rests (w : @world H) : due w <= clock w → at_rest (service_at w);
  answers_query hd (w : @world H) : r_ret (call (QueryServiceStatusP hd) w).1 ≠ 0;
  known_stopped hd (w : @world H) :
    stopped_visibly (service_at (call (QueryServiceStatusP hd) w).2) →
    ss_CurrentState (r_out (call (QueryServiceStatusP hd) w).1) = Stopped;
  has_handle (w : @world H) : pc (service_at w) ≠ RunWait → h (sv (service_at w)) ≠ 0;
  prompt (w : @world H) : clock (now w).2 <= clock w + Second
}.

(** A control has not been refused. *)
Definition passed (en : entry) : bool :=
  match en with Entry (ControlServiceP _ _) rep => negb (r_ret rep =? 0) | _ => false end.

Context `{HH : !Hosts servicectlhandler table service_at} `{HC : !Clock} `{HR : !Responsive}.

Abbreviation over_at w := (over_or_dead (service_at w)).
Abbreviation doomed_at w := (doomed (service_at w)).

Lemma service_wf w : wf (service_at w).
Proof. exact (proj1 (proj1 (service_sound _ _ _ (hosts_service servicectlhandler table w)))). Qed.

Lemma doomed_call p w : doomed_at w → doomed_at (call p w).2.
Proof.
  intros Hd. destruct (call_moves servicectlhandler table p w) as [ls Hls].
  eapply doomed_exec; [|exact Hd|exact Hls]. apply service_wf.
Qed.
Lemma doomed_now w : doomed_at w → doomed_at (now w).2.
Proof.
  intros Hd. destruct (now_moves servicectlhandler table w) as [ls Hls].
  eapply doomed_exec; [|exact Hd|exact Hls]. apply service_wf.
Qed.
Lemma doomed_sleep d w : doomed_at w → doomed_at (asleep d w).
Proof.
  intros Hd. destruct (sleep_moves servicectlhandler table d w) as [ls Hls].
  eapply doomed_exec; [|exact Hd|exact Hls]. apply service_wf.
Qed.

(** The state of the tool's loop after [t0]: it knows that the service is over, or
    it is not yet time. *)
Definition waiting (t0 : Z) (status : Status) (s : st) : Prop :=
  doomed_at (st_world s) ∧ due (st_world s) <= t0 + 9 * Second ∧
  (if State status =? Stopped then over_at (st_world s) else clock (st_world s) <= t0 + 9 * Second).

Lemma poll_waits sv t0 status s :
  waiting t0 status s →
  wp (poll sv Stopped (t0 + 10 * Second) status) (λ o s', match o with
    | Ret (inl status') => waiting t0 status' s'
    | Ret (inr _) => over_at (st_world s')
    | _ => False
    end) s.
Proof.
  intros (Hd & Hdue & Hst). unfold poll. destruct (State status =? Stopped); [by wp_go|].
  apply wp_bind, wp_Now. intros t w E.
  pose proof (now_clock (st_world s)) as Hn. pose proof (prompt (st_world s)) as Hp.
  pose proof (doomed_now _ Hd) as Hd1. pose proof (now_due (st_world s)) as Hdue1.
  rewrite E in *. cbn [fst snd] in *.
  destruct (Z.ltb_spec (t0 + 10 * Second) t) as [Hlt|_]; [lia|].
  apply wp_bind, wp_Sleep. cbn [st_world st_trace st_vars].
  apply wp_bind, wp_attempt. wp_call (Query_one_call sv) as rep w' E'. cbn [st_world st_trace st_vars] in *.
  set (w1 := asleep (300 * Millisecond) w) in *.
  pose proof (answers_query (Handle sv) w1) as Ha. pose proof (known_stopped (Handle sv) w1) as Hk.
  pose proof (doomed_call (QueryServiceStatusP (Handle sv)) w1 (doomed_sleep _ _ Hd1)) as Hd2.
  pose proof (call_due (QueryServiceStatusP (Handle sv)) w1 eq_refl) as Hdue2.
  pose proof (sleep_due (300 * Millisecond) w) as Hdue3.
  pose proof (told_truth (QueryServiceStatusP (Handle sv)) w1 (r_out rep)) as Htruth.
  rewrite E' in *. cbn [fst snd] in *. fold w1 in Hdue3.
  unfold unless_failed. rewrite (proj2 (Z.eqb_neq _ _) Ha). wp_go.
  split_and!; [done|cbn [st_world]; lia|]. cbn [State st_world to_status].
  destruct (Z.eqb_spec (ss_CurrentState (r_out rep)) Stopped) as [Hs|Hs].
  { apply Htruth; [|done]. cbn. by rewrite (proj2 (Z.eqb_neq _ _) Ha). }
  destruct (Z.le_gt_cases (due w') (clock w')) as [Hle|Hlt]; [|lia].
  destruct Hs. apply Hk. apply (doomed_rest servicectlhandler table); try done.
  - apply (hosts_service servicectlhandler table).
  - by apply due_rests.
  - apply has_handle.
Qed.

(** What the tool has got when the control was not refused. *)
Definition obeyed (s : st) (o : out (option unit)) (s' : st) : Prop :=
  ∃ tr, makes s s' tr ∧ (existsb passed tr = true →
    match o with Ret (Some _) => over_at (st_world s') | Ret None => True | _ => False end).

Lemma obeyed_close s o s1 hd rep w' :
  obeyed s o s1 → call (CloseServiceHandleP hd) (st_world s1) = (rep, w') →
  obeyed s o (St w' (st_trace s1 ++ [Entry (CloseServiceHandleP hd) rep]) (st_vars s1)).
Proof.
  intros (tr & Hm & Ho) E. exists (tr ++ [Entry _ rep]). split; [by apply makes_snoc|].
  rewrite existsb_app. simpl. rewrite orb_false_r. intros Hp. specialize (Ho Hp). destruct o as [[u|]|e|p]; try done.
  destruct (call_moves servicectlhandler table (CloseServiceHandleP hd) (st_world s1)) as [ls Hls].
  rewrite E in Hls. by eapply over_or_dead_exec.
Qed.

Lemma obeyed_early s o s1 tr : makes s s1 tr → existsb passed tr = false → obeyed s o s1.
Proof. intros Hm Hp. exists tr. split; [done|]. by rewrite Hp. Qed.

(** The control has been passed on, and the time is taken. *)
Lemma told_waits hd w w1 w2 rep t tr v :
  call (ControlServiceP hd Stop) w = (rep, w1) → (r_ret rep =? 0) = false → now w1 = (t, w2) →
  waiting t (to_status (r_out rep)) (St w2 tr v).
Proof.
  intros E Hr En. apply Z.eqb_neq in Hr as Hne.
  pose proof (passes_control hd Stop w) as Hpass. pose proof (control_due hd Stop w) as Hdue.
  pose proof (told_truth (ControlServiceP hd Stop) w (r_out rep)) as Htruth.
  pose proof (now_clock w1) as Hn. pose proof (prompt w1) as Hp. pose proof (now_due w1) as Hd.
  pose proof (doomed_now w1) as Hdoom. pose proof (now_moves servicectlhandler table w1) as [ls Hls].
  rewrite E, En in *. cbn [fst snd] in *.
  change (9 * Second) with 9000000000 in *. change Second with 1000000000 in *.
  unfold waiting. change (9 * Second) with 9000000000. cbn [st_world]. split_and!.
  - apply Hdoom. destruct (Hpass Hne) as (ls' & ev & data & x & Hin & Hex).
    eapply arrives_doomed; [apply service_wf|exact Hex|exact Hin|by left].
  - lia.
  - cbn [State to_status]. destruct (Z.eqb_spec (ss_CurrentState (r_out rep)) Stopped) as [Hs|Hs]; [|lia].
    eapply over_or_dead_exec; [|exact Hls]. apply Htruth; [|done]. cbn. by rewrite Hr.
Qed.

Lemma poll_makes sv to timeout status s :
  wp (poll sv to timeout status) (λ _ s', ∃ tr, makes s s' tr) s.
Proof.
  assert (calls_only (λ _, true) (poll sv to timeout status)) as Hc.
  { unfold poll, Query, QueryServiceStatus. calls_of_kind. }
  eapply wp_mono; [apply Hc|]. intros o s' (tr & Hm & _). by exists tr.
Qed.

Lemma controlService_obeyed fuel nm s :
  wp (controlService fuel nm Stop Stopped) (obeyed s) s.
Proof.
  unfold controlService.
  apply wp_bind. wp_call Connect_one_call as rep1 w1 E1.
  unfold unless_failed at 1. destruct (r_ret rep1 =? 0); [by eapply obeyed_early|].
  apply (wp_closing _ _ _ _ _ (Disconnect_one_call _)); [intros; by apply obeyed_close|].
  apply wp_bind, wp_attempt. destruct (has_nul nm) eqn:Hn.
  { unfold Mgr_OpenService. apply wp_bind, wp_StringToUTF16Ptr; [congruence|intros _]. by eapply obeyed_early. }
  wp_call (OpenService_one_call _ _ Hn) as rep2 w2 E2. cbn [st_world st_trace st_vars] in *.
  unfold unless_failed at 1. destruct (r_ret rep2 =? 0).
  { wp_go. eapply (obeyed_early _ _ _ [_; _]); [by unfold makes; cbn; rewrite <- app_assoc|done]. }
  apply (wp_closing _ _ _ _ _ (Service_Close_one_call _)); [intros; by apply obeyed_close|].
  cbn [Handle]. apply wp_bind, wp_attempt. wp_call Control_one_call as rep3 w3 E3.
  cbn [st_world st_trace st_vars Handle] in *.
  match goal with |- context [Entry (ControlServiceP ?h ?c) rep3] =>
    set (hd := h) in *; set (tr := [Entry _ rep1; Entry _ rep2; Entry (ControlServiceP hd c) rep3]) end.
  unfold unless_failed. destruct (r_ret rep3 =? 0) eqn:Hr; wp_go.
  { eapply (obeyed_early _ _ _ tr); [by unfold makes; cbn; rewrite <- !app_assoc|].
    unfold tr. cbn. by rewrite Hr. }
  apply wp_Now. intros t w4 E4. cbn [st_world st_trace st_vars].
  assert (waiting t (to_status (r_out rep3)) (St w4 (st_trace s ++ tr) (st_vars s))) as Hwait
    by by apply (told_waits hd w2 w3 w4 rep3 t).
  apply (wp_forever_partial (λ status s1, (∃ tr, makes s s1 tr) ∧ waiting t status s1)).
  - intros status s1 [[tr1 Hm1] Hw]. eapply wp_mono.
    { apply wp_and; [by apply (poll_waits (Build_Service nm hd) t status)|apply poll_makes]. }
    intros o s2 [Ho [tr2 Hm2]]. assert (makes s s2 (tr1 ++ tr2)) as Hm by by eapply makes_trans.
    destruct o as [[status'|u]|e|p]; try done; [by split; [eexists|]|by eexists].
  - intros status s1 [[tr1 Hm1] _]. by exists tr1.
  - split; [|by rewrite <- !app_assoc]. exists tr. by unfold makes; cbn; rewrite <- !app_assoc.
Qed.

(** C14: stop works: once the service control manager has passed the control [Stop] on to
    the example service, the command line tool's command [stop] ends with status 0,
    and the service is over; on a machine on which the service gets to take the few
    steps it needs within nine seconds, its status can be queried, and the tool is
    not held up for more than a second between two of its calls. *)
Theorem stop_succeeds a Stdout_Write debug_Run svcmain fuel prog arg rest s s1 :
  (35 ≤ fuel)%nat → IsAnInteractiveSession s = (Ret true, s1) →
  Args = prog :: arg :: rest → ToLower arg = "stop" →
  wp (main a Stdout_Write debug_Run svcmain fuel) (λ o s', ∃ tr, makes s1 s' tr ∧
    (existsb passed tr = true → o = Ret (Some Returned) ∧ over_at (st_world s'))) s.
Proof.
  intros Hf Hs Ha Hl. apply (wp_main_on_console _ _ _ _ _ _ _ _ Hs).
  unfold on_console. rewrite Ha. cbv zeta. rewrite Hl.
  destruct (control_command fuel "stop" Stop Stopped) as [_ Hc]; [by left|].
  rewrite bool_decide_false, Hc by done. apply wp_finish.
  eapply wp_mono.
  { apply wp_and; [by apply (controlService_terminates fuel svcName Stop Stopped)|apply controlService_obeyed]. }
  intros [[[]|]|e|p] s2 [(tr0 & _ & _ & _ & _ & Hret) (tr & Hm & Ho)]; try done;
    (exists tr; split; [done|]; intros Hp; by specialize (Ho Hp)).
Qed.

End Responsive.

(** ** The machine of EndToEnd is such a machine *)
#[local] Existing Instance DemoWindows.

Definition restless (s : demo_process) : bool :=
  match crash s with
  | Some _ => false
  | None => match todo s with Some _ => true | None => false end
  end.

Definition joint_due (w : joint_world) : Z :=
  if restless (process_at w) then Z.of_N w.1 + 1 else 0.

Lemma work_off_steps n s :
  try_steps s (work_off 4096 demo_table n s).1 = (work_off 4096 demo_table n s).2.
Proof.
  revert s. induction n as [|n IH]; intros s; [done|]. cbn [work_off].
  destruct (todo s) as [l|]; [|done]. destruct (demo_next s l) as [s1|] eqn:E; [|done].
  specialize (IH s1). destruct (work_off _ _ n s1) as [ls s']. cbn [fst snd try_steps fold_left] in *.
  unfold try_step at 2. by rewrite E.
Qed.

Lemma joint_sound w : sound (process_at w).
Proof. exact (service_sound _ _ _ (hosts_service (Hosts := JointHosts) 4096 demo_table w)). Qed.

Lemma restless_rest s : sound s → restless s = false ↔ at_rest s.
Proof.
  intros Hs. unfold restless. destruct (crash s) eqn:Hc.
  - split; [|done]. intros _. left. by rewrite Hc.
  - split.
    + destruct (todo s) eqn:Ht; [done|]. intros _. right. by apply todo_none.
    + intros Hr. by rewrite rest_todo.
Qed.

Lemma nap_rests d w : restless (process_at (joint_nap d w)) = false.
Proof.
  apply restless_rest; [apply joint_sound|]. unfold joint_nap, goes_on, process_at. cbn [snd].
  rewrite try_steps_app. fold (process_at w). unfold rest_of. rewrite work_off_steps.
  by apply work_off_rests; [apply joint_sound|].
Qed.

Lemma joint_passes c w :
  crash (process_at w) = None →
  exec demo_step (process_at w) [LControl c 0 0 0] (process_at (goes_on w [LControl c 0 0 0])).
Proof.
  intros Hc. unfold process_at, goes_on. cbn [snd]. rewrite try_steps_app. fold (process_at w).
  destruct (ctlHandler_sends (tid (process_at w)) c 0 0 0 (os (process_at w))) as (e & o & E).
  apply exec_one. pose proof (step_control 4096 demo_table _ _ _ _ _ _ _ Hc E) as Hs.
  cbn [try_steps fold_left]. unfold try_step. by rewrite (step_complete _ _ _ _ _ Hs).
Qed.

Lemma joint_visibly w :
  stopped_visibly (process_at w) → ss_CurrentState (known_status (process_at w)) = Stopped.
Proof.
  unfold stopped_visibly, dead, known_status. intros [Hd|(t & Hl & Ht)].
  - by destruct (crash (process_at w)).
  - rewrite Hl. by destruct (crash (process_at w)).
Qed.

Lemma joint_alive w ls : ¬ dead (process_at (goes_on w ls)) → crash (process_at w) = None.
Proof.
  intros Hd. destruct (crash (process_at w)) as [p|] eqn:Hc; [|done]. destruct Hd.
  assert (dead (process_at w)) as Hd by (unfold dead; by rewrite Hc).
  destruct (goes_on_moves w ls) as [ls' Hls]. by rewrite (dead_exec _ _ _ _ _ Hd Hls).
Qed.

Definition JointResponsive :
  Responsive (O := JointOs) 4096 demo_table process_at (Hosts0 := JointHosts) (H0 := JointClock).
Proof.
  refine {| due := joint_due : @world JointWindows → Z |}.
  - intros hd c w Hr. exists [LControl c 0 0 0], 0, 0, 0.
    split; [by apply list_elem_of_singleton|]. apply joint_passes.
    apply (joint_alive _ [LControl c 0 0 0]). intros Hd. apply Hr. unfold dead in Hd.
    change ((if crash (process_at (goes_on w [LControl c 0 0 0])) is Some _ then 0 else 1) = 0).
    by destruct (crash _).
  - intros hd c w. change (9 * Second) with 9000000000. unfold joint_due. cbn.
    destruct (restless _); lia.
  - intros p w. by destruct p.
  - done.
  - intros d w. unfold joint_due. change (@asleep JointWindows JointOs d w) with (joint_nap d w).
    rewrite nap_rests. destruct (restless _); lia.
  - intros w. unfold joint_due. cbn. destruct (restless _) eqn:E; [lia|]. intros _.
    apply restless_rest; [apply joint_sound|done].
  - done.
  - intros hd w. apply joint_visibly.
  - intros w _. destruct (try_steps_exec demo_running w.2) as [ls Hls].
    apply exec_sv in Hls as [E _]; [|by vm_compute]. change (process_at w) with (try_steps demo_running w.2).
    rewrite E. by vm_compute.
  - intros w. change Second with 1000000000. cbn. lia.
Defined.

(** The control is passed on, and the tool succeeds. *)
Lemma stop_succeeds_witness :
  existsb passed (st_trace (joint_main joint_start).2) = true ∧
  wp joint_main (λ o s', ∃ tr, makes joint_checked s' tr ∧
    (existsb passed tr = true → o = Ret (Some Returned) ∧
       over_or_dead (Server := DemoWindows) (process_at (st_world s')))) joint_start.
Proof.
  split; [by vm_compute|].
  apply (stop_succeeds (O := JointOs) (Server := DemoWindows) 4096 demo_table process_at
    (HH := JointHosts) (HC := JointClock) (HR := JointResponsive) AMD64 silent silent 8192 35
    "tool" "STOP" [] joint_start joint_checked).
  - lia.
  - apply joint_is_interactive.
  - done.
  - by vm_compute.
Defined.
